(** * McTavish runtime core: a shallow embedding and its verified properties

    The development follows the TypeScript sources component by component:
    the memory graph store, the premonition matcher, the interaction binding
    logic, the collapse engine, the character kernel and the runtime that
    wires them.

    Conventions of the embedding.
    - JavaScript numbers are exact rationals ([Q]) where the code computes
      weights, scores and probabilities, and integers ([Z]) where it counts
      turns, attempts and milliseconds.
    - A JavaScript [Map] is an association list in insertion order, with the
      operations of [Js.oget], [Js.oset] and [Js.odelete]; a plain object
      used as a string-keyed record of numbers (the tone distribution) is the
      same structure, kept in a heap of objects so that two profiles may hold
      the same object.
    - A method that may throw, mutates its receiver and emits events is a
      function from the state to an outcome, the state it leaves behind and
      the events it emitted, in the order of emission.
    - Calls of [uuidv4()] and [Date.now()] take their result as an extra
      argument; in the runtime, where the number of calls depends on the
      values drawn, they read an environment. *)

From Stdlib Require Import QArith Qminmax Qround ZArith String Ascii List Lia Lqa Bool.
From stdpp Require Import base strings gmap.
Import ListNotations.

Set Implicit Arguments.
Open Scope Z_scope.
Open Scope Q_scope.
Open Scope string_scope.
Open Scope list_scope.

(** ** JavaScript runtime: control, maps and strings *)
Module Js.

(** What [new Error(...)] is thrown with, by the place that throws it. *)
Inductive Error : Type :=
| MissingEndpoint                       (* "Cannot create edge: one or both nodes do not exist" *)
| CannotFork (nodeId : string)          (* "Cannot fork: node ... does not exist" *)
| CharacterNotFound (characterId : string).

Inductive Outcome (A : Type) : Type :=
| Returned (a : A)
| Threw (e : Error).
Arguments Returned {A} a.
Arguments Threw {A} e.

(** A computation over a receiver of type [S] that emits events of type
    [E]: outcome, final state, emitted events. The state after a throw is
    the state at the point of the throw. *)
Definition M (S E A : Type) : Type := S -> Outcome A * S * list E.

Definition ret {S E A} (a : A) : M S E A := fun s => (Returned a, s, []).

Definition bind {S E A B} (m : M S E A) (k : A -> M S E B) : M S E B :=
  fun s =>
    match m s with
    | (Returned a, s1, ev1) =>
        match k a s1 with
        | (o, s2, ev2) => (o, s2, ev1 ++ ev2)
        end
    | (Threw e, s1, ev1) => (Threw e, s1, ev1)
    end.

Definition throw {S E A} (e : Error) : M S E A := fun s => (Threw e, s, []).
Definition get {S E} : M S E S := fun s => (Returned s, s, []).
Definition modify {S E} (f : S -> S) : M S E unit := fun s => (Returned tt, f s, []).
Definition emit {S E} (e : E) : M S E unit := fun s => (Returned tt, s, [e]).

(** [for (const x of xs) body(x)] *)
Fixpoint forOf {S E A} (xs : list A) (body : A -> M S E unit) : M S E unit :=
  match xs with
  | [] => ret tt
  | x :: rest => bind (body x) (fun _ => forOf rest body)
  end.

Definition outcome {S E A} (r : Outcome A * S * list E) : Outcome A := fst (fst r).
Definition final {S E A} (r : Outcome A * S * list E) : S := snd (fst r).
Definition emitted {S E A} (r : Outcome A * S * list E) : list E := snd r.

Definition returned {A} (o : Outcome A) : bool :=
  match o with Returned _ => true | Threw _ => false end.

(** *** Insertion-ordered maps ([Map], and objects with string keys) *)
Section OMap.
Context {K V : Type} `{EqDecision K}.

Fixpoint oget (k : K) (m : list (K * V)) : option V :=
  match m with
  | [] => None
  | (k', v) :: rest => if decide (k' = k) then Some v else oget k rest
  end.

Definition ohas (k : K) (m : list (K * V)) : bool :=
  match oget k m with Some _ => true | None => false end.

(** [m.set(k, v)]: an existing key keeps its place, a new one goes last. *)
Fixpoint oset (k : K) (v : V) (m : list (K * V)) : list (K * V) :=
  match m with
  | [] => [(k, v)]
  | (k', v') :: rest =>
      if decide (k' = k) then (k, v) :: rest else (k', v') :: oset k v rest
  end.

(** In-place mutation of the object stored under [k]. *)
Definition oupdate (k : K) (f : V -> V) (m : list (K * V)) : list (K * V) :=
  List.map (fun kv => if decide (fst kv = k) then (fst kv, f (snd kv)) else kv) m.

Definition odelete (k : K) (m : list (K * V)) : list (K * V) :=
  List.filter (fun kv => negb (bool_decide (fst kv = k))) m.

Definition okeys (m : list (K * V)) : list K := List.map fst m.
Definition ovalues (m : list (K * V)) : list V := List.map snd m.
End OMap.

(** *** Strings (ASCII texts) *)

(** The ASCII part of the class [\s]. *)
Definition isSpace (c : ascii) : bool :=
  let n := nat_of_ascii c in
  ((9 <=? n) && (n <=? 13))%nat || (n =? 32)%nat.

Definition lowerChar (c : ascii) : ascii :=
  let n := nat_of_ascii c in
  if ((65 <=? n) && (n <=? 90))%nat then ascii_of_nat (n + 32) else c.

Fixpoint toLowerCase (s : string) : string :=
  match s with
  | EmptyString => EmptyString
  | String c rest => String (lowerChar c) (toLowerCase rest)
  end.

Fixpoint trimStart (s : string) : string :=
  match s with
  | EmptyString => EmptyString
  | String c rest => if isSpace c then trimStart rest else s
  end.

Fixpoint rev_string (acc s : string) : string :=
  match s with
  | EmptyString => acc
  | String c rest => rev_string (String c acc) rest
  end.

Definition trim (s : string) : string :=
  rev_string "" (trimStart (rev_string "" (trimStart s))).

(** [s.split(/\s+/)]: [cur] is the token being read, reversed; [inRun]
    says that the previous character was a separator. *)
Fixpoint split_go (cur : string) (inRun : bool) (s : string) : list string :=
  match s with
  | EmptyString => [rev_string "" cur]
  | String c rest =>
      if isSpace c
      then (if inRun then split_go cur true rest
            else rev_string "" cur :: split_go "" true rest)
      else split_go (String c cur) false rest
  end.

Definition splitSpaces (s : string) : list string := split_go "" false s.

(** [text.includes(sub)] *)
Fixpoint includes (text sub : string) : bool :=
  String.prefix sub text ||
  match text with
  | EmptyString => false
  | String _ rest => includes rest sub
  end.

(** [new Set(words)], in insertion order. *)
Fixpoint newSet (words : list string) (acc : list string) : list string :=
  match words with
  | [] => acc
  | w :: rest =>
      if existsb (String.eqb w) acc then newSet rest acc
      else newSet rest (acc ++ [w])
  end.

Definition setHas (s : list string) (w : string) : bool := existsb (String.eqb w) s.

(** A value used as a condition. *)
Definition truthyString (s : string) : bool := negb (String.eqb s "").
Definition truthyOpt (o : option string) : bool :=
  match o with Some s => truthyString s | None => false end.

End Js.

Notation "'let*' x ':=' m 'in' k" := (Js.bind m (fun x => k))
  (at level 10, x name, m at level 100, k at level 200).
Notation "'exec' m 'in' k" := (Js.bind m (fun _ => k))
  (at level 10, m at level 100, k at level 200).

(** ** types.ts *)

Inductive Source : Type := user | system.

Record EmotionalState : Type := mkEmotionalState {
  dominant : string;
  secondary : option string;
  intensity : Q;
  stability : Q
}.

Record BindingCriteria : Type := mkBindingCriteria {
  contentSimilarity : Q;
  emotionalAlignment : Q;
  keywords : option (list string)
}.

(** The values the code stores in a [Record<string, any>]. *)
Inductive MetaValue : Type :=
| MStr (s : string)
| MNum (q : Q)
| MInt (z : Z)
| MBool (b : bool)
| MEmotion (e : EmotionalState)
| MCriteria (c : BindingCriteria).

Definition Metadata : Type := list (string * MetaValue).

Definition truthy (v : MetaValue) : bool :=
  match v with
  | MStr s => Js.truthyString s
  | MNum q => negb (Qeq_bool q 0)
  | MInt z => negb (Z.eqb z 0)
  | MBool b => b
  | MEmotion _ | MCriteria _ => true
  end.

(** [{ ...a, ...b }] on two records of metadata. *)
Definition spread (a b : Metadata) : Metadata :=
  fold_left (fun acc kv => Js.oset (fst kv) (snd kv) acc) b a.

Definition spreadOpt (a : Metadata) (b : option Metadata) : Metadata :=
  match b with Some m => spread a m | None => a end.

Record FractureEvent : Type := mkFracture {
  fr_id : string;
  fr_content : string;
  fr_timestamp : Z;
  fr_source : Source;
  fr_metadata : option Metadata
}.

Record RecursionFold : Type := mkFold {
  fold_id : string;
  fold_content : string;
  fold_timestamp : Z;
  fold_characterId : string;
  fold_fractureEventId : option string;
  fold_emotionalState : EmotionalState;
  fold_metadata : option Metadata
}.

(** [Premonition extends RecursionFold]. *)
Record Premonition : Type := mkPremonition {
  prem_fold : RecursionFold;
  validityWindow : Z;
  bindingCriteria : BindingCriteria
}.

Definition prem_id (p : Premonition) : string := fold_id (prem_fold p).
Definition prem_content (p : Premonition) : string := fold_content (prem_fold p).

Inductive NodeType : Type := fracture | fold | memory | premonition.
Inductive EdgeType : Type := causality | emotional | divergence | contradiction.

Definition NodeType_eqb (a b : NodeType) : bool :=
  match a, b with
  | fracture, fracture | fold, fold | memory, memory | premonition, premonition => true
  | _, _ => false
  end.

Definition EdgeType_eqb (a b : EdgeType) : bool :=
  match a, b with
  | causality, causality | emotional, emotional
  | divergence, divergence | contradiction, contradiction => true
  | _, _ => false
  end.

Definition edgeTypeName (t : EdgeType) : string :=
  match t with
  | causality => "causality"
  | emotional => "emotional"
  | divergence => "divergence"
  | contradiction => "contradiction"
  end.

Record MemoryNode : Type := mkNode {
  node_id : string;
  node_type : NodeType;
  node_content : string;
  node_timestamp : Z;
  node_metadata : option Metadata
}.

Record MemoryEdge : Type := mkEdge {
  source : string;
  target : string;
  type : EdgeType;
  weight : Q;
  metadata : option Metadata
}.

Record McTavishConfig : Type := mkConfig {
  defaultCollapseThreshold : Q;
  premonitionValidityWindow : Z;
  mutationRate : Q;
  emotionalMemoryWeight : Q;
  contradictionTolerance : Q
}.

(** [a < b] on numbers. *)
Definition Qlt_bool (a b : Q) : bool := negb (Qle_bool b a).

(** ** The graphlib dependency

    [Graph] is the graph of the graphlib package, which the store keeps next
    to its own maps and creates with [new Graph({ directed: true })]: a
    directed graph that is not a multigraph. The package is not part of the
    repository; the operations below follow its documented behaviour: one
    label per ordered pair of nodes, [setEdge] creating absent endpoints with
    no label, [successors] giving [undefined] on an unknown node. *)
Module Graphlib.

Record Graph : Type := mkGraph {
  g_nodes : list (string * option MemoryNode);
  g_edges : list ((string * string) * MemoryEdge)
}.

Definition empty : Graph := mkGraph [] [].

Definition hasNode (g : Graph) (v : string) : bool := Js.ohas v (g_nodes g).

Definition setNode (v : string) (label : MemoryNode) (g : Graph) : Graph :=
  mkGraph (Js.oset v (Some label) (g_nodes g)) (g_edges g).

Definition ensureNode (v : string) (g : Graph) : Graph :=
  if hasNode g v then g else mkGraph (Js.oset v None (g_nodes g)) (g_edges g).

Definition setEdge (v w : string) (label : MemoryEdge) (g : Graph) : Graph :=
  let g1 := ensureNode w (ensureNode v g) in
  mkGraph (g_nodes g1) (Js.oset (v, w) label (g_edges g1)).

Definition edge (g : Graph) (v w : string) : option MemoryEdge :=
  Js.oget (v, w) (g_edges g).

Definition successors (g : Graph) (v : string) : option (list string) :=
  if hasNode g v
  then Some (List.map (fun e => snd (fst e))
               (List.filter (fun e => String.eqb (fst (fst e)) v) (g_edges g)))
  else None.

Definition predecessors (g : Graph) (w : string) : option (list string) :=
  if hasNode g w
  then Some (List.map (fun e => fst (fst e))
               (List.filter (fun e => String.eqb (snd (fst e)) w) (g_edges g)))
  else None.

End Graphlib.

(** ** memory/memoryGraphStore.ts *)
Module MemoryGraphStore.

Record Store : Type := mkStore {
  graph : Graphlib.Graph;
  nodes : list (string * MemoryNode);
  edges : list (string * MemoryEdge)
}.

(** [new MemoryGraphStore()] *)
Definition empty : Store := mkStore Graphlib.empty [] [].

Section Operations.
Context {E : Type}.
Abbreviation StoreM := (Js.M Store E).

Definition addNode (node : MemoryNode) : StoreM string :=
  exec Js.modify (fun st => mkStore (graph st) (Js.oset (node_id node) node (nodes st)) (edges st)) in
  exec Js.modify (fun st => mkStore (Graphlib.setNode (node_id node) node (graph st)) (nodes st) (edges st)) in
  Js.ret (node_id node).

Definition edgeId (edge : MemoryEdge) : string :=
  source edge +:+ "-" +:+ target edge +:+ "-" +:+ edgeTypeName (type edge).

Definition addEdge (edge : MemoryEdge) : StoreM string :=
  let* st := Js.get in
  if negb (Graphlib.hasNode (graph st) (source edge))
     || negb (Graphlib.hasNode (graph st) (target edge))
  then Js.throw Js.MissingEndpoint
  else
    exec Js.modify (fun st => mkStore (graph st) (nodes st) (Js.oset (edgeId edge) edge (edges st))) in
    exec Js.modify (fun st =>
           mkStore (Graphlib.setEdge (source edge) (target edge) edge (graph st))
                   (nodes st) (edges st)) in
    Js.ret (edgeId edge).

Definition addFracture (fr : FractureEvent) : StoreM string :=
  addNode (mkNode (fr_id fr) fracture (fr_content fr) (fr_timestamp fr) (fr_metadata fr)).

Definition addFold (f : RecursionFold) : StoreM string :=
  let node :=
    mkNode (fold_id f) fold (fold_content f) (fold_timestamp f)
      (Some (spreadOpt
               [("characterId", MStr (fold_characterId f));
                ("emotionalState", MEmotion (fold_emotionalState f))]
               (fold_metadata f))) in
  let* nodeId := addNode node in
  match fold_fractureEventId f with
  | Some fid =>
      if Js.truthyString fid
      then exec addEdge (mkEdge fid nodeId causality 1.0 None) in Js.ret nodeId
      else Js.ret nodeId
  | None => Js.ret nodeId
  end.

Definition addPremonition (p : Premonition) : StoreM string :=
  let f := prem_fold p in
  addNode
    (mkNode (fold_id f) premonition (fold_content f) (fold_timestamp f)
       (Some (spreadOpt
                [("characterId", MStr (fold_characterId f));
                 ("emotionalState", MEmotion (fold_emotionalState f));
                 ("validityWindow", MInt (validityWindow p));
                 ("bindingCriteria", MCriteria (bindingCriteria p))]
                (fold_metadata f)))).

(** [uuid] and [now] stand for [uuidv4()] and [Date.now()]. *)
Definition addMemory (uuid : string) (now : Z)
    (content characterId : string) (meta : option Metadata) : StoreM string :=
  addNode (mkNode uuid memory content now
             (Some (spreadOpt [("characterId", MStr characterId)] meta))).

Definition createDivergence (sourceId targetId : string) (w : Q) : StoreM string :=
  addEdge (mkEdge sourceId targetId divergence w None).

Definition createContradiction (sourceId targetId : string) (w : Q) : StoreM string :=
  addEdge (mkEdge sourceId targetId contradiction w None).

Definition createEmotionalLink (sourceId targetId : string) (w : Q) : StoreM string :=
  addEdge (mkEdge sourceId targetId emotional w None).

End Operations.

Definition getNode (st : Store) (nodeId : string) : option MemoryNode :=
  Js.oget nodeId (nodes st).

Definition getAllNodes (st : Store) : list MemoryNode := Js.ovalues (nodes st).

Definition getAllEdges (st : Store) : list MemoryEdge := Js.ovalues (edges st).

Definition getNodesByType (st : Store) (t : NodeType) : list MemoryNode :=
  List.filter (fun node => NodeType_eqb (node_type node) t) (getAllNodes st).

Definition getEdgesByType (st : Store) (t : EdgeType) : list MemoryEdge :=
  List.filter (fun edge => EdgeType_eqb (type edge) t) (getAllEdges st).

(** [successorIds.map(id => this.nodes.get(id)!).filter(Boolean)] *)
Definition getSuccessors (st : Store) (nodeId : string) : list MemoryNode :=
  let successorIds :=
    match Graphlib.successors (graph st) nodeId with Some l => l | None => [] end in
  List.flat_map
    (fun i => match Js.oget i (nodes st) with Some n => [n] | None => [] end)
    successorIds.

Definition getEdgesBetween (st : Store) (sourceId targetId : string) : list MemoryEdge :=
  match Graphlib.edge (graph st) sourceId targetId with
  | Some edgeObject => [edgeObject]
  | None => []
  end.

(** Every node is stored under its own id and is a node of the graph: every
    method keeps it so. *)
Definition indexed (st : Store) : Prop :=
  forall k node, In (k, node) (nodes st) ->
    k = node_id node /\ Graphlib.hasNode (graph st) k = true.

(** [getCanonicalPath]: from the node with the earliest timestamp, walk to
    the unvisited successor whose edge, as [getEdgesBetween] gives it, is the
    heaviest. *)
Definition earliest (ns : list MemoryNode) : option MemoryNode :=
  match ns with
  | [] => None
  | first :: rest =>
      Some (fold_left
              (fun earliest current =>
                 if (node_timestamp current <? node_timestamp earliest)%Z
                 then current else earliest)
              rest first)
  end.

(** One round of the [while] loop: the inner [for] over the successors. *)
Definition bestSuccessor (st : Store) (current : string) (visited : list string)
    : option MemoryNode :=
  fst (fold_left
         (fun best successor =>
            if existsb (String.eqb (node_id successor)) visited then best
            else
              match getEdgesBetween st current (node_id successor) with
              | [] => best
              | edge :: _ =>
                  if Qlt_bool (snd best) (weight edge)
                  then (Some successor, weight edge)
                  else best
              end)
         (getSuccessors st current) (None, -1)).

(** The loop itself; each round visits one more node of the store, so it
    makes fewer rounds than there are nodes. *)
Fixpoint walk (rounds : nat) (st : Store) (current : string) (visited : list string)
    : list MemoryNode :=
  match rounds with
  | O => []
  | S rounds' =>
      match bestSuccessor st current visited with
      | None => []
      | Some next =>
          next :: walk rounds' st (node_id next) (node_id next :: visited)
      end
  end.

Definition getCanonicalPath (st : Store) : list MemoryNode :=
  match earliest (getAllNodes st) with
  | None => []
  | Some startNode =>
      startNode :: walk (length (nodes st)) st (node_id startNode) [node_id startNode]
  end.

(** Both maps of the store name the same nodes: every method keeps it so. *)
Definition consistent (st : Store) : Prop :=
  forall i, Graphlib.hasNode (graph st) i = Js.ohas i (nodes st).

(** [node.metadata && node.metadata.characterId === characterId] *)
Definition ofCharacter (characterId : string) (node : MemoryNode) : bool :=
  match node_metadata node with
  | Some meta =>
      match Js.oget "characterId" meta with
      | Some (MStr c) => String.eqb c characterId
      | _ => false
      end
  | None => false
  end.

Definition getNodesByCharacter (st : Store) (characterId : string) : list MemoryNode :=
  List.filter (ofCharacter characterId) (getAllNodes st).

Definition getPredecessors (st : Store) (nodeId : string) : list MemoryNode :=
  let predecessorIds :=
    match Graphlib.predecessors (graph st) nodeId with Some l => l | None => [] end in
  List.flat_map
    (fun i => match Js.oget i (nodes st) with Some n => [n] | None => [] end)
    predecessorIds.

(** [dfs]: the paths it pushes on [allPaths], in the order of the pushes.
    Each nested call has a path one node longer, and a path longer than
    [maxDepth] ends the descent, so [1 + maxDepth] levels of calls are all
    there can be; [levels] counts them down. *)
Fixpoint dfs (levels : nat) (st : Store) (current target : string) (path : list string)
    (maxDepth : Z) : list (list string) :=
  match levels with
  | O => []
  | S levels' =>
      if (maxDepth <? Z.of_nat (length path))%Z then []
      else if String.eqb current target then [path]
      else
        let successors :=
          match Graphlib.successors (graph st) current with Some l => l | None => [] end in
        List.flat_map
          (fun successor =>
             if existsb (String.eqb successor) path then []
             else dfs levels' st successor target (path ++ [successor]) maxDepth)
          successors
  end.

Definition findPaths (st : Store) (sourceId targetId : string) (maxDepth : Z)
    : list (list string) :=
  dfs (S (Z.to_nat maxDepth)) st sourceId targetId [sourceId] maxDepth.

(** [rest] continues a walk in the graph that stands at [a]. *)
Fixpoint linked (st : Store) (a : string) (rest : list string) : Prop :=
  match rest with
  | [] => True
  | b :: rest' =>
      (exists l, Graphlib.successors (graph st) a = Some l /\ In b l) /\ linked st b rest'
  end.

Section Forking.
Context {E : Type}.

(** [uuid] and [now] stand for [uuidv4()] and [Date.now()]. *)
Definition forkAtNode (uuid : string) (now : Z) (nodeId : string) : Js.M Store E string :=
  let* st := Js.get in
  match getNode st nodeId with
  | None => Js.throw (Js.CannotFork nodeId)
  | Some originalNode =>
      let forkedNode :=
        mkNode uuid (node_type originalNode) (node_content originalNode) now
          (Some (spread (match node_metadata originalNode with Some m => m | None => [] end)
                        [("forkedFrom", MStr nodeId)])) in
      let* forkedNodeId := addNode forkedNode in
      exec createDivergence nodeId forkedNodeId 0.5 in
      Js.ret forkedNodeId
  end.

Definition clear : Js.M Store E unit :=
  exec Js.modify (fun st => mkStore Graphlib.empty (nodes st) (edges st)) in
  exec Js.modify (fun st => mkStore (graph st) [] (edges st)) in
  Js.modify (fun st => mkStore (graph st) (nodes st) []).

(** The public methods that change a store, as the other components and
    the callers of the runtime invoke them. *)
Inductive Call : Type :=
| AddFracture (fr : FractureEvent)
| AddFold (f : RecursionFold)
| AddPremonition (p : Premonition)
| AddMemory (uuid : string) (now : Z) (content characterId : string) (meta : option Metadata)
| AddEdge (edge : MemoryEdge)
| CreateDivergence (sourceId targetId : string) (w : Q)
| CreateContradiction (sourceId targetId : string) (w : Q)
| CreateEmotionalLink (sourceId targetId : string) (w : Q)
| ForkAtNode (uuid : string) (now : Z) (nodeId : string)
| Clear.

Definition perform (c : Call) : Js.M Store E unit :=
  match c with
  | AddFracture fr => exec addFracture fr in Js.ret tt
  | AddFold f => exec addFold f in Js.ret tt
  | AddPremonition p => exec addPremonition p in Js.ret tt
  | AddMemory uuid now content characterId meta =>
      exec addMemory uuid now content characterId meta in Js.ret tt
  | AddEdge edge => exec addEdge edge in Js.ret tt
  | CreateDivergence s t w => exec createDivergence s t w in Js.ret tt
  | CreateContradiction s t w => exec createContradiction s t w in Js.ret tt
  | CreateEmotionalLink s t w => exec createEmotionalLink s t w in Js.ret tt
  | ForkAtNode uuid now nodeId => exec forkAtNode uuid now nodeId in Js.ret tt
  | Clear => clear
  end.

End Forking.

(** The store after a sequence of calls on a new store; a call that throws
    leaves the store as it was at the throw. The store emits no events. *)
Definition after (calls : list Call) : Store :=
  fold_left (fun st c => Js.final (perform (E:=Empty_set) c st)) calls empty.

(** What every method keeps true of a store: the two maps of nodes agree,
    a node is stored under its own id and once, and an edge, in the graph
    and in the map of edges alike, joins two nodes of the store and is
    stored once under its key. *)
Definition sound (st : Store) : Prop :=
  consistent st /\ indexed st /\ List.NoDup (Js.okeys (nodes st)) /\
  (forall v w e, In ((v, w), e) (Graphlib.g_edges (graph st)) ->
     source e = v /\ target e = w /\
     Js.ohas v (nodes st) = true /\ Js.ohas w (nodes st) = true) /\
  (forall k e, In (k, e) (edges st) ->
     k = edgeId e /\
     Js.ohas (source e) (nodes st) = true /\ Js.ohas (target e) (nodes st) = true) /\
  List.NoDup (Js.okeys (edges st)) /\
  List.NoDup (Js.okeys (Graphlib.g_edges (graph st))).

(** The node that [addFold] stores for a reaction, the store with that node
    stored, and the edge that links the reaction to its stimulus. *)
Definition nodeOfFold (f : RecursionFold) : MemoryNode :=
  mkNode (fold_id f) fold (fold_content f) (fold_timestamp f)
    (Some (spreadOpt [("characterId", MStr (fold_characterId f));
                      ("emotionalState", MEmotion (fold_emotionalState f))]
                     (fold_metadata f))).

Definition storedFold (f : RecursionFold) (st : Store) : Store :=
  mkStore (Graphlib.setNode (fold_id f) (nodeOfFold f) (graph st))
          (Js.oset (fold_id f) (nodeOfFold f) (nodes st))
          (edges st).

Definition linkOfFold (fid : string) (f : RecursionFold) : MemoryEdge :=
  mkEdge fid (fold_id f) causality 1.0 None.

End MemoryGraphStore.

(** A component holds a reference to the one store of the runtime; a store
    method called from a component runs on that field. *)
Definition zoom {S T E A} (getter : T -> S) (setter : S -> T -> T)
    (m : Js.M S E A) : Js.M T E A :=
  fun t => match m (getter t) with (o, s', ev) => (o, setter s' t, ev) end.

(** The same private method is written out in the matcher and in the binding
    logic: the Jaccard index of the two sets of lower-cased words. *)
Definition calculateContentSimilarity (text1 text2 : string) : Q :=
  let normalized1 := Js.trim (Js.toLowerCase text1) in
  let normalized2 := Js.trim (Js.toLowerCase text2) in
  let words1 := Js.splitSpaces normalized1 in
  let words2 := Js.splitSpaces normalized2 in
  let wordSet1 := Js.newSet words1 [] in
  let wordSet2 := Js.newSet words2 [] in
  let matchCount :=
    fold_left (fun n word => if Js.setHas wordSet2 word then (n + 1)%Z else n) wordSet1 0%Z in
  let unionSize := (Z.of_nat (length wordSet1) + Z.of_nat (length wordSet2) - matchCount)%Z in
  if (0 <? unionSize)%Z then inject_Z matchCount / inject_Z unionSize else 0.

(** ** premonition/premonitionMatcher.ts *)
Module PremonitionMatcher.

Record PremonitionState : Type := mkState {
  state_premonition : Premonition;
  createdAtTurn : Z;
  expiresAtTurn : Z;
  bindingAttempts : Z;
  isBound : bool
}.

(** What the matcher emits: ['binding'] with the binding record and
    ['premonitionExpired'] (its reason is always 'validity_window_exceeded'). *)
Inductive Event : Type :=
| Binding (premonitionId fractureId : string) (timestamp : Z) (matchScore : Q)
| PremonitionExpired (premonitionId : string).

Record Matcher : Type := mkMatcher {
  memoryGraph : MemoryGraphStore.Store;
  activePremonitions : list (string * PremonitionState);
  turnCounter : Z
}.

Abbreviation MatcherM := (Js.M Matcher Event).

Definition onGraph {A} (m : Js.M MemoryGraphStore.Store Event A) : MatcherM A :=
  zoom memoryGraph (fun g t => mkMatcher g (activePremonitions t) (turnCounter t)) m.

Definition setActive (f : list (string * PremonitionState) -> list (string * PremonitionState))
    (t : Matcher) : Matcher :=
  mkMatcher (memoryGraph t) (f (activePremonitions t)) (turnCounter t).

(** [new PremonitionMatcher(memoryGraph, config)] *)
Definition create (g : MemoryGraphStore.Store) : Matcher := mkMatcher g [] 0%Z.

Definition addPremonition (p : Premonition) : MatcherM unit :=
  exec onGraph (MemoryGraphStore.addPremonition p) in
  let* t := Js.get in
  Js.modify (setActive (Js.oset (prem_id p)
    (mkState p (turnCounter t) (turnCounter t + validityWindow p)%Z 0%Z false))).

Definition calculateBindingStrength (criteria : BindingCriteria) : Q :=
  let strength := 0 in
  let strength := strength + contentSimilarity criteria * 0.4 in
  let strength := strength + emotionalAlignment criteria * 0.3 in
  match keywords criteria with
  | Some ks =>
      if (0 <? length ks)%nat
      then strength + 0.3 * Qmin 1 (inject_Z (Z.of_nat (length ks)) / 5)
      else strength
  | None => strength
  end.

Definition calculateKeywordMatch (ks : list string) (text : string) : Q :=
  let normalizedText := Js.toLowerCase text in
  let matchCount :=
    fold_left (fun n keyword =>
                 if Js.includes normalizedText (Js.toLowerCase keyword) then (n + 1)%Z else n)
              ks 0%Z in
  if (0 <? length ks)%nat then inject_Z matchCount / inject_Z (Z.of_nat (length ks)) else 0.

Definition calculateMatchScore (p : Premonition) (fr : FractureEvent) : Q :=
  let criteria := bindingCriteria p in
  let score := 0 in
  let contentSim := calculateContentSimilarity (prem_content p) (fr_content fr) in
  let score := score + contentSim * contentSimilarity criteria in
  let emotionalAlign := 0.5 in
  let score := score + emotionalAlign * emotionalAlignment criteria in
  match keywords criteria with
  | Some ks =>
      if (0 <? length ks)%nat
      then score + calculateKeywordMatch ks (fr_content fr) * 0.3
      else score
  | None => score
  end.

Definition getBindingThreshold (t : Matcher) (state : PremonitionState) : Q :=
  let baseThreshold := 0.7 in
  let attemptFactor := Qmin 0.2 (inject_Z (bindingAttempts state) * 0.05) in
  let remainingTurns := (expiresAtTurn state - turnCounter t)%Z in
  let expirationFactor :=
    Qmin 0.2 ((1 - inject_Z remainingTurns / inject_Z (validityWindow (state_premonition state))) * 0.2) in
  Qmax 0.3 (baseThreshold - attemptFactor - expirationFactor).

Definition bindPremonition (now : Z) (p : Premonition) (fr : FractureEvent) : MatcherM unit :=
  let matchScore := calculateMatchScore p fr in
  exec onGraph (MemoryGraphStore.addEdge
         (mkEdge (prem_id p) (fr_id fr) causality matchScore
            (Some [("bindingTimestamp", MInt now); ("bindingType", MStr "premonition")]))) in
  Js.emit (Binding (prem_id p) (fr_id fr) now matchScore).

(** The body of the loop of [cleanupExpiredPremonitions], on one entry
    [[id, state]] of the map. *)
Definition expire (entry : string * PremonitionState) : MatcherM unit :=
  let* t := Js.get in
  if (expiresAtTurn (snd entry) <? turnCounter t)%Z
  then exec Js.modify (setActive (Js.odelete (fst entry))) in
       Js.emit (PremonitionExpired (fst entry))
  else Js.ret tt.

(** The entries are visited in the order of the map; deleting the entry
    being visited does not disturb the visit of the others. *)
Definition cleanupExpiredPremonitions : MatcherM unit :=
  let* t0 := Js.get in
  Js.forOf (activePremonitions t0) expire.

(** [premonitionStates.sort((a, b) => bScore - aScore)]: a stable sort,
    strongest criteria first. *)
Fixpoint insertByStrength (x : string * PremonitionState)
    (l : list (string * PremonitionState)) : list (string * PremonitionState) :=
  match l with
  | [] => [x]
  | y :: rest =>
      if Qlt_bool (calculateBindingStrength (bindingCriteria (state_premonition (snd x))))
                  (calculateBindingStrength (bindingCriteria (state_premonition (snd y))))
      then y :: insertByStrength x rest
      else x :: y :: rest
  end.

Definition sortByStrength (l : list (string * PremonitionState)) : list (string * PremonitionState) :=
  fold_right insertByStrength [] l.

Definition incrAttempts (s : PremonitionState) : PremonitionState :=
  mkState (state_premonition s) (createdAtTurn s) (expiresAtTurn s)
          (bindingAttempts s + 1)%Z (isBound s).

Definition markBound (s : PremonitionState) : PremonitionState :=
  mkState (state_premonition s) (createdAtTurn s) (expiresAtTurn s)
          (bindingAttempts s) true.

(** One round of the loop of [processFracture]. A state object is named by
    the key it is stored under; its fields are read from the array the loop
    runs over, which holds each object once. *)
Definition attempt (now : Z) (fr : FractureEvent) (entry : string * PremonitionState)
    : MatcherM unit :=
  let state := snd entry in
  let* t := Js.get in
  if isBound state || (expiresAtTurn state <? turnCounter t)%Z
  then Js.ret tt
  else
    exec Js.modify (setActive (Js.oupdate (fst entry) incrAttempts)) in
    let matchScore := calculateMatchScore (state_premonition state) fr in
    if Qle_bool (getBindingThreshold t (incrAttempts state)) matchScore
    then exec bindPremonition now (state_premonition state) fr in
         Js.modify (setActive (Js.oupdate (fst entry) markBound))
    else Js.ret tt.

Definition processFracture (now : Z) (fr : FractureEvent) : MatcherM unit :=
  exec Js.modify (fun t => mkMatcher (memoryGraph t) (activePremonitions t) (turnCounter t + 1)%Z) in
  let* t := Js.get in
  let premonitionStates := sortByStrength (activePremonitions t) in
  exec Js.forOf premonitionStates (attempt now fr) in
  cleanupExpiredPremonitions.

Definition getActivePremonitions (t : Matcher) : list Premonition :=
  List.map state_premonition
    (List.filter (fun s => negb (isBound s) && (turnCounter t <=? expiresAtTurn s)%Z)
       (Js.ovalues (activePremonitions t))).

Definition getBoundPremonitions (t : Matcher) : list Premonition :=
  List.map state_premonition (List.filter isBound (Js.ovalues (activePremonitions t))).

Definition resetTurnCounter (t : Matcher) : Matcher :=
  mkMatcher (memoryGraph t) (activePremonitions t) 0%Z.

Definition clearActivePremonitions (t : Matcher) : Matcher :=
  mkMatcher (memoryGraph t) [] (turnCounter t).

(** *** Runs of the matcher

    What the runtime does with a matcher: it registers echoes, it stores a
    stimulus in the graph, it hands a stimulus to [processFracture], and it
    may reset the turn counter. *)
Inductive Op : Type :=
| Register (p : Premonition)
| Store (fr : FractureEvent)
| Submit (now : Z) (fr : FractureEvent)
| Reset.

Definition step (op : Op) (t : Matcher) : Matcher :=
  match op with
  | Register p => Js.final (addPremonition p t)
  | Store fr => Js.final (onGraph (MemoryGraphStore.addFracture fr) t)
  | Submit now fr => Js.final (processFracture now fr t)
  | Reset => resetTurnCounter t
  end.

(** One call of [processFracture]: the turn it ran at, how it ended, what it
    emitted and the matcher it left. *)
Record Call : Type := mkCall {
  call_turn : Z;
  call_outcome : Js.Outcome unit;
  call_events : list Event;
  call_after : Matcher
}.

Fixpoint trace (ops : list Op) (t : Matcher) : list Call :=
  match ops with
  | [] => []
  | Submit now fr :: rest =>
      let r := processFracture now fr t in
      mkCall (turnCounter (Js.final r)) (Js.outcome r) (Js.emitted r) (Js.final r)
      :: trace rest (Js.final r)
  | op :: rest => trace rest (step op t)
  end.

(** Every stimulus is a node of the store when it is submitted. *)
Fixpoint admissible (ops : list Op) (t : Matcher) : Prop :=
  match ops with
  | [] => True
  | op :: rest =>
      match op with
      | Submit _ fr =>
          Graphlib.hasNode (MemoryGraphStore.graph (memoryGraph t)) (fr_id fr) = true
      | _ => True
      end /\ admissible rest (step op t)
  end.

(** The states that [addPremonition] builds: one entry per echo, under the
    id of the echo, whose node is in the store. *)
Definition wellFormed (t : Matcher) : Prop :=
  List.NoDup (Js.okeys (activePremonitions t)) /\
  forall k s, In (k, s) (activePremonitions t) ->
    k = prem_id (state_premonition s) /\
    Graphlib.hasNode (MemoryGraphStore.graph (memoryGraph t)) k = true.

Definition isBindingOf (premonitionId : string) (ev : Event) : bool :=
  match ev with
  | Binding p _ _ _ => String.eqb p premonitionId
  | PremonitionExpired _ => false
  end.

Definition isExpiryOf (premonitionId : string) (ev : Event) : bool :=
  match ev with
  | Binding _ _ _ _ => false
  | PremonitionExpired p => String.eqb p premonitionId
  end.

Definition bindingsOf (premonitionId : string) (evs : list Event) : nat :=
  length (List.filter (isBindingOf premonitionId) evs).

Definition expiriesOf (premonitionId : string) (evs : list Event) : nat :=
  length (List.filter (isExpiryOf premonitionId) evs).

(** What the loop of [processFracture] leaves alone in an entry. *)
Definition skeleton (m : list (string * PremonitionState))
    : list (string * Z * Premonition) :=
  List.map (fun entry => (fst entry, expiresAtTurn (snd entry), state_premonition (snd entry))) m.

Definition expired (turn : Z) (entry : string * PremonitionState) : bool :=
  (expiresAtTurn (snd entry) <? turn)%Z.

(** The map after [cleanupExpiredPremonitions] has visited the entries [l]. *)
Definition purge (turn : Z) (l m : list (string * PremonitionState))
    : list (string * PremonitionState) :=
  fold_left (fun acc entry => if expired turn entry then Js.odelete (fst entry) acc else acc) l m.

(** [t'] is [t] some rounds of the loop later: the same turn, the same
    entries up to their attempts and bound flags, and no node lost. *)
Definition similar (t t' : Matcher) : Prop :=
  turnCounter t' = turnCounter t /\
  skeleton (activePremonitions t') = skeleton (activePremonitions t) /\
  forall i, Graphlib.hasNode (MemoryGraphStore.graph (memoryGraph t)) i = true ->
            Graphlib.hasNode (MemoryGraphStore.graph (memoryGraph t')) i = true.

(** *** One call of [processFracture], echo by echo

    What a round of the loop decides for a state object [s] of the array it
    runs over, at the turn of the matcher [t]: whether it passes it over,
    whether its score reaches the threshold, the edge it then adds, and
    what it makes of the object [cur] that the map holds under the same
    key. *)
Definition skipped (t : Matcher) (s : PremonitionState) : bool :=
  isBound s || (expiresAtTurn s <? turnCounter t)%Z.

Definition reaches (t : Matcher) (fr : FractureEvent) (s : PremonitionState) : bool :=
  Qle_bool (getBindingThreshold t (incrAttempts s))
           (calculateMatchScore (state_premonition s) fr).

Definition bindsTo (t : Matcher) (fr : FractureEvent) (s : PremonitionState) : bool :=
  negb (skipped t s) && reaches t fr s.

Definition bindingEdge (now : Z) (p : Premonition) (fr : FractureEvent) : MemoryEdge :=
  mkEdge (prem_id p) (fr_id fr) causality (calculateMatchScore p fr)
    (Some [("bindingTimestamp", MInt now); ("bindingType", MStr "premonition")]).

Definition tried (t : Matcher) (fr : FractureEvent) (s cur : PremonitionState)
    : PremonitionState :=
  if skipped t s then cur
  else if reaches t fr s then markBound (incrAttempts cur) else incrAttempts cur.

(** The matcher once [processFracture] has advanced the turn counter. *)
Definition advanced (t : Matcher) : Matcher :=
  mkMatcher (memoryGraph t) (activePremonitions t) (turnCounter t + 1)%Z.

(** How often the calls of a run announced a binding of the echo. *)
Definition bindingsIn (premonitionId : string) (calls : list Call) : nat :=
  list_sum (List.map (fun c => bindingsOf premonitionId (call_events c)) calls).

End PremonitionMatcher.

(** ** interaction/interactionBindingLogic.ts *)
Module InteractionBindingLogic.

Inductive Status : Type := pending | resolved.

Record BindingState : Type := mkBinding {
  fractureId : string;
  boundFoldIds : list string;
  selectedFoldId : option string;
  timestamp : Z;
  status : Status
}.

(** The ['interaction'] events, by their [type] field. *)
Inductive Interaction : Type :=
| fold_binding (foldId fractureId : string) (timestamp : Z)
| deferred_fold (foldId : string) (timestamp : Z)
| premonition_binding (premonitionId fractureId : string) (timestamp : Z).

Record Logic : Type := mkLogic {
  memoryGraph : MemoryGraphStore.Store;
  pendingBindings : list (string * BindingState);
  selectedResponses : list (string * string)
}.

Abbreviation LogicM := (Js.M Logic Interaction).

Definition onGraph {A} (m : Js.M MemoryGraphStore.Store Interaction A) : LogicM A :=
  zoom memoryGraph (fun g t => mkLogic g (pendingBindings t) (selectedResponses t)) m.

Definition setPending (f : list (string * BindingState) -> list (string * BindingState))
    (t : Logic) : Logic :=
  mkLogic (memoryGraph t) (f (pendingBindings t)) (selectedResponses t).

Definition create (g : MemoryGraphStore.Store) : Logic := mkLogic g [] [].

Definition newBinding (now : Z) (fractureId : string) : BindingState :=
  mkBinding fractureId [] None now pending.

Definition pushFold (foldId : string) (b : BindingState) : BindingState :=
  mkBinding (fractureId b) (boundFoldIds b ++ [foldId]) (selectedFoldId b)
            (timestamp b) (status b).

Definition bindFoldToFracture (now : Z) (foldId fractureId : string) : LogicM unit :=
  let* t := Js.get in
  exec (match Js.oget fractureId (pendingBindings t) with
        | Some _ => Js.ret tt
        | None => Js.modify (setPending (Js.oset fractureId (newBinding now fractureId)))
        end) in
  let* t := Js.get in
  exec (match Js.oget fractureId (pendingBindings t) with
        | Some bindingState =>
            if existsb (String.eqb foldId) (boundFoldIds bindingState)
            then Js.ret tt
            else Js.modify (setPending (Js.oupdate fractureId (pushFold foldId)))
        | None => Js.ret tt
        end) in
  Js.emit (fold_binding foldId fractureId now).

Definition storeDeferredFold (now : Z) (f : RecursionFold) : LogicM unit :=
  Js.emit (deferred_fold (fold_id f) now).

(** [!node.metadata?.fractureEventId] *)
Definition lacksFracture (node : MemoryNode) : bool :=
  match node_metadata node with
  | Some meta =>
      match Js.oget "fractureEventId" meta with
      | Some v => negb (truthy v)
      | None => true
      end
  | None => true
  end.

Definition checkDeferredBindings (now : Z) (fr : FractureEvent) : LogicM unit :=
  let* t := Js.get in
  let foldNodes := MemoryGraphStore.getNodesByType (memoryGraph t) fold in
  let deferredFolds := List.filter lacksFracture foldNodes in
  Js.forOf deferredFolds (fun foldNode =>
    let contentSim := calculateContentSimilarity (node_content foldNode) (fr_content fr) in
    if Qlt_bool 0.5 contentSim
    then
      exec onGraph (MemoryGraphStore.addEdge
             (mkEdge (node_id foldNode) (fr_id fr) causality contentSim
                (Some [("bindingType", MStr "deferred");
                       ("bindingTimestamp", MInt now);
                       ("fractureEventId", MStr (fr_id fr))]))) in
      bindFoldToFracture now (node_id foldNode) (fr_id fr)
    else Js.ret tt).

Definition processFracture (now : Z) (fr : FractureEvent) : LogicM unit :=
  exec onGraph (MemoryGraphStore.addFracture fr) in
  exec checkDeferredBindings now fr in
  Js.modify (setPending (Js.oset (fr_id fr) (newBinding now (fr_id fr)))).

Definition processFold (now : Z) (f : RecursionFold) : LogicM unit :=
  exec onGraph (MemoryGraphStore.addFold f) in
  match fold_fractureEventId f with
  | Some fid =>
      if Js.truthyString fid then bindFoldToFracture now (fold_id f) fid
      else storeDeferredFold now f
  | None => storeDeferredFold now f
  end.

(** The argument is the binding record the matcher emitted. *)
Definition processBoundInteraction (now : Z) (premonitionId fractureId : string) : LogicM unit :=
  let* t := Js.get in
  match MemoryGraphStore.getNode (memoryGraph t) premonitionId,
        MemoryGraphStore.getNode (memoryGraph t) fractureId with
  | Some _, Some _ =>
      exec (if Js.ohas fractureId (pendingBindings t) then Js.ret tt
            else Js.modify (setPending (Js.oset fractureId (newBinding now fractureId)))) in
      exec Js.modify (setPending (Js.oupdate fractureId (pushFold premonitionId))) in
      Js.emit (premonition_binding premonitionId fractureId now)
  | _, _ => Js.ret tt
  end.

Definition getResponsesForFracture (t : Logic) (fractureId : string) : list string :=
  match Js.oget fractureId (pendingBindings t) with
  | Some bindingState => boundFoldIds bindingState
  | None => []
  end.

(** The binding records once [bindFoldToFracture] has run on them. *)
Definition bindInto (now : Z) (foldId fractureId : string) (m : list (string * BindingState))
    : list (string * BindingState) :=
  match Js.oget fractureId m with
  | Some b =>
      if existsb (String.eqb foldId) (boundFoldIds b) then m
      else Js.oupdate fractureId (pushFold foldId) m
  | None =>
      Js.oupdate fractureId (pushFold foldId) (Js.oset fractureId (newBinding now fractureId) m)
  end.

(** *** Selection, forks and reverse bindings

    The ['interaction'] events of the methods below, next to the earlier
    ones. Every [Date.now()] of one call reads [now]. *)
Inductive Notice : Type :=
| earlier (i : Interaction)
| response_selection (foldId fractureId : string) (timestamp : Z)
| fracture_fork (originalFractureId forkedFractureId : string) (timestamp : Z)
| reverse_binding (foldId fractureId : string) (timestamp : Z).

Abbreviation NoticeM := (Js.M Logic Notice).

(** A method that emits the earlier events, called from one of these. *)
Definition relabel {A} (m : LogicM A) : NoticeM A :=
  fun t => match m t with (o, t', ev) => (o, t', List.map earlier ev) end.

Definition onStore {A} (m : Js.M MemoryGraphStore.Store Notice A) : NoticeM A :=
  zoom memoryGraph (fun g t => mkLogic g (pendingBindings t) (selectedResponses t)) m.

Definition resolve (foldId : string) (b : BindingState) : BindingState :=
  mkBinding (fractureId b) (boundFoldIds b) (Some foldId) (timestamp b) resolved.

(** [foldNode.metadata?.fractureEventId] *)
Definition fractureOf (node : MemoryNode) : option MetaValue :=
  match node_metadata node with
  | Some meta => Js.oget "fractureEventId" meta
  | None => None
  end.

Definition selectResponse (now : Z) (foldId : string) : NoticeM unit :=
  let* t := Js.get in
  match MemoryGraphStore.getNode (memoryGraph t) foldId with
  | None => Js.ret tt
  | Some foldNode =>
      if negb (NodeType_eqb (node_type foldNode) fold) then Js.ret tt
      else
        match fractureOf foldNode with
        | None => Js.ret tt
        | Some v =>
            if negb (truthy v) then Js.ret tt
            else
              match v with
              | MStr fractureId =>
                  match Js.oget fractureId (pendingBindings t) with
                  | None => Js.ret tt
                  | Some _ =>
                      exec Js.modify (setPending (Js.oupdate fractureId (resolve foldId))) in
                      exec Js.modify (fun t => mkLogic (memoryGraph t) (pendingBindings t)
                                                 (Js.oset fractureId foldId (selectedResponses t))) in
                      exec onStore (MemoryGraphStore.addEdge
                             (mkEdge fractureId foldId causality 1.0
                                (Some [("selected", MBool true);
                                       ("selectionTimestamp", MInt now)]))) in
                      Js.emit (response_selection foldId fractureId now)
                  end
              | _ => Js.ret tt  (* the keys of the map are strings *)
              end
        end
  end.

(** [this.selectedResponses.get(fractureId) || null] *)
Definition getSelectedResponse (t : Logic) (fractureId : string) : option string :=
  match Js.oget fractureId (selectedResponses t) with
  | Some foldId => if Js.truthyString foldId then Some foldId else None
  | None => None
  end.

(** [uuid] stands for the [uuidv4()] of [forkAtNode]. *)
Definition forkFracture (uuid : string) (now : Z) (fractureId : string) : NoticeM string :=
  let* forkedFractureId := onStore (MemoryGraphStore.forkAtNode uuid now fractureId) in
  exec Js.modify (setPending (Js.oset forkedFractureId (newBinding now forkedFractureId))) in
  exec Js.emit (fracture_fork fractureId forkedFractureId now) in
  Js.ret forkedFractureId.

Definition createReverseBinding (uuid : string) (now : Z) (foldId content : string)
    : NoticeM string :=
  let fracture :=
    mkFracture uuid content now system (Some [("reverseBindingFoldId", MStr foldId)]) in
  exec onStore (MemoryGraphStore.addFracture fracture) in
  exec relabel (bindFoldToFracture now foldId (fr_id fracture)) in
  exec onStore (MemoryGraphStore.addEdge
         (mkEdge foldId (fr_id fracture) causality 1.0
            (Some [("reverseBinding", MBool true); ("bindingTimestamp", MInt now)]))) in
  exec Js.emit (reverse_binding foldId (fr_id fracture) now) in
  Js.ret (fr_id fracture).

Definition isPending (b : BindingState) : bool :=
  match status b with pending => true | resolved => false end.

Definition getPendingBindings (t : Logic) : list BindingState :=
  List.filter isPending (Js.ovalues (pendingBindings t)).

Definition getResolvedBindings (t : Logic) : list BindingState :=
  List.filter (fun b => negb (isPending b)) (Js.ovalues (pendingBindings t)).

End InteractionBindingLogic.

(** ** core/collapseEngine.ts *)
Module CollapseEngine.

Inductive Event : Type :=
| recursionFold (f : RecursionFold)
| premonitionEmitted (p : Premonition).

Record Engine : Type := mkEngine {
  activeFractures : list (string * FractureEvent);
  pendingFolds : list (string * RecursionFold);
  pendingPremonitions : list (string * Premonition)
}.

Abbreviation EngineM := (Js.M Engine Event).

Definition create : Engine := mkEngine [] [] [].

(** [uuid] and [now] stand for [uuidv4()] and [Date.now()]. *)
Definition createFracture (uuid : string) (now : Z) (content : string) (src : Source)
    : FractureEvent :=
  mkFracture uuid content now src None.

(** [{ ...premonition, id: uuidv4(), fractureEventId: fractureId }], seen at
    its declared type [RecursionFold]. *)
Definition boundFoldOf (uuid : string) (p : Premonition) (fractureId : string) : RecursionFold :=
  let f := prem_fold p in
  mkFold uuid (fold_content f) (fold_timestamp f) (fold_characterId f)
         (Some fractureId) (fold_emotionalState f) (fold_metadata f).

Definition bindPremonitionToFracture (uuid : string) (premonitionId fractureId : string)
    : EngineM bool :=
  let* t := Js.get in
  match Js.oget premonitionId (pendingPremonitions t),
        Js.oget fractureId (activeFractures t) with
  | Some p, Some _ =>
      let boundFold := boundFoldOf uuid p fractureId in
      exec Js.modify (fun t => mkEngine (activeFractures t) (pendingFolds t)
                                  (Js.odelete premonitionId (pendingPremonitions t))) in
      exec Js.modify (fun t => mkEngine (activeFractures t)
                                  (Js.oset (fold_id boundFold) boundFold (pendingFolds t))
                                  (pendingPremonitions t)) in
      exec Js.emit (recursionFold boundFold) in
      Js.ret true
  | _, _ => Js.ret false
  end.

Definition getPendingFolds (t : Engine) : list RecursionFold := Js.ovalues (pendingFolds t).
Definition getPendingPremonitions (t : Engine) : list Premonition :=
  Js.ovalues (pendingPremonitions t).

(** [clearPendingFold] and [clearPendingPremonition] *)
Definition clearPendingFold (foldId : string) : EngineM unit :=
  Js.modify (fun t => mkEngine (activeFractures t) (Js.odelete foldId (pendingFolds t))
                               (pendingPremonitions t)).

Definition clearPendingPremonition (premonitionId : string) : EngineM unit :=
  Js.modify (fun t => mkEngine (activeFractures t) (pendingFolds t)
                               (Js.odelete premonitionId (pendingPremonitions t))).

End CollapseEngine.

(** ** character/characterKernel.ts

    The record of tone weights ([toneProfile.variations]) is a JavaScript
    object that the kernel updates in place, and that a profile copied with
    the spread syntax keeps sharing with its origin, so it lives in a heap and
    a tone profile holds a reference to it. The tone profile, the mutation
    schema and the emotional state are only ever replaced as a whole by these
    methods, so they are plain values. *)
Module CharacterKernel.

Record ToneProfile : Type := mkTone {
  baseline : string;
  variations : nat;
  adaptability : Q
}.

Record MutationSchema : Type := mkSchema {
  driftRate : Q;
  driftDirections : list (string * Q);
  stabilityFactors : list string
}.

Record CharacterField : Type := mkCharacter {
  char_id : string;
  char_name : string;
  toneProfile : ToneProfile;
  mutationSchema : MutationSchema;
  memoryAnchor : string;
  collapseThreshold : Q
}.

Record PartialToneProfile : Type := mkPartialTone {
  p_baseline : option string;
  p_variations : option nat;
  p_adaptability : option Q
}.

Record PartialMutationSchema : Type := mkPartialSchema {
  p_driftRate : option Q;
  p_driftDirections : option (list (string * Q));
  p_stabilityFactors : option (list string)
}.

Record PartialEmotionalState : Type := mkPartialEmotion {
  p_dominant : option string;
  p_secondary : option string;
  p_intensity : option Q;
  p_stability : option Q
}.

Record Kernel : Type := mkKernel {
  characters : list (string * CharacterField);
  memoryGraph : MemoryGraphStore.Store;
  config : McTavishConfig;
  emotionalStates : list (string * EmotionalState);
  heap : gmap nat (list (string * Q));
  nextRef : nat
}.

Definition create (g : MemoryGraphStore.Store) (c : McTavishConfig) : Kernel :=
  mkKernel [] g c [] ∅ 0.

Definition setCharacters (f : list (string * CharacterField) -> list (string * CharacterField))
    (k : Kernel) : Kernel :=
  mkKernel (f (characters k)) (memoryGraph k) (config k) (emotionalStates k) (heap k) (nextRef k).

Definition setEmotionalStates (f : list (string * EmotionalState) -> list (string * EmotionalState))
    (k : Kernel) : Kernel :=
  mkKernel (characters k) (memoryGraph k) (config k) (f (emotionalStates k)) (heap k) (nextRef k).

Definition setHeap (f : gmap nat (list (string * Q)) -> gmap nat (list (string * Q)))
    (k : Kernel) : Kernel :=
  mkKernel (characters k) (memoryGraph k) (config k) (emotionalStates k) (f (heap k)) (nextRef k).

(** An object literal [{ key: number, ... }] evaluated by a caller or by the
    kernel: a new object, and the reference to it. *)
Definition newObject (fields : list (string * Q)) (k : Kernel) : nat * Kernel :=
  (nextRef k,
   mkKernel (characters k) (memoryGraph k) (config k) (emotionalStates k)
            (<[nextRef k := fields]> (heap k)) (S (nextRef k))).

Definition deref (k : Kernel) (r : nat) : list (string * Q) :=
  match heap k !! r with Some o => o | None => [] end.

(** [o[key]] where the code has made sure that [key] is a property of [o]. *)
Definition prop (o : list (string * Q)) (key : string) : Q :=
  match Js.oget key o with Some v => v | None => 0 end.

Definition onGraph {E A} (m : Js.M MemoryGraphStore.Store E A) : Js.M Kernel E A :=
  zoom memoryGraph
       (fun g k => mkKernel (characters k) g (config k) (emotionalStates k) (heap k) (nextRef k)) m.

Definition getCharacter (k : Kernel) (characterId : string) : option CharacterField :=
  Js.oget characterId (characters k).

Definition getCharacters (k : Kernel) : list CharacterField := Js.ovalues (characters k).

Definition getEmotionalState (k : Kernel) (characterId : string) : option EmotionalState :=
  Js.oget characterId (emotionalStates k).

(** [{ ...currentState, ...emotionalState }] *)
Definition mergeEmotion (cur : EmotionalState) (p : PartialEmotionalState) : EmotionalState :=
  mkEmotionalState
    (match p_dominant p with Some d => d | None => dominant cur end)
    (match p_secondary p with Some s => Some s | None => secondary cur end)
    (match p_intensity p with Some i => i | None => intensity cur end)
    (match p_stability p with Some s => s | None => stability cur end).

Definition updateEmotionalState (characterId : string) (p : PartialEmotionalState)
    (k : Kernel) : Kernel :=
  match Js.oget characterId (emotionalStates k) with
  | None => k
  | Some currentState =>
      setEmotionalStates (Js.oset characterId (mergeEmotion currentState p)) k
  end.

Definition defaultVariations : list (string * Q) :=
  [("joy", 0.2); ("sadness", 0.2); ("anger", 0.1);
   ("fear", 0.1); ("surprise", 0.2); ("disgust", 0.1)].

Definition defaultDriftDirections : list (string * Q) :=
  [("openness", 0.2); ("conscientiousness", 0.2); ("extraversion", 0.2);
   ("agreeableness", 0.2); ("neuroticism", 0.2)].

(** [uuidAnchor], [uuidCharacter] and [now] stand for the two calls of
    [uuidv4()] and for [Date.now()]. *)
Definition createCharacter {E} (uuidAnchor uuidCharacter : string) (now : Z)
    (name : string) (tone : option PartialToneProfile)
    (schema : option PartialMutationSchema) (threshold : option Q)
    : Js.M Kernel E string :=
  let* k0 := Js.get in
  let (defaultRef, k1) := newObject defaultVariations k0 in
  exec Js.modify (fun _ => k1) in
  let defaultToneProfile := mkTone "neutral" defaultRef 0.5 in
  let defaultMutationSchema :=
    mkSchema (mutationRate (config k0)) defaultDriftDirections
             ["core_memory"; "repeated_interaction"] in
  let* memoryAnchorId :=
    onGraph (MemoryGraphStore.addMemory uuidAnchor now
               ("Character creation: " +:+ name) "system"
               (Some [("type", MStr "character_anchor")])) in
  let tp :=
    match tone with
    | None => defaultToneProfile
    | Some p =>
        mkTone (match p_baseline p with Some b => b | None => baseline defaultToneProfile end)
               (match p_variations p with Some r => r | None => variations defaultToneProfile end)
               (match p_adaptability p with Some a => a | None => adaptability defaultToneProfile end)
    end in
  let ms :=
    match schema with
    | None => defaultMutationSchema
    | Some p =>
        mkSchema (match p_driftRate p with Some r => r | None => driftRate defaultMutationSchema end)
                 (match p_driftDirections p with Some d => d
                  | None => driftDirections defaultMutationSchema end)
                 (match p_stabilityFactors p with Some s => s
                  | None => stabilityFactors defaultMutationSchema end)
    end in
  let character :=
    mkCharacter uuidCharacter name tp ms memoryAnchorId
      (match threshold with Some c => c | None => defaultCollapseThreshold (config k0) end) in
  exec Js.modify (setEmotionalStates
         (Js.oset (char_id character) (mkEmotionalState (baseline tp) None 0.5 0.7))) in
  exec Js.modify (setCharacters (Js.oset (char_id character) character)) in
  Js.ret (char_id character).

Definition sumWeights (o : list (string * Q)) (keys : list string) : Q :=
  fold_left (fun acc emotion => acc + prop o emotion) keys 0.

Definition otherKeys (o : list (string * Q)) (d : string) : list string :=
  List.filter (fun e => negb (String.eqb e d)) (Js.okeys o).

(** The body of the loop that renormalises the other emotions:
    [variations[emotion] = (variations[emotion] / sumOtherWeights) * totalOtherWeight]. *)
Definition rescale (sumOtherWeights totalOtherWeight : Q)
    (o : list (string * Q)) (emotion : string) : list (string * Q) :=
  Js.oset emotion (prop o emotion / sumOtherWeights * totalOtherWeight) o.

(** The block of [applyMutation] guarded by
    [fold.emotionalState.dominant in toneProfile.variations], as a function
    of the object it updates. *)
Definition driftTone (rate : Q) (es : EmotionalState) (o : list (string * Q))
    : list (string * Q) :=
  let d := dominant es in
  let o1 := Js.oset d (Qmin 1 (prop o d + rate * intensity es)) o in
  let totalOtherWeight := 1 - prop o1 d in
  let otherEmotions := otherKeys o1 d in
  let sumOtherWeights := sumWeights o1 otherEmotions in
  if Qlt_bool 0 sumOtherWeights
  then fold_left (rescale sumOtherWeights totalOtherWeight) otherEmotions o1
  else o1.

Definition applyMutation (characterId : string) (f : RecursionFold) (k : Kernel) : Kernel :=
  match getCharacter k characterId with
  | None => k
  | Some character =>
      let rate := driftRate (mutationSchema character) in
      let es := fold_emotionalState f in
      let k1 :=
        updateEmotionalState characterId
          (mkPartialEmotion
             (Some (dominant es)) None (Some (intensity es))
             (Some (Qmin 1
                      (match Js.oget characterId (emotionalStates k) with
                       | Some s => stability s
                       | None => 0.5 + 0.1
                       end)))) k in
      let tp := toneProfile character in
      let r := variations tp in
      let k2 :=
        if Js.ohas (dominant es) (deref k1 r)
        then setHeap (insert r (driftTone rate es (deref k1 r))) k1
        else k1 in
      let tp1 :=
        if Qlt_bool 0.7 (stability es)
        then mkTone (dominant es) (variations tp) (adaptability tp)
        else tp in
      let intensityFactor := intensity es * 0.2 in
      let character1 :=
        mkCharacter (char_id character) (char_name character) tp1
          (mutationSchema character) (memoryAnchor character)
          (Qmax 0.1 (Qmin 0.9 (defaultCollapseThreshold (config k) - intensityFactor))) in
      setCharacters (Js.oset characterId character1) k2
  end.

Definition asPartial (es : EmotionalState) : PartialEmotionalState :=
  mkPartialEmotion (Some (dominant es)) (secondary es) (Some (intensity es)) (Some (stability es)).

(** The two loops of [reconfigureCharacter] over the tone weights. *)
Definition retone (es : EmotionalState) (o : list (string * Q)) : list (string * Q) :=
  let dominantWeight := Qmin 0.5 (0.3 + intensity es * 0.2) in
  let remainingWeight := 1 - dominantWeight in
  let otherEmotions := otherKeys o (dominant es) in
  let o1 :=
    fold_left
      (fun acc emotion =>
         Js.oset emotion (remainingWeight / inject_Z (Z.of_nat (length otherEmotions))) acc)
      otherEmotions o in
  Js.oset (dominant es) dominantWeight o1.

Definition reconfigureCharacter (characterId : string) (es : EmotionalState)
    (collapseThresholdAdjustment : Q) (k : Kernel) : Kernel :=
  match getCharacter k characterId with
  | None => k
  | Some character =>
      let k1 := updateEmotionalState characterId (asPartial es) k in
      let tp := toneProfile character in
      let r := variations tp in
      let k2 := setHeap (insert r (retone es (deref k1 r))) k1 in
      let tp1 := mkTone (dominant es) r (1 - stability es) in
      let character1 :=
        mkCharacter (char_id character) (char_name character) tp1
          (mutationSchema character) (memoryAnchor character)
          (Qmax 0.1 (Qmin 0.9 (collapseThreshold character + collapseThresholdAdjustment))) in
      setCharacters (Js.oset characterId character1) k2
  end.

(** [uuidAnchor], [uuidCharacter] and [now] stand for the two calls of
    [uuidv4()] and for [Date.now()]. *)
Definition forkCharacter {E} (uuidAnchor uuidCharacter : string) (now : Z)
    (characterId nameModifier : string) : Js.M Kernel E string :=
  let* k := Js.get in
  match getCharacter k characterId with
  | None => Js.throw (Js.CharacterNotFound characterId)
  | Some original =>
      let* newMemoryAnchorId :=
        onGraph (MemoryGraphStore.addMemory uuidAnchor now
                   ("Character fork: " +:+ char_name original +:+ " -> " +:+
                    char_name original +:+ " (" +:+ nameModifier +:+ ")")
                   "system"
                   (Some [("type", MStr "character_fork");
                          ("originalCharacterId", MStr characterId);
                          ("originalMemoryAnchor", MStr (memoryAnchor original))])) in
      exec onGraph (MemoryGraphStore.createEmotionalLink
                      (memoryAnchor original) newMemoryAnchorId 0.8) in
      exec onGraph (MemoryGraphStore.createDivergence
                      (memoryAnchor original) newMemoryAnchorId 0.5) in
      let forkedCharacter :=
        mkCharacter uuidCharacter
          (char_name original +:+ " (" +:+ nameModifier +:+ ")")
          (toneProfile original) (mutationSchema original)
          newMemoryAnchorId (collapseThreshold original) in
      exec Js.modify (setCharacters (Js.oset (char_id forkedCharacter) forkedCharacter)) in
      let* k' := Js.get in
      exec (match Js.oget characterId (emotionalStates k') with
            | Some originalEmotionalState =>
                Js.modify (setEmotionalStates
                             (Js.oset (char_id forkedCharacter) originalEmotionalState))
            | None => Js.ret tt
            end) in
      Js.ret (char_id forkedCharacter)
  end.

(** The tone distribution of a character, read through its profile. *)
Definition toneOf (k : Kernel) (characterId : string) : option (list (string * Q)) :=
  match getCharacter k characterId with
  | Some c => heap k !! variations (toneProfile c)
  | None => None
  end.

(** The sum of a tone distribution, and what makes an object one: distinct
    keys (as every JavaScript object has) holding probabilities. *)
Definition qsum (l : list Q) : Q := fold_right Qplus 0 l.

Definition totalWeight (o : list (string * Q)) : Q := qsum (Js.ovalues o).

Definition nonNegative (o : list (string * Q)) : Prop :=
  forall emotion w, In (emotion, w) o -> 0 <= w.

Definition isDistribution (o : list (string * Q)) : Prop :=
  List.NoDup (Js.okeys o) /\ nonNegative o /\ totalWeight o == 1.

(** The character [characterId] drifts at [rate] and reads its tone weights
    from the object [r], which holds a distribution that has emotion [d]. *)
Definition tonedBy (characterId : string) (r : nat) (rate : Q) (d : string)
    (k : Kernel) : Prop :=
  exists c o,
    getCharacter k characterId = Some c /\
    variations (toneProfile c) = r /\
    driftRate (mutationSchema c) = rate /\
    heap k !! r = Some o /\
    isDistribution o /\
    Js.ohas d o = true.

(** [applyMutation] called with each of [folds] in turn. *)
Definition applyMutations (characterId : string) (folds : list RecursionFold)
    (k : Kernel) : Kernel :=
  fold_left (fun acc f => applyMutation characterId f acc) folds k.

(** *** Memory traversal *)

Record MemoryTraversalPreference : Type := mkPreference {
  emotionalWeight : Q;
  recencyWeight : Q;
  causalityWeight : Q;
  pref_contradictionTolerance : Q;
  maxDepth : Z
}.

(** [r] stands for the value of [Math.random()], which is drawn only for a
    known character. *)
Definition getMemoryTraversalPreference (r : Q) (k : Kernel) (characterId : string)
    : MemoryTraversalPreference :=
  match getCharacter k characterId with
  | None => mkPreference 0.5 0.3 0.2 0.5 5%Z
  | Some _ =>
      mkPreference (emotionalMemoryWeight (config k)) 0.3 0.2
                   (contradictionTolerance (config k))
                   (5 + Qfloor (r * 3))%Z
  end.

(** [queue.sort((a, b) => b[1] - a[1])]: a stable sort, highest priority
    first. *)
Fixpoint insertByPriority (x : string * Q) (l : list (string * Q)) : list (string * Q) :=
  match l with
  | [] => [x]
  | y :: rest =>
      if Qlt_bool (snd x) (snd y) then y :: insertByPriority x rest else x :: y :: rest
  end.

Definition sortByPriority (l : list (string * Q)) : list (string * Q) :=
  fold_right insertByPriority [] l.

(** [successor.metadata?.emotionalState?.dominant === emotionalState.dominant] *)
Definition sharesDominant (successor : MemoryNode) (emotionalState : EmotionalState) : bool :=
  match node_metadata successor with
  | Some meta =>
      match Js.oget "emotionalState" meta with
      | Some (MEmotion e) => String.eqb (dominant e) (dominant emotionalState)
      | _ => false
      end
  | None => false
  end.

(** The priority with which a successor enters the queue; [now] is the value
    of [Date.now()]. *)
Definition successorPriority (now : Z) (preferences : MemoryTraversalPreference)
    (emotionalState : EmotionalState) (edge : MemoryEdge) (successor : MemoryNode)
    (priority : Q) : Q :=
  let emotionalPriority :=
    if EdgeType_eqb (type edge) emotional
    then (if sharesDominant successor emotionalState then weight edge * 1.5 else weight edge)
    else 0 in
  let ageInMs := (now - node_timestamp successor)%Z in
  let ageInHours := inject_Z ageInMs / (1000 * 60 * 60) in
  let recencyPriority := Qmax 0 (1 - ageInHours / 24) in
  let causalityPriority := if EdgeType_eqb (type edge) causality then weight edge else 0 in
  let overallPriority :=
    emotionalPriority * emotionalWeight preferences +
    recencyPriority * recencyWeight preferences +
    causalityPriority * causalityWeight preferences in
  overallPriority * priority * 0.9.

(** [edge.type === 'contradiction' && edge.weight > preferences.contradictionTolerance] *)
Definition intolerable (preferences : MemoryTraversalPreference) (edge : MemoryEdge) : bool :=
  EdgeType_eqb (type edge) contradiction &&
  Qlt_bool (pref_contradictionTolerance preferences) (weight edge).

(** The loop over the successors of [nodeId]. [Date.now()] is called once
    for each successor that enters the queue: [clock] gives the value of each
    call and [calls] counts them. *)
Fixpoint enqueueSuccessors (st : MemoryGraphStore.Store) (clock : nat -> Z)
    (preferences : MemoryTraversalPreference) (emotionalState : EmotionalState)
    (nodeId : string) (priority : Q) (visited : list string)
    (successors : list MemoryNode) (queue : list (string * Q)) (calls : nat)
    : list (string * Q) * nat :=
  match successors with
  | [] => (queue, calls)
  | successor :: rest =>
      if Js.setHas visited (node_id successor)
      then enqueueSuccessors st clock preferences emotionalState nodeId priority visited
             rest queue calls
      else
        match MemoryGraphStore.getEdgesBetween st nodeId (node_id successor) with
        | [] =>
            enqueueSuccessors st clock preferences emotionalState nodeId priority visited
              rest queue calls
        | edge :: _ =>
            if intolerable preferences edge
            then enqueueSuccessors st clock preferences emotionalState nodeId priority visited
                   rest queue calls
            else
              enqueueSuccessors st clock preferences emotionalState nodeId priority visited
                rest
                (queue ++ [(node_id successor,
                            successorPriority (clock calls) preferences emotionalState
                              edge successor priority)])
                (S calls)
        end
  end.

(** The [while] loop, for at most [rounds] rounds; [None] when the rounds
    are used up before the loop ends. *)
Fixpoint traversal (rounds : nat) (st : MemoryGraphStore.Store) (clock : nat -> Z)
    (preferences : MemoryTraversalPreference) (emotionalState : EmotionalState)
    (maxNodes : Z) (queue : list (string * Q)) (visited result : list string) (calls : nat)
    : option (list string) :=
  match rounds with
  | O => None
  | S rounds' =>
      if (0 <? length queue)%nat && (Z.of_nat (length result) <? maxNodes)%Z
      then
        match sortByPriority queue with
        | [] => Some result
        | (nodeId, priority) :: queue1 =>
            if Js.setHas visited nodeId
            then traversal rounds' st clock preferences emotionalState maxNodes
                   queue1 visited result calls
            else
              let visited1 := visited ++ [nodeId] in
              let result1 := result ++ [nodeId] in
              let successors := MemoryGraphStore.getSuccessors st nodeId in
              let (queue2, calls2) :=
                enqueueSuccessors st clock preferences emotionalState nodeId priority
                  visited1 successors queue1 calls in
              traversal rounds' st clock preferences emotionalState maxNodes
                queue2 visited1 result1 calls2
        end
      else Some result
  end.

(** Every round takes an entry from the queue, and an entry enters the
    queue for an edge of the graph that leaves a node visited in that round:
    the loop ends within as many rounds as the graph has edges, and one
    more. *)
Definition weightedMemoryTraversal (st : MemoryGraphStore.Store) (clock : nat -> Z)
    (startNodeId : string) (preferences : MemoryTraversalPreference)
    (emotionalState : EmotionalState) (maxNodes : Z) : option (list string) :=
  traversal (2 + length (Graphlib.g_edges (MemoryGraphStore.graph st))) st clock
    preferences emotionalState maxNodes [(startNodeId, 1.0)] [] [] 0.

Definition traverseMemory (r : Q) (clock : nat -> Z) (k : Kernel)
    (characterId : string) (startNodeId : option string) (maxNodes : Z)
    : option (list string) :=
  match getCharacter k characterId with
  | None => Some []
  | Some character =>
      let startId :=
        match startNodeId with Some i => i | None => memoryAnchor character end in
      let preferences := getMemoryTraversalPreference r k characterId in
      match getEmotionalState k characterId with
      | None => Some []
      | Some emotionalState =>
          weightedMemoryTraversal (memoryGraph k) clock startId preferences emotionalState
            maxNodes
      end
  end.

(** [w] is entered from a node of [earlier]: an edge that the traversal
    tolerates joins one of them to [w]. *)
Definition enteredFrom (st : MemoryGraphStore.Store) (preferences : MemoryTraversalPreference)
    (earlier : list string) (w : string) : Prop :=
  exists v edge,
    In v earlier /\
    Graphlib.edge (MemoryGraphStore.graph st) v w = Some edge /\
    intolerable preferences edge = false.

(** Every id of [l] but the first is entered from the ids before it. *)
Definition chained (st : MemoryGraphStore.Store) (preferences : MemoryTraversalPreference)
    (startId : string) (l : list string) : Prop :=
  forall pre w post, l = pre ++ w :: post ->
    (pre = [] /\ w = startId) \/ enteredFrom st preferences pre w.

End CharacterKernel.

(** ** index.ts

    The runtime that the [McTavish] constructor wires: one store, which the
    kernel, the matcher and the binding logic all hold, and the engine, whose
    ['recursionFold'] and ['premonition'] events the runtime listens to. The
    methods of collapseEngine.ts that call into the kernel and reach the
    listeners ([processFracture] and what it calls) are written here, over
    the whole runtime.

    These methods call [Math.random()], [uuidv4()] and [Date.now()] a number
    of times that depends on the values drawn, so the values come from an
    environment: the [n]-th call of each function returns the [n]-th value of
    its sequence. *)
Module McTavish.

Record Environment : Type := mkEnvironment {
  randomAt : nat -> Q;
  uuidAt : nat -> string;
  clockAt : nat -> Z;
  randomCalls : nat;
  uuidCalls : nat;
  clockCalls : nat
}.

Record Runtime : Type := mkRuntime {
  environment : Environment;
  config : McTavishConfig;
  collapseEngine : CollapseEngine.Engine;
  memoryGraph : MemoryGraphStore.Store;
  characterKernel : CharacterKernel.Kernel;
  premonitionMatcher : PremonitionMatcher.Matcher;
  interactionBinding : InteractionBindingLogic.Logic
}.

(** What the components of the runtime emit. *)
Inductive Signal : Type :=
| fromEngine (e : CollapseEngine.Event)
| fromMatcher (e : PremonitionMatcher.Event)
| fromBinding (e : InteractionBindingLogic.Notice).

Abbreviation RuntimeM := (Js.M Runtime Signal).

(** [Partial<McTavishConfig>] *)
Record PartialConfig : Type := mkPartialConfig {
  p_defaultCollapseThreshold : option Q;
  p_premonitionValidityWindow : option Z;
  p_mutationRate : option Q;
  p_emotionalMemoryWeight : option Q;
  p_contradictionTolerance : option Q
}.

Definition orElse {A} (o : option A) (d : A) : A :=
  match o with Some a => a | None => d end.

(** [new McTavish(config)], in the environment [env]. *)
Definition create (env : Environment) (overrides : option PartialConfig) : Runtime :=
  let c :=
    match overrides with
    | None => mkConfig 0.7 5%Z 0.05 0.6 0.3
    | Some o =>
        mkConfig (orElse (p_defaultCollapseThreshold o) 0.7)
                 (orElse (p_premonitionValidityWindow o) 5%Z)
                 (orElse (p_mutationRate o) 0.05)
                 (orElse (p_emotionalMemoryWeight o) 0.6)
                 (orElse (p_contradictionTolerance o) 0.3)
    end in
  let memoryGraph := MemoryGraphStore.empty in
  mkRuntime env c CollapseEngine.create memoryGraph
            (CharacterKernel.create memoryGraph c)
            (PremonitionMatcher.create memoryGraph)
            (InteractionBindingLogic.create memoryGraph).

(** *** The environment *)

Definition setEnvironment (e : Environment) (rt : Runtime) : Runtime :=
  mkRuntime e (config rt) (collapseEngine rt) (memoryGraph rt) (characterKernel rt)
            (premonitionMatcher rt) (interactionBinding rt).

(** [Math.random()] *)
Definition random : RuntimeM Q :=
  let* rt := Js.get in
  let e := environment rt in
  exec Js.modify (setEnvironment
                    (mkEnvironment (randomAt e) (uuidAt e) (clockAt e)
                                   (S (randomCalls e)) (uuidCalls e) (clockCalls e))) in
  Js.ret (randomAt e (randomCalls e)).

(** [uuidv4()] *)
Definition uuidv4 : RuntimeM string :=
  let* rt := Js.get in
  let e := environment rt in
  exec Js.modify (setEnvironment
                    (mkEnvironment (randomAt e) (uuidAt e) (clockAt e)
                                   (randomCalls e) (S (uuidCalls e)) (clockCalls e))) in
  Js.ret (uuidAt e (uuidCalls e)).

(** [Date.now()] *)
Definition dateNow : RuntimeM Z :=
  let* rt := Js.get in
  let e := environment rt in
  exec Js.modify (setEnvironment
                    (mkEnvironment (randomAt e) (uuidAt e) (clockAt e)
                                   (randomCalls e) (uuidCalls e) (S (clockCalls e)))) in
  Js.ret (clockAt e (clockCalls e)).

(** *** The components and the store they share

    A component sees the store of the runtime in its own [memoryGraph] field,
    and what it does to the store is done to the store of the runtime. *)

Definition setMemoryGraph (g : MemoryGraphStore.Store) (rt : Runtime) : Runtime :=
  mkRuntime (environment rt) (config rt) (collapseEngine rt) g (characterKernel rt)
            (premonitionMatcher rt) (interactionBinding rt).

Definition setCollapseEngine (e : CollapseEngine.Engine) (rt : Runtime) : Runtime :=
  mkRuntime (environment rt) (config rt) e (memoryGraph rt) (characterKernel rt)
            (premonitionMatcher rt) (interactionBinding rt).

Definition kernelOf (rt : Runtime) : CharacterKernel.Kernel :=
  let k := characterKernel rt in
  CharacterKernel.mkKernel (CharacterKernel.characters k) (memoryGraph rt)
    (CharacterKernel.config k) (CharacterKernel.emotionalStates k)
    (CharacterKernel.heap k) (CharacterKernel.nextRef k).

Definition setCharacterKernel (k : CharacterKernel.Kernel) (rt : Runtime) : Runtime :=
  mkRuntime (environment rt) (config rt) (collapseEngine rt) (CharacterKernel.memoryGraph k) k
            (premonitionMatcher rt) (interactionBinding rt).

Definition matcherOf (rt : Runtime) : PremonitionMatcher.Matcher :=
  let t := premonitionMatcher rt in
  PremonitionMatcher.mkMatcher (memoryGraph rt) (PremonitionMatcher.activePremonitions t)
    (PremonitionMatcher.turnCounter t).

Definition setPremonitionMatcher (t : PremonitionMatcher.Matcher) (rt : Runtime) : Runtime :=
  mkRuntime (environment rt) (config rt) (collapseEngine rt) (PremonitionMatcher.memoryGraph t)
            (characterKernel rt) t (interactionBinding rt).

Definition bindingOf (rt : Runtime) : InteractionBindingLogic.Logic :=
  let l := interactionBinding rt in
  InteractionBindingLogic.mkLogic (memoryGraph rt) (InteractionBindingLogic.pendingBindings l)
    (InteractionBindingLogic.selectedResponses l).

Definition setInteractionBinding (l : InteractionBindingLogic.Logic) (rt : Runtime) : Runtime :=
  mkRuntime (environment rt) (config rt) (collapseEngine rt)
            (InteractionBindingLogic.memoryGraph l) (characterKernel rt)
            (premonitionMatcher rt) l.

(** A method of a component, with the events it emits seen as signals. *)
Definition signalling {S E A} (f : E -> Signal) (m : Js.M S E A) : Js.M S Signal A :=
  fun s => match m s with (o, s', ev) => (o, s', List.map f ev) end.

Definition onGraph {A} (m : Js.M MemoryGraphStore.Store Signal A) : RuntimeM A :=
  zoom memoryGraph setMemoryGraph m.

Definition onEngine {A} (m : CollapseEngine.EngineM A) : RuntimeM A :=
  zoom collapseEngine setCollapseEngine (signalling fromEngine m).

Definition onKernel {A} (m : Js.M CharacterKernel.Kernel Signal A) : RuntimeM A :=
  zoom kernelOf setCharacterKernel m.

(** The runtime calls one method of the matcher, [addPremonition], which
    emits nothing: the listeners of the events of the matcher have nothing
    to run on, and are not written here. *)
Definition onMatcher {A} (m : PremonitionMatcher.MatcherM A) : RuntimeM A :=
  zoom matcherOf setPremonitionMatcher (signalling fromMatcher m).

Definition onBinding {A} (m : InteractionBindingLogic.NoticeM A) : RuntimeM A :=
  zoom bindingOf setInteractionBinding (signalling fromBinding m).

(** *** The listeners

    What [handleRecursionFold] prints on the console is left out. *)

Definition handleRecursionFold (f : RecursionFold) : RuntimeM unit :=
  exec (match fold_fractureEventId f with
        | Some fractureEventId =>
            if Js.truthyString fractureEventId
            then
              let* rt := Js.get in
              match MemoryGraphStore.getNode (memoryGraph rt) fractureEventId with
              | Some _ => Js.ret tt
              | None =>
                  let* now := dateNow in
                  let placeholderFracture :=
                    mkFracture fractureEventId "Placeholder fracture" (now - 1000)%Z system None in
                  exec onGraph (MemoryGraphStore.addFracture placeholderFracture) in
                  Js.ret tt
              end
            else Js.ret tt
        | None => Js.ret tt
        end) in
  exec onGraph (MemoryGraphStore.addFold f) in
  Js.ret tt.

Definition handlePremonition (p : Premonition) : RuntimeM unit :=
  exec onGraph (MemoryGraphStore.addPremonition p) in
  onMatcher (PremonitionMatcher.addPremonition p).

(** *** collapseEngine.ts, the methods that run over the runtime

    [this.characterKernel] is the kernel of the runtime, [this.config] its
    configuration; [this.emit] records the event and runs the listener that
    the constructor of the runtime subscribed. *)

Definition setPendingFolds (f : list (string * RecursionFold) -> list (string * RecursionFold))
    (e : CollapseEngine.Engine) : CollapseEngine.Engine :=
  CollapseEngine.mkEngine (CollapseEngine.activeFractures e)
    (f (CollapseEngine.pendingFolds e)) (CollapseEngine.pendingPremonitions e).

Definition setPendingPremonitions
    (f : list (string * Premonition) -> list (string * Premonition))
    (e : CollapseEngine.Engine) : CollapseEngine.Engine :=
  CollapseEngine.mkEngine (CollapseEngine.activeFractures e)
    (CollapseEngine.pendingFolds e) (f (CollapseEngine.pendingPremonitions e)).

Definition setActiveFractures
    (f : list (string * FractureEvent) -> list (string * FractureEvent))
    (e : CollapseEngine.Engine) : CollapseEngine.Engine :=
  CollapseEngine.mkEngine (f (CollapseEngine.activeFractures e))
    (CollapseEngine.pendingFolds e) (CollapseEngine.pendingPremonitions e).

Definition calculateTension (character : CharacterKernel.CharacterField) (fr : FractureEvent)
    : Q :=
  let baseRelevance := 0.5 in
  let emotionalAlignment := 0.3 in
  let memoryResonance := 0.2 in
  baseRelevance + emotionalAlignment + memoryResonance.

Definition getPremontionProbability (character : CharacterKernel.CharacterField) : Q := 0.2.

Definition emotions : list string :=
  ["joy"; "sadness"; "anger"; "fear"; "surprise"; "disgust"].

(** [emotions[Math.floor(Math.random() * emotions.length)]]; an index out of
    the array, which no value of [Math.random()] gives, reads [undefined]. *)
Definition selectDominantEmotion (character : CharacterKernel.CharacterField)
    : RuntimeM string :=
  let* r := random in
  let index := Qfloor (r * inject_Z (Z.of_nat (length emotions))) in
  Js.ret (if (index <? 0)%Z then "undefined" else nth (Z.to_nat index) emotions "undefined").

(** The double quotation mark that the two template strings contain. *)
Definition quote : string := String (ascii_of_nat 34) EmptyString.

Definition generateRecursionFold (character : CharacterKernel.CharacterField)
    (fr : FractureEvent) : RuntimeM unit :=
  let* d := selectDominantEmotion character in
  let* i := random in
  let* s := random in
  let emotionalState := mkEmotionalState d None i s in
  let* id := uuidv4 in
  let* now := dateNow in
  let f :=
    mkFold id
      ("Response from " +:+ CharacterKernel.char_name character +:+ " to " +:+
       quote +:+ fr_content fr +:+ quote)
      now (CharacterKernel.char_id character) (Some (fr_id fr)) emotionalState None in
  exec onEngine (Js.modify (setPendingFolds (Js.oset (fold_id f) f))) in
  exec Js.emit (fromEngine (CollapseEngine.recursionFold f)) in
  exec handleRecursionFold f in
  onKernel (Js.modify (CharacterKernel.applyMutation (CharacterKernel.char_id character) f)).

Definition generatePremonition (character : CharacterKernel.CharacterField) : RuntimeM unit :=
  let* d := selectDominantEmotion character in
  let* i := random in
  let* s := random in
  let emotionalState := mkEmotionalState d None i s in
  let bindingCriteria := mkBindingCriteria 0.7 0.6 (Some ["example"; "keyword"]) in
  let* id := uuidv4 in
  let* now := dateNow in
  let* rt := Js.get in
  let p :=
    mkPremonition
      (mkFold id
         ("Premonition from " +:+ CharacterKernel.char_name character +:+ ": " +:+
          quote +:+ "Something is about to happen..." +:+ quote)
         now (CharacterKernel.char_id character) None emotionalState None)
      (premonitionValidityWindow (config rt)) bindingCriteria in
  exec onEngine (Js.modify (setPendingPremonitions (Js.oset (prem_id p) p))) in
  exec Js.emit (fromEngine (CollapseEngine.premonitionEmitted p)) in
  handlePremonition p.

(** The callback of [characters.forEach]. [getCharacters()] lists the
    character objects themselves, which [applyMutation] updates in place, so
    the fields of a character are those it has when its turn comes: the
    callback reads the character under its key of the map. *)
Definition eachCharacter (fr : FractureEvent) (key : string) : RuntimeM unit :=
  let* rt := Js.get in
  match Js.oget key (CharacterKernel.characters (characterKernel rt)) with
  | None => Js.ret tt
  | Some character =>
      let tensionLevel := calculateTension character fr in
      exec (if Qle_bool (CharacterKernel.collapseThreshold character) tensionLevel
            then generateRecursionFold character fr
            else Js.ret tt) in
      let* r := random in
      if Qlt_bool r (getPremontionProbability character)
      then generatePremonition character
      else Js.ret tt
  end.

Definition processFracture (fr : FractureEvent) : RuntimeM unit :=
  exec onEngine (Js.modify (setActiveFractures (Js.oset (fr_id fr) fr))) in
  let* rt := Js.get in
  Js.forOf (Js.okeys (CharacterKernel.characters (characterKernel rt))) (eachCharacter fr).

(** *** The public methods *)

Definition introduceFracture (content : string) (src : Source) : RuntimeM unit :=
  let* id := uuidv4 in
  let* now := dateNow in
  let fr := CollapseEngine.createFracture id now content src in
  exec onGraph (MemoryGraphStore.addFracture fr) in
  processFracture fr.

Definition getCharacters (rt : Runtime) : list CharacterKernel.CharacterField :=
  CharacterKernel.getCharacters (characterKernel rt).

(** [now] stands for [Date.now()], which [selectResponse] calls only when it
    goes through with the selection. *)
Definition selectResponse (now : Z) (foldId : string) : RuntimeM unit :=
  onBinding (InteractionBindingLogic.selectResponse now foldId).

(** The requests that the runtime serves, and a session of them. *)
Inductive Request : Type :=
| IntroduceFracture (content : string) (src : Source)
| SelectResponse (now : Z) (foldId : string).

Definition serve (q : Request) : RuntimeM unit :=
  match q with
  | IntroduceFracture content src => introduceFracture content src
  | SelectResponse now foldId => selectResponse now foldId
  end.

Definition session (requests : list Request) : RuntimeM unit := Js.forOf requests serve.

(** The reactions and the echoes among the signals of a call. *)
Definition reactionOf (s : Signal) : option RecursionFold :=
  match s with
  | fromEngine (CollapseEngine.recursionFold f) => Some f
  | _ => None
  end.

Definition echoOf (s : Signal) : option Premonition :=
  match s with
  | fromEngine (CollapseEngine.premonitionEmitted p) => Some p
  | _ => None
  end.

Definition reactions (signals : list Signal) : list RecursionFold :=
  omap reactionOf signals.

Definition echoes (signals : list Signal) : list Premonition :=
  omap echoOf signals.

(** The echo [i] is held by the matcher in the state in which
    [addPremonition] registers an echo of the engine: created at the turn of
    the matcher, valid for the window of the configuration, not tried and
    not bound. *)
Definition registered (rt : Runtime) (i : string) : Prop :=
  exists p,
    prem_id p = i /\
    Js.oget i (PremonitionMatcher.activePremonitions (premonitionMatcher rt)) =
      Some (PremonitionMatcher.mkState p
              (PremonitionMatcher.turnCounter (premonitionMatcher rt))
              (PremonitionMatcher.turnCounter (premonitionMatcher rt) +
               premonitionValidityWindow (config rt))%Z 0%Z false).

(** What the engine and the listeners keep while a stimulus is processed. *)
Record keeps (rt rt' : Runtime) : Prop := mkKeeps {
  keeps_config : config rt' = config rt;
  keeps_random : randomAt (environment rt') = randomAt (environment rt);
  keeps_uuid : uuidAt (environment rt') = uuidAt (environment rt);
  keeps_clock : clockAt (environment rt') = clockAt (environment rt);
  keeps_binding : interactionBinding rt' = interactionBinding rt;
  keeps_turn :
    PremonitionMatcher.turnCounter (premonitionMatcher rt') =
    PremonitionMatcher.turnCounter (premonitionMatcher rt);
  keeps_fractures :
    CollapseEngine.activeFractures (collapseEngine rt') =
    CollapseEngine.activeFractures (collapseEngine rt);
  keeps_graph_nodes :
    forall i, Graphlib.hasNode (MemoryGraphStore.graph (memoryGraph rt)) i = true ->
              Graphlib.hasNode (MemoryGraphStore.graph (memoryGraph rt')) i = true;
  keeps_nodes :
    forall i, Js.ohas i (MemoryGraphStore.nodes (memoryGraph rt)) = true ->
              Js.ohas i (MemoryGraphStore.nodes (memoryGraph rt')) = true;
  keeps_links :
    forall v w,
      Graphlib.edge (MemoryGraphStore.graph (memoryGraph rt)) v w =
        Some (mkEdge v w causality 1.0 None) ->
      Graphlib.edge (MemoryGraphStore.graph (memoryGraph rt')) v w =
        Some (mkEdge v w causality 1.0 None);
  keeps_sound :
    MemoryGraphStore.sound (memoryGraph rt) -> MemoryGraphStore.sound (memoryGraph rt');
  keeps_keys :
    Js.okeys (CharacterKernel.characters (characterKernel rt')) =
    Js.okeys (CharacterKernel.characters (characterKernel rt));
  keeps_characters :
    forall key c,
      Js.oget key (CharacterKernel.characters (characterKernel rt)) = Some c ->
      exists c',
        Js.oget key (CharacterKernel.characters (characterKernel rt')) = Some c' /\
        CharacterKernel.char_id c' = CharacterKernel.char_id c /\
        CharacterKernel.char_name c' = CharacterKernel.char_name c /\
        (CharacterKernel.collapseThreshold c <= 1 ->
         CharacterKernel.collapseThreshold c' <= 1);
  keeps_registered : forall i, registered rt i -> registered rt' i;
  keeps_pendingFolds :
    forall i, Js.ohas i (CollapseEngine.pendingFolds (collapseEngine rt)) = true ->
              Js.ohas i (CollapseEngine.pendingFolds (collapseEngine rt')) = true;
  keeps_pendingPremonitions :
    forall i, Js.ohas i (CollapseEngine.pendingPremonitions (collapseEngine rt)) = true ->
              Js.ohas i (CollapseEngine.pendingPremonitions (collapseEngine rt')) = true
}.

End McTavish.

(** ** Concrete runs

    The inputs of the scenarios that the properties below evaluate. *)
Module Scenarios.

(** Scenario A: an echo registered at turn 0, and the stimulus of turn 1. *)
Definition echoA : Premonition :=
  mkPremonition
    (mkFold "echo-E" "you're about to ask about her" 0%Z "assistant" None
       (mkEmotionalState "curiosity" None 0.8 0.4) None)
    3%Z
    (mkBindingCriteria 0.6 0.5 (Some ["elena"; "her"])).

Definition stimulusA : FractureEvent :=
  mkFracture "stimulus-1" "What happened to Elena?" 1000%Z user None.

(** The matcher after [addPremonition(echoA)] at turn 0, the node of the
    stimulus being in the store as it is when the runtime submits one. *)
Definition matcherA : PremonitionMatcher.Matcher :=
  let registered :=
    Js.final (PremonitionMatcher.addPremonition echoA
                (PremonitionMatcher.create MemoryGraphStore.empty)) in
  Js.final (PremonitionMatcher.onGraph (MemoryGraphStore.addFracture stimulusA) registered).

(** The echo as the demonstration script of the repository registers it. *)
Definition echoDemo : Premonition :=
  mkPremonition
    (mkFold "echo-E" "You're about to ask about her." 0%Z "assistant" None
       (mkEmotionalState "curiosity" None 0.8 0.4) None)
    3%Z
    (mkBindingCriteria 0.6 0.5 (Some ["elena"; "her"; "she"; "happened"])).

(** Scenario D: a reaction with no stimulus id, then a stimulus that shares
    four of its five words. *)
Definition reactionD : RecursionFold :=
  mkFold "reaction-1" "the storm is coming tonight" 10%Z "elena" None
    (mkEmotionalState "fear" None 0.5 0.5) None.

Definition stimulusD : FractureEvent :=
  mkFracture "stimulus-1" "The storm is coming" 20%Z user None.

Definition logicD : InteractionBindingLogic.Logic :=
  Js.final (InteractionBindingLogic.processFold 11%Z reactionD
              (InteractionBindingLogic.create MemoryGraphStore.empty)).

(** The configuration that [new McTavish()] builds by default. *)
Definition defaultConfig : McTavishConfig := mkConfig 0.7 5%Z 0.05 0.6 0.3.

(** The tone weights of the character Elena of the demonstration script. *)
Definition elenaVariations : list (string * Q) :=
  [("sadness", 0.2); ("anger", 0.2); ("fear", 0.1);
   ("disgust", 0.1); ("joy", 0.2); ("surprise", 0.2)].

Definition elenaSchema : CharacterKernel.MutationSchema :=
  CharacterKernel.mkSchema 0.1
    [("melancholy", 0.4); ("bitterness", 0.3); ("resilience", 0.3)]
    ["core_memory"; "repeated_interaction"].

(** A kernel with that one character, created as the script does. *)
Definition kernelElena : CharacterKernel.Kernel :=
  let (r, k) := CharacterKernel.newObject elenaVariations
                  (CharacterKernel.create MemoryGraphStore.empty defaultConfig) in
  Js.final (CharacterKernel.createCharacter (E:=Empty_set)
              "anchor-1" "elena" 100%Z "Elena"
              (Some (CharacterKernel.mkPartialTone (Some "neutral") (Some r) (Some 0.5)))
              (Some (CharacterKernel.mkPartialSchema
                       (Some (CharacterKernel.driftRate elenaSchema))
                       (Some (CharacterKernel.driftDirections elenaSchema))
                       (Some (CharacterKernel.stabilityFactors elenaSchema))))
              (Some 0.7) k).

Definition elena : CharacterKernel.CharacterField :=
  CharacterKernel.mkCharacter "elena" "Elena" (CharacterKernel.mkTone "neutral" 0 0.5)
    elenaSchema "anchor-1" 0.7.

(** ... and after [forkCharacter("elena", "cruel")]. *)
Definition kernelForked : CharacterKernel.Kernel :=
  Js.final (CharacterKernel.forkCharacter (E:=Empty_set)
              "anchor-2" "elena-cruel" 200%Z "elena" "cruel" kernelElena).

Definition joyfulFold : RecursionFold :=
  mkFold "reaction-2" "hello" 300%Z "elena" (Some "stimulus-1")
    (mkEmotionalState "joy" None 0.8 0.5) None.

Definition angryState : EmotionalState :=
  mkEmotionalState "anger" (Some "disgust") 0.8 0.6.

(** An engine holding one pending echo and one active stimulus. *)
Definition engineA : CollapseEngine.Engine :=
  CollapseEngine.mkEngine [("stimulus-1", stimulusA)] [] [("echo-E", echoA)].

(** A store with a single node. *)
Definition storeOne : MemoryGraphStore.Store :=
  Js.final (MemoryGraphStore.addFracture (E:=Empty_set) stimulusA MemoryGraphStore.empty).

(** A store with the two memory anchors of a character and of its fork. *)
Definition storeAnchors : MemoryGraphStore.Store :=
  Js.final (MemoryGraphStore.addMemory (E:=Empty_set) "anchor-2" 200%Z
              "Character fork: Elena -> Elena (cruel)" "system" None
     (Js.final (MemoryGraphStore.addMemory (E:=Empty_set) "anchor-1" 100%Z
                  "Character creation: Elena" "system" None MemoryGraphStore.empty))).

(** Three memories [a], [b], [c] in the order of their timestamps, with the
    edges a -> b (emotional, 0.9), a -> b (divergence, 0.1) and
    a -> c (causality, 0.5) inserted in that order. *)
Definition storeForked : MemoryGraphStore.Store :=
  let add (i : string) (ts : Z) (st : MemoryGraphStore.Store) :=
    Js.final (MemoryGraphStore.addMemory (E:=Empty_set) i ts i "system" None st) in
  let link (e : MemoryEdge) (st : MemoryGraphStore.Store) :=
    Js.final (MemoryGraphStore.addEdge (E:=Empty_set) e st) in
  link (mkEdge "a" "c" causality 0.5 None)
    (link (mkEdge "a" "b" divergence 0.1 None)
       (link (mkEdge "a" "b" emotional 0.9 None)
          (add "c" 3%Z (add "b" 2%Z (add "a" 1%Z MemoryGraphStore.empty))))).

Definition affectiveEdge : MemoryEdge := mkEdge "anchor-1" "anchor-2" emotional 0.8 None.
Definition divergenceEdge : MemoryEdge := mkEdge "anchor-1" "anchor-2" divergence 0.5 None.

(** An edge whose target is not in [storeOne]. *)
Definition danglingEdge : MemoryEdge := mkEdge "stimulus-1" "nowhere" causality 1 None.

(** Five reactions of joy, of growing intensity. *)
Definition fiveJoys : list RecursionFold :=
  List.map (fun i => mkFold "reaction" "hello" 300%Z "elena" (Some "stimulus-1")
                       (mkEmotionalState "joy" None i 0.5) None)
           [0.2; 0.4; 0.6; 0.8; 1].

(** Five stimuli, each stored and then submitted, after the registration of
    [echoA] at turn 0. *)
Definition stimulusN (n : Z) (i : string) : FractureEvent :=
  mkFracture i "and then what happened?" (1000 * n)%Z user None.

Definition fiveTurns : list PremonitionMatcher.Op :=
  List.flat_map
    (fun ni => [PremonitionMatcher.Store (stimulusN (fst ni) (snd ni));
                PremonitionMatcher.Submit (1000 * fst ni + 1)%Z (stimulusN (fst ni) (snd ni))])
    [(1%Z, "stimulus-1"); (2%Z, "stimulus-2"); (3%Z, "stimulus-3");
     (4%Z, "stimulus-4"); (5%Z, "stimulus-5")].

(** A kernel with one character created with every default, and that
    character. *)
Definition kernelDefault : CharacterKernel.Kernel :=
  Js.final (CharacterKernel.createCharacter (E:=Empty_set)
              "anchor-0" "bob" 50%Z "Bob" None None None
              (CharacterKernel.create MemoryGraphStore.empty defaultConfig)).

Definition bob : CharacterKernel.CharacterField :=
  CharacterKernel.mkCharacter "bob" "Bob" (CharacterKernel.mkTone "neutral" 0 0.5)
    (CharacterKernel.mkSchema 0.05 CharacterKernel.defaultDriftDirections
       ["core_memory"; "repeated_interaction"])
    "anchor-0" 0.7.

(** A reaction that carries the id of its stimulus in its own metadata, and
    the binding logic after the stimulus and then that reaction have been
    processed. *)
Definition taggedFold : RecursionFold :=
  mkFold "reaction-3" "hello again" 310%Z "elena" (Some "stimulus-1")
    (mkEmotionalState "joy" None 0.8 0.5)
    (Some [("fractureEventId", MStr "stimulus-1")]).

Definition logicTagged : InteractionBindingLogic.Logic :=
  Js.final (InteractionBindingLogic.processFold 400%Z taggedFold
     (Js.final (InteractionBindingLogic.processFracture 350%Z stimulusA
        (InteractionBindingLogic.create MemoryGraphStore.empty)))).

(** An echo whose criteria the stimulus of scenario A meets, and the matcher
    that holds it, with the node of the stimulus in the store. *)
Definition echoEager : Premonition :=
  mkPremonition
    (mkFold "echo-F" "what happened to her" 0%Z "assistant" None
       (mkEmotionalState "curiosity" None 0.8 0.4) None)
    3%Z
    (mkBindingCriteria 1 1 (Some ["elena"])).


(** The values that the three functions give in the runs below: every third
    random value is 0.1 and the others are 0.7; the ids are id-0, id-1, ...;
    the clock reads 1000, 1001, ... *)
Definition environmentDemo : McTavish.Environment :=
  McTavish.mkEnvironment
    (fun n => if (n mod 3 =? 0)%nat then 0.1 else 0.7)
    (fun n => "id-" +:+ String (ascii_of_nat (48 + n)) EmptyString)
    (fun n => (1000 + Z.of_nat n)%Z)
    0 0 0.

(** The runtime that [new McTavish()] builds, after its kernel has created
    the character Elena with the threshold 0.7. *)
Definition runtimeElena : McTavish.Runtime :=
  Js.final (McTavish.onKernel
              (CharacterKernel.createCharacter "anchor-1" "elena" 100%Z "Elena"
                 None None (Some 0.7))
              (McTavish.create environmentDemo None)).

End Scenarios.

(** * Properties *)

(** ** Insertion-ordered maps *)
Section OMapFacts.
Context {K V : Type} `{EqDecision K}.
Implicit Types (k : K) (v : V) (m : list (K * V)).

Lemma oget_oset_eq k v m : Js.oget k (Js.oset k v m) = Some v.
Proof.
  induction m as [|[k' v'] m IH]; simpl.
  - destruct (decide (k = k)); congruence.
  - destruct (decide (k' = k)) as [->|Hne]; simpl.
    + destruct (decide (k = k)); congruence.
    + destruct (decide (k' = k)); [contradiction|exact IH].
Qed.

Lemma oget_oset_ne k k' v m : k <> k' -> Js.oget k (Js.oset k' v m) = Js.oget k m.
Proof.
  intros Hne. induction m as [|[k0 v0] m IH]; simpl.
  - destruct (decide (k' = k)); congruence.
  - destruct (decide (k0 = k')) as [->|Hne0]; simpl.
    + destruct (decide (k' = k)); congruence.
    + destruct (decide (k0 = k)); [reflexivity|exact IH].
Qed.

Lemma ohas_oset_eq k v m : Js.ohas k (Js.oset k v m) = true.
Proof. unfold Js.ohas. now rewrite oget_oset_eq. Qed.

Lemma ohas_oset_ne k k' v m : k <> k' -> Js.ohas k (Js.oset k' v m) = Js.ohas k m.
Proof. intros Hne. unfold Js.ohas. now rewrite oget_oset_ne. Qed.

Lemma ohas_oset_mono k k' v m : Js.ohas k m = true -> Js.ohas k (Js.oset k' v m) = true.
Proof.
  intros Hk. destruct (decide (k = k')) as [->|Hne].
  - apply ohas_oset_eq.
  - now rewrite ohas_oset_ne.
Qed.

Lemma in_oset_same k v m : In (k, v) (Js.oset k v m).
Proof.
  induction m as [|[k' v'] m IH]; simpl.
  - now left.
  - destruct (decide (k' = k)); simpl; auto.
Qed.

Lemma in_oset_other k v k' v' m :
  In (k, v) m -> k <> k' -> In (k, v) (Js.oset k' v' m).
Proof.
  intros Hin Hne. induction m as [|[k0 v0] m IH]; simpl in *.
  - contradiction.
  - destruct (decide (k0 = k')) as [->|Hne0]; simpl.
    + destruct Hin as [Heq|Hin]; [congruence|now right].
    + destruct Hin as [Heq|Hin]; [now left|right; now apply IH].
Qed.

Lemma in_oset_inv k v k' v' m :
  In (k, v) (Js.oset k' v' m) -> (k = k' /\ v = v') \/ In (k, v) m.
Proof.
  induction m as [|[k0 v0] m IH]; simpl.
  - intros [Heq|[]]. left. split; congruence.
  - destruct (decide (k0 = k')) as [->|Hne0]; simpl.
    + intros [Heq|Hin]; [left; split; congruence|right; now right].
    + intros [Heq|Hin]; [right; now left|].
      destruct (IH Hin) as [?|?]; [now left|right; now right].
Qed.

Lemma okeys_oset_in k k' v m :
  In k (Js.okeys (Js.oset k' v m)) <-> k = k' \/ In k (Js.okeys m).
Proof.
  unfold Js.okeys. induction m as [|[k0 v0] m IH]; simpl.
  - intuition.
  - destruct (decide (k0 = k')) as [->|Hne0]; simpl.
    + intuition.
    + rewrite IH. intuition.
Qed.

Lemma oget_None_notin k m : Js.oget k m = None <-> ~ In k (Js.okeys m).
Proof.
  unfold Js.okeys. induction m as [|[k0 v0] m IH]; simpl.
  - intuition.
  - destruct (decide (k0 = k)) as [->|Hne].
    + split; [discriminate|intros Hn; exfalso; apply Hn; now left].
    + rewrite IH. intuition.
Qed.

Lemma oget_Some_in k v m : Js.oget k m = Some v -> In (k, v) m.
Proof.
  induction m as [|[k0 v0] m IH]; simpl; [discriminate|].
  destruct (decide (k0 = k)) as [->|Hne].
  - intros [= ->]. now left.
  - intros Hg. right. now apply IH.
Qed.

Lemma in_oget_nodup k v m : List.NoDup (Js.okeys m) -> In (k, v) m -> Js.oget k m = Some v.
Proof.
  unfold Js.okeys. induction m as [|[k0 v0] m IH]; simpl; [contradiction|].
  intros Hnd Hin. inversion Hnd as [|? ? Hnot Hnd']; subst.
  destruct Hin as [[= -> ->]|Hin].
  - destruct (decide (k = k)); congruence.
  - destruct (decide (k0 = k)) as [->|Hne].
    + exfalso. apply Hnot. apply (in_map fst) in Hin. exact Hin.
    + now apply IH.
Qed.

Lemma okeys_oset_nodup k v m : List.NoDup (Js.okeys m) -> List.NoDup (Js.okeys (Js.oset k v m)).
Proof.
  unfold Js.okeys. induction m as [|[k0 v0] m IH]; simpl; intros Hnd.
  - constructor; [intros []|constructor].
  - inversion Hnd as [|? ? Hnot Hnd']; subst.
    destruct (decide (k0 = k)) as [->|Hne]; simpl.
    + now constructor.
    + constructor; [|now apply IH].
      intros Hin. apply (okeys_oset_in k0 k v m) in Hin. destruct Hin; [congruence|contradiction].
Qed.

Lemma oget_odelete_eq k m : Js.oget k (Js.odelete k m) = None.
Proof.
  unfold Js.odelete. induction m as [|[k0 v0] m IH]; simpl; [reflexivity|].
  destruct (bool_decide_reflect (k0 = k)) as [->|Hne]; simpl; [exact IH|].
  destruct (decide (k0 = k)); [contradiction|exact IH].
Qed.

Lemma oget_odelete_ne k k' m : k <> k' -> Js.oget k (Js.odelete k' m) = Js.oget k m.
Proof.
  intros Hne. unfold Js.odelete. induction m as [|[k0 v0] m IH]; simpl; [reflexivity|].
  destruct (bool_decide_reflect (k0 = k')) as [->|Hne0]; simpl.
  - destruct (decide (k' = k)); [congruence|exact IH].
  - destruct (decide (k0 = k)); [reflexivity|exact IH].
Qed.

Lemma okeys_oupdate k (f : V -> V) m : Js.okeys (Js.oupdate k f m) = Js.okeys m.
Proof.
  unfold Js.okeys, Js.oupdate. rewrite List.map_map. apply List.map_ext.
  intros [k0 v0]; simpl. now destruct (decide (k0 = k)).
Qed.

Lemma oget_oupdate_eq k (f : V -> V) m :
  Js.oget k (Js.oupdate k f m) = option_map f (Js.oget k m).
Proof.
  unfold Js.oupdate. induction m as [|[k0 v0] m IH]; simpl; [reflexivity|].
  destruct (decide (k0 = k)) as [->|Hne]; simpl.
  - destruct (decide (k = k)); congruence.
  - destruct (decide (k0 = k)); [contradiction|exact IH].
Qed.

Lemma oget_oupdate_ne k k' (f : V -> V) m :
  k <> k' -> Js.oget k (Js.oupdate k' f m) = Js.oget k m.
Proof.
  intros Hne. unfold Js.oupdate. induction m as [|[k0 v0] m IH]; simpl; [reflexivity|].
  destruct (decide (k0 = k')) as [->|Hne0]; simpl.
  - destruct (decide (k' = k)); [congruence|exact IH].
  - destruct (decide (k0 = k)); [reflexivity|exact IH].
Qed.

End OMapFacts.

(** ** Running computations *)
Section MonadFacts.
Context {S E : Type}.

Lemma bind_returned {A B} (m : Js.M S E A) (k : A -> Js.M S E B) (s s1 : S) (a : A)
    (ev1 : list E) :
  m s = (Js.Returned a, s1, ev1) ->
  Js.bind m k s = (Js.outcome (k a s1), Js.final (k a s1), ev1 ++ Js.emitted (k a s1)).
Proof.
  intros Hm. unfold Js.bind. rewrite Hm. now destruct (k a s1) as [[o s2] ev2].
Qed.

Lemma bind_threw {A B} (m : Js.M S E A) (k : A -> Js.M S E B) (s s1 : S) (e : Js.Error)
    (ev1 : list E) :
  m s = (Js.Threw e, s1, ev1) -> Js.bind m k s = (Js.Threw e, s1, ev1).
Proof. intros Hm. unfold Js.bind. now rewrite Hm. Qed.

Lemma outcome_run {A} (o : Js.Outcome A) (s : S) (ev : list E) : Js.outcome (o, s, ev) = o.
Proof. reflexivity. Qed.

Lemma final_run {A} (o : Js.Outcome A) (s : S) (ev : list E) : Js.final (o, s, ev) = s.
Proof. reflexivity. Qed.

Lemma emitted_run {A} (o : Js.Outcome A) (s : S) (ev : list E) : Js.emitted (o, s, ev) = ev.
Proof. reflexivity. Qed.

Lemma run_eta {A} (r : Js.Outcome A * S * list E) :
  r = (Js.outcome r, Js.final r, Js.emitted r).
Proof. now destruct r as [[o s] ev]. Qed.

(** A loop whose rounds all return, keep [I] and emit events in [P]. *)
Lemma forOf_invariant {A} (I : S -> Prop) (P : E -> Prop)
    (body : A -> Js.M S E unit) (xs : list A) :
  (forall x s, In x xs -> I s ->
     Js.outcome (body x s) = Js.Returned tt /\ I (Js.final (body x s)) /\
     Forall P (Js.emitted (body x s))) ->
  forall s, I s ->
    Js.outcome (Js.forOf xs body s) = Js.Returned tt /\
    I (Js.final (Js.forOf xs body s)) /\
    Forall P (Js.emitted (Js.forOf xs body s)).
Proof.
  induction xs as [|x xs IH]; intros Hbody s Hs; simpl.
  - repeat split; [exact Hs|constructor].
  - destruct (Hbody x s (or_introl eq_refl) Hs) as (Ho & Hi & Hp).
    pose proof (run_eta (body x s)) as Heta. rewrite Ho in Heta.
    erewrite bind_returned by exact Heta.
    destruct (IH (fun y s' Hy => Hbody y s' (or_intror Hy)) _ Hi) as (Ho' & Hi' & Hp').
    unfold Js.outcome, Js.final, Js.emitted in *; simpl.
    repeat split; [exact Ho'|exact Hi'|].
    apply Forall_app. split; assumption.
Qed.

Lemma forOf_cons_returned {A} (body : A -> Js.M S E unit) (x : A) (xs : list A)
    (s s1 : S) (ev1 : list E) :
  body x s = (Js.Returned tt, s1, ev1) ->
  Js.outcome (Js.forOf (x :: xs) body s) = Js.outcome (Js.forOf xs body s1) /\
  Js.final (Js.forOf (x :: xs) body s) = Js.final (Js.forOf xs body s1) /\
  Js.emitted (Js.forOf (x :: xs) body s) = ev1 ++ Js.emitted (Js.forOf xs body s1).
Proof.
  intros Hb. simpl. erewrite bind_returned by exact Hb. repeat split.
Qed.

End MonadFacts.

(** ** The graph store *)
Section GraphStoreFacts.
Context {E : Type}.
Import MemoryGraphStore.

Lemma addNode_run (node : MemoryNode) (st : Store) :
  addNode (E:=E) node st =
  (Js.Returned (node_id node),
   mkStore (Graphlib.setNode (node_id node) node (graph st))
           (Js.oset (node_id node) node (nodes st)) (edges st),
   []).
Proof. reflexivity. Qed.

Lemma addEdge_run (edge : MemoryEdge) (st : Store) :
  addEdge (E:=E) edge st =
  if negb (Graphlib.hasNode (graph st) (source edge))
     || negb (Graphlib.hasNode (graph st) (target edge))
  then (Js.Threw Js.MissingEndpoint, st, [])
  else (Js.Returned (edgeId edge),
        mkStore (Graphlib.setEdge (source edge) (target edge) edge (graph st))
                (nodes st) (Js.oset (edgeId edge) edge (edges st)),
        []).
Proof.
  unfold addEdge, Js.bind, Js.get, Js.throw, Js.modify, Js.ret; simpl.
  destruct (negb _ || negb _); reflexivity.
Qed.

Lemma ensureNode_present (v : string) (g : Graphlib.Graph) :
  Graphlib.hasNode g v = true -> Graphlib.ensureNode v g = g.
Proof. unfold Graphlib.ensureNode. now intros ->. Qed.

Lemma hasNode_setNode (i v : string) (label : MemoryNode) (g : Graphlib.Graph) :
  Graphlib.hasNode (Graphlib.setNode v label g) i =
  (if decide (i = v) then true else Graphlib.hasNode g i).
Proof.
  unfold Graphlib.hasNode, Graphlib.setNode; simpl.
  destruct (decide (i = v)) as [->|Hne].
  - apply ohas_oset_eq.
  - now apply ohas_oset_ne.
Qed.

Lemma hasNode_setEdge (i v w : string) (label : MemoryEdge) (g : Graphlib.Graph) :
  Graphlib.hasNode g v = true -> Graphlib.hasNode g w = true ->
  Graphlib.hasNode (Graphlib.setEdge v w label g) i = Graphlib.hasNode g i.
Proof.
  intros Hv Hw. unfold Graphlib.setEdge.
  rewrite (ensureNode_present v g Hv), (ensureNode_present w g Hw). reflexivity.
Qed.

Lemma consistent_empty : consistent empty.
Proof. intros i. reflexivity. Qed.

Lemma consistent_addNode (node : MemoryNode) (st : Store) :
  consistent st -> consistent (Js.final (addNode (E:=E) node st)).
Proof.
  intros Hc i. rewrite addNode_run. unfold Js.final; simpl.
  rewrite hasNode_setNode. destruct (decide (i = node_id node)) as [->|Hne].
  - now rewrite ohas_oset_eq.
  - rewrite ohas_oset_ne by assumption. apply Hc.
Qed.

Lemma endpoints_of_success (edge : MemoryEdge) (st : Store) :
  Js.returned (Js.outcome (addEdge (E:=E) edge st)) = true ->
  Graphlib.hasNode (graph st) (source edge) = true /\
  Graphlib.hasNode (graph st) (target edge) = true.
Proof.
  rewrite addEdge_run.
  destruct (Graphlib.hasNode (graph st) (source edge)),
           (Graphlib.hasNode (graph st) (target edge)); simpl; auto; discriminate.
Qed.

Lemma addEdge_success (edge : MemoryEdge) (st : Store) :
  Graphlib.hasNode (graph st) (source edge) = true ->
  Graphlib.hasNode (graph st) (target edge) = true ->
  addEdge (E:=E) edge st =
  (Js.Returned (edgeId edge),
   mkStore (Graphlib.setEdge (source edge) (target edge) edge (graph st))
           (nodes st) (Js.oset (edgeId edge) edge (edges st)),
   []).
Proof. intros Hs Ht. rewrite addEdge_run, Hs, Ht. reflexivity. Qed.

Lemma consistent_addEdge (edge : MemoryEdge) (st : Store) :
  consistent st -> consistent (Js.final (addEdge (E:=E) edge st)).
Proof.
  intros Hc i. rewrite addEdge_run.
  destruct (Graphlib.hasNode (graph st) (source edge)) eqn:Hs;
    destruct (Graphlib.hasNode (graph st) (target edge)) eqn:Ht; simpl; try apply Hc.
  unfold Js.final; simpl. rewrite hasNode_setEdge by assumption. apply Hc.
Qed.

Lemma getNode_None_ohas (st : Store) (i : string) :
  getNode st i = None <-> Js.ohas i (nodes st) = false.
Proof.
  unfold getNode, Js.ohas. destruct (Js.oget i (nodes st)); split; congruence.
Qed.

Lemma append_cancel_l (p a b : string) : p +:+ a = p +:+ b -> a = b.
Proof. induction p as [|c p IH]; simpl; [auto|]. intros [= Heq]. auto. Qed.

Lemma edgeTypeName_inj (a b : EdgeType) : edgeTypeName a = edgeTypeName b -> a = b.
Proof. destruct a, b; simpl; intros Heq; try reflexivity; discriminate. Qed.

Lemma edgeId_type (e1 e2 : MemoryEdge) :
  source e1 = source e2 -> target e1 = target e2 ->
  edgeId e1 = edgeId e2 -> type e1 = type e2.
Proof.
  unfold edgeId. intros -> -> Heq.
  repeat apply append_cancel_l in Heq. now apply edgeTypeName_inj.
Qed.

End GraphStoreFacts.

(** C7. [addEdge] throws, with the missing-endpoint error and nothing else,
    exactly when the source or the target of the edge is not a node of the
    store; the store it leaves behind is then the store it was called on
    (nodes, edges and adjacency alike), and otherwise it returns the edge's
    id. *)
Theorem addEdge_fails_iff_endpoint_absent
    (E : Type) (st : MemoryGraphStore.Store) (edge : MemoryEdge) :
  MemoryGraphStore.consistent st ->
  let r := MemoryGraphStore.addEdge (E:=E) edge st in
  (Js.outcome r = Js.Threw Js.MissingEndpoint <->
     MemoryGraphStore.getNode st (source edge) = None \/
     MemoryGraphStore.getNode st (target edge) = None)
  /\ (Js.returned (Js.outcome r) = false ->
        Js.outcome r = Js.Threw Js.MissingEndpoint /\ Js.final r = st /\ Js.emitted r = [])
  /\ (Js.returned (Js.outcome r) = true ->
        Js.outcome r = Js.Returned (MemoryGraphStore.edgeId edge)).
Proof.
  intros Hc r. subst r. rewrite addEdge_run.
  rewrite !getNode_None_ohas, <- !Hc.
  destruct (Graphlib.hasNode (MemoryGraphStore.graph st) (source edge));
    destruct (Graphlib.hasNode (MemoryGraphStore.graph st) (target edge));
    simpl; repeat split; auto; try discriminate; intros [?|?]; discriminate.
Qed.

(** C10. When two edges with the same source and target but different kinds
    are inserted one after the other, the listing of all edges holds both,
    while the lookup by pair of nodes returns the second one alone. *)
Theorem edgesBetween_sees_last_inserted
    (E : Type) (st : MemoryGraphStore.Store) (e1 e2 : MemoryEdge) :
  source e1 = source e2 -> target e1 = target e2 -> type e1 <> type e2 ->
  let r1 := MemoryGraphStore.addEdge (E:=E) e1 st in
  let r2 := MemoryGraphStore.addEdge (E:=E) e2 (Js.final r1) in
  Js.returned (Js.outcome r1) = true ->
  Js.returned (Js.outcome r2) = true ->
  In e1 (MemoryGraphStore.getAllEdges (Js.final r2)) /\
  In e2 (MemoryGraphStore.getAllEdges (Js.final r2)) /\
  MemoryGraphStore.getEdgesBetween (Js.final r2) (source e1) (target e1) = [e2].
Proof.
  intros Hs Ht Hty r1 r2 H1 H2. subst r1 r2.
  destruct (endpoints_of_success _ _ H1) as [Hs1 Ht1].
  destruct (endpoints_of_success _ _ H2) as [Hs2 Ht2].
  revert Hs2 Ht2. rewrite (addEdge_success e1 st Hs1 Ht1).
  set (st1 := Js.final _). intros Hs2 Ht2.
  rewrite (addEdge_success e2 st1 Hs2 Ht2). subst st1. unfold Js.final; simpl.
  unfold MemoryGraphStore.getAllEdges, MemoryGraphStore.getEdgesBetween, Js.ovalues,
    Graphlib.edge; simpl.
  repeat split.
  - apply (in_map snd _ (MemoryGraphStore.edgeId e1, e1)).
    apply in_oset_other; [apply in_oset_same|].
    intros Heq. apply Hty. now apply edgeId_type.
  - apply (in_map snd _ (MemoryGraphStore.edgeId e2, e2)). apply in_oset_same.
  - rewrite Hs, Ht.
    unfold Graphlib.setEdge at 1; simpl. now rewrite oget_oset_eq.
Qed.

(** ** The collapse engine *)

(** C9. [bindPremonitionToFracture] returns [false], changes nothing and
    emits nothing when the echo is not pending or the stimulus is not active;
    otherwise it returns [true], emits a reaction that carries the generated
    id, the stimulus id, and the content and emotional state of the echo,
    stores it among the pending reactions and drops the echo from the pending
    echoes, leaving every other entry as it was. *)
Theorem bindPremonitionToFracture_spec
    (uuid premonitionId fractureId : string) (t : CollapseEngine.Engine) :
  let r := CollapseEngine.bindPremonitionToFracture uuid premonitionId fractureId t in
  match Js.oget premonitionId (CollapseEngine.pendingPremonitions t),
        Js.oget fractureId (CollapseEngine.activeFractures t) with
  | Some p, Some _ =>
      let b := CollapseEngine.boundFoldOf uuid p fractureId in
      Js.outcome r = Js.Returned true /\
      Js.emitted r = [CollapseEngine.recursionFold b] /\
      (fold_id b = uuid /\ fold_content b = prem_content p /\
       fold_emotionalState b = fold_emotionalState (prem_fold p) /\
       fold_fractureEventId b = Some fractureId) /\
      Js.oget uuid (CollapseEngine.pendingFolds (Js.final r)) = Some b /\
      Js.oget premonitionId (CollapseEngine.pendingPremonitions (Js.final r)) = None /\
      (forall i, i <> premonitionId ->
         Js.oget i (CollapseEngine.pendingPremonitions (Js.final r)) =
         Js.oget i (CollapseEngine.pendingPremonitions t)) /\
      (forall i, i <> uuid ->
         Js.oget i (CollapseEngine.pendingFolds (Js.final r)) =
         Js.oget i (CollapseEngine.pendingFolds t)) /\
      CollapseEngine.activeFractures (Js.final r) = CollapseEngine.activeFractures t
  | _, _ =>
      Js.outcome r = Js.Returned false /\ Js.final r = t /\ Js.emitted r = []
  end.
Proof.
  unfold CollapseEngine.bindPremonitionToFracture, Js.bind, Js.get; simpl.
  destruct (Js.oget premonitionId (CollapseEngine.pendingPremonitions t)) as [p|];
    [destruct (Js.oget fractureId (CollapseEngine.activeFractures t)) as [fr|]|];
    simpl; try (repeat split; reflexivity).
  repeat split.
  - apply oget_oset_eq.
  - apply oget_odelete_eq.
  - intros i Hne. now apply oget_odelete_ne.
  - intros i Hne. now apply oget_oset_ne.
Qed.

(** ** The premonition matcher *)



(** The matcher of scenario A at the moment the threshold is evaluated: the
    turn counter has been advanced to 1 and the attempt has been counted. *)
Lemma scenarioA_numbers :
  let t1 := PremonitionMatcher.mkMatcher
              (PremonitionMatcher.memoryGraph Scenarios.matcherA)
              (PremonitionMatcher.activePremonitions Scenarios.matcherA) 1%Z in
  let s1 := PremonitionMatcher.mkState Scenarios.echoA 0%Z 3%Z 1%Z false in
  PremonitionMatcher.turnCounter Scenarios.matcherA = 0%Z /\
  calculateContentSimilarity (prem_content Scenarios.echoA) (fr_content Scenarios.stimulusA) == 1 # 8 /\
  PremonitionMatcher.calculateKeywordMatch ["elena"; "her"] (fr_content Scenarios.stimulusA) == 1 # 2 /\
  PremonitionMatcher.calculateMatchScore Scenarios.echoA Scenarios.stimulusA == 0.475 /\
  PremonitionMatcher.getBindingThreshold t1 s1 == 7 # 12.
Proof. vm_compute. repeat split; reflexivity. Qed.

(** With the text and the keyword list of the demonstration script of the
    repository the score is the same. *)
Lemma scenarioA_demo_score :
  PremonitionMatcher.calculateMatchScore Scenarios.echoDemo Scenarios.stimulusA == 0.475.
Proof. vm_compute. reflexivity. Qed.

(** C2, as stated, fails: on the input of scenario A the match score is below
    the decayed threshold, and after the stimulus of turn 1 no echo is
    bound. *)
Lemma scenarioA_does_not_bind :
  PremonitionMatcher.calculateMatchScore Scenarios.echoA Scenarios.stimulusA
  < PremonitionMatcher.getBindingThreshold
      (PremonitionMatcher.mkMatcher
         (PremonitionMatcher.memoryGraph Scenarios.matcherA)
         (PremonitionMatcher.activePremonitions Scenarios.matcherA) 1%Z)
      (PremonitionMatcher.mkState Scenarios.echoA 0%Z 3%Z 1%Z false)
  /\ PremonitionMatcher.getBoundPremonitions
       (Js.final (PremonitionMatcher.processFracture 1000%Z Scenarios.stimulusA Scenarios.matcherA))
     = [].
Proof. split; vm_compute; reflexivity. Qed.

(** C2, amended. On the input of scenario A the match score is 0.475 and the
    decayed threshold 7/12, so the stimulus of turn 1 leaves the echo pending:
    the call returns, nothing is emitted, one binding attempt is counted and
    the echo is still active and unbound. *)
Theorem scenarioA_echo_stays_pending (now : Z) :
  let r := PremonitionMatcher.processFracture now Scenarios.stimulusA Scenarios.matcherA in
  let s1 := PremonitionMatcher.mkState Scenarios.echoA 0%Z 3%Z 1%Z false in
  PremonitionMatcher.calculateMatchScore Scenarios.echoA Scenarios.stimulusA == 0.475 /\
  PremonitionMatcher.getBindingThreshold (Js.final r) s1 == 7 # 12 /\
  Js.outcome r = Js.Returned tt /\
  Js.emitted r = [] /\
  PremonitionMatcher.turnCounter (Js.final r) = 1%Z /\
  Js.oget "echo-E" (PremonitionMatcher.activePremonitions (Js.final r)) = Some s1 /\
  PremonitionMatcher.getActivePremonitions (Js.final r) = [Scenarios.echoA] /\
  PremonitionMatcher.getBoundPremonitions (Js.final r) = [].
Proof. vm_compute. repeat split; reflexivity. Qed.

(** ** The character kernel *)
Section KernelFacts.
Import CharacterKernel.

Lemma emotionalStates_setHeap f k : emotionalStates (setHeap f k) = emotionalStates k.
Proof. reflexivity. Qed.

Lemma emotionalStates_setCharacters f k : emotionalStates (setCharacters f k) = emotionalStates k.
Proof. reflexivity. Qed.

Lemma getEmotionalState_update (cid : string) (p : PartialEmotionalState) (k : Kernel)
    (es : EmotionalState) :
  getEmotionalState k cid = Some es ->
  getEmotionalState (updateEmotionalState cid p k) cid = Some (mergeEmotion es p).
Proof.
  unfold getEmotionalState, updateEmotionalState. intros ->. simpl. apply oget_oset_eq.
Qed.

End KernelFacts.

(** C4 fails on the code: the stability that [applyMutation] records is
    [min(1, sigma)], the stability the actor had, because in
    [stability ?? 0.5 + 0.1] the sum is the alternative of [??] and not an
    increment of its result. *)
Theorem applyMutation_keeps_stability
    (k : CharacterKernel.Kernel) (characterId : string) (f : RecursionFold)
    (c : CharacterKernel.CharacterField) (es : EmotionalState) :
  CharacterKernel.getCharacter k characterId = Some c ->
  CharacterKernel.getEmotionalState k characterId = Some es ->
  CharacterKernel.getEmotionalState (CharacterKernel.applyMutation characterId f k) characterId
  = Some (mkEmotionalState (dominant (fold_emotionalState f)) (secondary es)
            (intensity (fold_emotionalState f)) (Qmin 1 (stability es))).
Proof.
  intros Hc Hes. unfold CharacterKernel.applyMutation. rewrite Hc.
  assert (Hes' := Hes). unfold CharacterKernel.getEmotionalState in Hes'. rewrite Hes'.
  match goal with
  | |- context [CharacterKernel.updateEmotionalState _ ?p _] =>
      pose proof (getEmotionalState_update characterId p k Hes) as Hu
  end.
  destruct (Js.ohas _ _); destruct (Qlt_bool _ _); exact Hu.
Qed.

(** An actor made by [createCharacter] has stability 0.7; after a mutation
    it still has 0.7, not 0.8. *)
Lemma applyMutation_keeps_stability_witness :
  CharacterKernel.getEmotionalState
    (CharacterKernel.applyMutation "elena" Scenarios.joyfulFold Scenarios.kernelElena) "elena"
  = Some (mkEmotionalState "joy" None 0.8 (Qmin 1 0.7))
  /\ Qmin 1 0.7 == 0.7.
Proof.
  split.
  - apply (@applyMutation_keeps_stability Scenarios.kernelElena "elena" Scenarios.joyfulFold
             Scenarios.elena (mkEmotionalState "neutral" None 0.5 0.7)); reflexivity.
  - reflexivity.
Defined.

(** C3 fails on the code: the profile made by [forkCharacter] holds the very
    object of tone weights of the original. Run on the kernel with one
    character of the demonstration script: right after the fork both read
    the weights the character was created with;
    a mutation of the original then changes the weights read through the
    fork, and a reconfiguration of the fork changes those read through the
    original. *)
Theorem fork_shares_tone_weights :
  let k := Scenarios.kernelForked in
  let k1 := CharacterKernel.applyMutation "elena" Scenarios.joyfulFold k in
  let k2 := CharacterKernel.reconfigureCharacter "elena-cruel" Scenarios.angryState (-0.2) k in
  CharacterKernel.toneOf k "elena" = Some Scenarios.elenaVariations /\
  CharacterKernel.toneOf k "elena-cruel" = Some Scenarios.elenaVariations /\
  (exists o, CharacterKernel.toneOf k1 "elena-cruel" = Some o /\
             CharacterKernel.prop o "joy" == 0.28 /\
             CharacterKernel.prop o "sadness" == 0.18) /\
  (exists o, CharacterKernel.toneOf k2 "elena" = Some o /\
             CharacterKernel.prop o "anger" == 0.46 /\
             CharacterKernel.prop o "joy" == 0.108).
Proof.
  cbv zeta. split; [reflexivity|]. split; [reflexivity|]. split.
  - eexists. split; [vm_compute; reflexivity|]. split; vm_compute; reflexivity.
  - eexists. split; [vm_compute; reflexivity|]. split; vm_compute; reflexivity.
Qed.

(** ** The interaction binding logic *)

(** Whatever [checkDeferredBindings] has put in the binding record of the
    stimulus, [processFracture] ends by storing a new, empty record under the
    same id. *)
Lemma processFracture_resets_binding_record
    (now : Z) (fr : FractureEvent) (t : InteractionBindingLogic.Logic) :
  let r := InteractionBindingLogic.processFracture now fr t in
  Js.returned (Js.outcome r) = true ->
  Js.oget (fr_id fr) (InteractionBindingLogic.pendingBindings (Js.final r))
  = Some (InteractionBindingLogic.newBinding now (fr_id fr))
  /\ InteractionBindingLogic.getResponsesForFracture (Js.final r) (fr_id fr) = [].
Proof.
  unfold InteractionBindingLogic.processFracture,
    InteractionBindingLogic.getResponsesForFracture, Js.bind.
  destruct (InteractionBindingLogic.onGraph _ t) as [[[a|e] s1] ev1]; simpl;
    [|discriminate].
  destruct (InteractionBindingLogic.checkDeferredBindings now fr s1) as [[[a2|e2] s2] ev2];
    simpl; [|discriminate].
  intros _. unfold Js.final; simpl. rewrite oget_oset_eq. auto.
Qed.

(** Scenario D, evaluated. The reaction, submitted with no stimulus id,
    shares four of five words with the stimulus; processing the stimulus
    creates the causality edge weighted by that ratio and tagged 'deferred',
    and announces the binding, but the list of reactions bound to the
    stimulus is empty when [processFracture] returns. *)
Lemma scenarioD_deferred_reaction_not_listed :
  let r := InteractionBindingLogic.processFracture 21%Z Scenarios.stimulusD Scenarios.logicD in
  let sim := calculateContentSimilarity (fold_content Scenarios.reactionD)
                                        (fr_content Scenarios.stimulusD) in
  Js.outcome r = Js.Returned tt /\
  sim == 4 # 5 /\
  MemoryGraphStore.getEdgesBetween (InteractionBindingLogic.memoryGraph (Js.final r))
    "reaction-1" "stimulus-1"
  = [mkEdge "reaction-1" "stimulus-1" causality sim
       (Some [("bindingType", MStr "deferred"); ("bindingTimestamp", MInt 21%Z);
              ("fractureEventId", MStr "stimulus-1")])] /\
  Js.emitted r = [InteractionBindingLogic.fold_binding "reaction-1" "stimulus-1" 21%Z] /\
  InteractionBindingLogic.getResponsesForFracture (Js.final r) "stimulus-1" = [].
Proof. vm_compute. repeat split; reflexivity. Qed.

(** ** Tone distributions *)
Section ToneFacts.
Import CharacterKernel.
Implicit Types (o : list (string * Q)) (ks : list string).

Lemma fold_left_plus (f : string -> Q) ks (a : Q) :
  fold_left (fun acc e => acc + f e) ks a == a + qsum (List.map f ks).
Proof.
  revert a. induction ks as [|e ks IH]; intros a; simpl.
  - lra.
  - rewrite IH. lra.
Qed.

Lemma sumWeights_qsum o ks : sumWeights o ks == qsum (List.map (prop o) ks).
Proof. unfold sumWeights. rewrite fold_left_plus. lra. Qed.

Lemma prop_oset_eq o e x : prop (Js.oset e x o) e = x.
Proof. unfold prop. now rewrite oget_oset_eq. Qed.

Lemma prop_oset_ne o e k x : k <> e -> prop (Js.oset e x o) k = prop o k.
Proof. intros Hne. unfold prop. now rewrite oget_oset_ne. Qed.

Lemma totalWeight_oset o e x :
  totalWeight (Js.oset e x o) == totalWeight o - prop o e + x.
Proof.
  unfold totalWeight, qsum, prop, Js.ovalues.
  induction o as [|[k0 v0] o IH]; simpl.
  - destruct (decide (e = e)); simpl; lra.
  - destruct (decide (k0 = e)) as [->|Hne]; simpl.
    + lra.
    + rewrite IH. lra.
Qed.

Lemma prop_nonneg o k : nonNegative o -> 0 <= prop o k.
Proof.
  intros Hnn. unfold prop. destruct (Js.oget k o) as [v|] eqn:Hg; [|lra].
  apply oget_Some_in in Hg. eapply Hnn; eauto.
Qed.

Lemma nonNegative_oset o e x : nonNegative o -> 0 <= x -> nonNegative (Js.oset e x o).
Proof.
  intros Hnn Hx k w Hin. apply in_oset_inv in Hin.
  destruct Hin as [[_ ->]|Hin]; [exact Hx|eapply Hnn; eauto].
Qed.

Lemma qsum_nonneg (l : list Q) : (forall x, In x l -> 0 <= x) -> 0 <= qsum l.
Proof.
  induction l as [|x l IH]; simpl; intros Hl; [lra|].
  assert (0 <= x) by (apply Hl; now left).
  assert (0 <= qsum l) by (apply IH; intros; apply Hl; now right). lra.
Qed.

(** Reading each key of an object gives its values. *)
Lemma map_prop_keys o :
  List.NoDup (Js.okeys o) -> List.map (prop o) (Js.okeys o) = Js.ovalues o.
Proof.
  unfold Js.okeys, Js.ovalues, prop.
  induction o as [|[k0 v0] o IH]; simpl; intros Hnd; [reflexivity|].
  inversion Hnd as [|? ? Hnot Hnd']; subst.
  destruct (decide (k0 = k0)); [|congruence]. f_equal.
  rewrite <- (IH Hnd'). apply List.map_ext_in. intros k Hk.
  destruct (decide (k0 = k)) as [->|Hne]; [contradiction|reflexivity].
Qed.

Lemma qsum_split (f : string -> Q) (d : string) ks :
  List.NoDup ks ->
  qsum (List.map f ks)
  == (if existsb (String.eqb d) ks then f d else 0)
     + qsum (List.map f (List.filter (fun e => negb (String.eqb e d)) ks)).
Proof.
  induction ks as [|k ks IH]; simpl; intros Hnd; [lra|].
  inversion Hnd as [|? ? Hnot Hnd']; subst. rewrite (IH Hnd').
  destruct (String.eqb_spec d k) as [->|Hne]; simpl.
  - rewrite String.eqb_refl; simpl.
    destruct (existsb (String.eqb k) ks) eqn:Hex; [|lra].
    exfalso. apply existsb_exists in Hex. destruct Hex as [x [Hin Heq]].
    apply String.eqb_eq in Heq. subst x. contradiction.
  - destruct (String.eqb_spec k d) as [->|_]; [congruence|]. simpl. lra.
Qed.

Lemma existsb_keys o d : existsb (String.eqb d) (Js.okeys o) = Js.ohas d o.
Proof.
  unfold Js.okeys, Js.ohas. induction o as [|[k0 v0] o IH]; simpl; [reflexivity|].
  destruct (decide (k0 = d)) as [->|Hne].
  - now rewrite String.eqb_refl.
  - destruct (String.eqb_spec d k0) as [->|_]; [congruence|]. exact IH.
Qed.

Lemma prop_absent o d : Js.ohas d o = false -> prop o d = 0.
Proof. unfold Js.ohas, prop. destruct (Js.oget d o); [discriminate|reflexivity]. Qed.

(** A distribution is the weight of one emotion plus the weights of the
    others. *)
Lemma totalWeight_split o d :
  List.NoDup (Js.okeys o) ->
  totalWeight o == prop o d + sumWeights o (otherKeys o d).
Proof.
  intros Hnd. unfold totalWeight. rewrite <- (map_prop_keys o Hnd).
  rewrite (qsum_split (prop o) d Hnd), sumWeights_qsum, existsb_keys.
  unfold otherKeys. destruct (Js.ohas d o) eqn:Hd; [lra|].
  rewrite (prop_absent _ _ Hd). lra.
Qed.

Lemma otherKeys_nodup o d : List.NoDup (Js.okeys o) -> List.NoDup (otherKeys o d).
Proof. intros Hnd. unfold otherKeys. now apply List.NoDup_filter. Qed.

Lemma otherKeys_not_dominant o d e : In e (otherKeys o d) -> e <> d.
Proof.
  unfold otherKeys. rewrite List.filter_In. intros [_ Hne] ->.
  rewrite String.eqb_refl in Hne. discriminate.
Qed.

Section Renormalise.
Variables (s t : Q).

Lemma rescale_total ks : forall o,
  List.NoDup ks ->
  totalWeight (fold_left (rescale s t) ks o)
  == totalWeight o - qsum (List.map (prop o) ks) + qsum (List.map (prop o) ks) / s * t.
Proof.
  induction ks as [|e ks IH]; intros o Hnd; simpl.
  - unfold Qdiv. ring.
  - inversion Hnd as [|? ? Hnot Hnd']; subst.
    rewrite (IH _ Hnd'). unfold rescale.
    rewrite totalWeight_oset.
    assert (Hsame : List.map (prop (Js.oset e (prop o e / s * t) o)) ks = List.map (prop o) ks).
    { apply List.map_ext_in. intros k Hk. apply prop_oset_ne. intros ->. contradiction. }
    rewrite Hsame. unfold Qdiv. ring.
Qed.

Lemma rescale_keys ks : forall o,
  List.NoDup (Js.okeys o) -> List.NoDup (Js.okeys (fold_left (rescale s t) ks o)).
Proof.
  induction ks as [|e ks IH]; intros o Hnd; simpl; [exact Hnd|].
  apply IH. unfold rescale. now apply okeys_oset_nodup.
Qed.

Lemma rescale_has ks d : forall o,
  Js.ohas d o = true -> Js.ohas d (fold_left (rescale s t) ks o) = true.
Proof.
  induction ks as [|e ks IH]; intros o Hd; simpl; [exact Hd|].
  apply IH. unfold rescale. now apply ohas_oset_mono.
Qed.

Lemma rescale_nonneg ks : forall o,
  0 < s -> 0 <= t -> nonNegative o -> nonNegative (fold_left (rescale s t) ks o).
Proof.
  induction ks as [|e ks IH]; intros o Hs Ht Hnn; simpl; [exact Hnn|].
  apply IH; try assumption. unfold rescale. apply nonNegative_oset; [exact Hnn|].
  pose proof (prop_nonneg e Hnn) as Hp.
  apply Qmult_le_0_compat; [|exact Ht].
  unfold Qdiv. apply Qmult_le_0_compat; [exact Hp|].
  apply Qinv_le_0_compat. lra.
Qed.

End Renormalise.
End ToneFacts.

Section DriftFacts.
Import CharacterKernel.

Lemma Qlt_bool_true (a b : Q) : Qlt_bool a b = true -> a < b.
Proof.
  unfold Qlt_bool. intros Hb. apply negb_true_iff in Hb.
  apply Qnot_le_lt. intros Hle. apply Qle_bool_iff in Hle. congruence.
Qed.

Lemma Qlt_bool_false (a b : Q) : Qlt_bool a b = false -> b <= a.
Proof.
  unfold Qlt_bool. intros Hb. apply negb_false_iff in Hb. now apply Qle_bool_iff.
Qed.

Lemma sumWeights_nonneg (o : list (string * Q)) (ks : list string) :
  nonNegative o -> 0 <= sumWeights o ks.
Proof.
  intros Hnn. rewrite sumWeights_qsum. apply qsum_nonneg.
  intros x Hx. apply in_map_iff in Hx. destruct Hx as [k [<- _]]. now apply prop_nonneg.
Qed.

(** The guarded block of [applyMutation] maps distributions to
    distributions. *)
Lemma driftTone_distribution (rate : Q) (es : EmotionalState) (o : list (string * Q)) :
  isDistribution o -> 0 <= rate -> 0 <= intensity es ->
  isDistribution (driftTone rate es o).
Proof.
  intros (Hnd & Hnn & Htot) Hrate Hint. unfold driftTone.
  set (d := dominant es).
  assert (Hri : 0 <= rate * intensity es) by now apply Qmult_le_0_compat.
  set (ri := rate * intensity es) in *.
  pose proof (prop_nonneg d Hnn) as Hv.
  set (v := prop o d) in *.
  set (v' := Qmin 1 (v + ri)).
  assert (Hv'1 : v' <= 1) by apply Q.le_min_l.
  assert (Hv'0 : 0 <= v').
  { unfold v'. apply Q.min_glb; lra. }
  set (o1 := Js.oset d v' o).
  assert (Hnd1 : List.NoDup (Js.okeys o1)) by now apply okeys_oset_nodup.
  assert (Hnn1 : nonNegative o1) by now apply nonNegative_oset.
  assert (Ht1 : totalWeight o1 == 1 - v + v').
  { unfold o1. rewrite totalWeight_oset, Htot. fold v. lra. }
  assert (Hp1 : prop o1 d = v') by apply prop_oset_eq.
  rewrite Hp1.
  pose proof (totalWeight_split o1 d Hnd1) as Hsplit. rewrite Hp1, Ht1 in Hsplit.
  pose proof (sumWeights_nonneg (otherKeys o1 d) Hnn1) as HS0.
  set (S := sumWeights o1 (otherKeys o1 d)) in *.
  destruct (Qlt_bool 0 S) eqn:Hlt.
  - apply Qlt_bool_true in Hlt. repeat split.
    + now apply rescale_keys.
    + apply rescale_nonneg; [exact Hlt|lra|exact Hnn1].
    + rewrite rescale_total by now apply otherKeys_nodup.
      rewrite <- sumWeights_qsum. fold S. rewrite Ht1.
      assert (HSS : S / S == 1) by (field; lra).
      rewrite HSS. lra.
  - apply Qlt_bool_false in Hlt. repeat split; try assumption.
    rewrite Ht1. assert (Hv1 : v == 1) by lra.
    assert (Hmin : v' == 1) by (unfold v'; apply Q.min_l; lra).
    lra.
Qed.

Lemma driftTone_has (rate : Q) (es : EmotionalState) (o : list (string * Q)) (d : string) :
  Js.ohas d o = true -> Js.ohas d (driftTone rate es o) = true.
Proof.
  intros Hd. unfold driftTone.
  assert (H1 : Js.ohas d (Js.oset (dominant es)
                 (Qmin 1 (prop o (dominant es) + rate * intensity es)) o) = true)
    by now apply ohas_oset_mono.
  destruct (Qlt_bool _ _); [now apply rescale_has|exact H1].
Qed.

End DriftFacts.

Section MutationInvariant.
Import CharacterKernel.
Variables (characterId d : string) (r : nat) (rate : Q).
Hypothesis rate_nonneg : 0 <= rate.

Lemma heap_updateEmotionalState (p : PartialEmotionalState) (k : Kernel) :
  heap (updateEmotionalState characterId p k) = heap k.
Proof.
  unfold updateEmotionalState. now destruct (Js.oget characterId (emotionalStates k)).
Qed.

Lemma applyMutation_tonedBy (f : RecursionFold) (k : Kernel) :
  dominant (fold_emotionalState f) = d ->
  0 <= intensity (fold_emotionalState f) ->
  tonedBy characterId r rate d k ->
  tonedBy characterId r rate d (applyMutation characterId f k).
Proof.
  intros Hd Hint (c & o & Hc & Hr & Hrate & Ho & Hdist & Hhas).
  unfold applyMutation. rewrite Hc, Hr, Hrate.
  set (es := fold_emotionalState f) in *.
  match goal with
  | |- context [updateEmotionalState characterId ?p k] =>
      set (k1 := updateEmotionalState characterId p k)
  end.
  assert (Hderef : deref k1 r = o).
  { unfold deref, k1. now rewrite heap_updateEmotionalState, Ho. }
  rewrite Hderef, Hd, Hhas.
  match goal with
  | |- tonedBy _ _ _ _ (setCharacters (Js.oset _ ?c1) _) =>
      exists c1, (driftTone rate es o)
  end.
  repeat split.
  - unfold getCharacter; simpl. apply oget_oset_eq.
  - simpl. now destruct (Qlt_bool 0.7 (stability es)).
  - exact Hrate.
  - change (<[r := driftTone rate es o]> (heap k1) !! r = Some (driftTone rate es o)).
    apply lookup_insert_eq.
  - now apply driftTone_distribution.
  - now apply driftTone_distribution.
  - now apply driftTone_distribution.
  - now apply driftTone_has.
Qed.

Lemma applyMutations_tonedBy (folds : list RecursionFold) : forall k,
  (forall f, In f folds ->
     dominant (fold_emotionalState f) = d /\ 0 <= intensity (fold_emotionalState f)) ->
  tonedBy characterId r rate d k ->
  tonedBy characterId r rate d (applyMutations characterId folds k).
Proof.
  induction folds as [|f folds IH]; intros k Hall Hk; simpl; [exact Hk|].
  apply IH; [intros g Hg; apply Hall; now right|].
  destruct (Hall f (or_introl eq_refl)) as [Hd Hint].
  now apply applyMutation_tonedBy.
Qed.

Lemma tonedBy_unit_sum (k : Kernel) :
  tonedBy characterId r rate d k ->
  exists o, toneOf k characterId = Some o /\ isDistribution o.
Proof.
  intros (c & o & Hc & Hr & _ & Ho & Hdist & _). exists o. split; [|exact Hdist].
  unfold toneOf. now rewrite Hc, Hr.
Qed.

End MutationInvariant.

(** C8. Take an actor whose tone weights form a distribution (distinct
    emotions, probabilities, sum 1) and whose drift rate is not negative, and
    five reactions with the same dominant emotion, one of the distribution,
    and intensities that are not negative. After each of the five calls of
    [applyMutation] the actor's tone weights still form a distribution: they
    sum to 1. Weights are exact rationals here, so the sum is exactly 1. *)
Theorem applyMutation_preserves_unit_sum
    (k : CharacterKernel.Kernel) (characterId d : string)
    (c : CharacterKernel.CharacterField) (o : list (string * Q))
    (folds : list RecursionFold) :
  CharacterKernel.getCharacter k characterId = Some c ->
  CharacterKernel.toneOf k characterId = Some o ->
  CharacterKernel.isDistribution o ->
  Js.ohas d o = true ->
  0 <= CharacterKernel.driftRate (CharacterKernel.mutationSchema c) ->
  length folds = 5%nat ->
  (forall f, In f folds ->
     dominant (fold_emotionalState f) = d /\ 0 <= intensity (fold_emotionalState f)) ->
  forall n, (n <= 5)%nat ->
    exists o',
      CharacterKernel.toneOf
        (CharacterKernel.applyMutations characterId (firstn n folds) k) characterId = Some o'
      /\ CharacterKernel.totalWeight o' == 1
      /\ CharacterKernel.isDistribution o'.
Proof.
  intros Hc Ho Hdist Hhas Hrate _ Hall n _.
  assert (Hk : CharacterKernel.tonedBy characterId
                 (CharacterKernel.variations (CharacterKernel.toneProfile c))
                 (CharacterKernel.driftRate (CharacterKernel.mutationSchema c)) d k).
  { exists c, o. unfold CharacterKernel.toneOf in Ho. rewrite Hc in Ho. repeat split; auto;
      apply Hdist. }
  assert (Hall' : forall f, In f (firstn n folds) ->
            dominant (fold_emotionalState f) = d /\ 0 <= intensity (fold_emotionalState f)).
  { intros f Hf. apply Hall. rewrite <- (firstn_skipn n folds). apply in_or_app. now left. }
  assert (Hfin : CharacterKernel.tonedBy characterId
                   (CharacterKernel.variations (CharacterKernel.toneProfile c))
                   (CharacterKernel.driftRate (CharacterKernel.mutationSchema c)) d
                   (CharacterKernel.applyMutations characterId (firstn n folds) k)).
  { apply applyMutations_tonedBy; assumption. }
  apply tonedBy_unit_sum in Hfin. destruct Hfin as (o' & Ho' & Hd').
  exists o'. split; [exact Ho'|]. split; [apply Hd'|exact Hd'].
Qed.

(** ** One call of [processFracture] *)
Section MatcherFacts.
Import PremonitionMatcher.

Lemma similar_refl (t : Matcher) : similar t t.
Proof. repeat split; auto. Qed.

Lemma similar_trans (a b c : Matcher) : similar a b -> similar b c -> similar a c.
Proof.
  intros (Ht & Hs & Hn) (Ht' & Hs' & Hn'). repeat split.
  - congruence.
  - congruence.
  - auto.
Qed.

Lemma skeleton_oupdate (k : string) (f : PremonitionState -> PremonitionState)
    (m : list (string * PremonitionState)) :
  (forall s, expiresAtTurn (f s) = expiresAtTurn s /\
             state_premonition (f s) = state_premonition s) ->
  skeleton (Js.oupdate k f m) = skeleton m.
Proof.
  intros Hf. unfold skeleton, Js.oupdate. rewrite List.map_map.
  apply List.map_ext. intros [k0 s0]; simpl.
  destruct (decide (k0 = k)); simpl; [|reflexivity].
  destruct (Hf s0) as [-> ->]. reflexivity.
Qed.

Lemma skeleton_in (m m' : list (string * PremonitionState)) (k : string)
    (s : PremonitionState) :
  skeleton m' = skeleton m -> In (k, s) m' ->
  exists s0, In (k, s0) m /\ expiresAtTurn s0 = expiresAtTurn s /\
             state_premonition s0 = state_premonition s.
Proof.
  intros Hsk Hin.
  assert (Hi : In (k, expiresAtTurn s, state_premonition s) (skeleton m)).
  { rewrite <- Hsk. unfold skeleton.
    apply (in_map (fun entry => (fst entry, expiresAtTurn (snd entry),
                                 state_premonition (snd entry))) _ (k, s) Hin). }
  unfold skeleton in Hi. apply in_map_iff in Hi. destruct Hi as [[k0 s0] [Heq Hin0]].
  simpl in Heq. injection Heq as -> He Hp. exists s0. auto.
Qed.

Lemma skeleton_keys (m m' : list (string * PremonitionState)) :
  skeleton m' = skeleton m -> Js.okeys m' = Js.okeys m.
Proof.
  intros Hsk. unfold Js.okeys.
  assert (Hk : forall l, List.map fst l = List.map (fun x => fst (fst x)) (skeleton l)).
  { intros l. unfold skeleton. rewrite List.map_map. reflexivity. }
  now rewrite (Hk m'), (Hk m), Hsk.
Qed.

Lemma attempt_spec (now : Z) (fr : FractureEvent) (entry : string * PremonitionState)
    (s : Matcher) :
  Graphlib.hasNode (MemoryGraphStore.graph (memoryGraph s))
    (prem_id (state_premonition (snd entry))) = true ->
  Graphlib.hasNode (MemoryGraphStore.graph (memoryGraph s)) (fr_id fr) = true ->
  let r := attempt now fr entry s in
  Js.outcome r = Js.Returned tt /\
  similar s (Js.final r) /\
  Forall (fun ev => expired (turnCounter s) entry = false /\
                    exists score,
                      ev = Binding (prem_id (state_premonition (snd entry))) (fr_id fr) now score)
         (Js.emitted r).
Proof.
  intros Hp Hf. unfold attempt, Js.bind, Js.get; simpl.
  destruct (isBound (snd entry) || (expiresAtTurn (snd entry) <? turnCounter s)%Z) eqn:Hskip;
    simpl.
  - repeat split; auto.
  - apply orb_false_iff in Hskip. destruct Hskip as [_ Hlive].
    destruct (Qle_bool _ _); simpl.
    + unfold bindPremonition, Js.bind, onGraph, zoom; simpl.
      rewrite addEdge_run; simpl. rewrite Hp, Hf; simpl.
      repeat split; simpl.
      * rewrite !skeleton_oupdate; [reflexivity| |]; intros s0; split; reflexivity.
      * intros i Hi. rewrite hasNode_setEdge; assumption.
      * constructor; [|constructor]. split; [exact Hlive|]. eexists. reflexivity.
    + repeat split; simpl; auto.
      apply skeleton_oupdate. intros s0; split; reflexivity.
Qed.

Lemma sortByStrength_in (l : list (string * PremonitionState)) (x : string * PremonitionState) :
  In x (sortByStrength l) -> In x l.
Proof.
  assert (Hins : forall y m, In x (insertByStrength y m) -> x = y \/ In x m).
  { intros y m. induction m as [|z m IH]; simpl.
    - intros [->|[]]. now left.
    - destruct (Qlt_bool _ _); simpl.
      + intros [->|Hin]; [right; now left|].
        destruct (IH Hin) as [->|Hm]; [now left|right; now right].
      + intros [->|[->|Hin]]; auto. }
  unfold sortByStrength. induction l as [|y l IH]; simpl; [auto|].
  intros Hin. destruct (Hins _ _ Hin) as [->|Hm]; [now left|right; now apply IH].
Qed.

(** The rounds of the loop of [processFracture], on well-formed entries. *)
Lemma attempts_spec (now : Z) (fr : FractureEvent) (l : list (string * PremonitionState))
    (t : Matcher) :
  (forall entry, In entry l ->
     Graphlib.hasNode (MemoryGraphStore.graph (memoryGraph t))
       (prem_id (state_premonition (snd entry))) = true) ->
  Graphlib.hasNode (MemoryGraphStore.graph (memoryGraph t)) (fr_id fr) = true ->
  let r := Js.forOf l (attempt now fr) t in
  Js.outcome r = Js.Returned tt /\
  similar t (Js.final r) /\
  Forall (fun ev => exists entry score,
            In entry l /\ expired (turnCounter t) entry = false /\
            ev = Binding (prem_id (state_premonition (snd entry))) (fr_id fr) now score)
         (Js.emitted r).
Proof.
  intros Hl Hf.
  apply (@forOf_invariant Matcher Event _ (similar t)
           (fun ev => exists entry score,
              In entry l /\ expired (turnCounter t) entry = false /\
              ev = Binding (prem_id (state_premonition (snd entry))) (fr_id fr) now score)
           (attempt now fr) l);
    [|apply similar_refl].
  intros entry s Hin Hsim.
  assert (Hsim' := Hsim). destruct Hsim' as (Hturn & _ & Hnodes).
  destruct (attempt_spec now fr entry s (Hnodes _ (Hl entry Hin)) (Hnodes _ Hf))
    as (Ho & Hs & Hev).
  split; [exact Ho|]. split; [exact (similar_trans Hsim Hs)|].
  eapply List.Forall_impl; [|exact Hev].
  intros ev [Hlive [score ->]]. exists entry, score. rewrite <- Hturn. auto.
Qed.

Lemma expire_run (entry : string * PremonitionState) (s : Matcher) :
  expire entry s =
  if expired (turnCounter s) entry
  then (Js.Returned tt, setActive (Js.odelete (fst entry)) s, [PremonitionExpired (fst entry)])
  else (Js.Returned tt, s, []).
Proof.
  unfold expire, expired, Js.bind, Js.get; simpl.
  now destruct (expiresAtTurn (snd entry) <? turnCounter s)%Z.
Qed.

Lemma purge_cons (turn : Z) (entry : string * PremonitionState)
    (l m : list (string * PremonitionState)) :
  purge turn (entry :: l) m
  = purge turn l (if expired turn entry then Js.odelete (fst entry) m else m).
Proof. reflexivity. Qed.

Lemma cleanup_loop (l : list (string * PremonitionState)) : forall s : Matcher,
  let r := Js.forOf l expire s in
  Js.outcome r = Js.Returned tt /\
  memoryGraph (Js.final r) = memoryGraph s /\
  turnCounter (Js.final r) = turnCounter s /\
  activePremonitions (Js.final r) = purge (turnCounter s) l (activePremonitions s) /\
  Js.emitted r = List.map (fun entry => PremonitionExpired (fst entry))
                          (List.filter (expired (turnCounter s)) l).
Proof.
  induction l as [|entry l IH]; intros s.
  - repeat split.
  - cbv zeta. pose proof (expire_run entry s) as Hrun.
    rewrite purge_cons. cbn [List.filter].
    destruct (expired (turnCounter s) entry) eqn:Hexp;
      destruct (forOf_cons_returned expire entry l s Hrun) as (-> & -> & ->);
      [destruct (IH (setActive (Js.odelete (fst entry)) s)) as (Ho & Hg & Ht & Ha & He)
      |destruct (IH s) as (Ho & Hg & Ht & Ha & He)];
      rewrite Ho, Hg, Ht, Ha, He; repeat split.
Qed.

End MatcherFacts.

Section PurgeFacts.
Import PremonitionMatcher.
Implicit Types (l m : list (string * PremonitionState)).

Lemma oget_purge (turn : Z) l : forall m k,
  Js.oget k (purge turn l m)
  = if existsb (fun entry => String.eqb (fst entry) k && expired turn entry) l
    then None else Js.oget k m.
Proof.
  induction l as [|entry l IH]; intros m k; [reflexivity|].
  rewrite purge_cons, IH. cbn [existsb].
  destruct (existsb _ l); [now rewrite orb_true_r|]. rewrite orb_false_r.
  destruct (expired turn entry); [|now rewrite andb_false_r]. rewrite andb_true_r.
  destruct (String.eqb_spec (fst entry) k) as [->|Hne].
  - apply oget_odelete_eq.
  - apply oget_odelete_ne. congruence.
Qed.

Lemma purge_in (turn : Z) l : forall m x, In x (purge turn l m) -> In x m.
Proof.
  induction l as [|entry l IH]; intros m x; [auto|].
  rewrite purge_cons. intros Hin. apply IH in Hin.
  destruct (expired turn entry); [|exact Hin].
  unfold Js.odelete in Hin. now apply List.filter_In in Hin.
Qed.

Lemma nodup_map_filter {A B} (f : A -> B) (p : A -> bool) (xs : list A) :
  List.NoDup (List.map f xs) -> List.NoDup (List.map f (List.filter p xs)).
Proof.
  induction xs as [|x xs IH]; simpl; intros Hnd; [constructor|].
  inversion Hnd as [|? ? Hnot Hnd']; subst.
  destruct (p x); simpl; [|now apply IH].
  constructor; [|now apply IH].
  intros Hin. apply Hnot. apply in_map_iff in Hin. destruct Hin as [y [Hy Hin]].
  apply List.filter_In in Hin. rewrite <- Hy. apply in_map. apply Hin.
Qed.

Lemma purge_nodup (turn : Z) l : forall m,
  List.NoDup (Js.okeys m) -> List.NoDup (Js.okeys (purge turn l m)).
Proof.
  induction l as [|entry l IH]; intros m Hnd; [exact Hnd|].
  rewrite purge_cons. apply IH. destruct (expired turn entry); [|exact Hnd].
  unfold Js.okeys, Js.odelete. now apply nodup_map_filter.
Qed.

Lemma count_entry (k : string) (p : string * PremonitionState -> bool) l :
  List.NoDup (Js.okeys l) ->
  length (List.filter (fun entry => String.eqb (fst entry) k && p entry) l)
  = match Js.oget k l with
    | Some s => if p (k, s) then 1%nat else 0%nat
    | None => 0%nat
    end.
Proof.
  unfold Js.okeys. induction l as [|[k0 s0] l IH]; simpl; intros Hnd; [reflexivity|].
  inversion Hnd as [|? ? Hnot Hnd']; subst.
  destruct (decide (k0 = k)) as [->|Hne].
  - rewrite String.eqb_refl; simpl.
    assert (Hrest : List.filter (fun entry => String.eqb (fst entry) k && p entry) l = []).
    { clear IH Hnd Hnd'. induction l as [|[k1 s1] l IHl]; simpl; [reflexivity|].
      destruct (String.eqb_spec k1 k) as [->|Hne1]; simpl.
      - exfalso. apply Hnot. now left.
      - apply IHl. intros Hin. apply Hnot. now right. }
    destruct (p (k, s0)); simpl; now rewrite Hrest.
  - destruct (String.eqb_spec k0 k) as [->|_]; [congruence|]. simpl. now apply IH.
Qed.

Lemma existsb_entry (k : string) (p : string * PremonitionState -> bool) l :
  List.NoDup (Js.okeys l) ->
  existsb (fun entry => String.eqb (fst entry) k && p entry) l
  = match Js.oget k l with
    | Some s => p (k, s)
    | None => false
    end.
Proof.
  unfold Js.okeys. induction l as [|[k0 s0] l IH]; simpl; intros Hnd; [reflexivity|].
  inversion Hnd as [|? ? Hnot Hnd']; subst.
  destruct (decide (k0 = k)) as [->|Hne].
  - rewrite String.eqb_refl; simpl.
    destruct (p (k, s0)); simpl; [reflexivity|].
    rewrite (IH Hnd'). destruct (Js.oget k l) as [s|] eqn:Hg; [|reflexivity].
    exfalso. apply Hnot. apply oget_Some_in in Hg. apply (in_map fst) in Hg. exact Hg.
  - destruct (String.eqb_spec k0 k) as [->|_]; [congruence|]. simpl. now apply IH.
Qed.

Lemma expiriesOf_purged (k : string) (turn : Z) l :
  expiriesOf k (List.map (fun entry => PremonitionExpired (fst entry))
                         (List.filter (expired turn) l))
  = length (List.filter (fun entry => String.eqb (fst entry) k && expired turn entry) l).
Proof.
  unfold expiriesOf. induction l as [|entry l IH]; simpl; [reflexivity|].
  destruct (expired turn entry); simpl.
  - rewrite andb_true_r. destruct (String.eqb (fst entry) k); simpl; now rewrite IH.
  - now rewrite andb_false_r.
Qed.

Lemma bindingsOf_purged (k : string) l :
  bindingsOf k (List.map (fun entry => PremonitionExpired (fst entry)) l) = 0%nat.
Proof. unfold bindingsOf. induction l as [|entry l IH]; simpl; auto. Qed.

Lemma bindingsOf_app (k : string) (a b : list Event) :
  bindingsOf k (a ++ b) = (bindingsOf k a + bindingsOf k b)%nat.
Proof. unfold bindingsOf. now rewrite List.filter_app, List.length_app. Qed.

Lemma expiriesOf_app (k : string) (a b : list Event) :
  expiriesOf k (a ++ b) = (expiriesOf k a + expiriesOf k b)%nat.
Proof. unfold expiriesOf. now rewrite List.filter_app, List.length_app. Qed.

Lemma skeleton_oget (k : string) m : forall m',
  skeleton m' = skeleton m ->
  match Js.oget k m, Js.oget k m' with
  | Some s, Some s' =>
      expiresAtTurn s' = expiresAtTurn s /\ state_premonition s' = state_premonition s
  | None, None => True
  | _, _ => False
  end.
Proof.
  induction m as [|[k0 s0] m IH]; intros [|[k1 s1] m']; simpl; try discriminate; [auto|].
  intros Heq. injection Heq as -> He Hp Hrest.
  destruct (decide (k0 = k)); [auto|]. now apply IH.
Qed.

End PurgeFacts.

Section CallFacts.
Import PremonitionMatcher.

(** [processFracture], once its loop is known to return. *)
Lemma processFracture_run (now : Z) (fr : FractureEvent) (t : Matcher) :
  let t1 := mkMatcher (memoryGraph t) (activePremonitions t) (turnCounter t + 1)%Z in
  let r2 := Js.forOf (sortByStrength (activePremonitions t1)) (attempt now fr) t1 in
  let r3 := Js.forOf (activePremonitions (Js.final r2)) expire (Js.final r2) in
  Js.outcome r2 = Js.Returned tt ->
  processFracture now fr t = (Js.outcome r3, Js.final r3, Js.emitted r2 ++ Js.emitted r3).
Proof.
  intros t1 r2 r3 Ho. unfold processFracture.
  erewrite bind_returned by reflexivity.
  erewrite bind_returned by reflexivity.
  pose proof (run_eta r2) as Heta. rewrite Ho in Heta.
  erewrite bind_returned by exact Heta.
  unfold cleanupExpiredPremonitions.
  erewrite bind_returned by reflexivity.
  reflexivity.
Qed.

Lemma no_binding_of (k : string) (now : Z) (fr : FractureEvent) (turn : Z)
    (l : list (string * PremonitionState)) (evs : list Event) :
  Forall (fun ev => exists entry score,
            In entry l /\ expired turn entry = false /\
            ev = Binding (prem_id (state_premonition (snd entry))) (fr_id fr) now score) evs ->
  (forall entry, In entry l -> prem_id (state_premonition (snd entry)) = k ->
                 expired turn entry = true) ->
  bindingsOf k evs = 0%nat.
Proof.
  intros Hev Hk. unfold bindingsOf. induction Hev as [|ev evs Hhead _ IH]; [reflexivity|].
  simpl. destruct Hhead as (entry & score & Hin & Hlive & ->). simpl.
  destruct (String.eqb_spec (prem_id (state_premonition (snd entry))) k) as [Heq|_];
    [|exact IH].
  rewrite (Hk entry Hin Heq) in Hlive. discriminate.
Qed.

Lemma no_expiry_of (k : string) (now : Z) (fr : FractureEvent) (turn : Z)
    (l : list (string * PremonitionState)) (evs : list Event) :
  Forall (fun ev => exists entry score,
            In entry l /\ expired turn entry = false /\
            ev = Binding (prem_id (state_premonition (snd entry))) (fr_id fr) now score) evs ->
  expiriesOf k evs = 0%nat.
Proof.
  intros Hev. unfold expiriesOf. induction Hev as [|ev evs Hhead _ IH]; [reflexivity|].
  destruct Hhead as (entry & score & _ & _ & ->). exact IH.
Qed.

(** What one call of [processFracture] does, seen from one echo id. *)
Lemma processFracture_spec (now : Z) (fr : FractureEvent) (t : Matcher) :
  wellFormed t ->
  Graphlib.hasNode (MemoryGraphStore.graph (memoryGraph t)) (fr_id fr) = true ->
  let r := processFracture now fr t in
  let turn := (turnCounter t + 1)%Z in
  Js.outcome r = Js.Returned tt /\
  turnCounter (Js.final r) = turn /\
  wellFormed (Js.final r) /\
  (forall i, Graphlib.hasNode (MemoryGraphStore.graph (memoryGraph t)) i = true ->
             Graphlib.hasNode (MemoryGraphStore.graph (memoryGraph (Js.final r))) i = true) /\
  forall k,
    match Js.oget k (activePremonitions t) with
    | Some s =>
        if (expiresAtTurn s <? turn)%Z
        then Js.oget k (activePremonitions (Js.final r)) = None /\
             expiriesOf k (Js.emitted r) = 1%nat /\
             bindingsOf k (Js.emitted r) = 0%nat
        else (exists s', Js.oget k (activePremonitions (Js.final r)) = Some s' /\
                         expiresAtTurn s' = expiresAtTurn s /\
                         state_premonition s' = state_premonition s) /\
             expiriesOf k (Js.emitted r) = 0%nat
    | None =>
        Js.oget k (activePremonitions (Js.final r)) = None /\
        expiriesOf k (Js.emitted r) = 0%nat /\
        bindingsOf k (Js.emitted r) = 0%nat
    end.
Proof.
  intros [Hnd Hwf] Hfr r turn. subst r.
  set (t1 := mkMatcher (memoryGraph t) (activePremonitions t) (turnCounter t + 1)%Z).
  assert (Hl : forall entry, In entry (sortByStrength (activePremonitions t1)) ->
             Graphlib.hasNode (MemoryGraphStore.graph (memoryGraph t1))
               (prem_id (state_premonition (snd entry))) = true).
  { intros [k s] Hin. apply sortByStrength_in in Hin. destruct (Hwf k s Hin) as [Hk Hn].
    simpl. rewrite <- Hk. exact Hn. }
  destruct (attempts_spec now fr (sortByStrength (activePremonitions t1)) t1 Hl Hfr)
    as (Ho2 & (Hturn2 & Hsk2 & Hnodes2) & Hev2).
  rewrite (processFracture_run now fr t Ho2). fold t1.
  set (r2 := Js.forOf (sortByStrength (activePremonitions t1)) (attempt now fr) t1) in *.
  set (t2 := Js.final r2) in *.
  destruct (cleanup_loop (activePremonitions t2) t2) as (Ho3 & Hg3 & Ht3 & Ha3 & He3).
  set (r3 := Js.forOf (activePremonitions t2) expire t2) in *.
  rewrite ?outcome_run, ?final_run, ?emitted_run.
  change (turnCounter t1) with turn in *.
  change (activePremonitions t1) with (activePremonitions t) in *.
  change (memoryGraph t1) with (memoryGraph t) in *.
  assert (Hnd2 : List.NoDup (Js.okeys (activePremonitions t2))).
  { now rewrite (skeleton_keys _ _ Hsk2). }
  rewrite Hturn2 in Ht3, Ha3, He3.
  split; [exact Ho3|]. split; [exact Ht3|]. split; [|split].
  - split.
    + rewrite Ha3. now apply purge_nodup.
    + intros k s Hin. rewrite Ha3 in Hin. apply purge_in in Hin.
      destruct (skeleton_in (activePremonitions t) (activePremonitions t2) k s Hsk2 Hin)
        as (s0 & Hin0 & _ & Hp).
      destruct (Hwf k s0 Hin0) as [Hk Hn]. split; [congruence|].
      rewrite Hg3. now apply Hnodes2.
  - intros i Hi. rewrite Hg3. now apply Hnodes2.
  - intros k. rewrite Ha3, He3, oget_purge.
    erewrite existsb_entry by exact Hnd2.
    rewrite bindingsOf_app, expiriesOf_app, bindingsOf_purged, expiriesOf_purged.
    erewrite count_entry by exact Hnd2.
    erewrite no_expiry_of by exact Hev2.
    pose proof (skeleton_oget k (activePremonitions t) (activePremonitions t2) Hsk2) as Hsame.
    assert (Hdead : (forall s, Js.oget k (activePremonitions t) = Some s ->
                               (expiresAtTurn s <? turn)%Z = true) ->
                    bindingsOf k (Js.emitted r2) = 0%nat).
    { intros Hexp. eapply no_binding_of; [exact Hev2|]. intros [k0 s0] Hin Hid.
      apply sortByStrength_in in Hin. destruct (Hwf k0 s0 Hin) as [Hk _].
      simpl in Hid. rewrite <- Hk in Hid. subst k0.
      unfold expired; simpl. apply Hexp. now apply in_oget_nodup. }
    destruct (Js.oget k (activePremonitions t)) as [s|] eqn:Hg;
      destruct (Js.oget k (activePremonitions t2)) as [s2|] eqn:Hg2; try contradiction.
    + destruct Hsame as [He Hp]. unfold expired; simpl. rewrite He.
      destruct (expiresAtTurn s <? turn)%Z eqn:Hexp.
      * repeat split. rewrite Hdead; [reflexivity|]. now intros s' [= <-].
      * split; [|reflexivity]. exists s2. auto.
    + repeat split. rewrite Hdead; [reflexivity|]. discriminate.
Qed.

End CallFacts.

Section RunFacts.
Import PremonitionMatcher.

Lemma addPremonition_spec (p : Premonition) (t : Matcher) :
  wellFormed t ->
  let t' := Js.final (addPremonition p t) in
  wellFormed t' /\
  turnCounter t' = turnCounter t /\
  Js.oget (prem_id p) (activePremonitions t')
  = Some (mkState p (turnCounter t) (turnCounter t + validityWindow p)%Z 0%Z false) /\
  forall k, k <> prem_id p ->
            Js.oget k (activePremonitions t') = Js.oget k (activePremonitions t).
Proof.
  intros [Hnd Hwf]. cbv zeta.
  unfold addPremonition, onGraph, zoom, MemoryGraphStore.addPremonition.
  erewrite bind_returned by (rewrite addNode_run; reflexivity).
  erewrite bind_returned by reflexivity.
  rewrite ?final_run. unfold Js.modify. rewrite ?final_run. unfold setActive, wellFormed.
  cbn [memoryGraph activePremonitions turnCounter MemoryGraphStore.graph node_id fst snd].
  split; [split|split; [reflexivity|split]].
  - now apply okeys_oset_nodup.
  - intros k s Hin. apply in_oset_inv in Hin. rewrite hasNode_setNode.
    destruct Hin as [[-> ->]|Hin].
    + split; [reflexivity|]. unfold prem_id.
      now destruct (decide (fold_id (prem_fold p) = fold_id (prem_fold p))).
    + destruct (Hwf k s Hin) as [Hk Hn]. split; [exact Hk|].
      now destruct (decide (k = fold_id (prem_fold p))).
  - apply oget_oset_eq.
  - intros k Hne. now apply oget_oset_ne.
Qed.

Lemma store_spec (fr : FractureEvent) (t : Matcher) :
  wellFormed t ->
  let t' := Js.final (onGraph (MemoryGraphStore.addFracture fr) t) in
  wellFormed t' /\ activePremonitions t' = activePremonitions t.
Proof.
  intros [Hnd Hwf]. cbv zeta.
  unfold onGraph, zoom, MemoryGraphStore.addFracture. rewrite addNode_run, final_run.
  unfold wellFormed.
  cbn [memoryGraph activePremonitions turnCounter MemoryGraphStore.graph node_id fst snd].
  split; [split|reflexivity]; [exact Hnd|].
  intros k s Hin. destruct (Hwf k s Hin) as [Hk Hn]. split; [exact Hk|].
  rewrite hasNode_setNode. now destruct (decide (k = fr_id fr)).
Qed.

(** An echo that is not in the map stays out of it, and is neither bound nor
    expired by any later call. *)
Lemma trace_gone (id : string) (ops : list Op) : forall t,
  wellFormed t ->
  Js.oget id (activePremonitions t) = None ->
  (forall p, In (Register p) ops -> prem_id p <> id) ->
  admissible ops t ->
  forall c, In c (trace ops t) ->
    call_outcome c = Js.Returned tt /\
    bindingsOf id (call_events c) = 0%nat /\
    expiriesOf id (call_events c) = 0%nat /\
    Js.oget id (activePremonitions (call_after c)) = None.
Proof.
  induction ops as [|op ops IH]; intros t Hwf Hgone Hreg Hadm c Hc;
    [contradiction|].
  destruct Hadm as [Hadm Hrest].
  assert (Hreg' : forall p, In (Register p) ops -> prem_id p <> id)
    by (intros p Hp; apply Hreg; now right).
  destruct op as [p|fr|now fr|]; simpl in Hc, Hrest; [| | |apply (IH (resetTurnCounter t) Hwf); auto].
  - destruct (addPremonition_spec p Hwf) as (Hwf' & _ & _ & Hother).
    apply (IH _ Hwf'); auto.
    rewrite Hother; [exact Hgone|]. intros ->. apply (Hreg p); [now left|reflexivity].
  - destruct (store_spec fr Hwf) as (Hwf' & Ha).
    apply (IH _ Hwf'); auto; now rewrite Ha.
  - destruct (processFracture_spec now fr Hwf Hadm) as (Ho & Ht & Hwf' & _ & Hk).
    specialize (Hk id). rewrite Hgone in Hk. destruct Hk as (Hg' & He & Hb).
    destruct Hc as [<-|Hc]; [simpl; auto|].
    apply (IH _ Hwf'); auto.
Qed.


End RunFacts.


(** ** Deferred bindings *)
Section BindingFacts.
Import InteractionBindingLogic.

Lemma indexed_addNode {E : Type} (node : MemoryNode) (st : MemoryGraphStore.Store) :
  MemoryGraphStore.indexed st ->
  MemoryGraphStore.indexed (Js.final (MemoryGraphStore.addNode (E:=E) node st)).
Proof.
  intros Hix k n Hin. rewrite addNode_run, final_run in *.
  cbn [MemoryGraphStore.nodes MemoryGraphStore.graph] in *.
  rewrite hasNode_setNode. apply in_oset_inv in Hin. destruct Hin as [[-> ->]|Hin].
  - split; [reflexivity|]. now destruct (decide (node_id node = node_id node)).
  - destruct (Hix k n Hin) as [Hk Hn]. split; [exact Hk|].
    now destruct (decide (k = node_id node)).
Qed.

Lemma bindFoldToFracture_spec (now : Z) (foldId fractureId : string) (t : Logic) :
  let r := bindFoldToFracture now foldId fractureId t in
  Js.outcome r = Js.Returned tt /\ memoryGraph (Js.final r) = memoryGraph t.
Proof.
  unfold bindFoldToFracture, Js.bind, Js.get, Js.modify, Js.emit, Js.ret; simpl.
  destruct (Js.oget fractureId (pendingBindings t)) as [b|] eqn:Hb; simpl.
  - rewrite Hb. destruct (existsb _ _); simpl; split; reflexivity.
  - rewrite oget_oset_eq. simpl. split; reflexivity.
Qed.

Lemma deferred_round (now : Z) (fr : FractureEvent) (foldNode : MemoryNode) (s : Logic) :
  Graphlib.hasNode (MemoryGraphStore.graph (memoryGraph s)) (node_id foldNode) = true ->
  Graphlib.hasNode (MemoryGraphStore.graph (memoryGraph s)) (fr_id fr) = true ->
  let contentSim := calculateContentSimilarity (node_content foldNode) (fr_content fr) in
  let r :=
    (if Qlt_bool 0.5 contentSim
     then
       exec onGraph (MemoryGraphStore.addEdge
              (mkEdge (node_id foldNode) (fr_id fr) causality contentSim
                 (Some [("bindingType", MStr "deferred");
                        ("bindingTimestamp", MInt now);
                        ("fractureEventId", MStr (fr_id fr))]))) in
       bindFoldToFracture now (node_id foldNode) (fr_id fr)
     else Js.ret tt) s in
  Js.outcome r = Js.Returned tt /\
  forall i, Graphlib.hasNode (MemoryGraphStore.graph (memoryGraph s)) i = true ->
            Graphlib.hasNode (MemoryGraphStore.graph (memoryGraph (Js.final r))) i = true.
Proof.
  intros Hn Hf contentSim. cbv zeta.
  destruct (Qlt_bool 0.5 contentSim); [|split; auto].
  erewrite bind_returned
    by (unfold onGraph, zoom; rewrite addEdge_success by assumption; reflexivity).
  rewrite outcome_run, final_run.
  match goal with
  | |- context [bindFoldToFracture now ?a ?b ?s'] =>
      destruct (bindFoldToFracture_spec now a b s') as [Ho Hg]
  end.
  split; [exact Ho|]. intros i Hi. rewrite Hg.
  cbn [memoryGraph MemoryGraphStore.graph]. now rewrite hasNode_setEdge.
Qed.

End BindingFacts.

(** C1 fails on the code, for every stimulus. On a store that holds each node
    under its id, [processFracture] returns, and when it does the list of
    reactions bound to the stimulus is empty, whatever deferred reactions
    [checkDeferredBindings] has just linked to it: the binding record is
    stored anew after the scan. *)
Theorem processFracture_forgets_deferred_bindings
    (now : Z) (fr : FractureEvent) (t : InteractionBindingLogic.Logic) :
  MemoryGraphStore.indexed (InteractionBindingLogic.memoryGraph t) ->
  let r := InteractionBindingLogic.processFracture now fr t in
  Js.outcome r = Js.Returned tt /\
  InteractionBindingLogic.getResponsesForFracture (Js.final r) (fr_id fr) = [].
Proof.
  intros Hix r.
  assert (Ho : Js.outcome r = Js.Returned tt).
  { subst r. unfold InteractionBindingLogic.processFracture.
    erewrite bind_returned
      by (unfold InteractionBindingLogic.onGraph, zoom, MemoryGraphStore.addFracture;
          rewrite addNode_run; reflexivity).
    rewrite outcome_run.
    set (t1 := InteractionBindingLogic.mkLogic _ _ _).
    assert (Hix1 : MemoryGraphStore.indexed (InteractionBindingLogic.memoryGraph t1)).
    { apply (indexed_addNode (E:=InteractionBindingLogic.Interaction)
               (mkNode (fr_id fr) fracture (fr_content fr) (fr_timestamp fr) (fr_metadata fr))
               Hix). }
    assert (Hfr : Graphlib.hasNode
                    (MemoryGraphStore.graph (InteractionBindingLogic.memoryGraph t1))
                    (fr_id fr) = true).
    { subst t1. cbn [InteractionBindingLogic.memoryGraph MemoryGraphStore.graph].
      rewrite hasNode_setNode. cbn [node_id]. now destruct (decide (fr_id fr = fr_id fr)). }
    assert (Hloop :
              Js.outcome (InteractionBindingLogic.checkDeferredBindings now fr t1)
              = Js.Returned tt).
    { unfold InteractionBindingLogic.checkDeferredBindings.
      erewrite bind_returned by reflexivity. rewrite outcome_run.
      apply (@forOf_invariant InteractionBindingLogic.Logic InteractionBindingLogic.Interaction _
               (fun s => forall i,
                    Graphlib.hasNode
                      (MemoryGraphStore.graph (InteractionBindingLogic.memoryGraph t1)) i = true ->
                    Graphlib.hasNode
                      (MemoryGraphStore.graph (InteractionBindingLogic.memoryGraph s)) i = true)
               (fun _ => True)); [|auto].
      intros foldNode s Hin Hs.
      apply List.filter_In in Hin. destruct Hin as [Hin _].
      unfold MemoryGraphStore.getNodesByType in Hin. apply List.filter_In in Hin.
      destruct Hin as [Hin _]. unfold MemoryGraphStore.getAllNodes, Js.ovalues in Hin.
      apply in_map_iff in Hin. destruct Hin as [[k n] [Heq Hin]]. simpl in Heq. subst n.
      destruct (Hix1 k foldNode Hin) as [Hk Hn]. subst k.
      destruct (deferred_round now fr foldNode s (Hs _ Hn) (Hs _ Hfr)) as [Hret Hmono].
      split; [exact Hret|]. split; [|apply Forall_forall; auto].
      intros i Hi. apply Hmono. now apply Hs. }
    pose proof (run_eta (InteractionBindingLogic.checkDeferredBindings now fr t1)) as Heta.
    rewrite Hloop in Heta. erewrite bind_returned by exact Heta.
    reflexivity. }
  split; [exact Ho|].
  apply processFracture_resets_binding_record. fold r. now rewrite Ho.
Qed.

(** C1 on scenario D. *)
Lemma processFracture_forgets_deferred_bindings_witness :
  let r := InteractionBindingLogic.processFracture 21%Z Scenarios.stimulusD Scenarios.logicD in
  Js.outcome r = Js.Returned tt /\
  InteractionBindingLogic.getResponsesForFracture (Js.final r) "stimulus-1" = [].
Proof.
  apply (@processFracture_forgets_deferred_bindings 21%Z Scenarios.stimulusD Scenarios.logicD).
  intros k node Hin. vm_compute in Hin. destruct Hin as [Heq|[]].
  injection Heq as <- <-. split; reflexivity.
Defined.

(** The heaviest edge between two nodes may be out of sight of the canonical
    path: with a -> b inserted at 0.9 and then again, as a divergence, at
    0.1, the walk from [a] prefers [c] at 0.5. *)
Lemma canonical_path_reads_last_inserted :
  List.map weight (MemoryGraphStore.getAllEdges Scenarios.storeForked) = [0.9; 0.1; 0.5] /\
  List.map weight (MemoryGraphStore.getEdgesBetween Scenarios.storeForked "a" "b") = [0.1] /\
  List.map node_id (MemoryGraphStore.getCanonicalPath Scenarios.storeForked) = ["a"; "c"].
Proof. vm_compute. repeat split; reflexivity. Qed.

(** Aliasing after a fork, in general: the profile of the fork holds the
    reference to the tone weights that the original holds. *)
Lemma kernel_addEdge_run {E : Type} (edge : MemoryEdge) (k : CharacterKernel.Kernel) :
  CharacterKernel.onGraph (E:=E) (MemoryGraphStore.addEdge edge) k =
  if negb (Graphlib.hasNode (MemoryGraphStore.graph (CharacterKernel.memoryGraph k)) (source edge))
     || negb (Graphlib.hasNode (MemoryGraphStore.graph (CharacterKernel.memoryGraph k)) (target edge))
  then (Js.Threw Js.MissingEndpoint,
        CharacterKernel.mkKernel (CharacterKernel.characters k) (CharacterKernel.memoryGraph k)
          (CharacterKernel.config k) (CharacterKernel.emotionalStates k)
          (CharacterKernel.heap k) (CharacterKernel.nextRef k), [])
  else (Js.Returned (MemoryGraphStore.edgeId edge),
        CharacterKernel.mkKernel (CharacterKernel.characters k)
          (MemoryGraphStore.mkStore
             (Graphlib.setEdge (source edge) (target edge) edge
                (MemoryGraphStore.graph (CharacterKernel.memoryGraph k)))
             (MemoryGraphStore.nodes (CharacterKernel.memoryGraph k))
             (Js.oset (MemoryGraphStore.edgeId edge) edge
                (MemoryGraphStore.edges (CharacterKernel.memoryGraph k))))
          (CharacterKernel.config k) (CharacterKernel.emotionalStates k)
          (CharacterKernel.heap k) (CharacterKernel.nextRef k), []).
Proof.
  unfold CharacterKernel.onGraph, zoom. rewrite addEdge_run.
  now destruct (negb _ || negb _).
Qed.

Lemma forkCharacter_shares_reference {E : Type}
    (uuidAnchor uuidCharacter : string) (now : Z) (characterId nameModifier : string)
    (k : CharacterKernel.Kernel) (c : CharacterKernel.CharacterField) :
  CharacterKernel.getCharacter k characterId = Some c ->
  let r := CharacterKernel.forkCharacter (E:=E) uuidAnchor uuidCharacter now
             characterId nameModifier k in
  Js.returned (Js.outcome r) = true ->
  exists c',
    CharacterKernel.getCharacter (Js.final r) uuidCharacter = Some c' /\
    CharacterKernel.variations (CharacterKernel.toneProfile c')
    = CharacterKernel.variations (CharacterKernel.toneProfile c) /\
    CharacterKernel.heap (Js.final r) = CharacterKernel.heap k.
Proof.
  intros Hc r. subst r. unfold CharacterKernel.forkCharacter.
  erewrite bind_returned by reflexivity. rewrite Hc.
  set (label := (CharacterKernel.char_name c +:+ " (" +:+ nameModifier +:+ ")")%string).
  set (content := ("Character fork: " +:+ _)%string).
  set (meta := Some _).
  erewrite bind_returned
    by (unfold CharacterKernel.onGraph, zoom, MemoryGraphStore.addMemory;
        rewrite addNode_run; reflexivity).
  set (node := mkNode uuidAnchor memory content now _).
  rewrite outcome_run, final_run. cbn [node_id].
  set (k1 := CharacterKernel.mkKernel _ _ _ _ _ _).
  unfold MemoryGraphStore.createEmotionalLink, MemoryGraphStore.createDivergence.
  pose proof (kernel_addEdge_run (E:=E)
                (mkEdge (CharacterKernel.memoryAnchor c) uuidAnchor emotional 0.8 None) k1)
    as Hrun1.
  destruct (negb _ || negb _) in Hrun1.
  - erewrite bind_threw by exact Hrun1. discriminate.
  - erewrite bind_returned by exact Hrun1. rewrite outcome_run, final_run.
    set (k2 := CharacterKernel.mkKernel _ _ _ _ _ _).
    pose proof (kernel_addEdge_run (E:=E)
                  (mkEdge (CharacterKernel.memoryAnchor c) uuidAnchor divergence 0.5 None) k2)
      as Hrun2.
    destruct (negb _ || negb _) in Hrun2.
    + erewrite bind_threw by exact Hrun2. discriminate.
    + intros _. erewrite bind_returned by exact Hrun2.
      set (k3 := CharacterKernel.mkKernel _ _ _ _ _ _).
      erewrite bind_returned by reflexivity.
      erewrite bind_returned by reflexivity.
      rewrite !final_run.
      exists (CharacterKernel.mkCharacter uuidCharacter label
                (CharacterKernel.toneProfile c) (CharacterKernel.mutationSchema c)
                uuidAnchor (CharacterKernel.collapseThreshold c)).
      split; [|split; [reflexivity|]];
        destruct (Js.oget characterId _);
        unfold Js.modify, Js.ret, Js.bind; rewrite ?final_run;
        unfold CharacterKernel.getCharacter, CharacterKernel.setEmotionalStates,
          CharacterKernel.setCharacters;
        cbn [CharacterKernel.characters CharacterKernel.heap CharacterKernel.char_id];
        try apply oget_oset_eq; reflexivity.
Qed.

(** ** Instances on the concrete runs *)

(** C7 on a store with one node and an edge that points outside of it. *)
Lemma addEdge_fails_iff_endpoint_absent_witness :
  let r := MemoryGraphStore.addEdge (E:=Empty_set) Scenarios.danglingEdge Scenarios.storeOne in
  (Js.outcome r = Js.Threw Js.MissingEndpoint <->
     MemoryGraphStore.getNode Scenarios.storeOne "stimulus-1" = None \/
     MemoryGraphStore.getNode Scenarios.storeOne "nowhere" = None)
  /\ (Js.returned (Js.outcome r) = false ->
        Js.outcome r = Js.Threw Js.MissingEndpoint /\ Js.final r = Scenarios.storeOne
        /\ Js.emitted r = [])
  /\ (Js.returned (Js.outcome r) = true ->
        Js.outcome r = Js.Returned (MemoryGraphStore.edgeId Scenarios.danglingEdge)).
Proof.
  apply (@addEdge_fails_iff_endpoint_absent Empty_set
           Scenarios.storeOne Scenarios.danglingEdge).
  apply consistent_addNode, consistent_empty.
Defined.

(** C10 on the two edges that [forkCharacter] puts between the anchors. *)
Lemma edgesBetween_sees_last_inserted_witness :
  let r1 := MemoryGraphStore.addEdge (E:=Empty_set) Scenarios.affectiveEdge Scenarios.storeAnchors in
  let r2 := MemoryGraphStore.addEdge (E:=Empty_set) Scenarios.divergenceEdge (Js.final r1) in
  In Scenarios.affectiveEdge (MemoryGraphStore.getAllEdges (Js.final r2)) /\
  In Scenarios.divergenceEdge (MemoryGraphStore.getAllEdges (Js.final r2)) /\
  MemoryGraphStore.getEdgesBetween (Js.final r2) "anchor-1" "anchor-2"
  = [Scenarios.divergenceEdge].
Proof.
  apply (@edgesBetween_sees_last_inserted Empty_set
           Scenarios.storeAnchors Scenarios.affectiveEdge Scenarios.divergenceEdge);
    try reflexivity.
  discriminate.
Defined.


Lemma elenaVariations_distribution :
  CharacterKernel.isDistribution Scenarios.elenaVariations.
Proof.
  split; [|split].
  - unfold Scenarios.elenaVariations, Js.okeys; simpl.
    repeat (constructor; [simpl; intros H; repeat (destruct H as [H|H]; [discriminate H|]); exact H|]).
    constructor.
  - intros emotion w Hin. unfold Scenarios.elenaVariations in Hin. simpl in Hin.
    repeat (destruct Hin as [Hin|Hin]; [injection Hin as _ <-; discriminate|]).
    contradiction.
  - vm_compute. reflexivity.
Qed.

(** C8 on the character of the demonstration script and five reactions of
    joy. *)
Lemma applyMutation_preserves_unit_sum_witness :
  exists o',
    CharacterKernel.toneOf
      (CharacterKernel.applyMutations "elena" (firstn 5 Scenarios.fiveJoys) Scenarios.kernelElena)
      "elena" = Some o'
    /\ CharacterKernel.totalWeight o' == 1
    /\ CharacterKernel.isDistribution o'.
Proof.
  apply (@applyMutation_preserves_unit_sum Scenarios.kernelElena "elena" "joy"
           Scenarios.elena Scenarios.elenaVariations Scenarios.fiveJoys).
  - reflexivity.
  - reflexivity.
  - exact elenaVariations_distribution.
  - reflexivity.
  - discriminate.
  - reflexivity.
  - intros f Hf. unfold Scenarios.fiveJoys in Hf. simpl in Hf.
    repeat (destruct Hf as [<-|Hf]; [split; [reflexivity|discriminate]|]). contradiction.
  - lia.
Defined.


(** The same run, evaluated: the turns of the five calls, and how many
    times each call emits the expiry of the echo. *)
Lemma echo_expires_at_turn_four :
  List.map (fun c => (PremonitionMatcher.call_turn c,
                      PremonitionMatcher.expiriesOf "echo-E" (PremonitionMatcher.call_events c)))
    (PremonitionMatcher.trace Scenarios.fiveTurns
       (Js.final (PremonitionMatcher.addPremonition Scenarios.echoA
                    (PremonitionMatcher.create MemoryGraphStore.empty))))
  = [(1%Z, 0%nat); (2%Z, 0%nat); (3%Z, 0%nat); (4%Z, 1%nat); (5%Z, 0%nat)].
Proof. vm_compute. reflexivity. Qed.

(** * Further properties *)

(** ** Stores built by the public methods *)
Section StoreInvariant.
Context {E : Type}.
Import MemoryGraphStore.

Lemma final_then_ret {S A} (m : Js.M S E A) (s : S) :
  Js.final ((exec m in Js.ret tt) s) = Js.final (m s).
Proof.
  unfold Js.bind, Js.ret, Js.final. destruct (m s) as [[[a|e] s1] ev]; reflexivity.
Qed.

Lemma outcome_then_ret {S A} (m : Js.M S E A) (s : S) :
  Js.returned (Js.outcome ((exec m in Js.ret tt) s)) = Js.returned (Js.outcome (m s)).
Proof.
  unfold Js.bind, Js.ret, Js.outcome. destruct (m s) as [[[a|e] s1] ev]; reflexivity.
Qed.

Lemma sound_empty : sound empty.
Proof.
  unfold sound. split; [apply consistent_empty|].
  split; [intros k n []|]. split; [constructor|].
  split; [intros; simpl in *; contradiction|].
  split; [intros; simpl in *; contradiction|].
  split; constructor.
Qed.

Lemma sound_addNode (node : MemoryNode) (st : Store) :
  sound st -> sound (Js.final (addNode (E:=E) node st)).
Proof.
  intros (Hc & Hi & Hnd & Hg & He & Hne & Hng).
  split; [now apply consistent_addNode|].
  rewrite addNode_run, final_run.
  unfold indexed. split; [|split; [|split; [|split; [|split]]]]; cbn [graph nodes edges].
  - intros k n Hin. apply in_oset_inv in Hin. destruct Hin as [[-> ->]|Hin].
    + split; [reflexivity|]. rewrite hasNode_setNode. now destruct (decide _).
    + destruct (Hi k n Hin) as [Hk Hh]. split; [exact Hk|].
      rewrite hasNode_setNode. now destruct (decide _).
  - now apply okeys_oset_nodup.
  - intros v w e Hin. destruct (Hg v w e Hin) as (Hs & Ht & Hv & Hw).
    repeat split; auto using ohas_oset_mono.
  - intros k e Hin. destruct (He k e Hin) as (Hk & Hv & Hw).
    repeat split; auto using ohas_oset_mono.
  - exact Hne.
  - exact Hng.
Qed.

Lemma sound_addEdge (edge : MemoryEdge) (st : Store) :
  sound st -> sound (Js.final (addEdge (E:=E) edge st)).
Proof.
  intros Hs. pose proof Hs as (Hc & Hi & Hnd & Hg & He & Hne & Hng).
  split; [apply consistent_addEdge; exact Hc|].
  rewrite addEdge_run.
  destruct (Graphlib.hasNode (graph st) (source edge)) eqn:Hsrc;
    destruct (Graphlib.hasNode (graph st) (target edge)) eqn:Htgt; cbn [negb orb];
    try (rewrite final_run; tauto).
  rewrite final_run; cbn [graph nodes edges].
  assert (Hgr : Graphlib.setEdge (source edge) (target edge) edge (graph st) =
                Graphlib.mkGraph (Graphlib.g_nodes (graph st))
                  (Js.oset (source edge, target edge) edge (Graphlib.g_edges (graph st)))).
  { unfold Graphlib.setEdge.
    rewrite (ensureNode_present _ _ Hsrc), (ensureNode_present _ _ Htgt). reflexivity. }
  rewrite Hgr. unfold indexed.
  split; [|split; [|split; [|split; [|split]]]]; cbn [graph nodes edges Graphlib.g_edges].
  - intros k n Hin. destruct (Hi k n Hin) as [Hk Hh]. split; [exact Hk|exact Hh].
  - exact Hnd.
  - cbn [Graphlib.g_edges]. intros v w e Hin. apply in_oset_inv in Hin.
    destruct Hin as [[[= -> ->] ->]|Hin].
    2: { now apply Hg. }
    rewrite <- !Hc. auto.
  - intros k e Hin. apply in_oset_inv in Hin.
    destruct Hin as [[-> ->]|Hin]; [|now apply He].
    rewrite <- !Hc. auto.
  - now apply okeys_oset_nodup.
  - now apply okeys_oset_nodup.
Qed.

Lemma final_bind {S A B} (m : Js.M S E A) (k : A -> Js.M S E B) (s : S) :
  Js.final (Js.bind m k s) =
  match Js.outcome (m s) with
  | Js.Returned a => Js.final (k a (Js.final (m s)))
  | Js.Threw _ => Js.final (m s)
  end.
Proof.
  unfold Js.bind, Js.final, Js.outcome. destruct (m s) as [[[a|e] s1] ev]; simpl; [|reflexivity].
  now destruct (k a s1) as [[o s2] ev2].
Qed.

Lemma sound_bind {A B} (m : Js.M Store E A) (k : A -> Js.M Store E B) (st : Store) :
  sound (Js.final (m st)) ->
  (forall a st1, sound st1 -> sound (Js.final (k a st1))) ->
  sound (Js.final (Js.bind m k st)).
Proof.
  intros Hm Hk. rewrite final_bind. destruct (Js.outcome (m st)); auto.
Qed.

Lemma sound_addFold (f : RecursionFold) (st : Store) :
  sound st -> sound (Js.final (addFold (E:=E) f st)).
Proof.
  intros Hs. unfold addFold. apply sound_bind; [now apply sound_addNode|].
  intros a st1 H1.
  destruct (fold_fractureEventId f) as [fid|]; [|exact H1].
  destruct (Js.truthyString fid); [|exact H1].
  apply sound_bind; [now apply sound_addEdge|]. intros _ st2 H2. exact H2.
Qed.

Lemma sound_forkAtNode (uuid : string) (now : Z) (nodeId : string) (st : Store) :
  sound st -> sound (Js.final (forkAtNode (E:=E) uuid now nodeId st)).
Proof.
  intros Hs. unfold forkAtNode. apply sound_bind; [exact Hs|].
  intros st0 st1 H1.
  destruct (getNode st0 nodeId) as [orig|]; [|exact H1].
  apply sound_bind; [now apply sound_addNode|]. intros a st2 H2.
  apply sound_bind; [now apply sound_addEdge|]. intros _ st3 H3. exact H3.
Qed.

Lemma sound_perform (c : Call) (st : Store) :
  sound st -> sound (Js.final (perform (E:=E) c st)).
Proof.
  intros Hs. destruct c; cbn [perform]; rewrite ?final_then_ret.
  - now apply sound_addNode.
  - now apply sound_addFold.
  - now apply sound_addNode.
  - now apply sound_addNode.
  - now apply sound_addEdge.
  - now apply sound_addEdge.
  - now apply sound_addEdge.
  - now apply sound_addEdge.
  - now apply sound_forkAtNode.
  - apply sound_empty.
Qed.

End StoreInvariant.

Lemma sound_after (calls : list MemoryGraphStore.Call) :
  MemoryGraphStore.sound (MemoryGraphStore.after calls).
Proof.
  unfold MemoryGraphStore.after.
  generalize (@sound_empty).
  generalize MemoryGraphStore.empty as st.
  induction calls as [|c calls IH]; intros st Hs; simpl; [exact Hs|].
  apply IH. now apply sound_perform.
Qed.

(** ** Reading a store *)
Section OMapMore.
Context {K V : Type} `{EqDecision K}.
Implicit Types (k : K) (v : V) (m : list (K * V)).

Lemma oset_new k v m : Js.oget k m = None -> Js.oset k v m = m ++ [(k, v)].
Proof.
  induction m as [|[k0 v0] m IH]; simpl; [reflexivity|].
  destruct (decide (k0 = k)); [discriminate|]. intros Hg. now rewrite IH.
Qed.

Lemma length_oset_taken k v m : Js.ohas k m = true -> length (Js.oset k v m) = length m.
Proof.
  unfold Js.ohas. induction m as [|[k0 v0] m IH]; simpl; [discriminate|].
  destruct (decide (k0 = k)); simpl; [reflexivity|]. intros Hg. now rewrite IH.
Qed.


Lemma ohas_true_oget k m : Js.ohas k m = true <-> exists v, Js.oget k m = Some v.
Proof.
  unfold Js.ohas. destruct (Js.oget k m) as [v|].
  - split; [eauto|reflexivity].
  - split; [discriminate|intros [v Hv]; discriminate].
Qed.

End OMapMore.

Section StoreReading.
Context {E : Type}.
Import MemoryGraphStore.

Lemma hasNode_of_getNode (st : Store) (i : string) (n : MemoryNode) :
  consistent st -> getNode st i = Some n -> Graphlib.hasNode (graph st) i = true.
Proof. intros Hc Hg. rewrite Hc. unfold Js.ohas. unfold getNode in Hg. now rewrite Hg. Qed.

Lemma oget_spread_last (a : Metadata) (k : string) (v : MetaValue) :
  Js.oget k (spread a [(k, v)]) = Some v.
Proof. unfold spread; simpl. apply oget_oset_eq. Qed.

Lemma successors_setEdge (g : Graphlib.Graph) (v w i : string) (label : MemoryEdge) (l : list string) :
  Graphlib.hasNode g v = true -> Graphlib.hasNode g w = true ->
  Graphlib.successors g i = Some l ->
  exists l', Graphlib.successors (Graphlib.setEdge v w label g) i = Some l' /\
             (forall x, In x l -> In x l') /\ (i = v -> In w l').
Proof.
  intros Hv Hw. unfold Graphlib.successors.
  rewrite (@hasNode_setEdge i v w label g Hv Hw).
  destruct (Graphlib.hasNode g i); [|discriminate]. intros [= <-].
  unfold Graphlib.setEdge. rewrite (ensureNode_present _ _ Hv), (ensureNode_present _ _ Hw).
  cbn [Graphlib.g_edges]. eexists. split; [reflexivity|]. split.
  - intros x Hx. apply in_map_iff in Hx. destruct Hx as ([[a b] e] & Hb & Hin). simpl in Hb. subst b.
    apply filter_In in Hin. destruct Hin as [Hin Ha]. simpl in Ha.
    destruct (decide ((a, x) = (v, w))) as [[= -> ->]|Hne].
    + apply in_map_iff. exists ((v, w), label). split; [reflexivity|].
      apply filter_In. split; [apply in_oset_same|exact Ha].
    + apply in_map_iff. exists ((a, x), e). split; [reflexivity|].
      apply filter_In. split; [now apply in_oset_other|exact Ha].
  - intros ->. apply in_map_iff. exists ((v, w), label). split; [reflexivity|].
    apply filter_In. split; [apply in_oset_same|]. simpl. apply String.eqb_refl.
Qed.

Lemma predecessors_setEdge (g : Graphlib.Graph) (v w i : string) (label : MemoryEdge) (l : list string) :
  Graphlib.hasNode g v = true -> Graphlib.hasNode g w = true ->
  Graphlib.predecessors g i = Some l ->
  exists l', Graphlib.predecessors (Graphlib.setEdge v w label g) i = Some l' /\
             (forall x, In x l -> In x l') /\ (i = w -> In v l').
Proof.
  intros Hv Hw. unfold Graphlib.predecessors.
  rewrite (@hasNode_setEdge i v w label g Hv Hw).
  destruct (Graphlib.hasNode g i); [|discriminate]. intros [= <-].
  unfold Graphlib.setEdge. rewrite (ensureNode_present _ _ Hv), (ensureNode_present _ _ Hw).
  cbn [Graphlib.g_edges]. eexists. split; [reflexivity|]. split.
  - intros x Hx. apply in_map_iff in Hx. destruct Hx as ([[a b] e] & Hb & Hin). simpl in Hb. subst a.
    apply filter_In in Hin. destruct Hin as [Hin Ha]. simpl in Ha.
    destruct (decide ((x, b) = (v, w))) as [[= -> ->]|Hne].
    + apply in_map_iff. exists ((v, w), label). split; [reflexivity|].
      apply filter_In. split; [apply in_oset_same|exact Ha].
    + apply in_map_iff. exists ((x, b), e). split; [reflexivity|].
      apply filter_In. split; [now apply in_oset_other|exact Ha].
  - intros ->. apply in_map_iff. exists ((v, w), label). split; [reflexivity|].
    apply filter_In. split; [apply in_oset_same|]. simpl. apply String.eqb_refl.
Qed.

Lemma in_lookup_all (st : Store) (ids : list string) (n : MemoryNode) :
  In n (List.flat_map
          (fun i => match Js.oget i (nodes st) with Some x => [x] | None => [] end) ids) <->
  exists i, In i ids /\ Js.oget i (nodes st) = Some n.
Proof.
  rewrite in_flat_map. split; intros (i & Hi & Hn); exists i; split; auto.
  - destruct (Js.oget i (nodes st)) as [x|]; simpl in Hn; [|contradiction].
    destruct Hn as [->|[]]. reflexivity.
  - rewrite Hn. now left.
Qed.

End StoreReading.

(** X1. In a store built by any sequence of calls of the public methods on
    a new store, whether or not some of them threw, no edge dangles: every
    edge listed by [getAllEdges] and every edge found by [getEdgesBetween]
    joins two nodes that [getNode] finds, the latter under the very pair it
    was asked for; and every listed node is found under its own id, which no
    other listed node has. *)
Theorem store_edges_never_dangle (calls : list MemoryGraphStore.Call) :
  let st := MemoryGraphStore.after calls in
  (forall e, In e (MemoryGraphStore.getAllEdges st) ->
     MemoryGraphStore.getNode st (source e) <> None /\
     MemoryGraphStore.getNode st (target e) <> None) /\
  (forall s t e, In e (MemoryGraphStore.getEdgesBetween st s t) ->
     source e = s /\ target e = t /\
     MemoryGraphStore.getNode st s <> None /\ MemoryGraphStore.getNode st t <> None) /\
  (forall n, In n (MemoryGraphStore.getAllNodes st) ->
     MemoryGraphStore.getNode st (node_id n) = Some n) /\
  List.NoDup (List.map node_id (MemoryGraphStore.getAllNodes st)).
Proof.
  intros st. destruct (sound_after calls) as (Hc & Hi & Hnd & Hg & He & _). fold st in Hc, Hi, Hnd, Hg, He.
  assert (Hhas : forall i, Js.ohas i (MemoryGraphStore.nodes st) = true ->
                           MemoryGraphStore.getNode st i <> None).
  { intros i. unfold Js.ohas, MemoryGraphStore.getNode.
    destruct (Js.oget i (MemoryGraphStore.nodes st)); [discriminate|discriminate]. }
  split; [|split; [|split]].
  - intros e Hin. unfold MemoryGraphStore.getAllEdges, Js.ovalues in Hin.
    apply in_map_iff in Hin. destruct Hin as ([k e'] & Heq & Hin). simpl in Heq. subst e'.
    destruct (He k e Hin) as (_ & Hs & Ht). auto.
  - intros s t e. unfold MemoryGraphStore.getEdgesBetween, Graphlib.edge.
    destruct (Js.oget (s, t) (Graphlib.g_edges (MemoryGraphStore.graph st))) as [e'|] eqn:Hget;
      [|intros []].
    intros [->|[]]. apply oget_Some_in in Hget.
    destruct (Hg s t e Hget) as (Hs & Ht & Hv & Hw). auto.
  - intros n Hin. unfold MemoryGraphStore.getAllNodes, Js.ovalues in Hin.
    apply in_map_iff in Hin. destruct Hin as ([k n'] & Heq & Hin). simpl in Heq. subst n'.
    destruct (Hi k n Hin) as [Hk _]. subst k.
    unfold MemoryGraphStore.getNode. now apply in_oget_nodup.
  - unfold MemoryGraphStore.getAllNodes, Js.ovalues. rewrite List.map_map.
    erewrite List.map_ext_in; [exact Hnd|].
    intros [k n] Hin. simpl. destruct (Hi k n Hin) as [Hk _]. now subst k.
Qed.

(** X2. [addFracture] always returns the id of the stimulus and emits
    nothing; afterwards [getNode] finds a node of kind fracture with the
    content, timestamp and metadata of the stimulus under that id, every
    other id answers as before, and the edges are untouched. An id that was
    free adds the node at the end of the listing; an id that was taken has
    its node replaced, of whatever kind it was, and the listing keeps its
    length. *)
Theorem addFracture_stores_or_replaces
    (E : Type) (st : MemoryGraphStore.Store) (fr : FractureEvent) :
  let node := mkNode (fr_id fr) fracture (fr_content fr) (fr_timestamp fr) (fr_metadata fr) in
  let r := MemoryGraphStore.addFracture (E:=E) fr st in
  Js.outcome r = Js.Returned (fr_id fr) /\ Js.emitted r = [] /\
  MemoryGraphStore.getNode (Js.final r) (fr_id fr) = Some node /\
  (forall j, j <> fr_id fr ->
     MemoryGraphStore.getNode (Js.final r) j = MemoryGraphStore.getNode st j) /\
  MemoryGraphStore.getAllEdges (Js.final r) = MemoryGraphStore.getAllEdges st /\
  (forall s t, MemoryGraphStore.getEdgesBetween (Js.final r) s t =
               MemoryGraphStore.getEdgesBetween st s t) /\
  match MemoryGraphStore.getNode st (fr_id fr) with
  | None => MemoryGraphStore.getAllNodes (Js.final r) = MemoryGraphStore.getAllNodes st ++ [node]
  | Some _ => length (MemoryGraphStore.getAllNodes (Js.final r)) =
              length (MemoryGraphStore.getAllNodes st)
  end.
Proof.
  intros node r. subst r. unfold MemoryGraphStore.addFracture. fold node.
  rewrite addNode_run, outcome_run, final_run, emitted_run.
  unfold MemoryGraphStore.getNode, MemoryGraphStore.getAllNodes, Js.ovalues;
    cbn [MemoryGraphStore.nodes node_id node].
  split; [reflexivity|]. split; [reflexivity|].
  split; [apply oget_oset_eq|].
  split; [intros j Hj; now apply oget_oset_ne|].
  split; [reflexivity|]. split; [reflexivity|].
  change (node_id node) with (fr_id fr).
  destruct (Js.oget (fr_id fr) (MemoryGraphStore.nodes st)) as [old|] eqn:Hget.
  - rewrite !length_map. apply length_oset_taken. unfold Js.ohas. now rewrite Hget.
  - rewrite (oset_new _ _ _ Hget), List.map_app. reflexivity.
Qed.

(** X3. [addFold] stores the node of the reaction before it looks at the
    stimulus: whatever happens next, [getNode] finds the reaction afterwards
    and nothing is emitted. A reaction with no stimulus id, or an empty one,
    gets no edge. With a stimulus id that the store knows (or that is the
    id of the reaction itself) the call returns the id of the reaction and
    [getEdgesBetween] finds the causality edge of weight 1 from the stimulus
    to the reaction. With a stimulus id that the store does not know the
    call throws the missing-endpoint error, no edge is added, and the node
    of the reaction stays in the store. *)
Theorem addFold_stores_then_links
    (E : Type) (st : MemoryGraphStore.Store) (f : RecursionFold) :
  MemoryGraphStore.consistent st ->
  let node :=
    mkNode (fold_id f) fold (fold_content f) (fold_timestamp f)
      (Some (spreadOpt [("characterId", MStr (fold_characterId f));
                        ("emotionalState", MEmotion (fold_emotionalState f))]
                       (fold_metadata f))) in
  let r := MemoryGraphStore.addFold (E:=E) f st in
  MemoryGraphStore.getNode (Js.final r) (fold_id f) = Some node /\
  Js.emitted r = [] /\
  (Js.truthyOpt (fold_fractureEventId f) = false ->
     Js.outcome r = Js.Returned (fold_id f) /\
     MemoryGraphStore.getAllEdges (Js.final r) = MemoryGraphStore.getAllEdges st) /\
  (forall fid, fold_fractureEventId f = Some fid -> Js.truthyString fid = true ->
     (MemoryGraphStore.getNode st fid <> None \/ fid = fold_id f ->
        Js.outcome r = Js.Returned (fold_id f) /\
        MemoryGraphStore.getEdgesBetween (Js.final r) fid (fold_id f) =
          [mkEdge fid (fold_id f) causality 1.0 None]) /\
     (MemoryGraphStore.getNode st fid = None -> fid <> fold_id f ->
        Js.outcome r = Js.Threw Js.MissingEndpoint /\
        MemoryGraphStore.getAllEdges (Js.final r) = MemoryGraphStore.getAllEdges st)).
Proof.
  intros Hc node r. subst r. unfold MemoryGraphStore.addFold. fold node.
  erewrite bind_returned by apply addNode_run.
  set (st1 := MemoryGraphStore.mkStore _ _ _).
  assert (Hnode : MemoryGraphStore.getNode st1 (fold_id f) = Some node).
  { unfold MemoryGraphStore.getNode, st1; cbn [MemoryGraphStore.nodes node_id node].
    apply oget_oset_eq. }
  assert (Hself : Graphlib.hasNode (MemoryGraphStore.graph st1) (fold_id f) = true).
  { unfold st1; cbn [MemoryGraphStore.graph node_id node].
    rewrite hasNode_setNode. now destruct (decide _). }
  change (node_id node) with (fold_id f).
  destruct (fold_fractureEventId f) as [fid|]; cbn [Js.truthyOpt].
  2: { cbn [app Js.ret Js.outcome Js.final Js.emitted fst snd].
       split; [exact Hnode|]. split; [reflexivity|].
       split; [intros _; split; reflexivity|]. intros fid' Heq. discriminate. }
  destruct (Js.truthyString fid) eqn:Htr.
  2: { cbn [app Js.ret Js.outcome Js.final Js.emitted fst snd].
       split; [exact Hnode|]. split; [reflexivity|].
       split; [intros _; split; reflexivity|]. intros fid' [= <-] Ht. congruence. }
  set (e := mkEdge fid (fold_id f) causality 1.0 None).
  assert (Hsrc : Graphlib.hasNode (MemoryGraphStore.graph st1) fid =
                 (if decide (fid = fold_id f) then true
                  else Js.ohas fid (MemoryGraphStore.nodes st))).
  { unfold st1; cbn [MemoryGraphStore.graph node_id node].
    rewrite hasNode_setNode. destruct (decide _); [reflexivity|apply Hc]. }
  pose proof (addEdge_run (E:=E) e st1) as Hrun. cbn [source target e] in Hrun.
  rewrite Hself in Hrun. cbn [negb] in Hrun. rewrite orb_false_r in Hrun.
  rewrite Hsrc in Hrun.
  assert (Hok : MemoryGraphStore.addEdge (E:=E) e st1 =
                (Js.Returned (MemoryGraphStore.edgeId e),
                 MemoryGraphStore.mkStore
                   (Graphlib.setEdge fid (fold_id f) e (MemoryGraphStore.graph st1))
                   (MemoryGraphStore.nodes st1)
                   (Js.oset (MemoryGraphStore.edgeId e) e (MemoryGraphStore.edges st1)), []) ->
          MemoryGraphStore.getNode
            (Js.final ((exec MemoryGraphStore.addEdge (E:=E) e in Js.ret (fold_id f)) st1))
            (fold_id f) = Some node /\
          Js.emitted ((exec MemoryGraphStore.addEdge (E:=E) e in Js.ret (fold_id f)) st1) = [] /\
          Js.outcome ((exec MemoryGraphStore.addEdge (E:=E) e in Js.ret (fold_id f)) st1) =
            Js.Returned (fold_id f) /\
          MemoryGraphStore.getEdgesBetween
            (Js.final ((exec MemoryGraphStore.addEdge (E:=E) e in Js.ret (fold_id f)) st1))
            fid (fold_id f) = [e]).
  { intros Hret. erewrite bind_returned by exact Hret.
    cbn [app Js.ret Js.outcome Js.final Js.emitted fst snd].
    split; [exact Hnode|]. split; [reflexivity|]. split; [reflexivity|].
    unfold MemoryGraphStore.getEdgesBetween, Graphlib.edge; cbn [MemoryGraphStore.graph].
    unfold Graphlib.setEdge; cbn [Graphlib.g_edges]. now rewrite oget_oset_eq. }
  destruct (decide (fid = fold_id f)) as [Heq|Hne];
    [|destruct (Js.ohas fid (MemoryGraphStore.nodes st)) eqn:Hhas]; cbn [negb] in Hrun.
  - destruct (Hok Hrun) as (Ha & Hb & Hc' & Hd).
    split; [exact Ha|]. split; [exact Hb|]. split; [discriminate|].
    intros fid' [= <-] _. split; [auto|]. intros _ Hne. contradiction.
  - destruct (Hok Hrun) as (Ha & Hb & Hc' & Hd).
    split; [exact Ha|]. split; [exact Hb|]. split; [discriminate|].
    intros fid' [= <-] _. split; [auto|]. intros Hnone _.
    apply getNode_None_ohas in Hnone. congruence.
  - erewrite bind_threw by exact Hrun.
    cbn [Js.outcome Js.final Js.emitted fst snd].
    split; [exact Hnode|]. split; [reflexivity|]. split; [discriminate|].
    intros fid' [= <-] _. split.
    + intros [Hsome|Heq]; [|contradiction].
      exfalso. apply Hsome. now apply getNode_None_ohas.
    + intros _ _. split; reflexivity.
Qed.

Lemma addFold_stores_then_links_witness :
  let r := MemoryGraphStore.addFold (E:=Empty_set) Scenarios.joyfulFold Scenarios.storeOne in
  MemoryGraphStore.getNode (Js.final r) "reaction-2" =
    Some (mkNode "reaction-2" fold "hello" 300%Z
            (Some [("characterId", MStr "elena");
                   ("emotionalState", MEmotion (mkEmotionalState "joy" None 0.8 0.5))])) /\
  Js.outcome r = Js.Returned "reaction-2" /\
  MemoryGraphStore.getEdgesBetween (Js.final r) "stimulus-1" "reaction-2" =
    [mkEdge "stimulus-1" "reaction-2" causality 1.0 None].
Proof.
  destruct (@addFold_stores_then_links Empty_set Scenarios.storeOne Scenarios.joyfulFold)
    as (Hn & _ & _ & Hl).
  - apply consistent_addNode, consistent_empty.
  - split; [exact Hn|].
    destruct (Hl "stimulus-1" eq_refl eq_refl) as [Hfound _].
    apply Hfound. left. discriminate.
Defined.

(** X4. [forkAtNode] on an id that [getNode] does not find throws the
    cannot-fork error and leaves the store as it was. On a stored node it
    returns the generated id, under which [getNode] then finds a node of the
    same kind and content, stamped with the time of the call and carrying
    [forkedFrom] with the id of the original in its metadata; the pair
    (original, copy) is joined by a divergence edge of weight 0.5, and the
    original is still found under its id. *)
Theorem forkAtNode_copies_and_links
    (E : Type) (st : MemoryGraphStore.Store) (uuid : string) (now : Z) (nodeId : string) :
  MemoryGraphStore.consistent st ->
  let r := MemoryGraphStore.forkAtNode (E:=E) uuid now nodeId st in
  match MemoryGraphStore.getNode st nodeId with
  | None =>
      Js.outcome r = Js.Threw (Js.CannotFork nodeId) /\ Js.final r = st /\ Js.emitted r = []
  | Some original =>
      Js.outcome r = Js.Returned uuid /\
      (exists meta,
         MemoryGraphStore.getNode (Js.final r) uuid =
           Some (mkNode uuid (node_type original) (node_content original) now (Some meta)) /\
         Js.oget "forkedFrom" meta = Some (MStr nodeId)) /\
      MemoryGraphStore.getEdgesBetween (Js.final r) nodeId uuid =
        [mkEdge nodeId uuid divergence 0.5 None] /\
      (uuid <> nodeId -> MemoryGraphStore.getNode (Js.final r) nodeId = Some original)
  end.
Proof.
  intros Hc r. subst r. unfold MemoryGraphStore.forkAtNode.
  erewrite bind_returned by reflexivity.
  destruct (MemoryGraphStore.getNode st nodeId) as [original|] eqn:Hget.
  2: { cbn [Js.throw Js.outcome Js.final Js.emitted fst snd app]. auto. }
  set (meta := spread _ _).
  set (forked := mkNode uuid _ _ now (Some meta)).
  erewrite bind_returned by apply addNode_run.
  set (st1 := MemoryGraphStore.mkStore _ _ _).
  change (node_id forked) with uuid in *.
  assert (H1 : Graphlib.hasNode (MemoryGraphStore.graph st1) nodeId = true).
  { unfold st1; cbn [MemoryGraphStore.graph]. rewrite hasNode_setNode.
    destruct (decide _); [reflexivity|]. eapply hasNode_of_getNode; eauto. }
  assert (H2 : Graphlib.hasNode (MemoryGraphStore.graph st1) uuid = true).
  { unfold st1; cbn [MemoryGraphStore.graph]. rewrite hasNode_setNode.
    now destruct (decide _). }
  unfold MemoryGraphStore.createDivergence.
  set (e := mkEdge nodeId uuid divergence 0.5 None).
  erewrite bind_returned by (apply (addEdge_success (E:=E) e st1); assumption).
  cbn [app Js.ret Js.outcome Js.final Js.emitted fst snd source target e].
  split; [reflexivity|]. split; [|split].
  - exists meta. split.
    + unfold MemoryGraphStore.getNode, st1; cbn [MemoryGraphStore.nodes]. apply oget_oset_eq.
    + apply oget_spread_last.
  - unfold MemoryGraphStore.getEdgesBetween, Graphlib.edge; cbn [MemoryGraphStore.graph].
    unfold Graphlib.setEdge; cbn [Graphlib.g_edges]. now rewrite oget_oset_eq.
  - intros Hne. unfold MemoryGraphStore.getNode, st1; cbn [MemoryGraphStore.nodes].
    rewrite oget_oset_ne by congruence. exact Hget.
Qed.

Lemma forkAtNode_copies_and_links_witness :
  let r := MemoryGraphStore.forkAtNode (E:=Empty_set) "fork-1" 2000%Z "stimulus-1"
             Scenarios.storeOne in
  Js.outcome r = Js.Returned "fork-1" /\
  (exists meta,
     MemoryGraphStore.getNode (Js.final r) "fork-1" =
       Some (mkNode "fork-1" fracture "What happened to Elena?" 2000%Z (Some meta)) /\
     Js.oget "forkedFrom" meta = Some (MStr "stimulus-1")) /\
  MemoryGraphStore.getEdgesBetween (Js.final r) "stimulus-1" "fork-1" =
    [mkEdge "stimulus-1" "fork-1" divergence 0.5 None] /\
  ("fork-1" <> "stimulus-1" ->
   MemoryGraphStore.getNode (Js.final r) "stimulus-1" =
     Some (mkNode "stimulus-1" fracture "What happened to Elena?" 1000%Z None)).
Proof.
  apply (@forkAtNode_copies_and_links Empty_set Scenarios.storeOne "fork-1" 2000%Z "stimulus-1").
  apply consistent_addNode, consistent_empty.
Defined.

(** X5. After [addEdge] has returned, the target of the edge is among the
    successors of its source and the source among the predecessors of its
    target, as [getSuccessors] and [getPredecessors] list them; and whatever
    either listing held before it still holds. *)
Theorem addEdge_extends_neighbours
    (E : Type) (st : MemoryGraphStore.Store) (edge : MemoryEdge) (ns nt : MemoryNode) :
  MemoryGraphStore.consistent st ->
  MemoryGraphStore.getNode st (source edge) = Some ns ->
  MemoryGraphStore.getNode st (target edge) = Some nt ->
  let r := MemoryGraphStore.addEdge (E:=E) edge st in
  Js.outcome r = Js.Returned (MemoryGraphStore.edgeId edge) /\
  In nt (MemoryGraphStore.getSuccessors (Js.final r) (source edge)) /\
  In ns (MemoryGraphStore.getPredecessors (Js.final r) (target edge)) /\
  (forall i n, In n (MemoryGraphStore.getSuccessors st i) ->
               In n (MemoryGraphStore.getSuccessors (Js.final r) i)) /\
  (forall i n, In n (MemoryGraphStore.getPredecessors st i) ->
               In n (MemoryGraphStore.getPredecessors (Js.final r) i)).
Proof.
  intros Hc Hs Ht r. subst r.
  assert (Hhs : Graphlib.hasNode (MemoryGraphStore.graph st) (source edge) = true)
    by (eapply hasNode_of_getNode; eauto).
  assert (Hht : Graphlib.hasNode (MemoryGraphStore.graph st) (target edge) = true)
    by (eapply hasNode_of_getNode; eauto).
  rewrite (addEdge_success (E:=E) edge st Hhs Hht), outcome_run, final_run.
  unfold MemoryGraphStore.getSuccessors, MemoryGraphStore.getPredecessors;
    cbn [MemoryGraphStore.graph MemoryGraphStore.nodes].
  split; [reflexivity|].
  assert (Hsucc : forall i, exists l l',
            Graphlib.successors (MemoryGraphStore.graph st) i = l /\
            Graphlib.successors
              (Graphlib.setEdge (source edge) (target edge) edge (MemoryGraphStore.graph st)) i
              = Some l' /\
            (forall x, In x (match l with Some y => y | None => [] end) -> In x l') /\
            (i = source edge -> In (target edge) l') \/
            Graphlib.successors (MemoryGraphStore.graph st) i = None /\
            Graphlib.hasNode (MemoryGraphStore.graph st) i = false).
  { intros i. destruct (Graphlib.successors (MemoryGraphStore.graph st) i) as [l|] eqn:Hl.
    - destruct (@successors_setEdge (MemoryGraphStore.graph st) (source edge) (target edge)
                  i edge l Hhs Hht Hl) as (l' & Hl' & Hmono & Hnew).
      exists (Some l), l'. left. auto.
    - exists None, []. right. split; [reflexivity|].
      unfold Graphlib.successors in Hl.
      destruct (Graphlib.hasNode (MemoryGraphStore.graph st) i); [discriminate|reflexivity]. }
  assert (Hpred : forall i, exists l l',
            Graphlib.predecessors (MemoryGraphStore.graph st) i = l /\
            Graphlib.predecessors
              (Graphlib.setEdge (source edge) (target edge) edge (MemoryGraphStore.graph st)) i
              = Some l' /\
            (forall x, In x (match l with Some y => y | None => [] end) -> In x l') /\
            (i = target edge -> In (source edge) l') \/
            Graphlib.predecessors (MemoryGraphStore.graph st) i = None /\
            Graphlib.hasNode (MemoryGraphStore.graph st) i = false).
  { intros i. destruct (Graphlib.predecessors (MemoryGraphStore.graph st) i) as [l|] eqn:Hl.
    - destruct (@predecessors_setEdge (MemoryGraphStore.graph st) (source edge) (target edge)
                  i edge l Hhs Hht Hl) as (l' & Hl' & Hmono & Hnew).
      exists (Some l), l'. left. auto.
    - exists None, []. right. split; [reflexivity|].
      unfold Graphlib.predecessors in Hl.
      destruct (Graphlib.hasNode (MemoryGraphStore.graph st) i); [discriminate|reflexivity]. }
  split; [|split; [|split]].
  - destruct (Hsucc (source edge)) as (l & l' & [(Hl & Hl' & _ & Hnew)|[_ Hno]]); [|congruence].
    rewrite Hl'. apply in_lookup_all. exists (target edge). split; [now apply Hnew|exact Ht].
  - destruct (Hpred (target edge)) as (l & l' & [(Hl & Hl' & _ & Hnew)|[_ Hno]]); [|congruence].
    rewrite Hl'. apply in_lookup_all. exists (source edge). split; [now apply Hnew|exact Hs].
  - intros i n Hin. apply in_lookup_all in Hin. destruct Hin as (j & Hj & Hn).
    destruct (Hsucc i) as (l & l' & [(Hl & Hl' & Hmono & _)|[Hnone _]]).
    + rewrite Hl'. apply in_lookup_all. exists j. split; [|exact Hn].
      apply Hmono. now rewrite <- Hl.
    + rewrite Hnone in Hj. contradiction.
  - intros i n Hin. apply in_lookup_all in Hin. destruct Hin as (j & Hj & Hn).
    destruct (Hpred i) as (l & l' & [(Hl & Hl' & Hmono & _)|[Hnone _]]).
    + rewrite Hl'. apply in_lookup_all. exists j. split; [|exact Hn].
      apply Hmono. now rewrite <- Hl.
    + rewrite Hnone in Hj. contradiction.
Qed.

Lemma addEdge_extends_neighbours_witness :
  let r := MemoryGraphStore.addEdge (E:=Empty_set) Scenarios.divergenceEdge
             Scenarios.storeAnchors in
  let a1 := mkNode "anchor-1" memory "Character creation: Elena" 100%Z
              (Some [("characterId", MStr "system")]) in
  let a2 := mkNode "anchor-2" memory "Character fork: Elena -> Elena (cruel)" 200%Z
              (Some [("characterId", MStr "system")]) in
  Js.outcome r = Js.Returned "anchor-1-anchor-2-divergence" /\
  In a2 (MemoryGraphStore.getSuccessors (Js.final r) "anchor-1") /\
  In a1 (MemoryGraphStore.getPredecessors (Js.final r) "anchor-2") /\
  (forall i n, In n (MemoryGraphStore.getSuccessors Scenarios.storeAnchors i) ->
               In n (MemoryGraphStore.getSuccessors (Js.final r) i)) /\
  (forall i n, In n (MemoryGraphStore.getPredecessors Scenarios.storeAnchors i) ->
               In n (MemoryGraphStore.getPredecessors (Js.final r) i)).
Proof.
  apply (@addEdge_extends_neighbours Empty_set Scenarios.storeAnchors Scenarios.divergenceEdge).
  - apply consistent_addNode, consistent_addNode, consistent_empty.
  - reflexivity.
  - reflexivity.
Defined.

(** ** Paths *)
Section PathFacts.
Import MemoryGraphStore.
Variable st : Store.
Variable target : string.
Variable maxDepth : Z.

Lemma last_cons_default {A} (a d : A) (l : list A) : List.last (a :: l) d = List.last l a.
Proof.
  revert a d. induction l as [|b l IH]; intros a d; [reflexivity|].
  change (List.last (a :: b :: l) d) with (List.last (b :: l) d).
  rewrite (IH b d), (IH b a). reflexivity.
Qed.

Lemma last_in {A} (d : A) (l : list A) : l <> [] -> In (List.last l d) l.
Proof.
  induction l as [|x l IH]; intros Hne; [congruence|].
  destruct l as [|y l]; [now left|]. right. apply IH. discriminate.
Qed.

Lemma existsb_eqb_false (x : string) (l : list string) :
  existsb (String.eqb x) l = false <-> ~ In x l.
Proof.
  split.
  - intros Hex Hin. assert (existsb (String.eqb x) l = true); [|congruence].
    apply existsb_exists. exists x. split; [exact Hin|apply String.eqb_refl].
  - intros Hn. destruct (existsb (String.eqb x) l) eqn:Hex; [|reflexivity].
    apply existsb_exists in Hex. destruct Hex as (y & Hy & Heq).
    apply String.eqb_eq in Heq. subst y. contradiction.
Qed.

Lemma dfs_sound (levels : nat) :
  forall current path p,
    In p (dfs levels st current target path maxDepth) ->
    exists rest,
      p = path ++ rest /\ linked st current rest /\ List.last rest current = target /\
      (Z.of_nat (length p) <= maxDepth)%Z /\
      (forall x, In x rest -> ~ In x path) /\ List.NoDup rest.
Proof.
  induction levels as [|levels IH]; intros current path p; simpl; [intros []|].
  destruct (maxDepth <? Z.of_nat (length path))%Z eqn:Hlen; [intros []|].
  apply Z.ltb_ge in Hlen.
  destruct (String.eqb current target) eqn:Heq.
  - apply String.eqb_eq in Heq. intros [<-|[]]. exists []. rewrite app_nil_r.
    split; [reflexivity|]. split; [exact I|]. split; [exact Heq|].
    split; [exact Hlen|]. split; [intros x []|constructor].
  - intros Hin. apply in_flat_map in Hin. destruct Hin as (succ & Hsucc & Hin).
    destruct (existsb (String.eqb succ) path) eqn:Hex; [destruct Hin|].
    apply existsb_eqb_false in Hex.
    destruct (IH _ _ _ Hin) as (rest & -> & Hl & Hlast & Hd & Hfresh & Hnd).
    exists (succ :: rest). rewrite <- app_assoc. cbn [app linked].
    split; [reflexivity|]. split; [|split; [|split; [|split]]].
    + split; [|exact Hl].
      destruct (Graphlib.successors (graph st) current) as [l|]; [|destruct Hsucc]. eauto.
    + rewrite last_cons_default. exact Hlast.
    + rewrite <- app_assoc in Hd. exact Hd.
    + intros x [<-|Hx]; [exact Hex|]. intros Hp. apply (Hfresh x Hx). apply in_or_app. now left.
    + constructor; [|exact Hnd]. intros Hx. apply (Hfresh succ Hx). apply in_or_app. right. now left.
Qed.

Lemma dfs_complete (rest : list string) :
  forall levels current path,
    linked st current rest -> List.last rest current = target ->
    In current path ->
    (forall x, In x rest -> ~ In x path) -> List.NoDup rest ->
    (Z.of_nat (length (path ++ rest)) <= maxDepth)%Z ->
    (length rest < levels)%nat ->
    In (path ++ rest) (dfs levels st current target path maxDepth).
Proof.
  induction rest as [|b rest IH]; intros levels current path Hl Hlast Hcur Hfresh Hnd Hd Hlev.
  - destruct levels as [|levels]; [simpl in Hlev; lia|]. simpl in *.
    rewrite app_nil_r in *.
    destruct (maxDepth <? Z.of_nat (length path))%Z eqn:Hlen; [apply Z.ltb_lt in Hlen; lia|].
    subst target. rewrite String.eqb_refl. now left.
  - destruct levels as [|levels]; [simpl in Hlev; lia|].
    cbn [dfs].
    destruct (maxDepth <? Z.of_nat (length path))%Z eqn:Hlen.
    { apply Z.ltb_lt in Hlen. rewrite length_app in Hd. lia. }
    destruct (String.eqb current target) eqn:Heq.
    { apply String.eqb_eq in Heq. exfalso.
      assert (Hin : In target (b :: rest)).
      { rewrite <- Hlast. apply last_in. discriminate. }
      apply (Hfresh target Hin). now rewrite <- Heq. }
    destruct Hl as [(l & Hsucc & Hb) Hl].
    rewrite Hsucc. apply in_flat_map. exists b. split; [exact Hb|].
    assert (Hbp : ~ In b path) by (apply Hfresh; now left).
    apply existsb_eqb_false in Hbp. rewrite Hbp.
    replace (path ++ b :: rest) with ((path ++ [b]) ++ rest) by (now rewrite <- app_assoc).
    pose proof (proj1 (List.NoDup_cons_iff b rest) Hnd) as [Hnb Hnd'].
    apply IH.
    + exact Hl.
    + rewrite <- Hlast. symmetry. apply last_cons_default.
    + apply in_or_app. right. now left.
    + intros x Hx Hp. apply in_app_or in Hp. destruct Hp as [Hp|[<-|[]]].
      * apply (Hfresh x); [now right|exact Hp].
      * contradiction.
    + exact Hnd'.
    + rewrite <- app_assoc. exact Hd.
    + simpl in Hlev. lia.
Qed.

End PathFacts.

(** X6. [findPaths] returns exactly the simple paths of the graph from the
    source to the target that have at most [maxDepth] nodes: a list of ids
    is among its results if and only if it starts at the source, each of its
    ids is a successor of the one before, it ends at the target, no id
    occurs twice in it, and its length, counted in nodes, is at most
    [maxDepth]. *)
Theorem findPaths_lists_simple_paths
    (st : MemoryGraphStore.Store) (s t : string) (d : Z) (p : list string) :
  In p (MemoryGraphStore.findPaths st s t d) <->
  exists rest,
    p = s :: rest /\ MemoryGraphStore.linked st s rest /\ List.last rest s = t /\
    List.NoDup p /\ (Z.of_nat (length p) <= d)%Z.
Proof.
  unfold MemoryGraphStore.findPaths. split.
  - intros Hin. apply dfs_sound in Hin.
    destruct Hin as (rest & -> & Hl & Hlast & Hd & Hfresh & Hnd).
    exists rest. split; [reflexivity|]. split; [exact Hl|]. split; [exact Hlast|].
    split; [|exact Hd]. simpl. constructor; [|exact Hnd].
    intros Hs. apply (Hfresh s Hs). now left.
  - intros (rest & -> & Hl & Hlast & Hnd & Hd).
    pose proof (proj1 (List.NoDup_cons_iff s rest) Hnd) as [Hs Hnd'].
    change (s :: rest) with ([s] ++ rest). apply dfs_complete; auto.
    + now left.
    + intros x Hx [<-|[]]. contradiction.
    + simpl in Hd. lia.
Qed.

(** ** The canonical path *)
Section CanonicalFacts.
Import MemoryGraphStore.
Variable st : Store.




Hypothesis Hindexed : indexed st.




End CanonicalFacts.


(** ** The map of edges *)
Section EdgeKeys.
Import MemoryGraphStore.

Lemma in_oset_nodup_inv {K V : Type} `{EqDecision K} (k k' : K) (v v' : V) (m : list (K * V)) :
  List.NoDup (Js.okeys m) -> In (k, v) (Js.oset k' v' m) ->
  (k = k' /\ v = v') \/ (k <> k' /\ In (k, v) m).
Proof.
  intros Hnd Hin.
  assert (Hget : Js.oget k (Js.oset k' v' m) = Some v).
  { apply in_oget_nodup; [now apply okeys_oset_nodup|exact Hin]. }
  destruct (decide (k = k')) as [->|Hne].
  - rewrite oget_oset_eq in Hget. left. split; congruence.
  - rewrite oget_oset_ne in Hget by assumption. right. split; [exact Hne|].
    now apply oget_Some_in.
Qed.

Lemma addEdge_twice (e e' : MemoryEdge) (st : Store) :
  Js.returned (Js.outcome (addEdge (E:=Empty_set) e st)) = true ->
  Js.returned (Js.outcome (addEdge (E:=Empty_set) e'
                             (Js.final (addEdge (E:=Empty_set) e st)))) = true ->
  Js.final (addEdge (E:=Empty_set) e' (Js.final (addEdge (E:=Empty_set) e st))) =
  mkStore
    (Graphlib.mkGraph (Graphlib.g_nodes (graph st))
       (Js.oset (source e', target e') e'
          (Js.oset (source e, target e) e (Graphlib.g_edges (graph st)))))
    (nodes st)
    (Js.oset (edgeId e') e' (Js.oset (edgeId e) e (edges st))).
Proof.
  intros H1 H2.
  destruct (endpoints_of_success _ _ H1) as [Hs1 Ht1].
  destruct (endpoints_of_success _ _ H2) as [Hs2 Ht2].
  revert Hs2 Ht2. rewrite (addEdge_success (E:=Empty_set) e st Hs1 Ht1), final_run.
  intros Hs2 Ht2.
  rewrite (addEdge_success (E:=Empty_set) e' _ Hs2 Ht2), final_run.
  cbn [graph nodes edges] in *.
  f_equal. unfold Graphlib.setEdge.
  rewrite (ensureNode_present _ _ Hs1), (ensureNode_present _ _ Ht1).
  unfold Graphlib.setEdge in Hs2, Ht2.
  rewrite (ensureNode_present _ _ Hs1), (ensureNode_present _ _ Ht1) in Hs2, Ht2.
  cbn [Graphlib.g_nodes Graphlib.g_edges].
  assert (Hs2' : Graphlib.hasNode
                   (Graphlib.mkGraph (Graphlib.g_nodes (graph st))
                      (Js.oset (source e, target e) e (Graphlib.g_edges (graph st))))
                   (source e') = true) by exact Hs2.
  assert (Ht2' : Graphlib.hasNode
                   (Graphlib.mkGraph (Graphlib.g_nodes (graph st))
                      (Js.oset (source e, target e) e (Graphlib.g_edges (graph st))))
                   (target e') = true) by exact Ht2.
  rewrite (ensureNode_present _ _ Hs2'), (ensureNode_present _ _ Ht2'). reflexivity.
Qed.

Lemma not_listed_once_replaced (e e' : MemoryEdge) (m : list (string * MemoryEdge)) :
  List.NoDup (Js.okeys m) ->
  (forall k x, In (k, x) m -> k = edgeId x) ->
  edgeId e' = edgeId e -> e <> e' ->
  ~ In e (Js.ovalues (Js.oset (edgeId e') e' (Js.oset (edgeId e) e m))).
Proof.
  intros Hnd Hkey Hid Hne Hin. unfold Js.ovalues in Hin.
  apply in_map_iff in Hin. destruct Hin as ([k x] & Hx & Hin). simpl in Hx. subst x.
  apply in_oset_nodup_inv in Hin; [|now apply okeys_oset_nodup].
  destruct Hin as [[_ Heq]|[Hk Hin]]; [contradiction|].
  apply in_oset_inv in Hin. destruct Hin as [[Hk' _]|Hin]; [congruence|].
  apply Hkey in Hin. congruence.
Qed.

Lemma append_assoc3 (a b c : string) : (a +:+ b) +:+ c = a +:+ b +:+ c.
Proof.
  induction a as [|x a IH]; [reflexivity|].
  change (String x ((a +:+ b) +:+ c) = String x (a +:+ b +:+ c)). now rewrite IH.
Qed.

Lemma length_append (a b : string) :
  String.length (a +:+ b) = (String.length a + String.length b)%nat.
Proof.
  induction a as [|x a IH]; [reflexivity|].
  change (S (String.length (a +:+ b)) = S (String.length a + String.length b)). now rewrite IH.
Qed.

Lemma append_longer (a b : string) : a +:+ "-" +:+ b <> a.
Proof.
  intros Heq. apply (f_equal String.length) in Heq.
  rewrite !length_append in Heq. simpl in Heq. lia.
Qed.

End EdgeKeys.

(** X8. Adding an edge again with the same source, target and kind, on a
    store built by the public methods, replaces the earlier edge rather than
    adding one: the second call returns the same edge id, the listing of all
    edges keeps its length and holds the new edge and no longer the old one,
    and the lookup by pair of nodes gives the new edge. *)
Theorem addEdge_same_kind_replaces
    (calls : list MemoryGraphStore.Call) (e e' : MemoryEdge) :
  source e = source e' -> target e = target e' -> type e = type e' ->
  let st := MemoryGraphStore.after calls in
  let r1 := MemoryGraphStore.addEdge (E:=Empty_set) e st in
  let r2 := MemoryGraphStore.addEdge (E:=Empty_set) e' (Js.final r1) in
  Js.returned (Js.outcome r1) = true ->
  Js.outcome r2 = Js.Returned (MemoryGraphStore.edgeId e) /\
  length (MemoryGraphStore.getAllEdges (Js.final r2)) =
    length (MemoryGraphStore.getAllEdges (Js.final r1)) /\
  In e' (MemoryGraphStore.getAllEdges (Js.final r2)) /\
  (e <> e' -> ~ In e (MemoryGraphStore.getAllEdges (Js.final r2))) /\
  MemoryGraphStore.getEdgesBetween (Js.final r2) (source e) (target e) = [e'].
Proof.
  intros Hs Ht Hty st r1 r2 H1. subst r1 r2.
  destruct (sound_after calls) as (Hc & Hi & Hnd & Hg & He & Hne & Hng).
  fold st in Hc, Hi, Hnd, Hg, He, Hne, Hng.
  assert (Hid : MemoryGraphStore.edgeId e' = MemoryGraphStore.edgeId e).
  { unfold MemoryGraphStore.edgeId. now rewrite Hs, Ht, Hty. }
  destruct (endpoints_of_success _ _ H1) as [Hs1 Ht1].
  assert (Hout : MemoryGraphStore.addEdge (E:=Empty_set) e'
                   (Js.final (MemoryGraphStore.addEdge (E:=Empty_set) e st)) =
                 (Js.Returned (MemoryGraphStore.edgeId e'),
                  MemoryGraphStore.mkStore
                    (Graphlib.setEdge (source e') (target e') e'
                       (MemoryGraphStore.graph
                          (Js.final (MemoryGraphStore.addEdge (E:=Empty_set) e st))))
                    (MemoryGraphStore.nodes
                       (Js.final (MemoryGraphStore.addEdge (E:=Empty_set) e st)))
                    (Js.oset (MemoryGraphStore.edgeId e') e'
                       (MemoryGraphStore.edges
                          (Js.final (MemoryGraphStore.addEdge (E:=Empty_set) e st)))), [])).
  { apply addEdge_success.
    - rewrite (addEdge_success (E:=Empty_set) e st Hs1 Ht1), final_run;
        cbn [MemoryGraphStore.graph]. rewrite hasNode_setEdge by assumption. now rewrite <- Hs.
    - rewrite (addEdge_success (E:=Empty_set) e st Hs1 Ht1), final_run;
        cbn [MemoryGraphStore.graph]. rewrite hasNode_setEdge by assumption. now rewrite <- Ht. }
  assert (H2 : Js.returned (Js.outcome (MemoryGraphStore.addEdge (E:=Empty_set) e'
                 (Js.final (MemoryGraphStore.addEdge (E:=Empty_set) e st)))) = true).
  { now rewrite Hout. }
  split; [rewrite Hout, outcome_run; now rewrite Hid|].
  rewrite (addEdge_twice e e' st H1 H2).
  rewrite (addEdge_success (E:=Empty_set) e st Hs1 Ht1), final_run.
  unfold MemoryGraphStore.getAllEdges, MemoryGraphStore.getEdgesBetween, Graphlib.edge;
    cbn [MemoryGraphStore.edges MemoryGraphStore.graph Graphlib.g_edges].
  split; [|split; [|split]].
  - unfold Js.ovalues. rewrite !length_map. apply length_oset_taken.
    rewrite Hid. apply ohas_oset_eq.
  - unfold Js.ovalues. apply (in_map snd _ (MemoryGraphStore.edgeId e', e')). apply in_oset_same.
  - intros Hdiff. apply not_listed_once_replaced; auto.
    intros k x Hin. now destruct (He k x Hin).
  - rewrite Hs, Ht. now rewrite oget_oset_eq.
Qed.

Lemma addEdge_same_kind_replaces_witness :
  let st := MemoryGraphStore.after
              [MemoryGraphStore.AddMemory "anchor-1" 100%Z "Character creation: Elena"
                 "system" None;
               MemoryGraphStore.AddMemory "anchor-2" 200%Z
                 "Character fork: Elena -> Elena (cruel)" "system" None] in
  let e := Scenarios.divergenceEdge in
  let e' := mkEdge "anchor-1" "anchor-2" divergence 0.9 None in
  let r1 := MemoryGraphStore.addEdge (E:=Empty_set) e st in
  let r2 := MemoryGraphStore.addEdge (E:=Empty_set) e' (Js.final r1) in
  Js.outcome r2 = Js.Returned "anchor-1-anchor-2-divergence" /\
  length (MemoryGraphStore.getAllEdges (Js.final r2)) =
    length (MemoryGraphStore.getAllEdges (Js.final r1)) /\
  In e' (MemoryGraphStore.getAllEdges (Js.final r2)) /\
  (e <> e' -> ~ In e (MemoryGraphStore.getAllEdges (Js.final r2))) /\
  MemoryGraphStore.getEdgesBetween (Js.final r2) "anchor-1" "anchor-2" = [e'].
Proof.
  apply (@addEdge_same_kind_replaces
           [MemoryGraphStore.AddMemory "anchor-1" 100%Z "Character creation: Elena"
              "system" None;
            MemoryGraphStore.AddMemory "anchor-2" 200%Z
              "Character fork: Elena -> Elena (cruel)" "system" None]
           Scenarios.divergenceEdge (mkEdge "anchor-1" "anchor-2" divergence 0.9 None));
    reflexivity.
Defined.

(** X9. The key of an edge in the map of edges joins source, target and
    kind with dashes, so two edges of one kind whose ids differ only in
    where a dash splits them share a key: on a store built by the public
    methods, once the edge from [s-t] to [u] and then the edge from [s] to
    [t-u] have been added, the listing of all edges has lost the first and
    holds the second, while the lookup by pair of nodes still finds each of
    them. *)
Theorem edge_keys_collide_on_dashes
    (calls : list MemoryGraphStore.Call) (s t u : string) (ty : EdgeType) (w1 w2 : Q)
    (m1 m2 : option Metadata) :
  let st := MemoryGraphStore.after calls in
  let e1 := mkEdge (s +:+ "-" +:+ t) u ty w1 m1 in
  let e2 := mkEdge s (t +:+ "-" +:+ u) ty w2 m2 in
  let r1 := MemoryGraphStore.addEdge (E:=Empty_set) e1 st in
  let r2 := MemoryGraphStore.addEdge (E:=Empty_set) e2 (Js.final r1) in
  Js.returned (Js.outcome r1) = true -> Js.returned (Js.outcome r2) = true ->
  ~ In e1 (MemoryGraphStore.getAllEdges (Js.final r2)) /\
  In e2 (MemoryGraphStore.getAllEdges (Js.final r2)) /\
  length (MemoryGraphStore.getAllEdges (Js.final r2)) =
    length (MemoryGraphStore.getAllEdges (Js.final r1)) /\
  MemoryGraphStore.getEdgesBetween (Js.final r2) (s +:+ "-" +:+ t) u = [e1] /\
  MemoryGraphStore.getEdgesBetween (Js.final r2) s (t +:+ "-" +:+ u) = [e2].
Proof.
  intros st e1 e2 r1 r2 H1 H2. subst r1 r2.
  destruct (sound_after calls) as (Hc & Hi & Hnd & Hg & He & Hne & Hng).
  fold st in Hc, Hi, Hnd, Hg, He, Hne, Hng.
  assert (Hid : MemoryGraphStore.edgeId e2 = MemoryGraphStore.edgeId e1).
  { unfold MemoryGraphStore.edgeId, e1, e2; cbn [source target type].
    now rewrite !append_assoc3. }
  assert (Hdiff : e1 <> e2).
  { unfold e1, e2. intros [= Heq _]. now apply append_longer in Heq. }
  rewrite (addEdge_twice e1 e2 st H1 H2).
  destruct (endpoints_of_success _ _ H1) as [Hs1 Ht1].
  rewrite (addEdge_success (E:=Empty_set) e1 st Hs1 Ht1), final_run.
  unfold MemoryGraphStore.getAllEdges, MemoryGraphStore.getEdgesBetween, Graphlib.edge;
    cbn [MemoryGraphStore.edges MemoryGraphStore.graph Graphlib.g_edges].
  split; [|split; [|split; [|split]]].
  - apply not_listed_once_replaced; auto.
    intros k x Hin. now destruct (He k x Hin).
  - unfold Js.ovalues. apply (in_map snd _ (MemoryGraphStore.edgeId e2, e2)). apply in_oset_same.
  - unfold Js.ovalues. rewrite !length_map. apply length_oset_taken.
    rewrite Hid. apply ohas_oset_eq.
  - cbn [source target e1 e2]. rewrite oget_oset_ne.
    + now rewrite oget_oset_eq.
    + intros [= Heq _]. now apply append_longer in Heq.
  - cbn [source target e1 e2]. now rewrite oget_oset_eq.
Qed.

Lemma edge_keys_collide_on_dashes_witness :
  let st := MemoryGraphStore.after
              [MemoryGraphStore.AddMemory "a-b" 1%Z "first" "system" None;
               MemoryGraphStore.AddMemory "c" 2%Z "second" "system" None;
               MemoryGraphStore.AddMemory "a" 3%Z "third" "system" None;
               MemoryGraphStore.AddMemory "b-c" 4%Z "fourth" "system" None] in
  let e1 := mkEdge "a-b" "c" causality 0.5 None in
  let e2 := mkEdge "a" "b-c" causality 0.7 None in
  let r1 := MemoryGraphStore.addEdge (E:=Empty_set) e1 st in
  let r2 := MemoryGraphStore.addEdge (E:=Empty_set) e2 (Js.final r1) in
  ~ In e1 (MemoryGraphStore.getAllEdges (Js.final r2)) /\
  In e2 (MemoryGraphStore.getAllEdges (Js.final r2)) /\
  length (MemoryGraphStore.getAllEdges (Js.final r2)) =
    length (MemoryGraphStore.getAllEdges (Js.final r1)) /\
  MemoryGraphStore.getEdgesBetween (Js.final r2) "a-b" "c" = [e1] /\
  MemoryGraphStore.getEdgesBetween (Js.final r2) "a" "b-c" = [e2].
Proof.
  apply (@edge_keys_collide_on_dashes
           [MemoryGraphStore.AddMemory "a-b" 1%Z "first" "system" None;
            MemoryGraphStore.AddMemory "c" 2%Z "second" "system" None;
            MemoryGraphStore.AddMemory "a" 3%Z "third" "system" None;
            MemoryGraphStore.AddMemory "b-c" 4%Z "fourth" "system" None]
           "a" "b" "c" causality 0.5 0.7 None None); reflexivity.
Defined.

(** ** Tone weights after a mutation or a reconfiguration *)
Section ToneMore.
Import CharacterKernel.
Implicit Types (o : list (string * Q)) (ks : list string).

Lemma okeys_oset_taken {K V : Type} `{EqDecision K} (k : K) (v : V) (m : list (K * V)) :
  Js.ohas k m = true -> Js.okeys (Js.oset k v m) = Js.okeys m.
Proof.
  unfold Js.ohas, Js.okeys. induction m as [|[k0 v0] m IH]; simpl; [discriminate|].
  destruct (decide (k0 = k)) as [->|Hne]; simpl; [reflexivity|].
  intros Hg. now rewrite IH.
Qed.

Lemma otherKeys_oset o d x : otherKeys (Js.oset d x o) d = otherKeys o d.
Proof.
  unfold otherKeys, Js.okeys. induction o as [|[k0 v0] o IH]; simpl.
  - now rewrite String.eqb_refl.
  - destruct (decide (k0 = d)) as [->|Hne]; simpl.
    + reflexivity.
    + now rewrite IH.
Qed.

Lemma sumWeights_ext o o' ks :
  (forall e, In e ks -> prop o' e = prop o e) -> sumWeights o' ks = sumWeights o ks.
Proof.
  unfold sumWeights. generalize 0 as a.
  induction ks as [|e ks IH]; intros a Hext; simpl; [reflexivity|].
  rewrite (Hext e (or_introl eq_refl)). apply IH. intros x Hx. apply Hext. now right.
Qed.

Lemma rescale_prop_out (s t : Q) ks : forall o e,
  ~ In e ks -> prop (fold_left (rescale s t) ks o) e = prop o e.
Proof.
  induction ks as [|k ks IH]; intros o e Hout; simpl; [reflexivity|].
  rewrite IH by (intros Hin; apply Hout; now right).
  unfold rescale. apply prop_oset_ne. intros ->. apply Hout. now left.
Qed.

Lemma rescale_prop_in (s t : Q) ks : forall o e,
  List.NoDup ks -> In e ks -> prop (fold_left (rescale s t) ks o) e = prop o e / s * t.
Proof.
  induction ks as [|k ks IH]; intros o e Hnd Hin; simpl; [destruct Hin|].
  pose proof (proj1 (List.NoDup_cons_iff k ks) Hnd) as [Hk Hnd'].
  destruct Hin as [->|Hin].
  - rewrite rescale_prop_out by exact Hk. unfold rescale. apply prop_oset_eq.
  - rewrite (IH _ _ Hnd' Hin). unfold rescale. rewrite prop_oset_ne; [reflexivity|].
    intros ->. contradiction.
Qed.

Lemma ohas_of_key {K V : Type} `{EqDecision K} (k : K) (m : list (K * V)) :
  In k (Js.okeys m) -> Js.ohas k m = true.
Proof.
  intros Hin. unfold Js.ohas. destruct (Js.oget k m) eqn:Hget; [reflexivity|].
  apply oget_None_notin in Hget. contradiction.
Qed.

Lemma rescale_okeys (s t : Q) ks : forall o,
  (forall e, In e ks -> Js.ohas e o = true) ->
  Js.okeys (fold_left (rescale s t) ks o) = Js.okeys o.
Proof.
  induction ks as [|k ks IH]; intros o Hall; simpl; [reflexivity|].
  rewrite IH.
  - unfold rescale. apply okeys_oset_taken. apply Hall. now left.
  - intros e He. unfold rescale. apply ohas_oset_mono. apply Hall. now right.
Qed.

(** The guarded block of [applyMutation] on any object with distinct keys
    whose other weights have a positive sum. *)
Lemma driftTone_normalises (rate : Q) (es : EmotionalState) o :
  List.NoDup (Js.okeys o) -> Js.ohas (dominant es) o = true ->
  0 < sumWeights o (otherKeys o (dominant es)) ->
  let d := dominant es in
  let v' := Qmin 1 (prop o d + rate * intensity es) in
  let o' := driftTone rate es o in
  totalWeight o' == 1 /\ prop o' d = v' /\
  (forall e, In e (otherKeys o d) ->
     prop o' e = prop o e / sumWeights o (otherKeys o d) * (1 - v')) /\
  Js.okeys o' = Js.okeys o.
Proof.
  intros Hnd Hhas Hpos d v' o'. subst o'. unfold driftTone. fold d. fold v'.
  set (o1 := Js.oset d v' o).
  assert (Hnd1 : List.NoDup (Js.okeys o1)) by now apply okeys_oset_nodup.
  assert (Hp1 : prop o1 d = v') by apply prop_oset_eq.
  assert (Hothers : otherKeys o1 d = otherKeys o d) by apply otherKeys_oset.
  assert (Hsum : sumWeights o1 (otherKeys o1 d) = sumWeights o (otherKeys o d)).
  { rewrite Hothers. apply sumWeights_ext. intros e He. unfold o1.
    apply prop_oset_ne. now apply otherKeys_not_dominant in He. }
  rewrite Hp1, Hsum, Hothers.
  set (S := sumWeights o (otherKeys o d)) in *.
  change (0 < S) in Hpos.
  assert (Hlt : Qlt_bool 0 S = true).
  { unfold Qlt_bool. apply negb_true_iff. destruct (Qle_bool S 0) eqn:Hle; [|reflexivity].
    apply Qle_bool_iff in Hle. lra. }
  rewrite Hlt.
  assert (Hndo : List.NoDup (otherKeys o d)) by now apply otherKeys_nodup.
  split; [|split; [|split]].
  - rewrite rescale_total by exact Hndo.
    pose proof (@totalWeight_split o1 d Hnd1) as Hsplit. rewrite Hp1, Hsum in Hsplit.
    assert (Hq : qsum (List.map (prop o1) (otherKeys o d)) == S).
    { rewrite <- sumWeights_qsum. rewrite <- Hothers, Hsum. reflexivity. }
    rewrite Hq, Hsplit. field. lra.
  - rewrite rescale_prop_out; [exact Hp1|].
    intros Hin. now apply otherKeys_not_dominant in Hin.
  - intros e He. rewrite rescale_prop_in by assumption.
    unfold o1. rewrite prop_oset_ne; [reflexivity|]. now apply otherKeys_not_dominant in He.
  - assert (Hk1 : Js.okeys o1 = Js.okeys o) by now apply okeys_oset_taken.
    rewrite <- Hk1. apply rescale_okeys. intros e He. rewrite <- Hothers in He.
    unfold otherKeys in He. apply filter_In in He. now apply ohas_of_key.
Qed.

End ToneMore.

Section KernelMore.
Import CharacterKernel.

Lemma toneOf_after (characterId : string) (c1 : CharacterField) (o1 : list (string * Q))
    (r : nat) (k1 : Kernel) :
  variations (toneProfile c1) = r ->
  toneOf (setCharacters (Js.oset characterId c1) (setHeap (insert r o1) k1)) characterId
  = Some o1.
Proof.
  intros <-. unfold toneOf, getCharacter, setCharacters, setHeap; cbn [characters heap].
  rewrite oget_oset_eq. apply lookup_insert_eq.
Qed.

Lemma clamp_bounds (x : Q) : 0.1 <= Qmax 0.1 (Qmin 0.9 x) /\ Qmax 0.1 (Qmin 0.9 x) <= 0.9.
Proof.
  split; [apply Q.le_max_l|].
  apply Q.max_lub; [lra|apply Q.le_min_l].
Qed.

Lemma qsum_const (w : Q) (f : string -> Q) (ks : list string) :
  (forall e, In e ks -> f e = w) ->
  qsum (List.map f ks) == inject_Z (Z.of_nat (length ks)) * w.
Proof.
  induction ks as [|k ks IH]; intros Hall.
  - change (0 == 0 * w). lra.
  - cbn [List.map qsum fold_right length]. rewrite (Hall k (or_introl eq_refl)).
    fold (qsum (List.map f ks)). rewrite IH by (intros e He; apply Hall; now right).
    rewrite Nat2Z.inj_succ, <- Z.add_1_r, inject_Z_plus. change (inject_Z 1) with 1. ring.
Qed.

Lemma level_prop_out (w : Q) (ks : list string) : forall o e,
  ~ In e ks -> prop (fold_left (fun acc emotion => Js.oset emotion w acc) ks o) e = prop o e.
Proof.
  induction ks as [|k ks IH]; intros o e Hout; simpl; [reflexivity|].
  rewrite IH by (intros Hin; apply Hout; now right).
  apply prop_oset_ne. intros ->. apply Hout. now left.
Qed.

Lemma level_prop_in (w : Q) (ks : list string) : forall o e,
  In e ks -> prop (fold_left (fun acc emotion => Js.oset emotion w acc) ks o) e = w.
Proof.
  induction ks as [|k ks IH]; intros o e Hin; simpl; [destruct Hin|].
  destruct (in_dec string_dec e ks) as [Hks|Hks].
  - now apply IH.
  - destruct Hin as [->|Hin]; [|contradiction].
    rewrite level_prop_out by exact Hks. apply prop_oset_eq.
Qed.

Lemma level_okeys (w : Q) (ks : list string) : forall o,
  (forall e, In e ks -> Js.ohas e o = true) ->
  Js.okeys (fold_left (fun acc emotion => Js.oset emotion w acc) ks o) = Js.okeys o.
Proof.
  induction ks as [|k ks IH]; intros o Hall; simpl; [reflexivity|].
  rewrite IH.
  - apply okeys_oset_taken. apply Hall. now left.
  - intros e He. apply ohas_oset_mono. apply Hall. now right.
Qed.

(** The two loops of [reconfigureCharacter] on an object with distinct keys
    that has another emotion than the dominant one. *)
Lemma retone_normalises (es : EmotionalState) (o : list (string * Q)) :
  List.NoDup (Js.okeys o) -> otherKeys o (dominant es) <> [] ->
  let d := dominant es in
  let dominantWeight := Qmin 0.5 (0.3 + intensity es * 0.2) in
  let n := inject_Z (Z.of_nat (length (otherKeys o d))) in
  let o' := retone es o in
  totalWeight o' == 1 /\ prop o' d = dominantWeight /\
  (forall e, In e (otherKeys o d) -> prop o' e = (1 - dominantWeight) / n).
Proof.
  intros Hnd Hne d dw n o'. subst o'. unfold retone. fold d. fold dw. fold n.
  set (w := (1 - dw) / n).
  set (o1 := fold_left _ (otherKeys o d) o).
  assert (Hin : forall e, In e (otherKeys o d) -> Js.ohas e o = true).
  { intros e He. unfold otherKeys in He. apply filter_In in He. now apply ohas_of_key. }
  assert (Hk1 : Js.okeys o1 = Js.okeys o) by (apply level_okeys; exact Hin).
  assert (Hnd' : List.NoDup (Js.okeys (Js.oset d dw o1))).
  { apply okeys_oset_nodup. now rewrite Hk1. }
  assert (Hothers : otherKeys (Js.oset d dw o1) d = otherKeys o d).
  { rewrite otherKeys_oset. unfold otherKeys. now rewrite Hk1. }
  assert (Hw : forall e, In e (otherKeys o d) -> prop (Js.oset d dw o1) e = w).
  { intros e He. rewrite prop_oset_ne by (now apply otherKeys_not_dominant in He).
    unfold o1. now apply level_prop_in. }
  split; [|split; [apply prop_oset_eq|exact Hw]].
  rewrite (@totalWeight_split _ d Hnd'), prop_oset_eq, Hothers, sumWeights_qsum.
  rewrite (@qsum_const w _ _ Hw). fold n. unfold w.
  assert (Hn : 0 < n).
  { unfold n. change (otherKeys o d <> []) in Hne. clear - Hne.
    destruct (otherKeys o d) as [|x l]; [congruence|].
    change 0 with (inject_Z 0). rewrite <- Zlt_Qlt. simpl. lia. }
  field. lra.
Qed.

End KernelMore.

(** X10. [applyMutation] renormalises the tone weights whatever they summed
    to before: for a character whose weights are an object with the dominant
    emotion of the reaction among its keys and a positive sum over the other
    keys, the weights after the call sum to 1, the dominant emotion holds
    min(1, old + driftRate * intensity), every other emotion holds its old
    weight scaled by the same factor, and the emotions are the same as
    before. *)
Theorem applyMutation_normalises_tone
    (k : CharacterKernel.Kernel) (characterId : string)
    (c : CharacterKernel.CharacterField) (o : list (string * Q)) (f : RecursionFold) :
  CharacterKernel.getCharacter k characterId = Some c ->
  CharacterKernel.heap k !! CharacterKernel.variations (CharacterKernel.toneProfile c) = Some o ->
  List.NoDup (Js.okeys o) ->
  Js.ohas (dominant (fold_emotionalState f)) o = true ->
  0 < CharacterKernel.sumWeights o
        (CharacterKernel.otherKeys o (dominant (fold_emotionalState f))) ->
  let es := fold_emotionalState f in
  let d := dominant es in
  let others := CharacterKernel.otherKeys o d in
  let v' := Qmin 1 (CharacterKernel.prop o d
                    + CharacterKernel.driftRate (CharacterKernel.mutationSchema c)
                      * intensity es) in
  exists o',
    CharacterKernel.toneOf (CharacterKernel.applyMutation characterId f k) characterId = Some o' /\
    CharacterKernel.totalWeight o' == 1 /\
    CharacterKernel.prop o' d = v' /\
    (forall e, In e others ->
       CharacterKernel.prop o' e =
       CharacterKernel.prop o e / CharacterKernel.sumWeights o others * (1 - v')) /\
    Js.okeys o' = Js.okeys o.
Proof.
  intros Hc Ho Hnd Hhas Hpos es d others v'.
  exists (CharacterKernel.driftTone
            (CharacterKernel.driftRate (CharacterKernel.mutationSchema c)) es o).
  split; [|now apply driftTone_normalises].
  unfold CharacterKernel.applyMutation. rewrite Hc. fold es.
  match goal with
  | |- context [CharacterKernel.updateEmotionalState characterId ?p k] =>
      set (k1 := CharacterKernel.updateEmotionalState characterId p k)
  end.
  assert (Hderef : CharacterKernel.deref k1
                     (CharacterKernel.variations (CharacterKernel.toneProfile c)) = o).
  { unfold CharacterKernel.deref, k1. now rewrite heap_updateEmotionalState, Ho. }
  rewrite Hderef. fold es in Hhas. rewrite Hhas.
  match goal with
  | |- CharacterKernel.toneOf (CharacterKernel.setCharacters (Js.oset _ ?c1) _) _ = _ =>
      assert (Hv : CharacterKernel.variations (CharacterKernel.toneProfile c1) =
                   CharacterKernel.variations (CharacterKernel.toneProfile c))
        by (cbn [CharacterKernel.toneProfile]; now destruct (Qlt_bool 0.7 (stability es)));
      apply toneOf_after; exact Hv
  end.
Qed.

Lemma applyMutation_normalises_tone_witness :
  let es := fold_emotionalState Scenarios.joyfulFold in
  let o := CharacterKernel.defaultVariations in
  let others := CharacterKernel.otherKeys o "joy" in
  let v' := Qmin 1 (CharacterKernel.prop o "joy" + 0.05 * 0.8) in
  exists o',
    CharacterKernel.toneOf
      (CharacterKernel.applyMutation "bob" Scenarios.joyfulFold Scenarios.kernelDefault) "bob"
      = Some o' /\
    CharacterKernel.totalWeight o' == 1 /\
    CharacterKernel.prop o' "joy" = v' /\
    (forall e, In e others ->
       CharacterKernel.prop o' e =
       CharacterKernel.prop o e / CharacterKernel.sumWeights o others * (1 - v')) /\
    Js.okeys o' = Js.okeys o.
Proof.
  apply (@applyMutation_normalises_tone Scenarios.kernelDefault "bob" Scenarios.bob
           CharacterKernel.defaultVariations Scenarios.joyfulFold).
  - reflexivity.
  - reflexivity.
  - repeat constructor; simpl; intuition discriminate.
  - reflexivity.
  - reflexivity.
Defined.

(** X11. After [applyMutation] the collapse threshold of the character is
    the configured default lowered by a fifth of the intensity of the
    reaction and clamped to the interval from 0.1 to 0.9; the threshold the
    character had does not enter into it, so an adjustment made by
    [reconfigureCharacter] is gone after the next mutation. The id, the
    name, the mutation schema and the memory anchor of the character are
    kept, and the baseline tone becomes the dominant emotion exactly when
    the stability of the reaction is above 0.7. *)
Theorem applyMutation_overrides_threshold
    (k : CharacterKernel.Kernel) (characterId : string)
    (c : CharacterKernel.CharacterField) (es : EmotionalState) (adjustment : Q)
    (f : RecursionFold) :
  CharacterKernel.getCharacter k characterId = Some c ->
  let threshold :=
    Qmax 0.1 (Qmin 0.9 (defaultCollapseThreshold (CharacterKernel.config k)
                        - intensity (fold_emotionalState f) * 0.2)) in
  let reconfigured := CharacterKernel.reconfigureCharacter characterId es adjustment k in
  (exists c',
     CharacterKernel.getCharacter (CharacterKernel.applyMutation characterId f k) characterId
       = Some c' /\
     CharacterKernel.collapseThreshold c' = threshold /\
     CharacterKernel.char_id c' = CharacterKernel.char_id c /\
     CharacterKernel.char_name c' = CharacterKernel.char_name c /\
     CharacterKernel.mutationSchema c' = CharacterKernel.mutationSchema c /\
     CharacterKernel.memoryAnchor c' = CharacterKernel.memoryAnchor c /\
     CharacterKernel.baseline (CharacterKernel.toneProfile c') =
       (if Qlt_bool 0.7 (stability (fold_emotionalState f))
        then dominant (fold_emotionalState f)
        else CharacterKernel.baseline (CharacterKernel.toneProfile c))) /\
  (exists c'',
     CharacterKernel.getCharacter
       (CharacterKernel.applyMutation characterId f reconfigured) characterId = Some c'' /\
     CharacterKernel.collapseThreshold c'' = threshold) /\
  0.1 <= threshold /\ threshold <= 0.9.
Proof.
  intros Hc threshold reconfigured.
  split; [|split; [|apply clamp_bounds]].
  - unfold CharacterKernel.applyMutation. rewrite Hc.
    eexists. split.
    + unfold CharacterKernel.getCharacter, CharacterKernel.setCharacters;
        cbn [CharacterKernel.characters].
      destruct (Js.ohas _ _); cbn [CharacterKernel.characters CharacterKernel.setHeap];
        apply oget_oset_eq.
    + cbn [CharacterKernel.collapseThreshold CharacterKernel.char_id CharacterKernel.char_name
             CharacterKernel.mutationSchema CharacterKernel.memoryAnchor
             CharacterKernel.toneProfile].
      repeat split. now destruct (Qlt_bool 0.7 _).
  - assert (Hr : exists c1,
               CharacterKernel.getCharacter reconfigured characterId = Some c1 /\
               CharacterKernel.config reconfigured = CharacterKernel.config k).
    { unfold reconfigured, CharacterKernel.reconfigureCharacter. rewrite Hc.
      eexists. split.
      - unfold CharacterKernel.getCharacter, CharacterKernel.setCharacters;
          cbn [CharacterKernel.characters]. apply oget_oset_eq.
      - unfold CharacterKernel.setCharacters, CharacterKernel.setHeap,
          CharacterKernel.updateEmotionalState; cbn [CharacterKernel.config].
        now destruct (Js.oget characterId (CharacterKernel.emotionalStates k)). }
    destruct Hr as (c1 & Hc1 & Hcfg).
    unfold CharacterKernel.applyMutation. rewrite Hc1, Hcfg.
    eexists. split.
    + unfold CharacterKernel.getCharacter, CharacterKernel.setCharacters;
        cbn [CharacterKernel.characters].
      destruct (Js.ohas _ _); cbn [CharacterKernel.characters CharacterKernel.setHeap];
        apply oget_oset_eq.
    + reflexivity.
Qed.

Lemma applyMutation_overrides_threshold_witness :
  let threshold := Qmax 0.1 (Qmin 0.9 (0.7 - 0.8 * 0.2)) in
  let reconfigured :=
    CharacterKernel.reconfigureCharacter "elena" Scenarios.angryState 0.15
      Scenarios.kernelElena in
  (exists c',
     CharacterKernel.getCharacter
       (CharacterKernel.applyMutation "elena" Scenarios.joyfulFold Scenarios.kernelElena)
       "elena" = Some c' /\
     CharacterKernel.collapseThreshold c' = threshold /\
     CharacterKernel.char_id c' = "elena" /\
     CharacterKernel.char_name c' = "Elena" /\
     CharacterKernel.mutationSchema c' = Scenarios.elenaSchema /\
     CharacterKernel.memoryAnchor c' = "anchor-1" /\
     CharacterKernel.baseline (CharacterKernel.toneProfile c') = "neutral") /\
  (exists c'',
     CharacterKernel.getCharacter
       (CharacterKernel.applyMutation "elena" Scenarios.joyfulFold reconfigured) "elena"
       = Some c'' /\
     CharacterKernel.collapseThreshold c'' = threshold) /\
  0.1 <= threshold /\ threshold <= 0.9.
Proof.
  apply (@applyMutation_overrides_threshold Scenarios.kernelElena "elena" Scenarios.elena
           Scenarios.angryState 0.15 Scenarios.joyfulFold).
  reflexivity.
Defined.

(** X12. [reconfigureCharacter] sets the tone weights outright: for a
    character whose weights have some emotion other than the new dominant
    one, the dominant emotion gets min(0.5, 0.3 + 0.2 * intensity), every
    other emotion an equal share of the rest, and the weights sum to 1
    whatever they were; the baseline tone becomes the dominant emotion, the
    adaptability 1 - stability, and the collapse threshold the old one plus
    the adjustment, clamped to the interval from 0.1 to 0.9. *)
Theorem reconfigureCharacter_resets_tone
    (k : CharacterKernel.Kernel) (characterId : string)
    (c : CharacterKernel.CharacterField) (o : list (string * Q))
    (es : EmotionalState) (adjustment : Q) :
  CharacterKernel.getCharacter k characterId = Some c ->
  CharacterKernel.heap k !! CharacterKernel.variations (CharacterKernel.toneProfile c) = Some o ->
  List.NoDup (Js.okeys o) ->
  CharacterKernel.otherKeys o (dominant es) <> [] ->
  let k' := CharacterKernel.reconfigureCharacter characterId es adjustment k in
  let others := CharacterKernel.otherKeys o (dominant es) in
  let dominantWeight := Qmin 0.5 (0.3 + intensity es * 0.2) in
  exists c' o',
    CharacterKernel.getCharacter k' characterId = Some c' /\
    CharacterKernel.toneOf k' characterId = Some o' /\
    CharacterKernel.totalWeight o' == 1 /\
    CharacterKernel.prop o' (dominant es) = dominantWeight /\
    (forall e, In e others ->
       CharacterKernel.prop o' e =
       (1 - dominantWeight) / inject_Z (Z.of_nat (length others))) /\
    CharacterKernel.baseline (CharacterKernel.toneProfile c') = dominant es /\
    CharacterKernel.adaptability (CharacterKernel.toneProfile c') = 1 - stability es /\
    CharacterKernel.collapseThreshold c' =
      Qmax 0.1 (Qmin 0.9 (CharacterKernel.collapseThreshold c + adjustment)) /\
    0.1 <= CharacterKernel.collapseThreshold c' /\
    CharacterKernel.collapseThreshold c' <= 0.9.
Proof.
  intros Hc Ho Hnd Hne k' others dw. subst k'.
  unfold CharacterKernel.reconfigureCharacter. rewrite Hc.
  set (k1 := CharacterKernel.updateEmotionalState characterId _ k).
  assert (Hderef : CharacterKernel.deref k1
                     (CharacterKernel.variations (CharacterKernel.toneProfile c)) = o).
  { unfold CharacterKernel.deref, k1. now rewrite heap_updateEmotionalState, Ho. }
  rewrite Hderef.
  destruct (@retone_normalises es o Hnd Hne) as (Htot & Hd & Hw).
  eexists. exists (CharacterKernel.retone es o).
  split; [unfold CharacterKernel.getCharacter, CharacterKernel.setCharacters;
          cbn [CharacterKernel.characters]; apply oget_oset_eq|].
  split.
  { apply toneOf_after. reflexivity. }
  split; [exact Htot|]. split; [exact Hd|]. split; [exact Hw|].
  cbn [CharacterKernel.toneProfile CharacterKernel.baseline CharacterKernel.adaptability
         CharacterKernel.collapseThreshold].
  split; [reflexivity|]. split; [reflexivity|]. split; [reflexivity|]. apply clamp_bounds.
Qed.

Lemma reconfigureCharacter_resets_tone_witness :
  let k' := CharacterKernel.reconfigureCharacter "bob" Scenarios.angryState 0.5
              Scenarios.kernelDefault in
  let others := CharacterKernel.otherKeys CharacterKernel.defaultVariations "anger" in
  let dominantWeight := Qmin 0.5 (0.3 + 0.8 * 0.2) in
  exists c' o',
    CharacterKernel.getCharacter k' "bob" = Some c' /\
    CharacterKernel.toneOf k' "bob" = Some o' /\
    CharacterKernel.totalWeight o' == 1 /\
    CharacterKernel.prop o' "anger" = dominantWeight /\
    (forall e, In e others ->
       CharacterKernel.prop o' e =
       (1 - dominantWeight) / inject_Z (Z.of_nat (length others))) /\
    CharacterKernel.baseline (CharacterKernel.toneProfile c') = "anger" /\
    CharacterKernel.adaptability (CharacterKernel.toneProfile c') = 1 - 0.6 /\
    CharacterKernel.collapseThreshold c' = Qmax 0.1 (Qmin 0.9 (0.7 + 0.5)) /\
    0.1 <= CharacterKernel.collapseThreshold c' /\
    CharacterKernel.collapseThreshold c' <= 0.9.
Proof.
  apply (@reconfigureCharacter_resets_tone Scenarios.kernelDefault "bob" Scenarios.bob
           CharacterKernel.defaultVariations Scenarios.angryState 0.5).
  - reflexivity.
  - reflexivity.
  - repeat constructor; simpl; intuition discriminate.
  - discriminate.
Defined.

Lemma createCharacter_run
    (E : Type) (k : CharacterKernel.Kernel) (uuidAnchor uuidCharacter : string) (now : Z)
    (name : string) (tone : option CharacterKernel.PartialToneProfile)
    (schema : option CharacterKernel.PartialMutationSchema) (threshold : option Q) :
  exists tp ms,
    CharacterKernel.createCharacter (E:=E) uuidAnchor uuidCharacter now name
      tone schema threshold k =
    (Js.Returned uuidCharacter,
     CharacterKernel.mkKernel
       (Js.oset uuidCharacter
          (CharacterKernel.mkCharacter uuidCharacter name tp ms uuidAnchor
             (match threshold with
              | Some t => t
              | None => defaultCollapseThreshold (CharacterKernel.config k)
              end))
          (CharacterKernel.characters k))
       (Js.final (MemoryGraphStore.addMemory (E:=E) uuidAnchor now
                    ("Character creation: " +:+ name) "system"
                    (Some [("type", MStr "character_anchor")])
                    (CharacterKernel.memoryGraph k)))
       (CharacterKernel.config k)
       (Js.oset uuidCharacter (mkEmotionalState (CharacterKernel.baseline tp) None 0.5 0.7)
          (CharacterKernel.emotionalStates k))
       (<[CharacterKernel.nextRef k := CharacterKernel.defaultVariations]>
          (CharacterKernel.heap k))
       (S (CharacterKernel.nextRef k)),
     []) /\
    (tone = None -> tp = CharacterKernel.mkTone "neutral" (CharacterKernel.nextRef k) 0.5).
Proof.
  eexists. eexists. split; [reflexivity|]. intros ->. reflexivity.
Qed.

(** X13. [createCharacter] never throws and emits nothing; it returns the
    generated id, under which the kernel then holds a character with the
    given name, the configured default threshold unless one was given, and
    as memory anchor a new node of kind memory whose content names the
    character; the emotional state of the new character is its baseline
    tone with intensity 0.5 and stability 0.7; every other character and
    emotional state is as before. A character created without a tone
    profile gets the default weights, which sum to 0.9. *)
Theorem createCharacter_registers
    (E : Type) (k : CharacterKernel.Kernel) (uuidAnchor uuidCharacter : string) (now : Z)
    (name : string) (tone : option CharacterKernel.PartialToneProfile)
    (schema : option CharacterKernel.PartialMutationSchema) (threshold : option Q) :
  let r := CharacterKernel.createCharacter (E:=E) uuidAnchor uuidCharacter now name
             tone schema threshold k in
  Js.outcome r = Js.Returned uuidCharacter /\ Js.emitted r = [] /\
  (exists c,
     CharacterKernel.getCharacter (Js.final r) uuidCharacter = Some c /\
     CharacterKernel.char_id c = uuidCharacter /\
     CharacterKernel.char_name c = name /\
     CharacterKernel.memoryAnchor c = uuidAnchor /\
     CharacterKernel.collapseThreshold c =
       match threshold with
       | Some t => t
       | None => defaultCollapseThreshold (CharacterKernel.config k)
       end /\
     CharacterKernel.getEmotionalState (Js.final r) uuidCharacter =
       Some (mkEmotionalState (CharacterKernel.baseline (CharacterKernel.toneProfile c))
               None 0.5 0.7)) /\
  MemoryGraphStore.getNode (CharacterKernel.memoryGraph (Js.final r)) uuidAnchor =
    Some (mkNode uuidAnchor memory ("Character creation: " +:+ name) now
            (Some [("characterId", MStr "system"); ("type", MStr "character_anchor")])) /\
  (forall j, j <> uuidCharacter ->
     CharacterKernel.getCharacter (Js.final r) j = CharacterKernel.getCharacter k j /\
     CharacterKernel.getEmotionalState (Js.final r) j = CharacterKernel.getEmotionalState k j) /\
  (tone = None ->
     CharacterKernel.toneOf (Js.final r) uuidCharacter = Some CharacterKernel.defaultVariations /\
     CharacterKernel.totalWeight CharacterKernel.defaultVariations == 0.9).
Proof.
  intros r. subst r.
  destruct (createCharacter_run E k uuidAnchor uuidCharacter now name tone schema threshold)
    as (tp & ms & Hrun & Htp).
  rewrite Hrun, outcome_run, emitted_run, !final_run.
  unfold CharacterKernel.getCharacter, CharacterKernel.getEmotionalState,
    CharacterKernel.toneOf;
    cbn [CharacterKernel.characters CharacterKernel.emotionalStates CharacterKernel.memoryGraph
           CharacterKernel.heap].
  split; [reflexivity|]. split; [reflexivity|].
  split; [|split; [|split]].
  - eexists. split; [apply oget_oset_eq|].
    cbn [CharacterKernel.char_id CharacterKernel.char_name CharacterKernel.memoryAnchor
           CharacterKernel.collapseThreshold CharacterKernel.toneProfile].
    repeat split. apply oget_oset_eq.
  - unfold MemoryGraphStore.addMemory. rewrite addNode_run, final_run.
    unfold MemoryGraphStore.getNode; cbn [MemoryGraphStore.nodes node_id]. apply oget_oset_eq.
  - intros j Hj. split; apply oget_oset_ne; congruence.
  - intros Hnone. split; [|reflexivity].
    unfold CharacterKernel.getCharacter; cbn [CharacterKernel.characters].
    rewrite oget_oset_eq. cbn [CharacterKernel.toneProfile]. rewrite (Htp Hnone).
    cbn [CharacterKernel.variations]. apply lookup_insert_eq.
Qed.

(** X14. [forkCharacter] on an unknown character throws the
    character-not-found error and leaves the kernel as it was. On a known
    character whose memory anchor is a node of the store it returns the
    generated id and emits nothing; the kernel then holds under that id a
    character with the name of the original followed by the modifier in
    brackets, the tone profile, mutation schema and collapse threshold of the
    original, and a new memory anchor; the emotional state of the original
    is the emotional state of the copy; the original anchor and the new one
    are joined by the divergence edge of weight 0.5, which is the edge the
    lookup by pair returns; and the original character is still there. When
    the memory anchor of the original is not a node of the store the call
    throws the missing-endpoint error after the new anchor has been stored,
    and no character is added. *)
Theorem forkCharacter_copies_character
    (E : Type) (k : CharacterKernel.Kernel) (uuidAnchor uuidCharacter : string) (now : Z)
    (characterId nameModifier : string) :
  let r := CharacterKernel.forkCharacter (E:=E) uuidAnchor uuidCharacter now
             characterId nameModifier k in
  let store := CharacterKernel.memoryGraph k in
  match CharacterKernel.getCharacter k characterId with
  | None =>
      Js.outcome r = Js.Threw (Js.CharacterNotFound characterId) /\
      Js.final r = k /\ Js.emitted r = []
  | Some c =>
      (Graphlib.hasNode (MemoryGraphStore.graph store) (CharacterKernel.memoryAnchor c) = true ->
       Js.outcome r = Js.Returned uuidCharacter /\ Js.emitted r = [] /\
       CharacterKernel.getCharacter (Js.final r) uuidCharacter =
         Some (CharacterKernel.mkCharacter uuidCharacter
                 (CharacterKernel.char_name c +:+ " (" +:+ nameModifier +:+ ")")
                 (CharacterKernel.toneProfile c) (CharacterKernel.mutationSchema c)
                 uuidAnchor (CharacterKernel.collapseThreshold c)) /\
       (forall s, CharacterKernel.getEmotionalState k characterId = Some s ->
                  CharacterKernel.getEmotionalState (Js.final r) uuidCharacter = Some s) /\
       MemoryGraphStore.getEdgesBetween (CharacterKernel.memoryGraph (Js.final r))
         (CharacterKernel.memoryAnchor c) uuidAnchor =
         [mkEdge (CharacterKernel.memoryAnchor c) uuidAnchor divergence 0.5 None] /\
       (exists anchor,
          MemoryGraphStore.getNode (CharacterKernel.memoryGraph (Js.final r)) uuidAnchor
            = Some anchor /\
          node_type anchor = memory /\ node_timestamp anchor = now) /\
       (uuidCharacter <> characterId ->
          CharacterKernel.getCharacter (Js.final r) characterId = Some c)) /\
      (Graphlib.hasNode (MemoryGraphStore.graph store) (CharacterKernel.memoryAnchor c) = false ->
       uuidAnchor <> CharacterKernel.memoryAnchor c ->
       Js.outcome r = Js.Threw Js.MissingEndpoint /\
       CharacterKernel.characters (Js.final r) = CharacterKernel.characters k /\
       CharacterKernel.emotionalStates (Js.final r) = CharacterKernel.emotionalStates k /\
       MemoryGraphStore.getNode (CharacterKernel.memoryGraph (Js.final r)) uuidAnchor <> None)
  end.
Proof.
  intros r store. subst r. unfold CharacterKernel.forkCharacter.
  erewrite bind_returned by reflexivity.
  destruct (CharacterKernel.getCharacter k characterId) as [c|] eqn:Hc.
  2: { cbn [Js.throw Js.outcome Js.final Js.emitted fst snd app]. auto. }
  set (label := (CharacterKernel.char_name c +:+ " (" +:+ nameModifier +:+ ")")%string).
  set (content := ("Character fork: " +:+ _)%string).
  set (meta := Some _).
  erewrite bind_returned
    by (unfold CharacterKernel.onGraph, zoom, MemoryGraphStore.addMemory;
        rewrite addNode_run; reflexivity).
  set (node := mkNode uuidAnchor memory content now _).
  rewrite outcome_run, final_run. cbn [node_id].
  set (k1 := CharacterKernel.mkKernel _ _ _ _ _ _).
  assert (Hnew : Graphlib.hasNode
                   (MemoryGraphStore.graph (CharacterKernel.memoryGraph k1)) uuidAnchor = true).
  { unfold k1; cbn [CharacterKernel.memoryGraph MemoryGraphStore.graph node_id].
    rewrite hasNode_setNode. now destruct (decide _). }
  assert (Hold : Graphlib.hasNode
                   (MemoryGraphStore.graph (CharacterKernel.memoryGraph k1))
                   (CharacterKernel.memoryAnchor c) =
                 (if decide (CharacterKernel.memoryAnchor c = uuidAnchor) then true
                  else Graphlib.hasNode (MemoryGraphStore.graph store)
                         (CharacterKernel.memoryAnchor c))).
  { unfold k1; cbn [CharacterKernel.memoryGraph MemoryGraphStore.graph node_id].
    now rewrite hasNode_setNode. }
  unfold MemoryGraphStore.createEmotionalLink, MemoryGraphStore.createDivergence.
  set (e1 := mkEdge (CharacterKernel.memoryAnchor c) uuidAnchor emotional 0.8 None).
  set (e2 := mkEdge (CharacterKernel.memoryAnchor c) uuidAnchor divergence 0.5 None).
  pose proof (kernel_addEdge_run (E:=E) e1 k1) as Hrun1.
  cbn [source target e1] in Hrun1. rewrite Hnew, Hold in Hrun1.
  split.
  - intros Hanchor. rewrite Hanchor in Hrun1.
    assert (Hif : (if decide (CharacterKernel.memoryAnchor c = uuidAnchor) then true else true)
                  = true) by now destruct (decide _).
    rewrite Hif in Hrun1. cbn [negb orb] in Hrun1.
    erewrite bind_returned by exact Hrun1. rewrite outcome_run, final_run, emitted_run.
    set (k2 := CharacterKernel.mkKernel _ _ _ _ _ _).
    pose proof (kernel_addEdge_run (E:=E) e2 k2) as Hrun2.
    assert (H2s : Graphlib.hasNode
                    (MemoryGraphStore.graph (CharacterKernel.memoryGraph k2))
                    (CharacterKernel.memoryAnchor c) = true).
    { unfold k2; cbn [CharacterKernel.memoryGraph MemoryGraphStore.graph].
      rewrite hasNode_setEdge; [rewrite Hold, Hanchor; exact Hif| |exact Hnew].
      cbn [source e1]. rewrite Hold, Hanchor. exact Hif. }
    assert (H2t : Graphlib.hasNode
                    (MemoryGraphStore.graph (CharacterKernel.memoryGraph k2)) uuidAnchor = true).
    { unfold k2; cbn [CharacterKernel.memoryGraph MemoryGraphStore.graph].
      rewrite hasNode_setEdge; [exact Hnew| |exact Hnew].
      cbn [source e1]. rewrite Hold, Hanchor. exact Hif. }
    cbn [source target e2] in Hrun2. rewrite H2s, H2t in Hrun2. cbn [negb orb] in Hrun2.
    erewrite bind_returned by exact Hrun2. rewrite outcome_run, final_run, emitted_run.
    set (k3 := CharacterKernel.mkKernel _ _ _ _ _ _).
    erewrite bind_returned by reflexivity.
    erewrite bind_returned by reflexivity.
    rewrite !final_run, !outcome_run, !emitted_run.
    cbn [CharacterKernel.char_id].
    set (forked := CharacterKernel.mkCharacter uuidCharacter label _ _ _ _).
    set (k4 := CharacterKernel.setCharacters (Js.oset uuidCharacter forked) k3).
    assert (Hstates : CharacterKernel.emotionalStates k4 = CharacterKernel.emotionalStates k)
      by reflexivity.
    rewrite Hstates.
    assert (Hgraph : forall k5,
              CharacterKernel.memoryGraph k5 = CharacterKernel.memoryGraph k3 ->
              MemoryGraphStore.getEdgesBetween (CharacterKernel.memoryGraph k5)
                (CharacterKernel.memoryAnchor c) uuidAnchor = [e2] /\
              exists anchor,
                MemoryGraphStore.getNode (CharacterKernel.memoryGraph k5) uuidAnchor
                  = Some anchor /\
                node_type anchor = memory /\ node_timestamp anchor = now).
    { intros k5 ->. split.
      - unfold k3; cbn [CharacterKernel.memoryGraph].
        unfold MemoryGraphStore.getEdgesBetween, Graphlib.edge; cbn [MemoryGraphStore.graph].
        unfold Graphlib.setEdge at 1; cbn [Graphlib.g_edges source target e2].
        now rewrite oget_oset_eq.
      - exists node. split; [|split; reflexivity].
        unfold k3, k2, k1; cbn [CharacterKernel.memoryGraph MemoryGraphStore.nodes].
        unfold MemoryGraphStore.getNode; cbn [MemoryGraphStore.nodes]. apply oget_oset_eq. }
    destruct (Js.oget characterId (CharacterKernel.emotionalStates k)) as [s0|] eqn:Hs0.
    + cbn [Js.modify Js.ret Js.bind Js.outcome Js.final Js.emitted fst snd app].
      split; [reflexivity|]. split; [reflexivity|].
      split; [unfold CharacterKernel.getCharacter, k4, CharacterKernel.setCharacters,
                CharacterKernel.setEmotionalStates; cbn [CharacterKernel.characters];
              apply oget_oset_eq|].
      split.
      { intros s Hs. unfold CharacterKernel.getEmotionalState in *.
        rewrite Hs0 in Hs. injection Hs as <-.
        unfold CharacterKernel.setEmotionalStates; cbn [CharacterKernel.emotionalStates].
        apply oget_oset_eq. }
      destruct (Hgraph (CharacterKernel.setEmotionalStates (Js.oset uuidCharacter s0) k4)
                  eq_refl) as [He Ha].
      split; [exact He|]. split; [exact Ha|].
      intros Hne. unfold CharacterKernel.getCharacter, k4, CharacterKernel.setCharacters,
        CharacterKernel.setEmotionalStates; cbn [CharacterKernel.characters].
      rewrite oget_oset_ne by congruence. exact Hc.
    + cbn [Js.modify Js.ret Js.bind Js.outcome Js.final Js.emitted fst snd app].
      split; [reflexivity|]. split; [reflexivity|].
      split; [unfold CharacterKernel.getCharacter, k4, CharacterKernel.setCharacters;
              cbn [CharacterKernel.characters]; apply oget_oset_eq|].
      split.
      { intros s Hs. unfold CharacterKernel.getEmotionalState in Hs. congruence. }
      destruct (Hgraph k4 eq_refl) as [He Ha].
      split; [exact He|]. split; [exact Ha|].
      intros Hne. unfold CharacterKernel.getCharacter, k4, CharacterKernel.setCharacters;
        cbn [CharacterKernel.characters].
      rewrite oget_oset_ne by congruence. exact Hc.
  - intros Hanchor Hne. rewrite Hanchor in Hrun1.
    destruct (decide (CharacterKernel.memoryAnchor c = uuidAnchor)) as [Heq|_]; [congruence|].
    cbn [negb orb] in Hrun1.
    erewrite bind_threw by exact Hrun1. rewrite outcome_run, !final_run.
    cbn [CharacterKernel.characters CharacterKernel.emotionalStates CharacterKernel.memoryGraph].
    split; [reflexivity|]. split; [reflexivity|]. split; [reflexivity|].
    unfold k1; cbn [CharacterKernel.memoryGraph].
    unfold MemoryGraphStore.getNode, node; cbn [MemoryGraphStore.nodes node_id].
    rewrite oget_oset_eq. discriminate.
Qed.

(** ** Reactions, selections and reverse bindings *)
Section LogicFacts.
Import InteractionBindingLogic.

Lemma bindFoldToFracture_run (now : Z) (foldId fractureId : string) (t : Logic) :
  bindFoldToFracture now foldId fractureId t =
  (Js.Returned tt,
   mkLogic (memoryGraph t) (bindInto now foldId fractureId (pendingBindings t)) (selectedResponses t),
   [fold_binding foldId fractureId now]).
Proof.
  destruct t as [g m sel]. unfold bindFoldToFracture, bindInto, Js.bind, Js.get, Js.modify, Js.emit,
    Js.ret, setPending; cbn [pendingBindings memoryGraph selectedResponses].
  destruct (Js.oget fractureId m) as [b|] eqn:Hb; cbn [pendingBindings memoryGraph selectedResponses].
  - rewrite Hb. destruct (existsb _ _); reflexivity.
  - rewrite oget_oset_eq. reflexivity.
Qed.

Lemma responses_bound (now : Z) (foldId fractureId : string) (m : list (string * BindingState)) :
  let old := match Js.oget fractureId m with Some b => boundFoldIds b | None => [] end in
  match Js.oget fractureId (bindInto now foldId fractureId m) with
  | Some b =>
      boundFoldIds b = (if existsb (String.eqb foldId) old then old else old ++ [foldId]) /\
      status b = match Js.oget fractureId m with Some b0 => status b0 | None => pending end
  | None => False
  end.
Proof.
  unfold bindInto. destruct (Js.oget fractureId m) as [b|] eqn:Hb; cbv zeta.
  - destruct (existsb (String.eqb foldId) (boundFoldIds b)) eqn:Hex.
    + rewrite Hb. auto.
    + rewrite oget_oupdate_eq, Hb. simpl. auto.
  - rewrite oget_oupdate_eq, oget_oset_eq. simpl. auto.
Qed.

Lemma bound_other (now : Z) (foldId fractureId j : string) (m : list (string * BindingState)) :
  j <> fractureId -> Js.oget j (bindInto now foldId fractureId m) = Js.oget j m.
Proof.
  intros Hne. unfold bindInto. destruct (Js.oget fractureId m) as [b|].
  - destruct (existsb _ _); [reflexivity|]. now apply oget_oupdate_ne.
  - rewrite oget_oupdate_ne by assumption. now apply oget_oset_ne.
Qed.

Lemma logic_addEdge_run (edge : MemoryEdge) (t : Logic) :
  onGraph (MemoryGraphStore.addEdge edge) t =
  if negb (Graphlib.hasNode (MemoryGraphStore.graph (memoryGraph t)) (source edge))
     || negb (Graphlib.hasNode (MemoryGraphStore.graph (memoryGraph t)) (target edge))
  then (Js.Threw Js.MissingEndpoint,
        mkLogic (memoryGraph t) (pendingBindings t) (selectedResponses t), [])
  else (Js.Returned (MemoryGraphStore.edgeId edge),
        mkLogic
          (MemoryGraphStore.mkStore
             (Graphlib.setEdge (source edge) (target edge) edge
                (MemoryGraphStore.graph (memoryGraph t)))
             (MemoryGraphStore.nodes (memoryGraph t))
             (Js.oset (MemoryGraphStore.edgeId edge) edge (MemoryGraphStore.edges (memoryGraph t))))
          (pendingBindings t) (selectedResponses t), []).
Proof.
  unfold onGraph, zoom. rewrite addEdge_run. now destruct (negb _ || negb _).
Qed.

Lemma notice_addEdge_run (edge : MemoryEdge) (t : Logic) :
  onStore (MemoryGraphStore.addEdge edge) t =
  if negb (Graphlib.hasNode (MemoryGraphStore.graph (memoryGraph t)) (source edge))
     || negb (Graphlib.hasNode (MemoryGraphStore.graph (memoryGraph t)) (target edge))
  then (Js.Threw Js.MissingEndpoint,
        mkLogic (memoryGraph t) (pendingBindings t) (selectedResponses t), [])
  else (Js.Returned (MemoryGraphStore.edgeId edge),
        mkLogic
          (MemoryGraphStore.mkStore
             (Graphlib.setEdge (source edge) (target edge) edge
                (MemoryGraphStore.graph (memoryGraph t)))
             (MemoryGraphStore.nodes (memoryGraph t))
             (Js.oset (MemoryGraphStore.edgeId edge) edge (MemoryGraphStore.edges (memoryGraph t))))
          (pendingBindings t) (selectedResponses t), []).
Proof.
  unfold onStore, zoom. rewrite addEdge_run. now destruct (negb _ || negb _).
Qed.

Lemma addFold_run {E : Type} (f : RecursionFold) (st : MemoryGraphStore.Store) :
  MemoryGraphStore.addFold (E:=E) f st =
  match fold_fractureEventId f with
  | Some fid =>
      if Js.truthyString fid
      then
        if Graphlib.hasNode (MemoryGraphStore.graph (MemoryGraphStore.storedFold f st)) fid
        then (Js.Returned (fold_id f),
              MemoryGraphStore.mkStore
                (Graphlib.setEdge fid (fold_id f) (MemoryGraphStore.linkOfFold fid f)
                   (MemoryGraphStore.graph (MemoryGraphStore.storedFold f st)))
                (MemoryGraphStore.nodes (MemoryGraphStore.storedFold f st))
                (Js.oset (MemoryGraphStore.edgeId (MemoryGraphStore.linkOfFold fid f)) (MemoryGraphStore.linkOfFold fid f)
                   (MemoryGraphStore.edges (MemoryGraphStore.storedFold f st))), [])
        else (Js.Threw Js.MissingEndpoint, MemoryGraphStore.storedFold f st, [])
      else (Js.Returned (fold_id f), MemoryGraphStore.storedFold f st, [])
  | None => (Js.Returned (fold_id f), MemoryGraphStore.storedFold f st, [])
  end.
Proof.
  unfold MemoryGraphStore.addFold. fold (MemoryGraphStore.nodeOfFold f).
  erewrite bind_returned by apply addNode_run.
  change (node_id (MemoryGraphStore.nodeOfFold f)) with (fold_id f). fold (MemoryGraphStore.storedFold f st).
  destruct (fold_fractureEventId f) as [fid|]; [|reflexivity].
  destruct (Js.truthyString fid); [|reflexivity].
  fold (MemoryGraphStore.linkOfFold fid f).
  pose proof (addEdge_run (E:=E) (MemoryGraphStore.linkOfFold fid f) (MemoryGraphStore.storedFold f st)) as Hrun.
  cbn [source target MemoryGraphStore.linkOfFold] in Hrun.
  assert (Hself : Graphlib.hasNode (MemoryGraphStore.graph (MemoryGraphStore.storedFold f st)) (fold_id f) = true).
  { unfold MemoryGraphStore.storedFold; cbn [MemoryGraphStore.graph]. rewrite hasNode_setNode. now destruct (decide _). }
  rewrite Hself in Hrun. cbn [negb] in Hrun. rewrite orb_false_r in Hrun.
  destruct (Graphlib.hasNode (MemoryGraphStore.graph (MemoryGraphStore.storedFold f st)) fid); cbn [negb] in Hrun.
  - erewrite bind_returned by exact Hrun. reflexivity.
  - erewrite bind_threw by exact Hrun. reflexivity.
Qed.

Lemma hasNode_stored (f : RecursionFold) (st : MemoryGraphStore.Store) (i : string) :
  MemoryGraphStore.consistent st ->
  Graphlib.hasNode (MemoryGraphStore.graph (MemoryGraphStore.storedFold f st)) i =
  (if decide (i = fold_id f) then true else Js.ohas i (MemoryGraphStore.nodes st)).
Proof.
  intros Hc. unfold MemoryGraphStore.storedFold; cbn [MemoryGraphStore.graph]. rewrite hasNode_setNode.
  destruct (decide _); [reflexivity|apply Hc].
Qed.

(** [processFold], by the three ways it can go. *)
Lemma processFold_run (now : Z) (f : RecursionFold) (t : Logic) :
  processFold now f t =
  match fold_fractureEventId f with
  | Some fid =>
      if Js.truthyString fid
      then
        if Graphlib.hasNode (MemoryGraphStore.graph (MemoryGraphStore.storedFold f (memoryGraph t))) fid
        then (Js.Returned tt,
              mkLogic
                (MemoryGraphStore.mkStore
                   (Graphlib.setEdge fid (fold_id f) (MemoryGraphStore.linkOfFold fid f)
                      (MemoryGraphStore.graph (MemoryGraphStore.storedFold f (memoryGraph t))))
                   (MemoryGraphStore.nodes (MemoryGraphStore.storedFold f (memoryGraph t)))
                   (Js.oset (MemoryGraphStore.edgeId (MemoryGraphStore.linkOfFold fid f)) (MemoryGraphStore.linkOfFold fid f)
                      (MemoryGraphStore.edges (MemoryGraphStore.storedFold f (memoryGraph t)))))
                (bindInto now (fold_id f) fid (pendingBindings t)) (selectedResponses t),
              [fold_binding (fold_id f) fid now])
        else (Js.Threw Js.MissingEndpoint,
              mkLogic (MemoryGraphStore.storedFold f (memoryGraph t)) (pendingBindings t) (selectedResponses t), [])
      else (Js.Returned tt,
            mkLogic (MemoryGraphStore.storedFold f (memoryGraph t)) (pendingBindings t) (selectedResponses t),
            [deferred_fold (fold_id f) now])
  | None => (Js.Returned tt,
             mkLogic (MemoryGraphStore.storedFold f (memoryGraph t)) (pendingBindings t) (selectedResponses t),
             [deferred_fold (fold_id f) now])
  end.
Proof.
  unfold processFold, onGraph, zoom, Js.bind at 1. rewrite addFold_run.
  destruct (fold_fractureEventId f) as [fid|]; [|reflexivity].
  destruct (Js.truthyString fid); [|reflexivity].
  destruct (Graphlib.hasNode _ fid); [|reflexivity].
  rewrite bindFoldToFracture_run. reflexivity.
Qed.

Lemma oget_spread_absent (k : string) (b : Metadata) : forall a,
  Js.oget k a = None -> Js.oget k b = None -> Js.oget k (spread a b) = None.
Proof.
  unfold spread. induction b as [|[k0 v0] b IH]; intros a Ha Hb; simpl in *; [exact Ha|].
  destruct (decide (k0 = k)) as [->|Hne]; [discriminate|].
  apply IH; [|exact Hb]. rewrite oget_oset_ne by congruence. exact Ha.
Qed.

End LogicFacts.

Section ProcessFoldFacts.
Import InteractionBindingLogic.

Lemma getResponses_bound (now : Z) (foldId fid : string) (g : MemoryGraphStore.Store)
    (m : list (string * BindingState)) (sel : list (string * string)) :
  let old := getResponsesForFracture (mkLogic g m sel) fid in
  getResponsesForFracture (mkLogic g (bindInto now foldId fid m) sel) fid =
  (if existsb (String.eqb foldId) old then old else old ++ [foldId]).
Proof.
  unfold getResponsesForFracture; cbn [pendingBindings].
  pose proof (responses_bound now foldId fid m) as H. cbv zeta in H.
  destruct (Js.oget fid (bindInto now foldId fid m)) as [b|]; [|contradiction].
  now destruct H.
Qed.

Lemma existsb_after_push (x : string) (l : list string) :
  existsb (String.eqb x) (if existsb (String.eqb x) l then l else l ++ [x]) = true.
Proof.
  destruct (existsb (String.eqb x) l) eqn:Hex; [exact Hex|].
  rewrite existsb_app. simpl. rewrite String.eqb_refl. apply orb_true_r.
Qed.

End ProcessFoldFacts.

(** X15. [processFold] stores the reaction and then goes one of three ways.
    With no stimulus id, or an empty one, it emits [deferred_fold] and leaves
    the binding records alone. With the id of a stimulus that the store
    knows it emits [fold_binding], and the reactions listed for that stimulus
    are the earlier ones followed by the new one unless it was listed
    already; processing the same reaction again changes nothing in that
    list, and the lists of the other stimuli are as before. With the id of a
    stimulus that the store does not know it throws the missing-endpoint
    error, emits nothing and leaves the binding records alone. *)
Theorem processFold_binds_or_defers
    (now now' : Z) (f : RecursionFold) (t : InteractionBindingLogic.Logic) :
  MemoryGraphStore.consistent (InteractionBindingLogic.memoryGraph t) ->
  let r := InteractionBindingLogic.processFold now f t in
  (Js.truthyOpt (fold_fractureEventId f) = false ->
     Js.outcome r = Js.Returned tt /\
     Js.emitted r = [InteractionBindingLogic.deferred_fold (fold_id f) now] /\
     InteractionBindingLogic.pendingBindings (Js.final r) =
       InteractionBindingLogic.pendingBindings t) /\
  (forall fid, fold_fractureEventId f = Some fid -> Js.truthyString fid = true ->
     (MemoryGraphStore.getNode (InteractionBindingLogic.memoryGraph t) fid <> None \/
      fid = fold_id f ->
        let old := InteractionBindingLogic.getResponsesForFracture t fid in
        Js.outcome r = Js.Returned tt /\
        Js.emitted r = [InteractionBindingLogic.fold_binding (fold_id f) fid now] /\
        InteractionBindingLogic.getResponsesForFracture (Js.final r) fid =
          (if existsb (String.eqb (fold_id f)) old then old else old ++ [fold_id f]) /\
        InteractionBindingLogic.getResponsesForFracture
          (Js.final (InteractionBindingLogic.processFold now' f (Js.final r))) fid =
          InteractionBindingLogic.getResponsesForFracture (Js.final r) fid /\
        (forall j, j <> fid ->
           InteractionBindingLogic.getResponsesForFracture (Js.final r) j =
           InteractionBindingLogic.getResponsesForFracture t j)) /\
     (MemoryGraphStore.getNode (InteractionBindingLogic.memoryGraph t) fid = None ->
      fid <> fold_id f ->
        Js.outcome r = Js.Threw Js.MissingEndpoint /\ Js.emitted r = [] /\
        InteractionBindingLogic.pendingBindings (Js.final r) =
          InteractionBindingLogic.pendingBindings t)).
Proof.
  intros Hc r. subst r. rewrite processFold_run.
  destruct (fold_fractureEventId f) as [fid|] eqn:Hfid; cbn [Js.truthyOpt].
  2: { split; [intros _; repeat split|]. intros fid Heq. discriminate. }
  destruct (Js.truthyString fid) eqn:Htr.
  2: { split; [intros _; repeat split|]. intros fid' [= <-] Ht. congruence. }
  split; [discriminate|]. intros fid' [= <-] _.
  rewrite (hasNode_stored f fid Hc).
  assert (Hcase : (if decide (fid = fold_id f) then true
                   else Js.ohas fid (MemoryGraphStore.nodes (InteractionBindingLogic.memoryGraph t)))
                  = true ->
          let r := (Js.Returned tt,
              InteractionBindingLogic.mkLogic
                (MemoryGraphStore.mkStore
                   (Graphlib.setEdge fid (fold_id f) (MemoryGraphStore.linkOfFold fid f)
                      (MemoryGraphStore.graph
                         (MemoryGraphStore.storedFold f (InteractionBindingLogic.memoryGraph t))))
                   (MemoryGraphStore.nodes
                      (MemoryGraphStore.storedFold f (InteractionBindingLogic.memoryGraph t)))
                   (Js.oset (MemoryGraphStore.edgeId (MemoryGraphStore.linkOfFold fid f))
                      (MemoryGraphStore.linkOfFold fid f)
                      (MemoryGraphStore.edges
                         (MemoryGraphStore.storedFold f (InteractionBindingLogic.memoryGraph t)))))
                (InteractionBindingLogic.bindInto now (fold_id f) fid
                   (InteractionBindingLogic.pendingBindings t))
                (InteractionBindingLogic.selectedResponses t),
              [InteractionBindingLogic.fold_binding (fold_id f) fid now]) in
          let old := InteractionBindingLogic.getResponsesForFracture t fid in
          InteractionBindingLogic.getResponsesForFracture (Js.final r) fid =
            (if existsb (String.eqb (fold_id f)) old then old else old ++ [fold_id f]) /\
          InteractionBindingLogic.getResponsesForFracture
            (Js.final (InteractionBindingLogic.processFold now' f (Js.final r))) fid =
            InteractionBindingLogic.getResponsesForFracture (Js.final r) fid /\
          (forall j, j <> fid ->
             InteractionBindingLogic.getResponsesForFracture (Js.final r) j =
             InteractionBindingLogic.getResponsesForFracture t j)).
  { intros Hpresent r old. subst r. rewrite final_run.
    assert (H1 : InteractionBindingLogic.getResponsesForFracture
                   (InteractionBindingLogic.mkLogic
                      (MemoryGraphStore.mkStore
                         (Graphlib.setEdge fid (fold_id f) (MemoryGraphStore.linkOfFold fid f)
                            (MemoryGraphStore.graph
                               (MemoryGraphStore.storedFold f
                                  (InteractionBindingLogic.memoryGraph t))))
                         (MemoryGraphStore.nodes
                            (MemoryGraphStore.storedFold f
                               (InteractionBindingLogic.memoryGraph t)))
                         (Js.oset (MemoryGraphStore.edgeId (MemoryGraphStore.linkOfFold fid f))
                            (MemoryGraphStore.linkOfFold fid f)
                            (MemoryGraphStore.edges
                               (MemoryGraphStore.storedFold f
                                  (InteractionBindingLogic.memoryGraph t)))))
                      (InteractionBindingLogic.bindInto now (fold_id f) fid
                         (InteractionBindingLogic.pendingBindings t))
                      (InteractionBindingLogic.selectedResponses t)) fid =
                 (if existsb (String.eqb (fold_id f)) old then old else old ++ [fold_id f])).
    { apply (getResponses_bound now (fold_id f) fid _
               (InteractionBindingLogic.pendingBindings t)
               (InteractionBindingLogic.selectedResponses t)). }
    split; [exact H1|]. split.
    - rewrite processFold_run, Hfid, Htr.
      cbn [InteractionBindingLogic.memoryGraph InteractionBindingLogic.pendingBindings
             InteractionBindingLogic.selectedResponses].
      match goal with
      | |- context [if Graphlib.hasNode ?g fid then _ else _] =>
          assert (Hh : Graphlib.hasNode g fid = true)
      end.
      { unfold MemoryGraphStore.storedFold at 1; cbn [MemoryGraphStore.graph].
        rewrite hasNode_setNode. destruct (decide (fid = fold_id f)); [reflexivity|].
        assert (Hs : Graphlib.hasNode
                       (MemoryGraphStore.graph
                          (MemoryGraphStore.storedFold f (InteractionBindingLogic.memoryGraph t)))
                       fid = true).
        { rewrite (hasNode_stored f fid Hc). destruct (decide _); [reflexivity|exact Hpresent]. }
        assert (Ht : Graphlib.hasNode
                       (MemoryGraphStore.graph
                          (MemoryGraphStore.storedFold f (InteractionBindingLogic.memoryGraph t)))
                       (fold_id f) = true).
        { rewrite (hasNode_stored f (fold_id f) Hc). now destruct (decide _). }
        rewrite hasNode_setEdge by assumption. exact Hs. }
      rewrite Hh, final_run.
      rewrite (getResponses_bound now' (fold_id f) fid _ _
                 (InteractionBindingLogic.selectedResponses t)).
      cbv zeta.
      erewrite (getResponses_bound now (fold_id f) fid _
                  (InteractionBindingLogic.pendingBindings t)
                  (InteractionBindingLogic.selectedResponses t)).
      cbv zeta. now rewrite existsb_after_push.
    - intros j Hj. unfold InteractionBindingLogic.getResponsesForFracture;
        cbn [InteractionBindingLogic.pendingBindings]. now rewrite bound_other. }
  destruct (decide (fid = fold_id f)) as [Heq|Hne].
  - destruct (Hcase eq_refl) as (Ha & Hb & Hd). rewrite outcome_run, emitted_run. split.
    + intros _. cbv zeta. split; [reflexivity|]. split; [reflexivity|]. auto.
    + intros _ Hne. contradiction.
  - destruct (Js.ohas fid (MemoryGraphStore.nodes (InteractionBindingLogic.memoryGraph t)))
      eqn:Hhas.
    + destruct (Hcase eq_refl) as (Ha & Hb & Hd). rewrite outcome_run, emitted_run. split.
      * intros _. cbv zeta. split; [reflexivity|]. split; [reflexivity|]. auto.
      * intros Hnone _. apply getNode_None_ohas in Hnone. congruence.
    + rewrite outcome_run, emitted_run, final_run. split.
      * intros [Hsome|Heq]; [|contradiction]. exfalso. apply Hsome.
        now apply getNode_None_ohas.
      * intros _ _. repeat split.
Qed.

Lemma processFold_binds_or_defers_witness :
  let r := InteractionBindingLogic.processFold 400%Z Scenarios.joyfulFold
             (InteractionBindingLogic.create Scenarios.storeOne) in
  Js.outcome r = Js.Returned tt /\
  Js.emitted r = [InteractionBindingLogic.fold_binding "reaction-2" "stimulus-1" 400%Z] /\
  InteractionBindingLogic.getResponsesForFracture (Js.final r) "stimulus-1" = ["reaction-2"].
Proof.
  destruct (@processFold_binds_or_defers 400%Z 401%Z Scenarios.joyfulFold
              (InteractionBindingLogic.create Scenarios.storeOne)) as [_ H].
  - apply consistent_addNode, consistent_empty.
  - destruct (H "stimulus-1" eq_refl eq_refl) as [Hb _].
    destruct Hb as (Ho & He & Hr & _); [left; discriminate|].
    split; [exact Ho|]. split; [exact He|exact Hr].
Defined.

Section SelectionFacts.
Import InteractionBindingLogic.

Lemma processFold_keeps_node (now : Z) (f : RecursionFold) (t : Logic) :
  MemoryGraphStore.getNode (memoryGraph (Js.final (processFold now f t))) (fold_id f) =
  Some (MemoryGraphStore.nodeOfFold f).
Proof.
  rewrite processFold_run.
  destruct (fold_fractureEventId f) as [fid|];
    [destruct (Js.truthyString fid);
     [destruct (Graphlib.hasNode _ fid)|]|];
    rewrite final_run; cbn [memoryGraph];
    unfold MemoryGraphStore.getNode, MemoryGraphStore.storedFold; cbn [MemoryGraphStore.nodes];
    apply oget_oset_eq.
Qed.

Lemma fractureOf_nodeOfFold (f : RecursionFold) :
  (forall meta, fold_metadata f = Some meta -> Js.oget "fractureEventId" meta = None) ->
  fractureOf (MemoryGraphStore.nodeOfFold f) = None.
Proof.
  intros Hmeta. unfold fractureOf, MemoryGraphStore.nodeOfFold; cbn [node_metadata].
  unfold spreadOpt. destruct (fold_metadata f) as [meta|]; [|reflexivity].
  apply oget_spread_absent; [reflexivity|now apply Hmeta].
Qed.

End SelectionFacts.

(** X16. [selectResponse] reads the stimulus of a reaction from the
    metadata of its node, where [addFold] does not put it: on a reaction
    that [processFold] has handled, whether it was bound to its stimulus or
    not, [selectResponse] returns without emitting anything and leaves the
    binding logic exactly as it was, unless the reaction carried
    [fractureEventId] in its own metadata. No binding becomes resolved and
    no response becomes the selected one. *)
Theorem selectResponse_ignores_processed_reactions
    (now now' : Z) (f : RecursionFold) (t : InteractionBindingLogic.Logic) :
  (forall meta, fold_metadata f = Some meta -> Js.oget "fractureEventId" meta = None) ->
  let t1 := Js.final (InteractionBindingLogic.processFold now f t) in
  InteractionBindingLogic.selectResponse now' (fold_id f) t1 = (Js.Returned tt, t1, []) /\
  InteractionBindingLogic.getResolvedBindings
    (Js.final (InteractionBindingLogic.selectResponse now' (fold_id f) t1)) =
    InteractionBindingLogic.getResolvedBindings t1 /\
  forall fid,
    InteractionBindingLogic.getSelectedResponse
      (Js.final (InteractionBindingLogic.selectResponse now' (fold_id f) t1)) fid =
    InteractionBindingLogic.getSelectedResponse t1 fid.
Proof.
  intros Hmeta t1.
  assert (Hrun : InteractionBindingLogic.selectResponse now' (fold_id f) t1
                 = (Js.Returned tt, t1, [])).
  { unfold InteractionBindingLogic.selectResponse.
    erewrite bind_returned by reflexivity.
    unfold t1. rewrite processFold_keeps_node.
    cbn [MemoryGraphStore.nodeOfFold node_type NodeType_eqb negb].
    change (mkNode (fold_id f) fold (fold_content f) (fold_timestamp f) _)
      with (MemoryGraphStore.nodeOfFold f).
    rewrite (fractureOf_nodeOfFold f Hmeta). reflexivity. }
  rewrite Hrun. auto.
Qed.

Lemma selectResponse_ignores_processed_reactions_witness :
  let t1 := Js.final (InteractionBindingLogic.processFold 400%Z Scenarios.joyfulFold
                        (InteractionBindingLogic.create Scenarios.storeOne)) in
  InteractionBindingLogic.selectResponse 500%Z "reaction-2" t1 = (Js.Returned tt, t1, []) /\
  InteractionBindingLogic.getResolvedBindings
    (Js.final (InteractionBindingLogic.selectResponse 500%Z "reaction-2" t1)) =
    InteractionBindingLogic.getResolvedBindings t1 /\
  forall fid,
    InteractionBindingLogic.getSelectedResponse
      (Js.final (InteractionBindingLogic.selectResponse 500%Z "reaction-2" t1)) fid =
    InteractionBindingLogic.getSelectedResponse t1 fid.
Proof.
  apply (@selectResponse_ignores_processed_reactions 400%Z 500%Z Scenarios.joyfulFold
           (InteractionBindingLogic.create Scenarios.storeOne)).
  intros meta Hmeta. discriminate.
Defined.

Section SelectionRuns.
Import InteractionBindingLogic.

Lemma in_ovalues {K V : Type} `{EqDecision K} (k : K) (v : V) (m : list (K * V)) :
  Js.oget k m = Some v -> In v (Js.ovalues m).
Proof. intros Hg. apply oget_Some_in in Hg. apply (in_map snd _ _ Hg). Qed.

Lemma selectResponse_run (now : Z) (foldId fid : string) (t : Logic) (n : MemoryNode)
    (b : BindingState) :
  MemoryGraphStore.getNode (memoryGraph t) foldId = Some n ->
  node_type n = fold ->
  fractureOf n = Some (MStr fid) -> Js.truthyString fid = true ->
  Js.oget fid (pendingBindings t) = Some b ->
  Graphlib.hasNode (MemoryGraphStore.graph (memoryGraph t)) fid = true ->
  Graphlib.hasNode (MemoryGraphStore.graph (memoryGraph t)) foldId = true ->
  let e := mkEdge fid foldId causality 1.0
             (Some [("selected", MBool true); ("selectionTimestamp", MInt now)]) in
  selectResponse now foldId t =
  (Js.Returned tt,
   mkLogic
     (MemoryGraphStore.mkStore
        (Graphlib.setEdge fid foldId e (MemoryGraphStore.graph (memoryGraph t)))
        (MemoryGraphStore.nodes (memoryGraph t))
        (Js.oset (MemoryGraphStore.edgeId e) e (MemoryGraphStore.edges (memoryGraph t))))
     (Js.oupdate fid (resolve foldId) (pendingBindings t))
     (Js.oset fid foldId (selectedResponses t)),
   [response_selection foldId fid now]).
Proof.
  intros Hn Hty Hfr Htr Hb Hs Ht e.
  unfold selectResponse. erewrite bind_returned by reflexivity.
  rewrite Hn, Hty, Hfr. cbn [NodeType_eqb negb truthy]. rewrite Htr, Hb. cbn [negb].
  erewrite bind_returned by reflexivity.
  erewrite bind_returned by reflexivity.
  rewrite !final_run, !outcome_run, !emitted_run.
  fold e.
  erewrite bind_returned.
  2: { rewrite notice_addEdge_run. cbn [source target e memoryGraph setPending].
       rewrite Hs, Ht. reflexivity. }
  reflexivity.
Qed.

End SelectionRuns.

(** X17. When the node of a reaction does carry the id of its stimulus in
    its metadata, the stimulus has a binding record and both are nodes of
    the graph, [selectResponse] returns and emits [response_selection]; the
    record of the stimulus is then resolved with the reaction as the
    selected one and is listed among the resolved bindings, its list of
    reactions is untouched, [getSelectedResponse] gives the reaction, the
    records of the other stimuli are as before, and the lookup by pair of
    nodes returns the edge from the stimulus to the reaction that is marked
    as selected. *)
Theorem selectResponse_resolves_binding
    (now : Z) (foldId fid : string) (t : InteractionBindingLogic.Logic) (n : MemoryNode)
    (b : InteractionBindingLogic.BindingState) :
  MemoryGraphStore.getNode (InteractionBindingLogic.memoryGraph t) foldId = Some n ->
  node_type n = fold ->
  InteractionBindingLogic.fractureOf n = Some (MStr fid) -> Js.truthyString fid = true ->
  Js.oget fid (InteractionBindingLogic.pendingBindings t) = Some b ->
  Graphlib.hasNode (MemoryGraphStore.graph (InteractionBindingLogic.memoryGraph t)) fid = true ->
  Graphlib.hasNode (MemoryGraphStore.graph (InteractionBindingLogic.memoryGraph t)) foldId = true ->
  let r := InteractionBindingLogic.selectResponse now foldId t in
  Js.outcome r = Js.Returned tt /\
  Js.emitted r = [InteractionBindingLogic.response_selection foldId fid now] /\
  Js.oget fid (InteractionBindingLogic.pendingBindings (Js.final r)) =
    Some (InteractionBindingLogic.mkBinding
            (InteractionBindingLogic.fractureId b) (InteractionBindingLogic.boundFoldIds b)
            (Some foldId) (InteractionBindingLogic.timestamp b)
            InteractionBindingLogic.resolved) /\
  In (InteractionBindingLogic.resolve foldId b)
     (InteractionBindingLogic.getResolvedBindings (Js.final r)) /\
  InteractionBindingLogic.getResponsesForFracture (Js.final r) fid =
    InteractionBindingLogic.getResponsesForFracture t fid /\
  (Js.truthyString foldId = true ->
     InteractionBindingLogic.getSelectedResponse (Js.final r) fid = Some foldId) /\
  (forall j, j <> fid ->
     Js.oget j (InteractionBindingLogic.pendingBindings (Js.final r)) =
     Js.oget j (InteractionBindingLogic.pendingBindings t)) /\
  MemoryGraphStore.getEdgesBetween (InteractionBindingLogic.memoryGraph (Js.final r)) fid foldId =
    [mkEdge fid foldId causality 1.0
       (Some [("selected", MBool true); ("selectionTimestamp", MInt now)])].
Proof.
  intros Hn Hty Hfr Htr Hb Hs Ht r. subst r.
  rewrite (selectResponse_run now foldId t Hn Hty Hfr Htr Hb Hs Ht).
  rewrite outcome_run, emitted_run, !final_run.
  unfold InteractionBindingLogic.getResolvedBindings,
    InteractionBindingLogic.getResponsesForFracture, InteractionBindingLogic.getSelectedResponse;
    cbn [InteractionBindingLogic.pendingBindings InteractionBindingLogic.selectedResponses
           InteractionBindingLogic.memoryGraph].
  assert (Hres : Js.oget fid (Js.oupdate fid (InteractionBindingLogic.resolve foldId)
                                (InteractionBindingLogic.pendingBindings t)) =
                 Some (InteractionBindingLogic.resolve foldId b)).
  { rewrite oget_oupdate_eq, Hb. reflexivity. }
  split; [reflexivity|]. split; [reflexivity|]. split; [exact Hres|].
  split; [|split; [|split; [|split]]].
  - apply filter_In. split; [|reflexivity]. eapply in_ovalues. exact Hres.
  - rewrite Hres, Hb. reflexivity.
  - intros Hfold. rewrite oget_oset_eq, Hfold. reflexivity.
  - intros j Hj. now apply oget_oupdate_ne.
  - unfold MemoryGraphStore.getEdgesBetween, Graphlib.edge; cbn [MemoryGraphStore.graph].
    unfold Graphlib.setEdge; cbn [Graphlib.g_edges]. now rewrite oget_oset_eq.
Qed.

Lemma selectResponse_resolves_binding_witness :
  let r := InteractionBindingLogic.selectResponse 500%Z "reaction-3" Scenarios.logicTagged in
  let b := InteractionBindingLogic.mkBinding "stimulus-1" ["reaction-3"] None 350%Z
             InteractionBindingLogic.pending in
  Js.outcome r = Js.Returned tt /\
  Js.emitted r = [InteractionBindingLogic.response_selection "reaction-3" "stimulus-1" 500%Z] /\
  Js.oget "stimulus-1" (InteractionBindingLogic.pendingBindings (Js.final r)) =
    Some (InteractionBindingLogic.mkBinding "stimulus-1" ["reaction-3"]
            (Some "reaction-3") 350%Z InteractionBindingLogic.resolved) /\
  In (InteractionBindingLogic.resolve "reaction-3" b)
     (InteractionBindingLogic.getResolvedBindings (Js.final r)) /\
  InteractionBindingLogic.getResponsesForFracture (Js.final r) "stimulus-1" =
    InteractionBindingLogic.getResponsesForFracture Scenarios.logicTagged "stimulus-1" /\
  (Js.truthyString "reaction-3" = true ->
     InteractionBindingLogic.getSelectedResponse (Js.final r) "stimulus-1" = Some "reaction-3") /\
  (forall j, j <> "stimulus-1" ->
     Js.oget j (InteractionBindingLogic.pendingBindings (Js.final r)) =
     Js.oget j (InteractionBindingLogic.pendingBindings Scenarios.logicTagged)) /\
  MemoryGraphStore.getEdgesBetween (InteractionBindingLogic.memoryGraph (Js.final r))
    "stimulus-1" "reaction-3" =
    [mkEdge "stimulus-1" "reaction-3" causality 1.0
       (Some [("selected", MBool true); ("selectionTimestamp", MInt 500%Z)])].
Proof.
  apply (@selectResponse_resolves_binding 500%Z "reaction-3" "stimulus-1" Scenarios.logicTagged
           (MemoryGraphStore.nodeOfFold Scenarios.taggedFold)
           (InteractionBindingLogic.mkBinding "stimulus-1" ["reaction-3"] None 350%Z
              InteractionBindingLogic.pending)); reflexivity.
Defined.

Section ReverseFacts.
Import InteractionBindingLogic.

Lemma relabel_bindFoldToFracture (now : Z) (foldId fractureId : string) (t : Logic) :
  relabel (bindFoldToFracture now foldId fractureId) t =
  (Js.Returned tt,
   mkLogic (memoryGraph t) (bindInto now foldId fractureId (pendingBindings t))
     (selectedResponses t),
   [earlier (fold_binding foldId fractureId now)]).
Proof. unfold relabel. rewrite bindFoldToFracture_run. reflexivity. Qed.

Lemma forkAtNode_run {E : Type} (uuid : string) (now : Z) (nodeId : string)
    (st : MemoryGraphStore.Store) (original : MemoryNode) :
  MemoryGraphStore.consistent st ->
  MemoryGraphStore.getNode st nodeId = Some original ->
  let forked :=
    mkNode uuid (node_type original) (node_content original) now
      (Some (spread (match node_metadata original with Some m => m | None => [] end)
                    [("forkedFrom", MStr nodeId)])) in
  let e := mkEdge nodeId uuid divergence 0.5 None in
  MemoryGraphStore.forkAtNode (E:=E) uuid now nodeId st =
  (Js.Returned uuid,
   MemoryGraphStore.mkStore
     (Graphlib.setEdge nodeId uuid e
        (Graphlib.setNode uuid forked (MemoryGraphStore.graph st)))
     (Js.oset uuid forked (MemoryGraphStore.nodes st))
     (Js.oset (MemoryGraphStore.edgeId e) e (MemoryGraphStore.edges st)),
   []).
Proof.
  intros Hc Hget forked e. unfold MemoryGraphStore.forkAtNode.
  erewrite bind_returned by reflexivity. rewrite Hget. fold forked.
  erewrite bind_returned by apply addNode_run.
  change (node_id forked) with uuid.
  unfold MemoryGraphStore.createDivergence. fold e.
  erewrite bind_returned.
  2: { apply addEdge_success; cbn [MemoryGraphStore.graph source target e];
       rewrite hasNode_setNode; destruct (decide _); try reflexivity; try congruence.
       eapply hasNode_of_getNode; eauto. }
  reflexivity.
Qed.

End ReverseFacts.

(** X18. [createReverseBinding] stores a stimulus of the system under the
    generated id, with the given content and the id of the reaction in its
    metadata, and lists the reaction as the one response to it, before it
    links the two. When the reaction is a node of the graph the call returns
    the id of the stimulus, emits [fold_binding] and then [reverse_binding],
    and the lookup by pair of nodes finds the edge from the reaction to the
    stimulus. When the reaction is not a node of the graph the call throws
    the missing-endpoint error after [fold_binding] was emitted, and the
    stimulus and its list with the unknown reaction stay behind. *)
Theorem createReverseBinding_lists_then_links
    (uuid : string) (now : Z) (foldId content : string) (t : InteractionBindingLogic.Logic) :
  Js.oget uuid (InteractionBindingLogic.pendingBindings t) = None ->
  let r := InteractionBindingLogic.createReverseBinding uuid now foldId content t in
  let store := InteractionBindingLogic.memoryGraph t in
  MemoryGraphStore.getNode (InteractionBindingLogic.memoryGraph (Js.final r)) uuid =
    Some (mkNode uuid fracture content now (Some [("reverseBindingFoldId", MStr foldId)])) /\
  InteractionBindingLogic.getResponsesForFracture (Js.final r) uuid = [foldId] /\
  (Graphlib.hasNode (MemoryGraphStore.graph store) foldId = true \/ foldId = uuid ->
     Js.outcome r = Js.Returned uuid /\
     Js.emitted r =
       [InteractionBindingLogic.earlier (InteractionBindingLogic.fold_binding foldId uuid now);
        InteractionBindingLogic.reverse_binding foldId uuid now] /\
     MemoryGraphStore.getEdgesBetween (InteractionBindingLogic.memoryGraph (Js.final r))
       foldId uuid =
       [mkEdge foldId uuid causality 1.0
          (Some [("reverseBinding", MBool true); ("bindingTimestamp", MInt now)])]) /\
  (Graphlib.hasNode (MemoryGraphStore.graph store) foldId = false -> foldId <> uuid ->
     Js.outcome r = Js.Threw Js.MissingEndpoint /\
     Js.emitted r =
       [InteractionBindingLogic.earlier (InteractionBindingLogic.fold_binding foldId uuid now)]).
Proof.
  intros Hfresh r store. subst r. unfold InteractionBindingLogic.createReverseBinding.
  cbn [fr_id].
  erewrite bind_returned
    by (unfold InteractionBindingLogic.onStore, zoom, MemoryGraphStore.addFracture;
        rewrite addNode_run; reflexivity).
  rewrite outcome_run, final_run, emitted_run.
  cbn [fr_id fr_content fr_timestamp fr_metadata node_id].
  set (node := mkNode uuid fracture content now _).
  set (t1 := InteractionBindingLogic.mkLogic _ _ _).
  erewrite bind_returned by apply relabel_bindFoldToFracture.
  rewrite outcome_run, final_run, emitted_run.
  set (t2 := InteractionBindingLogic.mkLogic _ _ _).
  set (e := mkEdge foldId uuid causality 1.0 _).
  assert (Hnode : forall g2,
            MemoryGraphStore.nodes g2 = MemoryGraphStore.nodes (InteractionBindingLogic.memoryGraph t2) ->
            MemoryGraphStore.getNode g2 uuid = Some node).
  { intros g2 Hg2. unfold MemoryGraphStore.getNode. rewrite Hg2.
    unfold t2, t1; cbn [InteractionBindingLogic.memoryGraph MemoryGraphStore.nodes].
    apply oget_oset_eq. }
  assert (Hlist : forall g2 sel,
            InteractionBindingLogic.getResponsesForFracture
              (InteractionBindingLogic.mkLogic g2
                 (InteractionBindingLogic.pendingBindings t2) sel) uuid = [foldId]).
  { intros g2 sel. unfold t2; cbn [InteractionBindingLogic.pendingBindings].
    unfold t1; cbn [InteractionBindingLogic.pendingBindings].
    rewrite (getResponses_bound now foldId uuid g2
               (InteractionBindingLogic.pendingBindings t) sel).
    unfold InteractionBindingLogic.getResponsesForFracture;
      cbn [InteractionBindingLogic.pendingBindings]. rewrite Hfresh. reflexivity. }
  pose proof (notice_addEdge_run e t2) as Hrun. cbn [source target e] in Hrun.
  assert (Htgt : Graphlib.hasNode
                   (MemoryGraphStore.graph (InteractionBindingLogic.memoryGraph t2)) uuid = true).
  { unfold t2, t1; cbn [InteractionBindingLogic.memoryGraph MemoryGraphStore.graph].
    rewrite hasNode_setNode. now destruct (decide _). }
  assert (Hsrc : Graphlib.hasNode
                   (MemoryGraphStore.graph (InteractionBindingLogic.memoryGraph t2)) foldId =
                 (if decide (foldId = uuid) then true
                  else Graphlib.hasNode (MemoryGraphStore.graph store) foldId)).
  { unfold t2, t1; cbn [InteractionBindingLogic.memoryGraph MemoryGraphStore.graph].
    now rewrite hasNode_setNode. }
  rewrite Htgt, Hsrc in Hrun. cbn [negb] in Hrun. rewrite orb_false_r in Hrun.
  destruct (decide (foldId = uuid)) as [Heq|Hne];
    [|destruct (Graphlib.hasNode (MemoryGraphStore.graph store) foldId) eqn:Hhas];
    cbn [negb] in Hrun.
  - erewrite bind_returned by exact Hrun.
    cbn [app Js.bind Js.emit Js.ret Js.outcome Js.final Js.emitted fst snd].
    split; [apply Hnode; reflexivity|]. split; [apply Hlist|].
    split; [|intros _ Hne; contradiction].
    intros _. split; [reflexivity|]. split; [reflexivity|].
    unfold MemoryGraphStore.getEdgesBetween, Graphlib.edge;
      cbn [InteractionBindingLogic.memoryGraph MemoryGraphStore.graph].
    unfold Graphlib.setEdge at 1; cbn [Graphlib.g_edges]. now rewrite oget_oset_eq.
  - erewrite bind_returned by exact Hrun.
    cbn [app Js.bind Js.emit Js.ret Js.outcome Js.final Js.emitted fst snd].
    split; [apply Hnode; reflexivity|]. split; [apply Hlist|].
    split; [|intros Hfalse; discriminate].
    intros _. split; [reflexivity|]. split; [reflexivity|].
    unfold MemoryGraphStore.getEdgesBetween, Graphlib.edge;
      cbn [InteractionBindingLogic.memoryGraph MemoryGraphStore.graph].
    unfold Graphlib.setEdge at 1; cbn [Graphlib.g_edges]. now rewrite oget_oset_eq.
  - erewrite bind_threw by exact Hrun.
    cbn [app Js.outcome Js.final Js.emitted fst snd].
    split; [apply Hnode; reflexivity|]. split; [apply Hlist|].
    split; [intros [Hfalse|Heq]; [discriminate|contradiction]|].
    intros _ _. split; reflexivity.
Qed.

Lemma createReverseBinding_lists_then_links_witness :
  let r := InteractionBindingLogic.createReverseBinding "stimulus-9" 900%Z "reaction-3"
             "What did you mean?" Scenarios.logicTagged in
  let store := InteractionBindingLogic.memoryGraph Scenarios.logicTagged in
  MemoryGraphStore.getNode (InteractionBindingLogic.memoryGraph (Js.final r)) "stimulus-9" =
    Some (mkNode "stimulus-9" fracture "What did you mean?" 900%Z
            (Some [("reverseBindingFoldId", MStr "reaction-3")])) /\
  InteractionBindingLogic.getResponsesForFracture (Js.final r) "stimulus-9" = ["reaction-3"] /\
  (Graphlib.hasNode (MemoryGraphStore.graph store) "reaction-3" = true \/
   "reaction-3" = "stimulus-9" ->
     Js.outcome r = Js.Returned "stimulus-9" /\
     Js.emitted r =
       [InteractionBindingLogic.earlier
          (InteractionBindingLogic.fold_binding "reaction-3" "stimulus-9" 900%Z);
        InteractionBindingLogic.reverse_binding "reaction-3" "stimulus-9" 900%Z] /\
     MemoryGraphStore.getEdgesBetween (InteractionBindingLogic.memoryGraph (Js.final r))
       "reaction-3" "stimulus-9" =
       [mkEdge "reaction-3" "stimulus-9" causality 1.0
          (Some [("reverseBinding", MBool true); ("bindingTimestamp", MInt 900%Z)])]) /\
  (Graphlib.hasNode (MemoryGraphStore.graph store) "reaction-3" = false ->
   "reaction-3" <> "stimulus-9" ->
     Js.outcome r = Js.Threw Js.MissingEndpoint /\
     Js.emitted r =
       [InteractionBindingLogic.earlier
          (InteractionBindingLogic.fold_binding "reaction-3" "stimulus-9" 900%Z)]).
Proof.
  apply (@createReverseBinding_lists_then_links "stimulus-9" 900%Z "reaction-3"
           "What did you mean?" Scenarios.logicTagged).
  reflexivity.
Defined.

(** X19. [forkFracture] on a stimulus that the store does not know throws
    the cannot-fork error, emits nothing and leaves store, binding records
    and selections as they were. On a stored stimulus it returns the
    generated id and emits [fracture_fork]; the copy gets a pending binding
    record of its own with no reaction in it, whatever reactions the
    original has, and the reactions of the original are as before. *)
Theorem forkFracture_starts_empty
    (uuid : string) (now : Z) (fid : string) (t : InteractionBindingLogic.Logic) :
  MemoryGraphStore.consistent (InteractionBindingLogic.memoryGraph t) ->
  let r := InteractionBindingLogic.forkFracture uuid now fid t in
  match MemoryGraphStore.getNode (InteractionBindingLogic.memoryGraph t) fid with
  | None =>
      Js.outcome r = Js.Threw (Js.CannotFork fid) /\ Js.emitted r = [] /\
      InteractionBindingLogic.memoryGraph (Js.final r) = InteractionBindingLogic.memoryGraph t /\
      InteractionBindingLogic.pendingBindings (Js.final r) =
        InteractionBindingLogic.pendingBindings t /\
      InteractionBindingLogic.selectedResponses (Js.final r) =
        InteractionBindingLogic.selectedResponses t
  | Some original =>
      Js.outcome r = Js.Returned uuid /\
      Js.emitted r = [InteractionBindingLogic.fracture_fork fid uuid now] /\
      Js.oget uuid (InteractionBindingLogic.pendingBindings (Js.final r)) =
        Some (InteractionBindingLogic.mkBinding uuid [] None now
                InteractionBindingLogic.pending) /\
      InteractionBindingLogic.getResponsesForFracture (Js.final r) uuid = [] /\
      (uuid <> fid ->
         InteractionBindingLogic.getResponsesForFracture (Js.final r) fid =
         InteractionBindingLogic.getResponsesForFracture t fid) /\
      (exists copy,
         MemoryGraphStore.getNode (InteractionBindingLogic.memoryGraph (Js.final r)) uuid
           = Some copy /\
         node_type copy = node_type original /\ node_content copy = node_content original)
  end.
Proof.
  intros Hc r. subst r. unfold InteractionBindingLogic.forkFracture.
  destruct (MemoryGraphStore.getNode (InteractionBindingLogic.memoryGraph t) fid)
    as [original|] eqn:Hget.
  - erewrite bind_returned.
    2: { unfold InteractionBindingLogic.onStore, zoom.
         rewrite (@forkAtNode_run InteractionBindingLogic.Notice uuid now fid _ original Hc Hget).
         reflexivity. }
    cbn [app Js.bind Js.modify Js.emit Js.ret Js.outcome Js.final Js.emitted fst snd].
    unfold InteractionBindingLogic.getResponsesForFracture, InteractionBindingLogic.setPending;
      cbn [InteractionBindingLogic.pendingBindings InteractionBindingLogic.memoryGraph].
    split; [reflexivity|]. split; [reflexivity|].
    split; [apply oget_oset_eq|]. split; [now rewrite oget_oset_eq|].
    split; [intros Hne; rewrite oget_oset_ne by congruence; reflexivity|].
    eexists. split; [unfold MemoryGraphStore.getNode; cbn [MemoryGraphStore.nodes];
                     apply oget_oset_eq|].
    split; reflexivity.
  - erewrite bind_threw.
    2: { unfold InteractionBindingLogic.onStore, zoom, MemoryGraphStore.forkAtNode.
         erewrite bind_returned by reflexivity. rewrite Hget. reflexivity. }
    cbn [Js.outcome Js.final Js.emitted fst snd
           InteractionBindingLogic.memoryGraph InteractionBindingLogic.pendingBindings
           InteractionBindingLogic.selectedResponses].
    repeat split.
Qed.

Lemma forkFracture_starts_empty_witness :
  let r := InteractionBindingLogic.forkFracture "stimulus-1b" 600%Z "stimulus-1"
             (InteractionBindingLogic.create Scenarios.storeOne) in
  Js.outcome r = Js.Returned "stimulus-1b" /\
  Js.emitted r = [InteractionBindingLogic.fracture_fork "stimulus-1" "stimulus-1b" 600%Z] /\
  InteractionBindingLogic.getResponsesForFracture (Js.final r) "stimulus-1b" = [].
Proof.
  pose proof (@forkFracture_starts_empty "stimulus-1b" 600%Z "stimulus-1"
                (InteractionBindingLogic.create Scenarios.storeOne)) as H.
  cbv zeta in H.
  change (MemoryGraphStore.getNode
            (InteractionBindingLogic.memoryGraph
               (InteractionBindingLogic.create Scenarios.storeOne)) "stimulus-1")
    with (Some (mkNode "stimulus-1" fracture "What happened to Elena?" 1000%Z None)) in H.
  destruct H as (Ho & He & _ & Hr & _).
  - apply consistent_addNode, consistent_empty.
  - split; [exact Ho|]. split; [exact He|exact Hr].
Defined.

(** X20. [processBoundInteraction] does nothing when the echo or the
    stimulus is not a node of the store. Otherwise it appends the id of the
    echo to the reactions of the stimulus every time it is called, without
    looking whether the id is listed already, creating the binding record
    when there is none: called twice with the same binding, as the two
    listeners of the runtime do for every ['binding'] event, it lists the
    echo twice. *)
Theorem processBoundInteraction_appends_every_time
    (now now' : Z) (premonitionId fractureId : string) (t : InteractionBindingLogic.Logic) :
  let r1 := InteractionBindingLogic.processBoundInteraction now premonitionId fractureId t in
  let r2 := InteractionBindingLogic.processBoundInteraction now' premonitionId fractureId
              (Js.final r1) in
  let known i := MemoryGraphStore.getNode (InteractionBindingLogic.memoryGraph t) i in
  (known premonitionId = None \/ known fractureId = None -> r1 = (Js.Returned tt, t, [])) /\
  (known premonitionId <> None -> known fractureId <> None ->
     Js.outcome r1 = Js.Returned tt /\
     Js.emitted r1 =
       [InteractionBindingLogic.premonition_binding premonitionId fractureId now] /\
     InteractionBindingLogic.getResponsesForFracture (Js.final r1) fractureId =
       InteractionBindingLogic.getResponsesForFracture t fractureId ++ [premonitionId] /\
     Js.emitted r2 =
       [InteractionBindingLogic.premonition_binding premonitionId fractureId now'] /\
     InteractionBindingLogic.getResponsesForFracture (Js.final r2) fractureId =
       InteractionBindingLogic.getResponsesForFracture t fractureId
       ++ [premonitionId; premonitionId]).
Proof.
  intros r1 r2 known. subst r1 r2 known. cbv beta.
  assert (Hrun : forall n t0,
            MemoryGraphStore.getNode (InteractionBindingLogic.memoryGraph t0) premonitionId <> None ->
            MemoryGraphStore.getNode (InteractionBindingLogic.memoryGraph t0) fractureId <> None ->
            let r := InteractionBindingLogic.processBoundInteraction n premonitionId fractureId t0 in
            Js.outcome r = Js.Returned tt /\
            Js.emitted r = [InteractionBindingLogic.premonition_binding premonitionId fractureId n] /\
            InteractionBindingLogic.memoryGraph (Js.final r) = InteractionBindingLogic.memoryGraph t0 /\
            InteractionBindingLogic.getResponsesForFracture (Js.final r) fractureId =
              InteractionBindingLogic.getResponsesForFracture t0 fractureId ++ [premonitionId]).
  { intros n t0 Hp Hf r. subst r. unfold InteractionBindingLogic.processBoundInteraction.
    erewrite bind_returned by reflexivity.
    destruct (MemoryGraphStore.getNode (InteractionBindingLogic.memoryGraph t0) premonitionId);
      [|congruence].
    destruct (MemoryGraphStore.getNode (InteractionBindingLogic.memoryGraph t0) fractureId);
      [|congruence].
    unfold InteractionBindingLogic.getResponsesForFracture, Js.ohas.
    destruct (Js.oget fractureId (InteractionBindingLogic.pendingBindings t0)) as [b|] eqn:Hb;
      cbn [app Js.bind Js.modify Js.emit Js.ret Js.outcome Js.final Js.emitted fst snd
             InteractionBindingLogic.setPending InteractionBindingLogic.pendingBindings
             InteractionBindingLogic.memoryGraph].
    - rewrite oget_oupdate_eq, Hb. repeat split.
    - rewrite oget_oupdate_eq, oget_oset_eq. repeat split. }
  split.
  - intros Hnone. unfold InteractionBindingLogic.processBoundInteraction.
    erewrite bind_returned by reflexivity.
    destruct (MemoryGraphStore.getNode (InteractionBindingLogic.memoryGraph t) premonitionId);
      [|reflexivity].
    destruct (MemoryGraphStore.getNode (InteractionBindingLogic.memoryGraph t) fractureId);
      [|reflexivity].
    destruct Hnone; discriminate.
  - intros Hp Hf. destruct (Hrun now t Hp Hf) as (Ho & He & Hg & Hr).
    split; [exact Ho|]. split; [exact He|]. split; [exact Hr|].
    destruct (Hrun now' _ ltac:(rewrite Hg; exact Hp) ltac:(rewrite Hg; exact Hf))
      as (_ & He2 & _ & Hr2).
    split; [exact He2|]. rewrite Hr2, Hr, <- app_assoc. reflexivity.
Qed.


(** ** The similarity of two texts *)
Section SimilarityFacts.

Lemma setHas_In (s : list string) (w : string) : Js.setHas s w = true <-> In w s.
Proof.
  unfold Js.setHas. rewrite existsb_exists. split.
  - intros (x & Hx & Heq). apply String.eqb_eq in Heq. now subst.
  - intros Hin. exists w. split; [exact Hin|apply String.eqb_refl].
Qed.

Lemma nodup_snoc {A} (x : A) (l : list A) :
  List.NoDup l -> ~ In x l -> List.NoDup (l ++ [x]).
Proof.
  induction l as [|y l IH]; intros Hnd Hx; simpl.
  - constructor; [intros []|constructor].
  - pose proof (proj1 (List.NoDup_cons_iff y l) Hnd) as [Hy Hnd'].
    constructor.
    + intros Hin. apply in_app_or in Hin. destruct Hin as [Hin|[<-|[]]]; [contradiction|].
      apply Hx. now left.
    + apply IH; [exact Hnd'|]. intros Hin. apply Hx. now right.
Qed.

Lemma newSet_spec (words : list string) : forall acc,
  List.NoDup acc ->
  List.NoDup (Js.newSet words acc) /\
  (forall w, In w (Js.newSet words acc) <-> In w acc \/ In w words) /\
  (length acc <= length (Js.newSet words acc))%nat.
Proof.
  induction words as [|x words IH]; intros acc Hnd; simpl.
  - split; [exact Hnd|]. split; [intuition|lia].
  - destruct (existsb (String.eqb x) acc) eqn:Hex.
    + destruct (IH acc Hnd) as (H1 & H2 & H3). split; [exact H1|]. split; [|exact H3].
      intros w. rewrite H2. apply (setHas_In acc x) in Hex. intuition; subst; auto.
    + assert (Hx : ~ In x acc).
      { intros Hin. apply (setHas_In acc x) in Hin. unfold Js.setHas in Hin. congruence. }
      assert (Hnd' : List.NoDup (acc ++ [x])).
      { now apply nodup_snoc. }
      destruct (IH (acc ++ [x]) Hnd') as (H1 & H2 & H3). split; [exact H1|]. split.
      * intros w. rewrite H2, in_app_iff. simpl. intuition.
      * rewrite length_app in H3. simpl in H3. lia.
Qed.

Lemma matchCount_filter (b : list string) (a : list string) : forall n,
  fold_left (fun n word => if Js.setHas b word then (n + 1)%Z else n) a n =
  (n + Z.of_nat (length (List.filter (Js.setHas b) a)))%Z.
Proof.
  induction a as [|x a IH]; intros n; simpl; [lia|].
  rewrite IH. destruct (Js.setHas b x); simpl; lia.
Qed.

Lemma common_length (a b : list string) :
  List.NoDup a -> List.NoDup b ->
  length (List.filter (Js.setHas b) a) = length (List.filter (Js.setHas a) b).
Proof.
  intros Ha Hb.
  assert (Hincl : forall x y : list string, incl (List.filter (Js.setHas y) x)
                                              (List.filter (Js.setHas x) y)).
  { intros x y w Hw. apply filter_In in Hw. destruct Hw as [Hx Hy].
    apply filter_In. split; [now apply setHas_In|now apply setHas_In]. }
  apply Nat.le_antisymm; apply List.NoDup_incl_length; auto;
    now apply List.NoDup_filter.
Qed.

Lemma splitSpaces_nonempty (s : string) : Js.splitSpaces s <> [].
Proof.
  unfold Js.splitSpaces. generalize "" as cur. generalize false as inRun.
  induction s as [|c s IH]; intros inRun cur; simpl; [discriminate|].
  destruct (Js.isSpace c); [destruct inRun|]; try apply IH; discriminate.
Qed.

Lemma newSet_nonempty (words : list string) :
  words <> [] -> (0 < length (Js.newSet words []))%nat.
Proof.
  destruct words as [|x words]; [congruence|]. intros _. simpl.
  destruct (newSet_spec words (acc:=[] ++ [x])) as (_ & _ & Hlen).
  - constructor; [intros []|constructor].
  - simpl in Hlen. lia.
Qed.

End SimilarityFacts.

(** X21. [calculateContentSimilarity], the measure that both the matcher
    and the binding logic use, is a similarity: its value lies between 0 and
    1, it does not depend on the order of the two texts, and a text compared
    with itself scores 1, the empty text included. *)
Theorem contentSimilarity_is_symmetric_and_bounded (text1 text2 : string) :
  0 <= calculateContentSimilarity text1 text2 /\
  calculateContentSimilarity text1 text2 <= 1 /\
  calculateContentSimilarity text1 text2 = calculateContentSimilarity text2 text1 /\
  calculateContentSimilarity text1 text1 == 1.
Proof.
  assert (Hgen : forall a b,
            let A := Js.newSet (Js.splitSpaces (Js.trim (Js.toLowerCase a))) [] in
            let B := Js.newSet (Js.splitSpaces (Js.trim (Js.toLowerCase b))) [] in
            let m := Z.of_nat (length (List.filter (Js.setHas B) A)) in
            let u := (Z.of_nat (length A) + Z.of_nat (length B) - m)%Z in
            calculateContentSimilarity a b = inject_Z m / inject_Z u /\
            (0 <= m)%Z /\ (m <= Z.of_nat (length A))%Z /\ (m <= Z.of_nat (length B))%Z /\
            (0 < Z.of_nat (length A))%Z /\ (0 < Z.of_nat (length B))%Z /\
            m = Z.of_nat (length (List.filter (Js.setHas A) B))).
  { intros a b A B m u.
    assert (HA : List.NoDup A) by (apply newSet_spec; constructor).
    assert (HB : List.NoDup B) by (apply newSet_spec; constructor).
    assert (HlA : (0 < length A)%nat) by (apply newSet_nonempty, splitSpaces_nonempty).
    assert (HlB : (0 < length B)%nat) by (apply newSet_nonempty, splitSpaces_nonempty).
    assert (Hm1 : (length (List.filter (Js.setHas B) A) <= length A)%nat)
      by apply List.filter_length_le.
    assert (Hm2 : (length (List.filter (Js.setHas B) A) <= length B)%nat).
    { rewrite (common_length HA HB). apply List.filter_length_le. }
    split; [|repeat split; try lia; unfold m; now rewrite (common_length HA HB)].
    unfold calculateContentSimilarity. fold A. fold B.
    rewrite matchCount_filter. rewrite Z.add_0_l. fold m. fold u.
    destruct (0 <? u)%Z eqn:Hu; [reflexivity|].
    apply Z.ltb_ge in Hu. unfold u, m in Hu. lia. }
  destruct (Hgen text1 text2) as (H12 & Hm0 & HmA & HmB & HA & HB & Hsym).
  destruct (Hgen text2 text1) as (H21 & _ & _ & _ & _ & _ & Hsym').
  destruct (Hgen text1 text1) as (H11 & _ & Hm11 & _ & HA1 & _ & _).
  cbv zeta in *.
  set (A := Js.newSet (Js.splitSpaces (Js.trim (Js.toLowerCase text1))) []) in *.
  set (B := Js.newSet (Js.splitSpaces (Js.trim (Js.toLowerCase text2))) []) in *.
  set (m := Z.of_nat (length (List.filter (Js.setHas B) A))) in *.
  assert (Hu : (0 < Z.of_nat (length A) + Z.of_nat (length B) - m)%Z) by lia.
  split; [|split; [|split]].
  - rewrite H12. apply Qle_shift_div_l.
    + change 0 with (inject_Z 0). now rewrite <- Zlt_Qlt.
    + rewrite Qmult_0_l. change 0 with (inject_Z 0). now rewrite <- Zle_Qle.
  - rewrite H12. apply Qle_shift_div_r.
    + change 0 with (inject_Z 0). now rewrite <- Zlt_Qlt.
    + rewrite Qmult_1_l. rewrite <- Zle_Qle. lia.
  - rewrite H12, H21. rewrite <- Hsym. fold m.
    replace (Z.of_nat (length B) + Z.of_nat (length A) - m)%Z
      with (Z.of_nat (length A) + Z.of_nat (length B) - m)%Z by lia.
    reflexivity.
  - rewrite H11.
    assert (Hall : List.filter (Js.setHas A) A = A).
    { apply List.forallb_filter_id. apply forallb_forall. intros x Hx. now apply setHas_In. }
    rewrite Hall.
    replace (Z.of_nat (length A) + Z.of_nat (length A) - Z.of_nat (length A))%Z
      with (Z.of_nat (length A)) by lia.
    field. intros H0. unfold Qeq in H0. simpl in H0. lia.
Qed.


(** ** One call of the matcher, echo by echo *)
Section AttemptFacts.
Import PremonitionMatcher.

Lemma threshold_turn (t t' : Matcher) (s : PremonitionState) :
  turnCounter t = turnCounter t' -> getBindingThreshold t s = getBindingThreshold t' s.
Proof. intros Ht. unfold getBindingThreshold. now rewrite Ht. Qed.

Lemma skipped_turn (t t' : Matcher) (s : PremonitionState) :
  turnCounter t = turnCounter t' -> skipped t s = skipped t' s.
Proof. intros Ht. unfold skipped. now rewrite Ht. Qed.

Lemma reaches_turn (t t' : Matcher) (fr : FractureEvent) (s : PremonitionState) :
  turnCounter t = turnCounter t' -> reaches t fr s = reaches t' fr s.
Proof. intros Ht. unfold reaches. now rewrite (@threshold_turn t t' _ Ht). Qed.

Lemma bindsTo_turn (t t' : Matcher) (fr : FractureEvent) (s : PremonitionState) :
  turnCounter t = turnCounter t' -> bindsTo t fr s = bindsTo t' fr s.
Proof.
  intros Ht. unfold bindsTo. now rewrite (@skipped_turn t t' s Ht), (@reaches_turn t t' fr s Ht).
Qed.

Lemma tried_turn (t t' : Matcher) (fr : FractureEvent) (s cur : PremonitionState) :
  turnCounter t = turnCounter t' -> tried t fr s cur = tried t' fr s cur.
Proof.
  intros Ht. unfold tried. now rewrite (@skipped_turn t t' s Ht), (@reaches_turn t t' fr s Ht).
Qed.

Lemma matcher_addEdge_run (edge : MemoryEdge) (t : Matcher) :
  Graphlib.hasNode (MemoryGraphStore.graph (memoryGraph t)) (source edge) = true ->
  Graphlib.hasNode (MemoryGraphStore.graph (memoryGraph t)) (target edge) = true ->
  onGraph (MemoryGraphStore.addEdge edge) t =
  (Js.Returned (MemoryGraphStore.edgeId edge),
   mkMatcher
     (MemoryGraphStore.mkStore
        (Graphlib.setEdge (source edge) (target edge) edge
           (MemoryGraphStore.graph (memoryGraph t)))
        (MemoryGraphStore.nodes (memoryGraph t))
        (Js.oset (MemoryGraphStore.edgeId edge) edge (MemoryGraphStore.edges (memoryGraph t))))
     (activePremonitions t) (turnCounter t), []).
Proof.
  intros Hs Ht. unfold onGraph, zoom. now rewrite (@addEdge_success Event edge _ Hs Ht).
Qed.

(** One round of the loop, when the nodes of the echo and of the stimulus
    are in the graph. *)
Lemma attempt_run (now : Z) (fr : FractureEvent) (entry : string * PremonitionState)
    (st : Matcher) :
  Graphlib.hasNode (MemoryGraphStore.graph (memoryGraph st))
    (prem_id (state_premonition (snd entry))) = true ->
  Graphlib.hasNode (MemoryGraphStore.graph (memoryGraph st)) (fr_id fr) = true ->
  let p := state_premonition (snd entry) in
  let e := bindingEdge now p fr in
  attempt now fr entry st =
  if skipped st (snd entry) then (Js.Returned tt, st, [])
  else if reaches st fr (snd entry)
  then (Js.Returned tt,
        mkMatcher
          (MemoryGraphStore.mkStore
             (Graphlib.setEdge (prem_id p) (fr_id fr) e (MemoryGraphStore.graph (memoryGraph st)))
             (MemoryGraphStore.nodes (memoryGraph st))
             (Js.oset (MemoryGraphStore.edgeId e) e (MemoryGraphStore.edges (memoryGraph st))))
          (Js.oupdate (fst entry) markBound
             (Js.oupdate (fst entry) incrAttempts (activePremonitions st)))
          (turnCounter st),
        [Binding (prem_id p) (fr_id fr) now (calculateMatchScore p fr)])
  else (Js.Returned tt, setActive (Js.oupdate (fst entry) incrAttempts) st, []).
Proof.
  intros Hp Hf p e. unfold attempt. erewrite bind_returned by reflexivity.
  fold (skipped st (snd entry)). destruct (skipped st (snd entry)); [reflexivity|].
  erewrite bind_returned by reflexivity.
  rewrite outcome_run, final_run, emitted_run.
  unfold reaches. fold p.
  destruct (Qle_bool (getBindingThreshold st (incrAttempts (snd entry)))
              (calculateMatchScore p fr)); [|reflexivity].
  unfold bindPremonition. fold p. fold e.
  cbn [app].
  erewrite bind_returned.
  2: { erewrite bind_returned.
       2: { apply matcher_addEdge_run; cbn [source target e bindingEdge memoryGraph setActive];
            assumption. }
       reflexivity. }
  reflexivity.
Qed.

Lemma isBindingOf_other (k k' f : string) (now : Z) (q : Q) :
  k' <> k -> isBindingOf k (Binding k' f now q) = false.
Proof. intros Hne. simpl. now apply String.eqb_neq. Qed.

Lemma edge_setEdge_other (g : Graphlib.Graph) (v w v' w' : string) (label : MemoryEdge) :
  Graphlib.hasNode g v' = true -> Graphlib.hasNode g w' = true ->
  (v', w') <> (v, w) ->
  Graphlib.edge (Graphlib.setEdge v' w' label g) v w = Graphlib.edge g v w.
Proof.
  intros Hv Hw Hne. unfold Graphlib.edge, Graphlib.setEdge.
  rewrite (ensureNode_present _ _ Hv), (ensureNode_present _ _ Hw). cbn [Graphlib.g_edges].
  apply oget_oset_ne. congruence.
Qed.

Lemma edge_setEdge_same (g : Graphlib.Graph) (v w : string) (label : MemoryEdge) :
  Graphlib.edge (Graphlib.setEdge v w label g) v w = Some label.
Proof. unfold Graphlib.edge, Graphlib.setEdge; cbn [Graphlib.g_edges]. apply oget_oset_eq. Qed.

(** The loop of [processFracture] over an array [l] of entries with
    distinct keys, seen from the key [k]. *)
Lemma attempts_on (k : string) (now : Z) (fr : FractureEvent)
    (l : list (string * PremonitionState)) : forall st,
  List.NoDup (Js.okeys l) ->
  (forall k' s', In (k', s') l ->
     k' = prem_id (state_premonition s') /\
     Graphlib.hasNode (MemoryGraphStore.graph (memoryGraph st)) k' = true) ->
  Graphlib.hasNode (MemoryGraphStore.graph (memoryGraph st)) (fr_id fr) = true ->
  let r := Js.forOf l (attempt now fr) st in
  Js.outcome r = Js.Returned tt /\
  turnCounter (Js.final r) = turnCounter st /\
  skeleton (activePremonitions (Js.final r)) = skeleton (activePremonitions st) /\
  (forall i, Graphlib.hasNode (MemoryGraphStore.graph (memoryGraph st)) i = true ->
             Graphlib.hasNode (MemoryGraphStore.graph (memoryGraph (Js.final r))) i = true) /\
  expiriesOf k (Js.emitted r) = 0%nat /\
  match Js.oget k l with
  | Some s =>
      Js.oget k (activePremonitions (Js.final r)) =
        option_map (tried st fr s) (Js.oget k (activePremonitions st)) /\
      List.filter (isBindingOf k) (Js.emitted r) =
        (if bindsTo st fr s
         then [Binding k (fr_id fr) now (calculateMatchScore (state_premonition s) fr)]
         else []) /\
      Graphlib.edge (MemoryGraphStore.graph (memoryGraph (Js.final r))) k (fr_id fr) =
        (if bindsTo st fr s then Some (bindingEdge now (state_premonition s) fr)
         else Graphlib.edge (MemoryGraphStore.graph (memoryGraph st)) k (fr_id fr))
  | None =>
      Js.oget k (activePremonitions (Js.final r)) = Js.oget k (activePremonitions st) /\
      List.filter (isBindingOf k) (Js.emitted r) = [] /\
      Graphlib.edge (MemoryGraphStore.graph (memoryGraph (Js.final r))) k (fr_id fr) =
        Graphlib.edge (MemoryGraphStore.graph (memoryGraph st)) k (fr_id fr)
  end.
Proof.
  induction l as [|[k0 s0] l IH]; intros st Hnd Hall Hf.
  - cbn [Js.forOf Js.oget]. cbv zeta. unfold Js.ret. rewrite outcome_run, final_run, emitted_run.
    repeat split; auto.
  - pose proof (proj1 (List.NoDup_cons_iff k0 (Js.okeys l)) Hnd) as [Hk0 Hnd'].
    destruct (Hall k0 s0 (or_introl eq_refl)) as [Hid Hh0].
    assert (Hp0 : Graphlib.hasNode (MemoryGraphStore.graph (memoryGraph st))
                    (prem_id (state_premonition (snd (k0, s0)))) = true)
      by (cbn [snd]; now rewrite <- Hid).
    pose proof (@attempt_run now fr (k0, s0) st Hp0 Hf) as Hrun. cbv zeta in Hrun.
    cbn [fst snd] in Hrun. rewrite <- Hid in Hrun.
    (* the state after the first round *)
    assert (Hround : exists st1 ev1,
              attempt now fr (k0, s0) st = (Js.Returned tt, st1, ev1) /\
              turnCounter st1 = turnCounter st /\
              skeleton (activePremonitions st1) = skeleton (activePremonitions st) /\
              (forall i, Graphlib.hasNode (MemoryGraphStore.graph (memoryGraph st)) i = true ->
                         Graphlib.hasNode (MemoryGraphStore.graph (memoryGraph st1)) i = true) /\
              expiriesOf k ev1 = 0%nat /\
              Js.oget k (activePremonitions st1) =
                (if decide (k0 = k)
                 then option_map (tried st fr s0) (Js.oget k (activePremonitions st))
                 else Js.oget k (activePremonitions st)) /\
              List.filter (isBindingOf k) ev1 =
                (if decide (k0 = k)
                 then (if bindsTo st fr s0
                       then [Binding k (fr_id fr) now
                               (calculateMatchScore (state_premonition s0) fr)]
                       else [])
                 else []) /\
              Graphlib.edge (MemoryGraphStore.graph (memoryGraph st1)) k (fr_id fr) =
                (if decide (k0 = k)
                 then (if bindsTo st fr s0 then Some (bindingEdge now (state_premonition s0) fr)
                       else Graphlib.edge (MemoryGraphStore.graph (memoryGraph st)) k (fr_id fr))
                 else Graphlib.edge (MemoryGraphStore.graph (memoryGraph st)) k (fr_id fr))).
    { unfold bindsTo, tried.
      destruct (skipped st s0) eqn:Hskip; cbn [negb andb].
      - exists st, []. split; [exact Hrun|]. repeat split; auto.
        + destruct (decide (k0 = k)); [|reflexivity].
          now destruct (Js.oget k (activePremonitions st)).
        + now destruct (decide (k0 = k)).
        + now destruct (decide (k0 = k)).
      - destruct (reaches st fr s0) eqn:Hreach.
        + eexists. eexists. split; [exact Hrun|].
          cbn [turnCounter activePremonitions memoryGraph MemoryGraphStore.graph].
          split; [reflexivity|]. split.
          { rewrite !skeleton_oupdate; [reflexivity| |]; intros s; split; reflexivity. }
          split.
          { intros i Hi. rewrite hasNode_setEdge; [exact Hi|exact Hh0|exact Hf]. }
          split; [reflexivity|].
          destruct (decide (k0 = k)) as [->|Hne].
          * split; [|split].
            -- rewrite !oget_oupdate_eq.
               now destruct (Js.oget k (activePremonitions st)).
            -- cbn [List.filter isBindingOf]. rewrite String.eqb_refl. reflexivity.
            -- apply edge_setEdge_same.
          * split; [|split].
            -- rewrite !oget_oupdate_ne by congruence. reflexivity.
            -- cbn [List.filter]. rewrite isBindingOf_other by exact Hne.
               reflexivity.
            -- apply edge_setEdge_other; [exact Hh0|exact Hf|congruence].
        + eexists. eexists. split; [exact Hrun|].
          unfold setActive; cbn [turnCounter activePremonitions memoryGraph].
          split; [reflexivity|]. split.
          { rewrite skeleton_oupdate; [reflexivity|]. intros s; split; reflexivity. }
          split; [auto|]. split; [reflexivity|].
          destruct (decide (k0 = k)) as [->|Hne].
          * split; [|split; reflexivity]. rewrite oget_oupdate_eq.
            now destruct (Js.oget k (activePremonitions st)).
          * split; [|split; reflexivity]. rewrite oget_oupdate_ne by congruence. reflexivity. }
    destruct Hround as (st1 & ev1 & Hbody & Hturn1 & Hsk1 & Hmono1 & Hexp1 & Hget1 & Hev1 & Hedge1).
    destruct (forOf_cons_returned (attempt now fr) (k0, s0) l st Hbody) as (Ho & Hfin & Hem).
    cbv zeta. rewrite Ho, Hfin, Hem.
    assert (Hall1 : forall k' s', In (k', s') l ->
              k' = prem_id (state_premonition s') /\
              Graphlib.hasNode (MemoryGraphStore.graph (memoryGraph st1)) k' = true).
    { intros k' s' Hin. destruct (Hall k' s' (or_intror Hin)) as [Hk' Hh']. auto. }
    destruct (IH st1 Hnd' Hall1 (Hmono1 _ Hf)) as (Ho2 & Hturn2 & Hsk2 & Hmono2 & Hexp2 & Hk).
    split; [exact Ho2|]. split; [congruence|]. split; [congruence|].
    split; [intros i Hi; apply Hmono2, Hmono1, Hi|].
    split; [rewrite expiriesOf_app, Hexp1, Hexp2; reflexivity|].
    rewrite List.filter_app.
    cbn [Js.oget]. revert Hget1 Hev1 Hedge1.
    destruct (decide (k0 = k)) as [Heq|Hne]; intros Hget1 Hev1 Hedge1; rewrite Hev1.
    + assert (Hnone : Js.oget k l = None) by (apply oget_None_notin; now rewrite <- Heq).
      rewrite Hnone in Hk. destruct Hk as (Hg2 & Hf2 & He2).
      rewrite Hg2, Hf2, He2, Hget1, Hedge1, app_nil_r. auto.
    + destruct (Js.oget k l) as [s|].
      * destruct Hk as (Hg2 & Hf2 & He2). rewrite Hg2, Hf2, He2, Hget1, Hedge1.
        rewrite (@bindsTo_turn st1 st fr s Hturn1).
        split; [|auto]. destruct (Js.oget k (activePremonitions st)) as [cur|]; [|reflexivity].
        cbn [option_map]. now rewrite (@tried_turn st1 st fr s cur Hturn1).
      * destruct Hk as (Hg2 & Hf2 & He2). rewrite Hg2, Hf2, He2, Hget1, Hedge1. auto.
Qed.

End AttemptFacts.

Section SortFacts.
Import PremonitionMatcher.

Lemma insertByStrength_perm (x : string * PremonitionState) (l : list (string * PremonitionState)) :
  Permutation (insertByStrength x l) (x :: l).
Proof.
  induction l as [|y l IH]; simpl; [reflexivity|].
  destruct (Qlt_bool _ _); [|reflexivity].
  rewrite IH. apply perm_swap.
Qed.

Lemma sortByStrength_perm (l : list (string * PremonitionState)) :
  Permutation (sortByStrength l) l.
Proof.
  induction l as [|x l IH]; simpl; [reflexivity|].
  rewrite insertByStrength_perm. now constructor.
Qed.

Lemma oget_perm {V : Type} (k : string) (l l' : list (string * V)) :
  List.NoDup (Js.okeys l) -> Permutation l' l -> Js.oget k l' = Js.oget k l.
Proof.
  intros Hnd Hp.
  assert (Hnd' : List.NoDup (Js.okeys l')).
  { unfold Js.okeys. eapply Permutation_NoDup; [|exact Hnd].
    apply Permutation_map. now symmetry. }
  destruct (Js.oget k l) as [v|] eqn:Hget.
  - apply in_oget_nodup; [exact Hnd'|]. apply oget_Some_in in Hget.
    eapply Permutation_in; [symmetry; exact Hp|exact Hget].
  - apply oget_None_notin. apply oget_None_notin in Hget. intros Hin. apply Hget.
    unfold Js.okeys in *. eapply Permutation_in; [|exact Hin]. now apply Permutation_map.
Qed.

Lemma okeys_perm_nodup {V : Type} (l l' : list (string * V)) :
  List.NoDup (Js.okeys l) -> Permutation l' l -> List.NoDup (Js.okeys l').
Proof.
  intros Hnd Hp. unfold Js.okeys. eapply Permutation_NoDup; [|exact Hnd].
  apply Permutation_map. now symmetry.
Qed.

Lemma filter_binding_expired (k : string) (l : list (string * PremonitionState)) :
  List.filter (isBindingOf k) (List.map (fun entry => PremonitionExpired (fst entry)) l) = [].
Proof. induction l as [|x l IH]; simpl; [reflexivity|exact IH]. Qed.

Lemma tried_fields (t : Matcher) (fr : FractureEvent) (s cur : PremonitionState) :
  expiresAtTurn (tried t fr s cur) = expiresAtTurn cur /\
  state_premonition (tried t fr s cur) = state_premonition cur /\
  createdAtTurn (tried t fr s cur) = createdAtTurn cur.
Proof.
  unfold tried. destruct (skipped t s); [auto|]. destruct (reaches t fr s); auto.
Qed.

(** One call of [processFracture], seen from the key [k]. *)
Lemma processFracture_on (k : string) (now : Z) (fr : FractureEvent) (t : Matcher) :
  wellFormed t ->
  Graphlib.hasNode (MemoryGraphStore.graph (memoryGraph t)) (fr_id fr) = true ->
  let r := processFracture now fr t in
  Js.outcome r = Js.Returned tt /\
  turnCounter (Js.final r) = (turnCounter t + 1)%Z /\
  match Js.oget k (activePremonitions t) with
  | Some s =>
      Js.oget k (activePremonitions (Js.final r)) =
        (if (expiresAtTurn s <? turnCounter t + 1)%Z then None
         else Some (tried (advanced t) fr s s)) /\
      List.filter (isBindingOf k) (Js.emitted r) =
        (if bindsTo (advanced t) fr s
         then [Binding k (fr_id fr) now (calculateMatchScore (state_premonition s) fr)]
         else []) /\
      Graphlib.edge (MemoryGraphStore.graph (memoryGraph (Js.final r))) k (fr_id fr) =
        (if bindsTo (advanced t) fr s then Some (bindingEdge now (state_premonition s) fr)
         else Graphlib.edge (MemoryGraphStore.graph (memoryGraph t)) k (fr_id fr))
  | None =>
      Js.oget k (activePremonitions (Js.final r)) = None /\
      List.filter (isBindingOf k) (Js.emitted r) = [] /\
      Graphlib.edge (MemoryGraphStore.graph (memoryGraph (Js.final r))) k (fr_id fr) =
        Graphlib.edge (MemoryGraphStore.graph (memoryGraph t)) k (fr_id fr)
  end.
Proof.
  intros [Hnd Hwf] Hf r. subst r.
  pose proof (sortByStrength_perm (activePremonitions t)) as Hperm.
  assert (Hnds : List.NoDup (Js.okeys (sortByStrength (activePremonitions t))))
    by (eapply okeys_perm_nodup; eauto).
  assert (Hall : forall k' s', In (k', s') (sortByStrength (activePremonitions t)) ->
            k' = prem_id (state_premonition s') /\
            Graphlib.hasNode (MemoryGraphStore.graph (memoryGraph (advanced t))) k' = true).
  { intros k' s' Hin. apply sortByStrength_in in Hin. now apply Hwf. }
  destruct (@attempts_on k now fr (sortByStrength (activePremonitions t)) (advanced t)
              Hnds Hall Hf) as (Ho2 & Hturn2 & Hsk2 & Hmono2 & Hexp2 & Hk2).
  pose proof (@processFracture_run now fr t) as Hrun. cbv zeta in Hrun.
  fold (advanced t) in Hrun.
  change (activePremonitions (advanced t)) with (activePremonitions t) in Hrun.
  specialize (Hrun Ho2). rewrite Hrun. clear Hrun.
  set (t2 := Js.final (Js.forOf (sortByStrength (activePremonitions t)) (attempt now fr)
                         (advanced t))) in *.
  destruct (cleanup_loop (activePremonitions t2) t2) as (Ho3 & Hg3 & Hturn3 & Hact3 & Hev3).
  rewrite outcome_run, final_run, emitted_run.
  split; [exact Ho3|]. split; [rewrite Hturn3, Hturn2; reflexivity|].
  rewrite List.filter_app, Hev3, filter_binding_expired, app_nil_r, Hg3, Hact3.
  rewrite oget_purge.
  assert (Hnd2 : List.NoDup (Js.okeys (activePremonitions t2))).
  { rewrite (@skeleton_keys _ _ Hsk2). exact Hnd. }
  rewrite (@existsb_entry k (expired (turnCounter t2)) _ Hnd2).
  rewrite (@oget_perm _ k _ _ Hnd Hperm) in Hk2.
  cbn [advanced activePremonitions] in Hk2.
  destruct (Js.oget k (activePremonitions t)) as [s|] eqn:Hget.
  - destruct Hk2 as (Hg2 & Hf2 & He2). rewrite Hg2, Hf2, He2. cbn [option_map].
    split; [|split; reflexivity].
    unfold expired; cbn [snd]. rewrite Hturn2.
    destruct (tried_fields (advanced t) fr s s) as (-> & _ & _).
    cbn [advanced turnCounter]. now destruct (expiresAtTurn s <? turnCounter t + 1)%Z.
  - destruct Hk2 as (Hg2 & Hf2 & He2). rewrite Hg2, Hf2, He2. auto.
Qed.

End SortFacts.



Section OnceFacts.
Import PremonitionMatcher.

Lemma bindingsIn_cons (id : string) (c : Call) (calls : list Call) :
  bindingsIn id (c :: calls) = (bindingsOf id (call_events c) + bindingsIn id calls)%nat.
Proof. reflexivity. Qed.

Lemma wellFormed_reset (t : Matcher) : wellFormed t -> wellFormed (resetTurnCounter t).
Proof. intros Hwf. exact Hwf. Qed.

Lemma trace_absent_total (id : string) (ops : list Op) (t : Matcher) :
  wellFormed t ->
  Js.oget id (activePremonitions t) = None ->
  (forall p, In (Register p) ops -> prem_id p <> id) ->
  admissible ops t ->
  bindingsIn id (trace ops t) = 0%nat.
Proof.
  intros Hwf Hnone Hreg Hadm.
  pose proof (@trace_gone id ops t Hwf Hnone Hreg Hadm) as Hgone.
  induction (trace ops t) as [|c calls IH]; [reflexivity|].
  rewrite bindingsIn_cons.
  destruct (Hgone c (or_introl eq_refl)) as (_ & Hb & _). rewrite Hb.
  rewrite IH; [reflexivity|]. intros c' Hc'. apply Hgone. now right.
Qed.

(** The three states of an echo in a run: not held, held and bound, held. *)
Lemma trace_bound_total (id : string) (ops : list Op) : forall t s,
  wellFormed t ->
  Js.oget id (activePremonitions t) = Some s -> isBound s = true ->
  (forall p, In (Register p) ops -> prem_id p <> id) ->
  admissible ops t ->
  bindingsIn id (trace ops t) = 0%nat.
Proof.
  induction ops as [|op ops IH]; intros t s Hwf Hget Hb Hreg Hadm; [reflexivity|].
  destruct Hadm as [Hop Hadm].
  assert (Hreg' : forall p, In (Register p) ops -> prem_id p <> id)
    by (intros p Hp; apply Hreg; now right).
  destruct op as [p|fr|now fr|].
  - cbn [trace step] in *.
    destruct (@addPremonition_spec p t Hwf) as (Hwf' & _ & _ & Hother).
    apply (IH _ s); auto. rewrite Hother; [exact Hget|].
    intros Heq. apply (Hreg p); [now left|now symmetry].
  - cbn [trace step] in *.
    destruct (@store_spec fr t Hwf) as (Hwf' & Hact).
    apply (IH _ s); auto; now rewrite Hact.
  - cbn [trace step] in *. rewrite bindingsIn_cons. cbn [call_events].
    destruct (@processFracture_spec now fr t Hwf Hop) as (_ & _ & Hwf' & _).
    destruct (@processFracture_on id now fr t Hwf Hop) as (_ & _ & Hk).
    rewrite Hget in Hk. destruct Hk as (Hafter & Hev & _).
    unfold bindsTo, skipped in Hev. rewrite Hb in Hev. cbn [orb negb andb] in Hev.
    unfold bindingsOf. rewrite Hev. cbn [length Nat.add].
    unfold tried, skipped in Hafter. rewrite Hb in Hafter. cbn [orb] in Hafter.
    destruct (expiresAtTurn s <? turnCounter t + 1)%Z.
    + now apply trace_absent_total.
    + now apply (IH _ s).
  - cbn [trace step] in *. apply (IH _ s); auto.
Qed.

Lemma trace_held_total (id : string) (ops : list Op) : forall t s,
  wellFormed t ->
  Js.oget id (activePremonitions t) = Some s ->
  (forall p, In (Register p) ops -> prem_id p <> id) ->
  admissible ops t ->
  (bindingsIn id (trace ops t) <= 1)%nat.
Proof.
  induction ops as [|op ops IH]; intros t s Hwf Hget Hreg Hadm; [cbn; lia|].
  destruct Hadm as [Hop Hadm].
  assert (Hreg' : forall p, In (Register p) ops -> prem_id p <> id)
    by (intros p Hp; apply Hreg; now right).
  destruct op as [p|fr|now fr|].
  - cbn [trace step] in *.
    destruct (@addPremonition_spec p t Hwf) as (Hwf' & _ & _ & Hother).
    apply (IH _ s); auto. rewrite Hother; [exact Hget|].
    intros Heq. apply (Hreg p); [now left|now symmetry].
  - cbn [trace step] in *.
    destruct (@store_spec fr t Hwf) as (Hwf' & Hact).
    apply (IH _ s); auto; now rewrite Hact.
  - cbn [trace step] in *. rewrite bindingsIn_cons. cbn [call_events].
    destruct (@processFracture_spec now fr t Hwf Hop) as (_ & _ & Hwf' & _).
    destruct (@processFracture_on id now fr t Hwf Hop) as (_ & _ & Hk).
    rewrite Hget in Hk. destruct Hk as (Hafter & Hev & _).
    unfold bindingsOf. rewrite Hev.
    unfold bindsTo, tried in *.
    destruct (skipped (advanced t) s) eqn:Hskip; cbn [negb andb length] in *.
    + destruct (expiresAtTurn s <? turnCounter t + 1)%Z.
      * rewrite trace_absent_total; auto.
      * specialize (IH _ s Hwf' Hafter Hreg' Hadm). lia.
    + unfold skipped in Hskip. apply orb_false_iff in Hskip. destruct Hskip as [_ Hexp].
      cbn [advanced turnCounter] in Hexp. rewrite Hexp in Hafter.
      destruct (reaches (advanced t) fr s).
      * rewrite (@trace_bound_total id ops _ _ Hwf' Hafter eq_refl Hreg' Hadm). cbn. lia.
      * specialize (IH _ _ Hwf' Hafter Hreg' Hadm). cbn [length]. lia.
  - cbn [trace step] in *. apply (IH _ s); auto.
Qed.

End OnceFacts.

(** X23. An echo is bound at most once: over any run of registrations,
    stored stimuli, submissions and resets of the turn counter that does not
    register the echo again, the ['binding'] events that name the echo, all
    calls of [processFracture] taken together, number at most one; and once
    a call has announced the binding, no other call of the run does. *)
Theorem echo_binds_at_most_once
    (t : PremonitionMatcher.Matcher) (id : string) (ops : list PremonitionMatcher.Op) :
  PremonitionMatcher.wellFormed t ->
  (forall p, In (PremonitionMatcher.Register p) ops -> prem_id p <> id) ->
  PremonitionMatcher.admissible ops t ->
  let calls := PremonitionMatcher.trace ops t in
  (PremonitionMatcher.bindingsIn id calls <= 1)%nat /\
  (forall pre c post, calls = pre ++ c :: post ->
     PremonitionMatcher.bindingsOf id (PremonitionMatcher.call_events c) = 1%nat ->
     forall c', In c' (pre ++ post) ->
       PremonitionMatcher.bindingsOf id (PremonitionMatcher.call_events c') = 0%nat).
Proof.
  intros Hwf Hreg Hadm calls.
  assert (Htotal : (PremonitionMatcher.bindingsIn id calls <= 1)%nat).
  { unfold calls.
    destruct (Js.oget id (PremonitionMatcher.activePremonitions t)) as [s|] eqn:Hget.
    - now apply (@trace_held_total id ops t s).
    - rewrite trace_absent_total; auto. }
  split; [exact Htotal|].
  intros pre c post Hsplit Hone c' Hin.
  rewrite Hsplit in Htotal. unfold PremonitionMatcher.bindingsIn in Htotal.
  rewrite List.map_app, list_sum_app in Htotal. cbn [List.map list_sum] in Htotal.
  rewrite Hone in Htotal.
  change (list_sum (1%nat :: ?l)) with (1 + list_sum l)%nat in Htotal.
  assert (Hzero : forall l : list PremonitionMatcher.Call,
            list_sum (List.map (fun c0 => PremonitionMatcher.bindingsOf id
                                            (PremonitionMatcher.call_events c0)) l) = 0%nat ->
            forall x, In x l ->
              PremonitionMatcher.bindingsOf id (PremonitionMatcher.call_events x) = 0%nat).
  { induction l as [|y l IHl]; intros Hsum x Hx; [destruct Hx|].
    cbn [List.map list_sum] in Hsum. apply Nat.eq_add_0 in Hsum as [Hy Hl].
    destruct Hx as [<-|Hx]; [exact Hy|]. apply IHl; [exact Hl|exact Hx]. }
  apply in_app_or in Hin. destruct Hin as [Hin|Hin].
  - apply (Hzero pre); [lia|exact Hin].
  - apply (Hzero post); [lia|exact Hin].
Qed.

Lemma echo_binds_at_most_once_witness :
  let calls := PremonitionMatcher.trace Scenarios.fiveTurns
                 (Js.final (PremonitionMatcher.addPremonition Scenarios.echoEager
                              (PremonitionMatcher.create MemoryGraphStore.empty))) in
  (PremonitionMatcher.bindingsIn "echo-F" calls <= 1)%nat /\
  (forall pre c post, calls = pre ++ c :: post ->
     PremonitionMatcher.bindingsOf "echo-F" (PremonitionMatcher.call_events c) = 1%nat ->
     forall c', In c' (pre ++ post) ->
       PremonitionMatcher.bindingsOf "echo-F" (PremonitionMatcher.call_events c') = 0%nat).
Proof.
  apply (@echo_binds_at_most_once
           (Js.final (PremonitionMatcher.addPremonition Scenarios.echoEager
                        (PremonitionMatcher.create MemoryGraphStore.empty)))
           "echo-F" Scenarios.fiveTurns).
  - apply addPremonition_spec. split; [constructor|intros k s []].
  - intros p Hin. unfold Scenarios.fiveTurns in Hin. simpl in Hin.
    repeat (destruct Hin as [Hin|Hin]; [discriminate Hin|]). contradiction.
  - vm_compute. repeat split; reflexivity.
Defined.

(** ** The runtime: what a stimulus sets off *)
Section RuntimeSteps.
Import McTavish.

Lemma bind_pure {S E A B} (m : Js.M S E A) (k : A -> Js.M S E B) (s s1 : S) (a : A) :
  m s = (Js.Returned a, s1, []) -> Js.bind m k s = k a s1.
Proof.
  intros Hm. unfold Js.bind. rewrite Hm. now destruct (k a s1) as [[o s2] ev2].
Qed.

Lemma bind_emit {S E B} (e : E) (k : unit -> Js.M S E B) (s : S) :
  Js.bind (Js.emit e) k s = (Js.outcome (k tt s), Js.final (k tt s), e :: Js.emitted (k tt s)).
Proof. unfold Js.bind, Js.emit. now destruct (k tt s) as [[o s2] ev2]. Qed.

Lemma keeps_refl (rt : Runtime) : keeps rt rt.
Proof.
  constructor; auto.
  intros key c Hc. exists c. auto.
Qed.

Lemma registered_ext (rt rt' : Runtime) (i : string) :
  config rt' = config rt ->
  premonitionMatcher rt' = premonitionMatcher rt ->
  registered rt i -> registered rt' i.
Proof.
  intros Hc Hm (p & Hp & Hget). exists p. rewrite Hc, Hm. auto.
Qed.

Lemma keeps_trans (a b c : Runtime) : keeps a b -> keeps b c -> keeps a c.
Proof.
  intros H1 H2. constructor.
  - rewrite (keeps_config H2). apply (keeps_config H1).
  - rewrite (keeps_random H2). apply (keeps_random H1).
  - rewrite (keeps_uuid H2). apply (keeps_uuid H1).
  - rewrite (keeps_clock H2). apply (keeps_clock H1).
  - rewrite (keeps_binding H2). apply (keeps_binding H1).
  - rewrite (keeps_turn H2). apply (keeps_turn H1).
  - rewrite (keeps_fractures H2). apply (keeps_fractures H1).
  - intros i Hi. apply (keeps_graph_nodes H2), (keeps_graph_nodes H1), Hi.
  - intros i Hi. apply (keeps_nodes H2), (keeps_nodes H1), Hi.
  - intros v w Hvw. apply (keeps_links H2), (keeps_links H1), Hvw.
  - intros Hs. apply (keeps_sound H2), (keeps_sound H1), Hs.
  - rewrite (keeps_keys H2). apply (keeps_keys H1).
  - intros key c0 Hc0.
    destruct (keeps_characters H1 key Hc0) as (c1 & Hc1 & Hid1 & Hn1 & Ht1).
    destruct (keeps_characters H2 key Hc1) as (c2 & Hc2 & Hid2 & Hn2 & Ht2).
    exists c2. split; [exact Hc2|]. split; [congruence|]. split; [congruence|]. auto.
  - intros i Hi. apply (keeps_registered H2), (keeps_registered H1), Hi.
  - intros i Hi. apply (keeps_pendingFolds H2), (keeps_pendingFolds H1), Hi.
  - intros i Hi. apply (keeps_pendingPremonitions H2), (keeps_pendingPremonitions H1), Hi.
Qed.

(** Steps that touch one part of the runtime. *)
Lemma keeps_environment (e : Environment) (rt : Runtime) :
  randomAt e = randomAt (environment rt) ->
  uuidAt e = uuidAt (environment rt) ->
  clockAt e = clockAt (environment rt) ->
  keeps rt (setEnvironment e rt).
Proof.
  intros Hr Hu Hc. constructor; cbn; auto.
  intros key c Hget. exists c. auto.
Qed.

Lemma keeps_engine (e : CollapseEngine.Engine) (rt : Runtime) :
  CollapseEngine.activeFractures e = CollapseEngine.activeFractures (collapseEngine rt) ->
  (forall i, Js.ohas i (CollapseEngine.pendingFolds (collapseEngine rt)) = true ->
             Js.ohas i (CollapseEngine.pendingFolds e) = true) ->
  (forall i, Js.ohas i (CollapseEngine.pendingPremonitions (collapseEngine rt)) = true ->
             Js.ohas i (CollapseEngine.pendingPremonitions e) = true) ->
  keeps rt (setCollapseEngine e rt).
Proof.
  intros Ha Hf Hp. constructor; cbn; auto.
  intros key c Hget. exists c. auto.
Qed.

Lemma edge_setNode (g : Graphlib.Graph) (i : string) (n : MemoryNode) (v w : string) :
  Graphlib.edge (Graphlib.setNode i n g) v w = Graphlib.edge g v w.
Proof. reflexivity. Qed.

Lemma keeps_addNode (node : MemoryNode) (rt : Runtime) :
  keeps rt (setMemoryGraph
              (Js.final (MemoryGraphStore.addNode (E:=Signal) node (memoryGraph rt))) rt).
Proof.
  rewrite addNode_run, final_run.
  constructor; cbn [config environment interactionBinding premonitionMatcher collapseEngine
                    characterKernel memoryGraph setMemoryGraph
                    MemoryGraphStore.graph MemoryGraphStore.nodes]; auto.
  - intros i Hi. rewrite hasNode_setNode. now destruct (decide _).
  - intros i Hi. now apply ohas_oset_mono.
  - intros Hs. pose proof (@sound_addNode Signal node (memoryGraph rt) Hs) as Hs'.
    now rewrite addNode_run, final_run in Hs'.
  - intros key c Hget. exists c. auto.
Qed.

Lemma keeps_addFold (f : RecursionFold) (rt : Runtime) :
  Js.returned (Js.outcome (MemoryGraphStore.addFold (E:=Signal) f (memoryGraph rt))) = true ->
  keeps rt (setMemoryGraph
              (Js.final (MemoryGraphStore.addFold (E:=Signal) f (memoryGraph rt))) rt).
Proof.
  intros Hret.
  assert (Hsound : MemoryGraphStore.sound (memoryGraph rt) ->
                   MemoryGraphStore.sound
                     (Js.final (MemoryGraphStore.addFold (E:=Signal) f (memoryGraph rt))))
    by apply sound_addFold.
  revert Hret Hsound. rewrite addFold_run.
  assert (Hstored : keeps rt (setMemoryGraph (MemoryGraphStore.storedFold f (memoryGraph rt)) rt)).
  { pose proof (keeps_addNode (MemoryGraphStore.nodeOfFold f) rt) as Hk.
    now rewrite addNode_run, final_run in Hk. }
  destruct (fold_fractureEventId f) as [fid|].
  2:{ intros _ Hs. rewrite final_run in *. exact Hstored. }
  destruct (Js.truthyString fid).
  2:{ intros _ Hs. rewrite final_run in *. exact Hstored. }
  destruct (Graphlib.hasNode (MemoryGraphStore.graph
              (MemoryGraphStore.storedFold f (memoryGraph rt))) fid) eqn:Hfid.
  2:{ intros Hret. discriminate Hret. }
  intros _ Hs. rewrite final_run in *.
  assert (Hself : Graphlib.hasNode (MemoryGraphStore.graph
              (MemoryGraphStore.storedFold f (memoryGraph rt))) (fold_id f) = true).
  { unfold MemoryGraphStore.storedFold; cbn [MemoryGraphStore.graph].
    rewrite hasNode_setNode. now destruct (decide _). }
  constructor; cbn [config environment interactionBinding premonitionMatcher collapseEngine
                    characterKernel memoryGraph setMemoryGraph
                    MemoryGraphStore.graph MemoryGraphStore.nodes]; auto.
  - intros i Hi. rewrite hasNode_setEdge; auto. apply (keeps_graph_nodes Hstored i Hi).
  - intros i Hi. apply (keeps_nodes Hstored i Hi).
  - intros v w Hvw.
    destruct (decide ((fid, fold_id f) = (v, w))) as [Heq|Hne].
    + injection Heq as <- <-. rewrite edge_setEdge_same. reflexivity.
    + rewrite edge_setEdge_other; auto.
  - intros key c Hget. exists c. auto.
Qed.


Lemma applyMutation_graph (characterId : string) (f : RecursionFold)
    (k : CharacterKernel.Kernel) :
  CharacterKernel.memoryGraph (CharacterKernel.applyMutation characterId f k) =
  CharacterKernel.memoryGraph k.
Proof.
  unfold CharacterKernel.applyMutation.
  destruct (CharacterKernel.getCharacter k characterId) as [c|]; [|reflexivity].
  unfold CharacterKernel.updateEmotionalState.
  destruct (Js.oget characterId (CharacterKernel.emotionalStates k)) as [es|];
    cbn [CharacterKernel.setCharacters CharacterKernel.memoryGraph];
    match goal with |- context [if ?b then _ else _] => destruct b end; reflexivity.
Qed.

Lemma applyMutation_characters (characterId : string) (f : RecursionFold)
    (k : CharacterKernel.Kernel) :
  CharacterKernel.characters (CharacterKernel.applyMutation characterId f k) =
  match Js.oget characterId (CharacterKernel.characters k) with
  | None => CharacterKernel.characters k
  | Some c =>
      Js.oset characterId
        (CharacterKernel.mkCharacter (CharacterKernel.char_id c) (CharacterKernel.char_name c)
           (if Qlt_bool 0.7 (stability (fold_emotionalState f))
            then CharacterKernel.mkTone (dominant (fold_emotionalState f))
                   (CharacterKernel.variations (CharacterKernel.toneProfile c))
                   (CharacterKernel.adaptability (CharacterKernel.toneProfile c))
            else CharacterKernel.toneProfile c)
           (CharacterKernel.mutationSchema c) (CharacterKernel.memoryAnchor c)
           (Qmax 0.1 (Qmin 0.9 (defaultCollapseThreshold (CharacterKernel.config k) -
                                intensity (fold_emotionalState f) * 0.2))))
        (CharacterKernel.characters k)
  end.
Proof.
  unfold CharacterKernel.applyMutation, CharacterKernel.getCharacter.
  destruct (Js.oget characterId (CharacterKernel.characters k)) as [c|]; [|reflexivity].
  unfold CharacterKernel.updateEmotionalState.
  destruct (Js.oget characterId (CharacterKernel.emotionalStates k)) as [es|];
    cbn [CharacterKernel.setCharacters CharacterKernel.characters];
    match goal with |- context [if Js.ohas ?a ?b then _ else _] => destruct (Js.ohas a b) end;
    reflexivity.
Qed.

Lemma keeps_applyMutation (characterId : string) (f : RecursionFold) (rt : Runtime) :
  keeps rt (setCharacterKernel
              (CharacterKernel.applyMutation characterId f (kernelOf rt)) rt).
Proof.
  constructor; cbn [config environment interactionBinding premonitionMatcher collapseEngine
                    characterKernel memoryGraph setCharacterKernel];
    rewrite ?applyMutation_graph; cbn [kernelOf CharacterKernel.memoryGraph]; auto.
  - rewrite applyMutation_characters. cbn [kernelOf CharacterKernel.characters].
    destruct (Js.oget characterId (CharacterKernel.characters (characterKernel rt))) eqn:Hc;
      [|reflexivity].
    apply okeys_oset_taken. unfold Js.ohas. now rewrite Hc.
  - intros key c Hget. rewrite applyMutation_characters.
    cbn [kernelOf CharacterKernel.characters CharacterKernel.config].
    destruct (Js.oget characterId (CharacterKernel.characters (characterKernel rt)))
      as [c0|] eqn:Hc; [|exists c; auto].
    destruct (decide (key = characterId)) as [->|Hne].
    + rewrite oget_oset_eq. eexists. split; [reflexivity|].
      rewrite Hget in Hc. injection Hc as <-.
      cbn [CharacterKernel.char_id CharacterKernel.char_name CharacterKernel.collapseThreshold].
      split; [reflexivity|]. split; [reflexivity|]. intros _.
      apply Q.max_lub; [discriminate|].
      eapply Qle_trans; [apply Q.le_min_l|discriminate].
    + rewrite oget_oset_ne by exact Hne. exists c. auto.
Qed.

Lemma matcher_addPremonition_run (p : Premonition) (t : PremonitionMatcher.Matcher) :
  PremonitionMatcher.addPremonition p t =
  (Js.Returned tt,
   PremonitionMatcher.mkMatcher
     (Js.final (MemoryGraphStore.addPremonition (E:=PremonitionMatcher.Event) p
                  (PremonitionMatcher.memoryGraph t)))
     (Js.oset (prem_id p)
        (PremonitionMatcher.mkState p (PremonitionMatcher.turnCounter t)
           (PremonitionMatcher.turnCounter t + validityWindow p)%Z 0%Z false)
        (PremonitionMatcher.activePremonitions t))
     (PremonitionMatcher.turnCounter t),
   []).
Proof. reflexivity. Qed.

Lemma handlePremonition_run (p : Premonition) (rt : Runtime) :
  validityWindow p = premonitionValidityWindow (config rt) ->
  exists rt',
    handlePremonition p rt = (Js.Returned tt, rt', []) /\
    keeps rt rt' /\
    registered rt' (prem_id p) /\
    environment rt' = environment rt /\
    collapseEngine rt' = collapseEngine rt /\
    characterKernel rt' = characterKernel rt /\
    Graphlib.hasNode (MemoryGraphStore.graph (memoryGraph rt')) (prem_id p) = true.
Proof.
  intros Hw. eexists. split; [reflexivity|].
  cbn [Js.final fst snd].
  set (node := mkNode _ _ _ _ _).
  pose proof (fun Hs => @sound_addNode Signal node _
                          (@sound_addNode Signal node (memoryGraph rt) Hs)) as Hsound.
  rewrite !addNode_run, !final_run in Hsound.
  cbn [MemoryGraphStore.graph MemoryGraphStore.nodes MemoryGraphStore.edges] in Hsound.
  split; [|split; [|split; [|split; [|split]]]]; try reflexivity.
  - constructor;
      cbn -[Graphlib.hasNode Graphlib.setNode Js.oset Js.ohas Js.oget Graphlib.edge
            MemoryGraphStore.sound spreadOpt Z.add]; auto.
    + intros i Hi. rewrite !hasNode_setNode. now repeat destruct (decide _).
    + intros i Hi. now apply ohas_oset_mono, ohas_oset_mono.
    + intros key c Hget. exists c. auto.
    + intros i (q & Hq & Hget). unfold registered.
      cbn -[Js.oset Js.oget Z.add].
      destruct (decide (i = prem_id p)) as [->|Hne].
      * exists p. split; [reflexivity|]. rewrite oget_oset_eq, Hw. reflexivity.
      * exists q. split; [exact Hq|]. rewrite oget_oset_ne by exact Hne. exact Hget.
  - exists p. split; [reflexivity|].
    cbn -[Js.oset Js.oget Z.add].
    rewrite oget_oset_eq, Hw. reflexivity.
  - cbn -[Graphlib.hasNode Graphlib.setNode].
    rewrite hasNode_setNode. now destruct (decide _).
Qed.

End RuntimeSteps.

Section RuntimeListeners.
Import McTavish.

Lemma onGraph_run {A} (m : Js.M MemoryGraphStore.Store Signal A) (rt : Runtime) :
  onGraph m rt =
  (Js.outcome (m (memoryGraph rt)), setMemoryGraph (Js.final (m (memoryGraph rt))) rt,
   Js.emitted (m (memoryGraph rt))).
Proof. unfold onGraph, zoom. now destruct (m (memoryGraph rt)) as [[o s] ev]. Qed.

Lemma addFold_returns (f : RecursionFold) (g : MemoryGraphStore.Store) :
  (forall fid, fold_fractureEventId f = Some fid -> Js.truthyString fid = true ->
     Graphlib.hasNode (MemoryGraphStore.graph g) fid = true) ->
  Js.outcome (MemoryGraphStore.addFold (E:=Signal) f g) = Js.Returned (fold_id f) /\
  Js.emitted (MemoryGraphStore.addFold (E:=Signal) f g) = [] /\
  MemoryGraphStore.getNode (Js.final (MemoryGraphStore.addFold (E:=Signal) f g)) (fold_id f) =
    Some (MemoryGraphStore.nodeOfFold f) /\
  Graphlib.hasNode (MemoryGraphStore.graph
                      (Js.final (MemoryGraphStore.addFold (E:=Signal) f g))) (fold_id f) = true /\
  (forall i, i <> fold_id f ->
     MemoryGraphStore.getNode (Js.final (MemoryGraphStore.addFold (E:=Signal) f g)) i =
     MemoryGraphStore.getNode g i) /\
  (forall fid, fold_fractureEventId f = Some fid -> Js.truthyString fid = true ->
     MemoryGraphStore.getEdgesBetween
       (Js.final (MemoryGraphStore.addFold (E:=Signal) f g)) fid (fold_id f) =
       [MemoryGraphStore.linkOfFold fid f]).
Proof.
  intros Hpre. rewrite addFold_run.
  assert (Hnode : MemoryGraphStore.getNode (MemoryGraphStore.storedFold f g) (fold_id f) =
                  Some (MemoryGraphStore.nodeOfFold f)).
  { unfold MemoryGraphStore.getNode, MemoryGraphStore.storedFold; cbn [MemoryGraphStore.nodes].
    apply oget_oset_eq. }
  assert (Hself : Graphlib.hasNode (MemoryGraphStore.graph (MemoryGraphStore.storedFold f g))
                    (fold_id f) = true).
  { unfold MemoryGraphStore.storedFold; cbn [MemoryGraphStore.graph].
    rewrite hasNode_setNode. now destruct (decide _). }
  assert (Hother : forall i, i <> fold_id f ->
            MemoryGraphStore.getNode (MemoryGraphStore.storedFold f g) i =
            MemoryGraphStore.getNode g i).
  { intros i Hi. unfold MemoryGraphStore.getNode, MemoryGraphStore.storedFold;
      cbn [MemoryGraphStore.nodes]. now apply oget_oset_ne. }
  destruct (fold_fractureEventId f) as [fid|] eqn:Hf.
  2:{ rewrite outcome_run, emitted_run, final_run. repeat split; auto. intros fid [=]. }
  destruct (Js.truthyString fid) eqn:Htr.
  2:{ rewrite outcome_run, emitted_run, final_run. repeat split; auto.
      intros fid' [= <-] Htr'. congruence. }
  assert (Hfid : Graphlib.hasNode (MemoryGraphStore.graph (MemoryGraphStore.storedFold f g)) fid
                 = true).
  { unfold MemoryGraphStore.storedFold; cbn [MemoryGraphStore.graph].
    rewrite hasNode_setNode. destruct (decide _); [reflexivity|]. now apply Hpre. }
  rewrite Hfid, outcome_run, emitted_run, final_run.
  split; [reflexivity|]. split; [reflexivity|]. split; [exact Hnode|].
  split; [|split].
  - cbn [MemoryGraphStore.graph]. rewrite hasNode_setEdge; auto.
  - exact Hother.
  - intros fid' [= <-] _. unfold MemoryGraphStore.getEdgesBetween. cbn [MemoryGraphStore.graph].
    now rewrite edge_setEdge_same.
Qed.

(** [handleRecursionFold]: the stimulus of the reaction is stored first if
    the store does not know it, so the reaction can be linked. *)
Lemma handleRecursionFold_run (f : RecursionFold) (rt : Runtime) :
  (forall fid, fold_fractureEventId f = Some fid -> Js.truthyString fid = true ->
     Js.ohas fid (MemoryGraphStore.nodes (memoryGraph rt)) = true ->
     Graphlib.hasNode (MemoryGraphStore.graph (memoryGraph rt)) fid = true) ->
  exists rt',
    handleRecursionFold f rt = (Js.Returned tt, rt', []) /\
    keeps rt rt' /\
    collapseEngine rt' = collapseEngine rt /\
    characterKernel rt' = characterKernel rt /\
    premonitionMatcher rt' = premonitionMatcher rt /\
    randomCalls (environment rt') = randomCalls (environment rt) /\
    uuidCalls (environment rt') = uuidCalls (environment rt) /\
    MemoryGraphStore.getNode (memoryGraph rt') (fold_id f) =
      Some (MemoryGraphStore.nodeOfFold f) /\
    Graphlib.hasNode (MemoryGraphStore.graph (memoryGraph rt')) (fold_id f) = true /\
    (forall i, i <> fold_id f -> fold_fractureEventId f <> Some i ->
       MemoryGraphStore.getNode (memoryGraph rt') i =
       MemoryGraphStore.getNode (memoryGraph rt) i) /\
    match fold_fractureEventId f with
    | Some fid =>
        if Js.truthyString fid
        then
          MemoryGraphStore.getEdgesBetween (memoryGraph rt') fid (fold_id f) =
            [MemoryGraphStore.linkOfFold fid f] /\
          Graphlib.hasNode (MemoryGraphStore.graph (memoryGraph rt')) fid = true /\
          match MemoryGraphStore.getNode (memoryGraph rt) fid with
          | Some n =>
              clockCalls (environment rt') = clockCalls (environment rt) /\
              (fid <> fold_id f -> MemoryGraphStore.getNode (memoryGraph rt') fid = Some n)
          | None =>
              clockCalls (environment rt') = S (clockCalls (environment rt)) /\
              (fid <> fold_id f ->
               MemoryGraphStore.getNode (memoryGraph rt') fid =
                 Some (mkNode fid fracture "Placeholder fracture"
                         (clockAt (environment rt) (clockCalls (environment rt)) - 1000)%Z
                         None))
          end
        else environment rt' = environment rt
    | None => environment rt' = environment rt
    end.
Proof.
  intros Hpre. unfold handleRecursionFold.
  destruct (fold_fractureEventId f) as [fid|] eqn:Hf.
  2:{ destruct (@addFold_returns f (memoryGraph rt)) as (Ho & He & Hn & Hh & Hoth & _).
      { intros fid Hfid. congruence. }
      eexists. split.
      { rewrite (@bind_pure _ _ _ _ (Js.ret tt) _ rt rt tt eq_refl).
        erewrite bind_pure; [reflexivity|]. rewrite onGraph_run, Ho, He. reflexivity. }
      split; [apply keeps_addFold; now rewrite Ho|].
      repeat split; auto. }
  destruct (Js.truthyString fid) eqn:Htr.
  2:{ destruct (@addFold_returns f (memoryGraph rt)) as (Ho & He & Hn & Hh & Hoth & _).
      { intros fid' Hfid Htr'. congruence. }
      eexists. split.
      { rewrite (@bind_pure _ _ _ _ (Js.ret tt) _ rt rt tt eq_refl).
        erewrite bind_pure; [reflexivity|]. rewrite onGraph_run, Ho, He. reflexivity. }
      split; [apply keeps_addFold; now rewrite Ho|].
      repeat split; auto. }
  destruct (MemoryGraphStore.getNode (memoryGraph rt) fid) as [n|] eqn:Hget.
  - assert (Hhas : Graphlib.hasNode (MemoryGraphStore.graph (memoryGraph rt)) fid = true).
    { apply (Hpre fid eq_refl Htr). unfold Js.ohas.
      unfold MemoryGraphStore.getNode in Hget. now rewrite Hget. }
    destruct (@addFold_returns f (memoryGraph rt)) as (Ho & He & Hn & Hh & Hoth & Hedge).
    { intros fid' Hfid _. congruence. }
    eexists. split.
    { erewrite bind_pure.
      2:{ erewrite bind_pure by reflexivity. rewrite Hget. reflexivity. }
      erewrite bind_pure; [reflexivity|]. rewrite onGraph_run, Ho, He. reflexivity. }
    pose proof (@keeps_addFold f rt ltac:(now rewrite Ho)) as Hk.
    split; [exact Hk|].
    repeat split; auto.
    + apply (keeps_graph_nodes Hk), Hhas.
    + intros Hne. cbn [memoryGraph setMemoryGraph]. rewrite Hoth by exact Hne. exact Hget.
  - set (ph := mkFracture fid "Placeholder fracture"
                 (clockAt (environment rt) (clockCalls (environment rt)) - 1000)%Z system None).
    set (e1 := mkEnvironment (randomAt (environment rt)) (uuidAt (environment rt))
                 (clockAt (environment rt)) (randomCalls (environment rt))
                 (uuidCalls (environment rt)) (S (clockCalls (environment rt)))).
    set (rt1 := setMemoryGraph
                  (Js.final (MemoryGraphStore.addFracture (E:=Signal) ph (memoryGraph rt)))
                  (setEnvironment e1 rt)).
    assert (Hk1 : keeps rt rt1).
    { apply (@keeps_trans rt (setEnvironment e1 rt) rt1).
      - apply keeps_environment; reflexivity.
      - apply (keeps_addNode _ (setEnvironment e1 rt)). }
    assert (Hhas : Graphlib.hasNode (MemoryGraphStore.graph (memoryGraph rt1)) fid = true).
    { unfold rt1. cbn [memoryGraph setMemoryGraph]. unfold MemoryGraphStore.addFracture.
      rewrite addNode_run, final_run. cbn [MemoryGraphStore.graph node_id fr_id ph].
      rewrite hasNode_setNode. now destruct (decide _). }
    destruct (@addFold_returns f (memoryGraph rt1)) as (Ho & He & Hn & Hh & Hoth & Hedge).
    { intros fid' Hfid _. congruence. }
    exists (setMemoryGraph (Js.final (MemoryGraphStore.addFold (E:=Signal) f (memoryGraph rt1))) rt1).
    split.
    { match goal with |- Js.bind ?m ?k rt = _ =>
        assert (H1 : m rt = (Js.Returned tt, rt1, []))
      end.
      { erewrite bind_pure by reflexivity. rewrite Hget. reflexivity. }
      erewrite bind_pure by exact H1.
      erewrite bind_pure; [reflexivity|].
      rewrite onGraph_run, Ho, He. reflexivity. }
    pose proof (@keeps_addFold f rt1 ltac:(now rewrite Ho)) as Hk2.
    split; [exact (keeps_trans Hk1 Hk2)|].
    repeat split; auto.
    + intros i Hi Hi'. cbn [memoryGraph setMemoryGraph]. rewrite Hoth by exact Hi.
      unfold rt1. cbn [memoryGraph setMemoryGraph]. unfold MemoryGraphStore.addFracture.
      rewrite addNode_run, final_run. unfold MemoryGraphStore.getNode.
      cbn [MemoryGraphStore.nodes node_id fr_id ph].
      apply oget_oset_ne. congruence.
    + apply (keeps_graph_nodes Hk2), Hhas.
    + intros Hne. cbn [memoryGraph setMemoryGraph]. rewrite Hoth by exact Hne.
      unfold rt1. cbn [memoryGraph setMemoryGraph]. unfold MemoryGraphStore.addFracture.
      rewrite addNode_run, final_run. unfold MemoryGraphStore.getNode.
      cbn [MemoryGraphStore.nodes node_id fr_id fr_content fr_timestamp fr_metadata ph].
      apply oget_oset_eq.
Qed.

End RuntimeListeners.

Section RuntimeEngine.
Import McTavish.

Ltac normalise :=
  cbn [environment config collapseEngine memoryGraph characterKernel premonitionMatcher
       interactionBinding setEnvironment setMemoryGraph setCollapseEngine
       randomAt uuidAt clockAt randomCalls uuidCalls clockCalls].

Lemma generateRecursionFold_run (c : CharacterKernel.CharacterField) (fr : FractureEvent)
    (rt : Runtime) :
  Graphlib.hasNode (MemoryGraphStore.graph (memoryGraph rt)) (fr_id fr) = true ->
  exists f rt',
    generateRecursionFold c fr rt =
      (Js.Returned tt, rt', [fromEngine (CollapseEngine.recursionFold f)]) /\
    keeps rt rt' /\
    fold_id f = uuidAt (environment rt) (uuidCalls (environment rt)) /\
    fold_characterId f = CharacterKernel.char_id c /\
    fold_content f =
      "Response from " +:+ CharacterKernel.char_name c +:+ " to " +:+
      quote +:+ fr_content fr +:+ quote /\
    fold_fractureEventId f = Some (fr_id fr) /\
    randomCalls (environment rt') = (3 + randomCalls (environment rt))%nat /\
    premonitionMatcher rt' = premonitionMatcher rt /\
    CollapseEngine.pendingPremonitions (collapseEngine rt') =
      CollapseEngine.pendingPremonitions (collapseEngine rt) /\
    Js.ohas (fold_id f) (CollapseEngine.pendingFolds (collapseEngine rt')) = true /\
    Graphlib.hasNode (MemoryGraphStore.graph (memoryGraph rt')) (fold_id f) = true /\
    (Js.truthyString (fr_id fr) = true ->
     MemoryGraphStore.getEdgesBetween (memoryGraph rt') (fr_id fr) (fold_id f) =
       [MemoryGraphStore.linkOfFold (fr_id fr) f]).
Proof.
  intros Hhas. unfold generateRecursionFold.
  do 6 (erewrite bind_pure by reflexivity; normalise).
  rewrite bind_emit.
  match goal with |- context [Js.bind (handleRecursionFold ?f0) _ ?s0] =>
    set (rt2 := s0); set (f := f0)
  end.
  assert (Hk2 : keeps rt rt2).
  { constructor; cbn; auto.
    - intros key c0 Hget. exists c0. auto.
    - intros i Hi. now apply ohas_oset_mono. }
  destruct (@handleRecursionFold_run f rt2)
    as (rt3 & Hrun & Hk3 & He3 & Hc3 & Hm3 & Hr3 & Hu3 & Hn3 & Hh3 & Hoth3 & Hlink).
  { intros fid [= <-] _ _. apply (keeps_graph_nodes Hk2), Hhas. }
  erewrite bind_pure by exact Hrun.
  exists f, (setCharacterKernel
               (CharacterKernel.applyMutation (CharacterKernel.char_id c) f (kernelOf rt3)) rt3).
  split; [reflexivity|].
  pose proof (keeps_applyMutation (CharacterKernel.char_id c) f rt3) as Hk4.
  split; [exact (keeps_trans (keeps_trans Hk2 Hk3) Hk4)|].
  split; [reflexivity|]. split; [reflexivity|]. split; [reflexivity|]. split; [reflexivity|].
  cbn [environment premonitionMatcher collapseEngine memoryGraph setCharacterKernel].
  rewrite applyMutation_graph. cbn [kernelOf CharacterKernel.memoryGraph].
  rewrite Hr3, Hm3, He3.
  split; [reflexivity|]. split; [reflexivity|]. split; [reflexivity|].
  split; [cbn; apply ohas_oset_eq|].
  split; [exact Hh3|].
  intros Htr. cbn [fold_fractureEventId f] in Hlink. rewrite Htr in Hlink. apply Hlink.
Qed.


Lemma generatePremonition_run (c : CharacterKernel.CharacterField) (rt : Runtime) :
  exists p rt',
    generatePremonition c rt =
      (Js.Returned tt, rt', [fromEngine (CollapseEngine.premonitionEmitted p)]) /\
    keeps rt rt' /\
    prem_id p = uuidAt (environment rt) (uuidCalls (environment rt)) /\
    fold_characterId (prem_fold p) = CharacterKernel.char_id c /\
    prem_content p =
      "Premonition from " +:+ CharacterKernel.char_name c +:+ ": " +:+
      quote +:+ "Something is about to happen..." +:+ quote /\
    fold_fractureEventId (prem_fold p) = None /\
    validityWindow p = premonitionValidityWindow (config rt) /\
    bindingCriteria p = mkBindingCriteria 0.7 0.6 (Some ["example"; "keyword"]) /\
    registered rt' (prem_id p) /\
    Js.ohas (prem_id p) (CollapseEngine.pendingPremonitions (collapseEngine rt')) = true /\
    Graphlib.hasNode (MemoryGraphStore.graph (memoryGraph rt')) (prem_id p) = true /\
    characterKernel rt' = characterKernel rt.
Proof.
  unfold generatePremonition.
  do 6 (erewrite bind_pure by reflexivity; normalise).
  erewrite bind_pure by reflexivity. normalise.
  rewrite bind_emit.
  match goal with |- context [handlePremonition ?p0 ?s0] =>
    set (rt2 := s0); set (p := p0)
  end.
  assert (Hk2 : keeps rt rt2).
  { constructor; cbn; auto.
    - intros key c0 Hget. exists c0. auto.
    - intros i Hi. now apply ohas_oset_mono. }
  destruct (@handlePremonition_run p rt2 eq_refl)
    as (rt3 & Hrun & Hk3 & Hreg & He3 & Hc3 & Hck3 & Hh3).
  exists p, rt3. rewrite Hrun, outcome_run, final_run, emitted_run.
  split; [reflexivity|].
  split; [exact (keeps_trans Hk2 Hk3)|].
  do 6 (split; [reflexivity|]).
  split; [exact Hreg|]. split; [|split; [exact Hh3|rewrite Hck3; reflexivity]].
  rewrite Hc3. cbn. apply ohas_oset_eq.
Qed.

Lemma reactions_app (a b : list Signal) : reactions (a ++ b) = reactions a ++ reactions b.
Proof. unfold reactions. apply omap_app. Qed.

Lemma echoes_app (a b : list Signal) : echoes (a ++ b) = echoes a ++ echoes b.
Proof. unfold echoes. apply omap_app. Qed.

(** One round of the loop of [processFracture]. *)
Lemma eachCharacter_run (fr : FractureEvent) (key : string)
    (c : CharacterKernel.CharacterField) (rt : Runtime) :
  Js.oget key (CharacterKernel.characters (characterKernel rt)) = Some c ->
  Graphlib.hasNode (MemoryGraphStore.graph (memoryGraph rt)) (fr_id fr) = true ->
  exists rt' evs n,
    eachCharacter fr key rt = (Js.Returned tt, rt', evs) /\
    keeps rt rt' /\
    Forall (fun s => exists e, s = fromEngine e) evs /\
    (if Qle_bool (CharacterKernel.collapseThreshold c) (calculateTension c fr)
     then exists f,
            reactions evs = [f] /\
            fold_characterId f = CharacterKernel.char_id c /\
            fold_content f =
              "Response from " +:+ CharacterKernel.char_name c +:+ " to " +:+
              quote +:+ fr_content fr +:+ quote /\
            fold_fractureEventId f = Some (fr_id fr) /\
            Js.ohas (fold_id f) (CollapseEngine.pendingFolds (collapseEngine rt')) = true /\
            Graphlib.hasNode (MemoryGraphStore.graph (memoryGraph rt')) (fold_id f) = true /\
            (Js.truthyString (fr_id fr) = true ->
             Graphlib.edge (MemoryGraphStore.graph (memoryGraph rt')) (fr_id fr) (fold_id f) =
               Some (mkEdge (fr_id fr) (fold_id f) causality 1.0 None))
     else reactions evs = [] /\ characterKernel rt' = characterKernel rt) /\
    (if Qlt_bool (randomAt (environment rt) n) 0.2
     then exists p,
            echoes evs = [p] /\
            fold_characterId (prem_fold p) = CharacterKernel.char_id c /\
            prem_content p =
              "Premonition from " +:+ CharacterKernel.char_name c +:+ ": " +:+
              quote +:+ "Something is about to happen..." +:+ quote /\
            fold_fractureEventId (prem_fold p) = None /\
            validityWindow p = premonitionValidityWindow (config rt) /\
            bindingCriteria p = mkBindingCriteria 0.7 0.6 (Some ["example"; "keyword"]) /\
            registered rt' (prem_id p) /\
            Js.ohas (prem_id p)
              (CollapseEngine.pendingPremonitions (collapseEngine rt')) = true /\
            Graphlib.hasNode (MemoryGraphStore.graph (memoryGraph rt')) (prem_id p) = true
     else echoes evs = [] /\
          premonitionMatcher rt' = premonitionMatcher rt /\
          CollapseEngine.pendingPremonitions (collapseEngine rt') =
            CollapseEngine.pendingPremonitions (collapseEngine rt)).
Proof.
  intros Hc Hhas. unfold eachCharacter.
  erewrite bind_pure by reflexivity. rewrite Hc.
  (* the reaction *)
  assert (Hfirst : exists rt1 ev1,
            (if Qle_bool (CharacterKernel.collapseThreshold c) (calculateTension c fr)
             then generateRecursionFold c fr else Js.ret tt) rt = (Js.Returned tt, rt1, ev1) /\
            keeps rt rt1 /\
            Forall (fun s => exists e, s = fromEngine e) ev1 /\
            echoes ev1 = [] /\
            premonitionMatcher rt1 = premonitionMatcher rt /\
            CollapseEngine.pendingPremonitions (collapseEngine rt1) =
              CollapseEngine.pendingPremonitions (collapseEngine rt) /\
            randomCalls (environment rt1) =
              ((if Qle_bool (CharacterKernel.collapseThreshold c) (calculateTension c fr)
                then 3 else 0) + randomCalls (environment rt))%nat /\
            (if Qle_bool (CharacterKernel.collapseThreshold c) (calculateTension c fr)
             then exists f,
                    reactions ev1 = [f] /\
                    fold_characterId f = CharacterKernel.char_id c /\
                    fold_content f =
                      "Response from " +:+ CharacterKernel.char_name c +:+ " to " +:+
                      quote +:+ fr_content fr +:+ quote /\
                    fold_fractureEventId f = Some (fr_id fr) /\
                    Js.ohas (fold_id f) (CollapseEngine.pendingFolds (collapseEngine rt1)) = true /\
                    Graphlib.hasNode (MemoryGraphStore.graph (memoryGraph rt1)) (fold_id f) = true /\
                    (Js.truthyString (fr_id fr) = true ->
                     Graphlib.edge (MemoryGraphStore.graph (memoryGraph rt1))
                       (fr_id fr) (fold_id f) =
                       Some (mkEdge (fr_id fr) (fold_id f) causality 1.0 None))
             else reactions ev1 = [] /\ characterKernel rt1 = characterKernel rt)).
  { destruct (Qle_bool (CharacterKernel.collapseThreshold c) (calculateTension c fr)).
    - destruct (@generateRecursionFold_run c fr rt Hhas)
        as (f & rt1 & Hrun & Hk & Hid & Hcid & Hcont & Hfid & Hr & Hm & Hp & Hpf & Hh & Hedge).
      exists rt1, [fromEngine (CollapseEngine.recursionFold f)].
      split; [exact Hrun|]. split; [exact Hk|].
      split; [repeat constructor; eexists; reflexivity|].
      split; [reflexivity|]. split; [exact Hm|]. split; [exact Hp|]. split; [exact Hr|].
      exists f. split; [reflexivity|]. split; [exact Hcid|]. split; [exact Hcont|].
      split; [exact Hfid|]. split; [exact Hpf|]. split; [exact Hh|].
      intros Htr. specialize (Hedge Htr). unfold MemoryGraphStore.getEdgesBetween in Hedge.
      destruct (Graphlib.edge _ _ _) as [e|]; [|discriminate Hedge].
      injection Hedge as ->. reflexivity.
    - exists rt, []. split; [reflexivity|]. split; [apply keeps_refl|].
      split; [constructor|]. repeat split; reflexivity. }
  destruct Hfirst as (rt1 & ev1 & Hrun1 & Hk1 & Hall1 & Hech1 & Hm1 & Hp1 & Hr1 & Hreact).
  erewrite bind_returned by exact Hrun1.
  erewrite bind_pure by reflexivity. normalise.
  set (n := randomCalls (environment rt1)).
  set (rt2 := setEnvironment _ rt1).
  assert (Hk2 : keeps rt1 rt2).
  { constructor; cbn; auto. intros key0 c0 Hget. exists c0. auto. }
  unfold getPremontionProbability.
  rewrite (keeps_random Hk1).
  destruct (Qlt_bool (randomAt (environment rt) n) 0.2) eqn:Hdraw.
  - destruct (@generatePremonition_run c rt2)
      as (p & rt3 & Hrun3 & Hk3 & Hid & Hcid & Hcont & Hfid & Hw & Hcrit & Hreg & Hpp & Hh & Hck).
    exists rt3, (ev1 ++ [fromEngine (CollapseEngine.premonitionEmitted p)]), n.
    rewrite Hdraw, Hrun3, outcome_run, final_run, emitted_run.
    split; [reflexivity|].
    pose proof (keeps_trans Hk2 Hk3) as Hk23.
    split; [exact (keeps_trans Hk1 Hk23)|].
    split; [apply Forall_app; split; [exact Hall1|repeat constructor; eexists; reflexivity]|].
    split.
    + rewrite reactions_app, app_nil_r.
      destruct (Qle_bool (CharacterKernel.collapseThreshold c) (calculateTension c fr));
        [|split; [apply Hreact|rewrite Hck; apply Hreact]].
      destruct Hreact as (f & Hf & Hcidf & Hcontf & Hfidf & Hpf & Hhf & Hedge).
      exists f. split; [exact Hf|]. split; [exact Hcidf|]. split; [exact Hcontf|].
      split; [exact Hfidf|].
      split; [apply (keeps_pendingFolds Hk23), Hpf|].
      split; [apply (keeps_graph_nodes Hk23), Hhf|].
      intros Htr. apply (keeps_links Hk23), Hedge, Htr.
    + exists p. rewrite echoes_app, Hech1.
      split; [reflexivity|]. split; [exact Hcid|]. split; [exact Hcont|]. split; [exact Hfid|].
      split; [rewrite Hw, (keeps_config Hk2), (keeps_config Hk1); reflexivity|].
      split; [exact Hcrit|]. split; [exact Hreg|]. split; [exact Hpp|exact Hh].
  - exists rt2, (ev1 ++ []), n.
    rewrite Hdraw.
    split; [reflexivity|].
    split; [exact (keeps_trans Hk1 Hk2)|].
    split; [rewrite app_nil_r; exact Hall1|].
    split.
    + rewrite app_nil_r.
      destruct (Qle_bool (CharacterKernel.collapseThreshold c) (calculateTension c fr));
        [|split; [apply Hreact|apply Hreact]].
      destruct Hreact as (f & Hf & Hcidf & Hcontf & Hfidf & Hpf & Hhf & Hedge).
      exists f. split; [exact Hf|]. split; [exact Hcidf|]. split; [exact Hcontf|].
      split; [exact Hfidf|].
      split; [apply (keeps_pendingFolds Hk2), Hpf|].
      split; [apply (keeps_graph_nodes Hk2), Hhf|].
      intros Htr. apply (keeps_links Hk2), Hedge, Htr.
    + rewrite app_nil_r. split; [exact Hech1|]. split; [exact Hm1|exact Hp1].
Qed.


Lemma reacts_iff (c : CharacterKernel.CharacterField) (fr : FractureEvent) :
  Qle_bool (CharacterKernel.collapseThreshold c) (calculateTension c fr) = true <->
  CharacterKernel.collapseThreshold c <= 1.
Proof.
  rewrite Qle_bool_iff. unfold calculateTension.
  assert (H : 0.5 + 0.3 + 0.2 == 1) by reflexivity.
  split; intros Hle.
  - now rewrite <- H.
  - now rewrite H.
Qed.

Lemma Forall2_within {X Y : Type} (R1 R : X -> Y -> Prop) (xs : list X) (ys : list Y) :
  (forall x y, In y ys -> R1 x y -> R x y) -> Forall2 R1 xs ys -> Forall2 R xs ys.
Proof.
  intros Himp H. induction H as [|x y xs ys Hxy _ IH]; constructor.
  - apply Himp; [now left|exact Hxy].
  - apply IH. intros x' y' Hin. apply Himp. now right.
Qed.

Lemma character_back (rt rt1 : Runtime) (key : string) (c1 : CharacterKernel.CharacterField) :
  keeps rt rt1 ->
  (exists c, Js.oget key (CharacterKernel.characters (characterKernel rt)) = Some c) ->
  Js.oget key (CharacterKernel.characters (characterKernel rt1)) = Some c1 ->
  exists c0,
    Js.oget key (CharacterKernel.characters (characterKernel rt)) = Some c0 /\
    CharacterKernel.char_id c1 = CharacterKernel.char_id c0 /\
    CharacterKernel.char_name c1 = CharacterKernel.char_name c0 /\
    (CharacterKernel.collapseThreshold c0 <= 1 -> CharacterKernel.collapseThreshold c1 <= 1).
Proof.
  intros Hk (c0 & Hc0) Hc1.
  destruct (keeps_characters Hk key Hc0) as (c' & Hc' & Hid & Hname & Ht).
  rewrite Hc1 in Hc'. injection Hc' as <-. exists c0. auto.
Qed.

(** The loop of [processFracture] over the keys [ks]. *)
Lemma characters_loop (fr : FractureEvent) (ks : list string) : forall rt,
  (forall key, In key ks ->
     exists c, Js.oget key (CharacterKernel.characters (characterKernel rt)) = Some c) ->
  Graphlib.hasNode (MemoryGraphStore.graph (memoryGraph rt)) (fr_id fr) = true ->
  exists rt' evs,
    Js.forOf ks (eachCharacter fr) rt = (Js.Returned tt, rt', evs) /\
    keeps rt rt' /\
    Forall (fun s => exists e, s = fromEngine e) evs /\
    ((forall key c, In key ks ->
        Js.oget key (CharacterKernel.characters (characterKernel rt)) = Some c ->
        CharacterKernel.collapseThreshold c <= 1) ->
     Forall2 (fun f key =>
                exists c,
                  Js.oget key (CharacterKernel.characters (characterKernel rt)) = Some c /\
                  fold_characterId f = CharacterKernel.char_id c /\
                  fold_content f =
                    "Response from " +:+ CharacterKernel.char_name c +:+ " to " +:+
                    quote +:+ fr_content fr +:+ quote)
             (reactions evs) ks) /\
    ((forall key c, In key ks ->
        Js.oget key (CharacterKernel.characters (characterKernel rt)) = Some c ->
        1 < CharacterKernel.collapseThreshold c) ->
     reactions evs = [] /\ characterKernel rt' = characterKernel rt) /\
    Forall (fun f =>
              fold_fractureEventId f = Some (fr_id fr) /\
              Js.ohas (fold_id f) (CollapseEngine.pendingFolds (collapseEngine rt')) = true /\
              Graphlib.hasNode (MemoryGraphStore.graph (memoryGraph rt')) (fold_id f) = true /\
              (Js.truthyString (fr_id fr) = true ->
               Graphlib.edge (MemoryGraphStore.graph (memoryGraph rt')) (fr_id fr) (fold_id f) =
                 Some (mkEdge (fr_id fr) (fold_id f) causality 1.0 None)))
           (reactions evs) /\
    ((forall n, 0.2 <= randomAt (environment rt) n) ->
     echoes evs = [] /\
     premonitionMatcher rt' = premonitionMatcher rt /\
     CollapseEngine.pendingPremonitions (collapseEngine rt') =
       CollapseEngine.pendingPremonitions (collapseEngine rt)) /\
    ((forall n, randomAt (environment rt) n < 0.2) ->
     Forall2 (fun p key =>
                exists c,
                  Js.oget key (CharacterKernel.characters (characterKernel rt)) = Some c /\
                  fold_characterId (prem_fold p) = CharacterKernel.char_id c /\
                  prem_content p =
                    "Premonition from " +:+ CharacterKernel.char_name c +:+ ": " +:+
                    quote +:+ "Something is about to happen..." +:+ quote)
             (echoes evs) ks) /\
    Forall (fun p =>
              fold_fractureEventId (prem_fold p) = None /\
              validityWindow p = premonitionValidityWindow (config rt) /\
              bindingCriteria p = mkBindingCriteria 0.7 0.6 (Some ["example"; "keyword"]) /\
              registered rt' (prem_id p) /\
              Js.ohas (prem_id p)
                (CollapseEngine.pendingPremonitions (collapseEngine rt')) = true /\
              Graphlib.hasNode (MemoryGraphStore.graph (memoryGraph rt')) (prem_id p) = true)
           (echoes evs).
Proof.
  induction ks as [|key ks IH]; intros rt Hpresent Hhas.
  - exists rt, []. split; [reflexivity|]. split; [apply keeps_refl|].
    split; [constructor|]. split; [intros _; constructor|].
    split; [intros _; split; reflexivity|]. split; [constructor|].
    split; [intros _; repeat split; reflexivity|].
    split; [intros _; constructor|constructor].
  - destruct (Hpresent key (or_introl eq_refl)) as (c & Hc).
    destruct (@eachCharacter_run fr key c rt Hc Hhas)
      as (rt1 & ev1 & n & Hrun1 & Hk1 & Hall1 & Hreact & Hecho).
    assert (Hpresent1 : forall key', In key' ks ->
              exists c', Js.oget key' (CharacterKernel.characters (characterKernel rt1)) = Some c').
    { intros key' Hin. destruct (Hpresent key' (or_intror Hin)) as (c0 & Hc0).
      destruct (keeps_characters Hk1 key' Hc0) as (c' & Hc' & _). now exists c'. }
    destruct (IH rt1 Hpresent1 (keeps_graph_nodes Hk1 _ Hhas))
      as (rt2 & ev2 & Hrun2 & Hk2 & Hall2 & Hle2 & Hgt2 & Hfolds2 & Hnone2 & Hall_e2 & Hech2).
    exists rt2, (ev1 ++ ev2).
    split.
    { cbn [Js.forOf]. erewrite bind_returned by exact Hrun1.
      rewrite Hrun2. reflexivity. }
    split; [exact (keeps_trans Hk1 Hk2)|].
    split; [apply Forall_app; split; assumption|].
    rewrite reactions_app, echoes_app.
    split; [|split; [|split; [|split; [|split]]]].
    + (* every character reacts *)
      intros Hthr.
      assert (Hr : Qle_bool (CharacterKernel.collapseThreshold c) (calculateTension c fr) = true).
      { apply reacts_iff. apply (Hthr key c (or_introl eq_refl) Hc). }
      rewrite Hr in Hreact.
      destruct Hreact as (f & Hf & Hcid & Hcont & _). rewrite Hf. cbn [app].
      constructor; [exists c; auto|].
      assert (Hthr1 : forall key' c', In key' ks ->
                Js.oget key' (CharacterKernel.characters (characterKernel rt1)) = Some c' ->
                CharacterKernel.collapseThreshold c' <= 1).
      { intros key' c' Hin Hc'. destruct (Hpresent key' (or_intror Hin)) as (c0 & Hc0).
        destruct (keeps_characters Hk1 key' Hc0) as (c1 & Hc1 & _ & _ & Ht).
        rewrite Hc1 in Hc'. injection Hc' as <-. apply Ht, (Hthr key' c0 (or_intror Hin) Hc0). }
      specialize (Hle2 Hthr1).
      apply (Forall2_within (R1 := fun f key =>
               exists c,
                 Js.oget key (CharacterKernel.characters (characterKernel rt1)) = Some c /\
                 fold_characterId f = CharacterKernel.char_id c /\
                 fold_content f =
                   "Response from " +:+ CharacterKernel.char_name c +:+ " to " +:+
                   quote +:+ fr_content fr +:+ quote)); [|exact Hle2].
      intros f' key' Hin (c1 & Hc1 & Hid1 & Hcont1).
      destruct (@character_back rt rt1 key' c1 Hk1 (Hpresent key' (or_intror Hin)) Hc1)
        as (c0 & Hc0 & Hid0 & Hname0 & _).
      exists c0. rewrite <- Hid0, <- Hname0. auto.
    + (* no character reacts *)
      intros Hthr.
      assert (Hr : Qle_bool (CharacterKernel.collapseThreshold c) (calculateTension c fr) = false).
      { destruct (Qle_bool _ _) eqn:Hb; [|reflexivity].
        apply reacts_iff in Hb. pose proof (Hthr key c (or_introl eq_refl) Hc) as Hlt.
        exfalso. apply (Qlt_not_le _ _ Hlt Hb). }
      rewrite Hr in Hreact. destruct Hreact as (Hnil & Hsame).
      destruct Hgt2 as (Hnil2 & Hsame2).
      { intros key' c' Hin Hc'. rewrite Hsame in Hc'. apply (Hthr key' c' (or_intror Hin) Hc'). }
      rewrite Hnil, Hnil2, Hsame2, Hsame. split; reflexivity.
    + (* what holds of every reaction *)
      apply Forall_app. split; [|exact Hfolds2].
      destruct (Qle_bool (CharacterKernel.collapseThreshold c) (calculateTension c fr)).
      * destruct Hreact as (f & Hf & _ & _ & Hfid & Hpf & Hh & Hedge). rewrite Hf.
        constructor; [|constructor].
        split; [exact Hfid|].
        split; [apply (keeps_pendingFolds Hk2), Hpf|].
        split; [apply (keeps_graph_nodes Hk2), Hh|].
        intros Htr. apply (keeps_links Hk2), Hedge, Htr.
      * destruct Hreact as (-> & _). constructor.
    + (* no draw under 0.2 *)
      intros Hdraws.
      assert (Hd : Qlt_bool (randomAt (environment rt) n) 0.2 = false).
      { unfold Qlt_bool. apply negb_false_iff, Qle_bool_iff, Hdraws. }
      rewrite Hd in Hecho. destruct Hecho as (Hnil & Hm & Hp).
      destruct Hnone2 as (Hnil2 & Hm2 & Hp2).
      { intros m. rewrite (keeps_random Hk1). apply Hdraws. }
      rewrite Hnil, Hnil2, Hm2, Hm, Hp2, Hp. repeat split; reflexivity.
    + (* every draw under 0.2 *)
      intros Hdraws.
      assert (Hd : Qlt_bool (randomAt (environment rt) n) 0.2 = true).
      { unfold Qlt_bool. apply negb_true_iff.
        destruct (Qle_bool 0.2 (randomAt (environment rt) n)) eqn:Hb; [|reflexivity].
        apply Qle_bool_iff in Hb. exfalso. apply (Qlt_not_le _ _ (Hdraws n) Hb). }
      rewrite Hd in Hecho. destruct Hecho as (p & Hp & Hcid & Hcont & _). rewrite Hp. cbn [app].
      constructor; [exists c; auto|].
      apply (Forall2_within (R1 := fun p key =>
               exists c,
                 Js.oget key (CharacterKernel.characters (characterKernel rt1)) = Some c /\
                 fold_characterId (prem_fold p) = CharacterKernel.char_id c /\
                 prem_content p =
                   "Premonition from " +:+ CharacterKernel.char_name c +:+ ": " +:+
                   quote +:+ "Something is about to happen..." +:+ quote)).
      2:{ apply Hall_e2. intros m. rewrite (keeps_random Hk1). apply Hdraws. }
      intros p' key' Hin (c1 & Hc1 & Hid1 & Hcont1).
      destruct (@character_back rt rt1 key' c1 Hk1 (Hpresent key' (or_intror Hin)) Hc1)
        as (c0 & Hc0 & Hid0 & Hname0 & _).
      exists c0. rewrite <- Hid0, <- Hname0. auto.
    + (* what holds of every echo *)
      apply Forall_app. split.
      * destruct (Qlt_bool (randomAt (environment rt) n) 0.2).
        -- destruct Hecho as (p & Hp & _ & _ & Hfid & Hw & Hcrit & Hreg & Hpp & Hh). rewrite Hp.
           constructor; [|constructor].
           split; [exact Hfid|]. split; [exact Hw|]. split; [exact Hcrit|].
           split; [apply (keeps_registered Hk2), Hreg|].
           split; [apply (keeps_pendingPremonitions Hk2), Hpp|].
           apply (keeps_graph_nodes Hk2), Hh.
        -- destruct Hecho as (-> & _). constructor.
      * eapply Forall_impl; [exact Hech2|]. cbn beta.
        intros p (Hfid & Hw & Hrest). split; [exact Hfid|].
        split; [rewrite Hw; f_equal; apply (keeps_config Hk1)|exact Hrest].
Qed.

End RuntimeEngine.

Section RuntimeCalls.
Import McTavish.

Lemma Forall2_values {X V : Type} (Q : X -> V -> Prop) (m : list (string * V)) (xs : list X) :
  List.NoDup (Js.okeys m) ->
  Forall2 (fun x key => exists c, Js.oget key m = Some c /\ Q x c) xs (Js.okeys m) ->
  Forall2 Q xs (Js.ovalues m).
Proof.
  intros Hnd.
  assert (Hgen : forall part, (forall k v, In (k, v) part -> Js.oget k m = Some v) ->
            forall ys,
              Forall2 (fun x key => exists c, Js.oget key m = Some c /\ Q x c) ys (Js.okeys part) ->
              Forall2 Q ys (Js.ovalues part)).
  { induction part as [|[k v] part IH]; intros Hin ys H; cbn in H |- *.
    - inversion H. constructor.
    - inversion H as [|y k' ys' ks' (c & Hc & Hq) Hrest]; subst.
      constructor.
      + rewrite (Hin k v (or_introl eq_refl)) in Hc. injection Hc as <-. exact Hq.
      + apply IH; [|exact Hrest]. intros k0 v0 H0. apply Hin. now right. }
  apply Hgen. intros k v Hin. now apply in_oget_nodup.
Qed.

(** [introduceFracture]: the stimulus is stored and recorded, then the loop
    runs from a runtime in which the stimulus is a node. *)
Lemma introduceFracture_run (content : string) (src : Source) (rt : Runtime) :
  let e := environment rt in
  let fr := CollapseEngine.createFracture (uuidAt e (uuidCalls e)) (clockAt e (clockCalls e))
              content src in
  exists rt0,
    introduceFracture content src rt =
      Js.forOf (Js.okeys (CharacterKernel.characters (characterKernel rt)))
               (eachCharacter fr) rt0 /\
    config rt0 = config rt /\
    randomAt (environment rt0) = randomAt e /\
    interactionBinding rt0 = interactionBinding rt /\
    premonitionMatcher rt0 = premonitionMatcher rt /\
    characterKernel rt0 = characterKernel rt /\
    CollapseEngine.activeFractures (collapseEngine rt0) =
      Js.oset (fr_id fr) fr (CollapseEngine.activeFractures (collapseEngine rt)) /\
    CollapseEngine.pendingPremonitions (collapseEngine rt0) =
      CollapseEngine.pendingPremonitions (collapseEngine rt) /\
    CollapseEngine.pendingFolds (collapseEngine rt0) =
      CollapseEngine.pendingFolds (collapseEngine rt) /\
    Graphlib.hasNode (MemoryGraphStore.graph (memoryGraph rt0)) (fr_id fr) = true /\
    (forall i, Graphlib.hasNode (MemoryGraphStore.graph (memoryGraph rt)) i = true ->
               Graphlib.hasNode (MemoryGraphStore.graph (memoryGraph rt0)) i = true) /\
    (MemoryGraphStore.sound (memoryGraph rt) -> MemoryGraphStore.sound (memoryGraph rt0)).
Proof.
  intros e fr. unfold introduceFracture.
  erewrite bind_pure by reflexivity.
  erewrite bind_pure by reflexivity.
  erewrite bind_pure by reflexivity.
  unfold processFracture.
  erewrite bind_pure by reflexivity.
  erewrite bind_pure by reflexivity.
  eexists. split; [reflexivity|].
  cbn -[Graphlib.hasNode Graphlib.setNode Js.oset MemoryGraphStore.sound].
  do 8 (split; [reflexivity|]).
  split; [rewrite hasNode_setNode; now destruct (decide _)|].
  split; [intros i Hi; rewrite hasNode_setNode; now destruct (decide _)|].
  intros Hs.
  pose proof (@sound_addNode Signal
                (mkNode (fr_id fr) fracture (fr_content fr) (fr_timestamp fr) (fr_metadata fr))
                (memoryGraph rt) Hs) as Hs'.
  rewrite addNode_run, final_run in Hs'. exact Hs'.
Qed.

Lemma selectResponse_idle (now : Z) (foldId : string) (t : InteractionBindingLogic.Logic) :
  InteractionBindingLogic.pendingBindings t = [] ->
  InteractionBindingLogic.selectResponse now foldId t = (Js.Returned tt, t, []).
Proof.
  intros Hnone. unfold InteractionBindingLogic.selectResponse.
  erewrite bind_pure by reflexivity.
  destruct (MemoryGraphStore.getNode _ foldId) as [n|]; [|reflexivity].
  destruct (negb (NodeType_eqb (node_type n) fold)); [reflexivity|].
  destruct (InteractionBindingLogic.fractureOf n) as [v|]; [|reflexivity].
  destruct (negb (truthy v)); [reflexivity|].
  destruct v; try reflexivity.
  rewrite Hnone. reflexivity.
Qed.


(** What a call of [introduceFracture] leaves alone, and that it returns. *)
Lemma introduceFracture_frame (content : string) (src : Source) (rt : Runtime) :
  let e := environment rt in
  let fr := CollapseEngine.createFracture (uuidAt e (uuidCalls e)) (clockAt e (clockCalls e))
              content src in
  let r := introduceFracture content src rt in
  Js.outcome r = Js.Returned tt /\
  Forall (fun s => exists ev, s = fromEngine ev) (Js.emitted r) /\
  interactionBinding (Js.final r) = interactionBinding rt /\
  PremonitionMatcher.turnCounter (premonitionMatcher (Js.final r)) =
    PremonitionMatcher.turnCounter (premonitionMatcher rt) /\
  Js.oget (fr_id fr) (CollapseEngine.activeFractures (collapseEngine (Js.final r))) = Some fr /\
  Graphlib.hasNode (MemoryGraphStore.graph (memoryGraph (Js.final r))) (fr_id fr) = true /\
  (forall i, Graphlib.hasNode (MemoryGraphStore.graph (memoryGraph rt)) i = true ->
             Graphlib.hasNode (MemoryGraphStore.graph (memoryGraph (Js.final r))) i = true) /\
  (MemoryGraphStore.sound (memoryGraph rt) ->
   MemoryGraphStore.sound (memoryGraph (Js.final r))) /\
  Js.okeys (CharacterKernel.characters (characterKernel (Js.final r))) =
    Js.okeys (CharacterKernel.characters (characterKernel rt)) /\
  config (Js.final r) = config rt.
Proof.
  intros e fr r.
  destruct (introduceFracture_run content src rt)
    as (rt0 & Hrun & Hcfg & Hrnd & Hbind & Hm & Hck & Haf & Hpp & Hpf & Hhas & Hmono & Hsound).
  fold e in Hrun, Hrnd, Haf, Hhas. fold fr in Hrun, Haf, Hhas.
  destruct (@characters_loop fr (Js.okeys (CharacterKernel.characters (characterKernel rt))) rt0)
    as (rt' & evs & Hloop & Hk & Hall & _).
  { intros key Hin. rewrite Hck. apply ohas_true_oget, ohas_of_key, Hin. }
  { exact Hhas. }
  unfold r. rewrite Hrun, Hloop, outcome_run, emitted_run, final_run.
  split; [reflexivity|]. split; [exact Hall|].
  split; [rewrite (keeps_binding Hk); exact Hbind|].
  split; [rewrite (keeps_turn Hk), Hm; reflexivity|].
  split; [rewrite (keeps_fractures Hk), Haf; apply oget_oset_eq|].
  split; [apply (keeps_graph_nodes Hk), Hhas|].
  split; [intros i Hi; apply (keeps_graph_nodes Hk), Hmono, Hi|].
  split; [intros Hs; apply (keeps_sound Hk), Hsound, Hs|].
  split; [rewrite (keeps_keys Hk), Hck; reflexivity|].
  rewrite (keeps_config Hk). exact Hcfg.
Qed.

End RuntimeCalls.

(** X24. [handleRecursionFold] makes the store accept any reaction that
    names a stimulus: on a store whose node map and graph agree, the call
    returns and emits nothing; the node of the reaction is stored and the
    lookup by pair of nodes finds the causality edge of weight 1 from the
    stimulus to the reaction. A stimulus the store does not know is stored
    first, as a node with the content "Placeholder fracture" and the
    timestamp [Date.now() - 1000]; a known one is left as it is, and the
    clock is not read. No other node changes, and the engine, the kernel,
    the matcher and the binding logic are untouched. *)
Theorem handleRecursionFold_links_any_reaction
    (f : RecursionFold) (fid : string) (rt : McTavish.Runtime) :
  MemoryGraphStore.consistent (McTavish.memoryGraph rt) ->
  fold_fractureEventId f = Some fid ->
  Js.truthyString fid = true ->
  let r := McTavish.handleRecursionFold f rt in
  let g := McTavish.memoryGraph rt in
  let g' := McTavish.memoryGraph (Js.final r) in
  let e := McTavish.environment rt in
  let placeholder :=
    mkNode fid fracture "Placeholder fracture"
      (McTavish.clockAt e (McTavish.clockCalls e) - 1000)%Z None in
  Js.outcome r = Js.Returned tt /\
  Js.emitted r = [] /\
  MemoryGraphStore.getNode g' (fold_id f) = Some (MemoryGraphStore.nodeOfFold f) /\
  MemoryGraphStore.getEdgesBetween g' fid (fold_id f) = [MemoryGraphStore.linkOfFold fid f] /\
  (fid <> fold_id f ->
   MemoryGraphStore.getNode g' fid =
     Some (match MemoryGraphStore.getNode g fid with Some n => n | None => placeholder end)) /\
  (forall i, i <> fold_id f -> i <> fid ->
     MemoryGraphStore.getNode g' i = MemoryGraphStore.getNode g i) /\
  McTavish.clockCalls (McTavish.environment (Js.final r)) =
    (match MemoryGraphStore.getNode g fid with
     | Some _ => McTavish.clockCalls e
     | None => S (McTavish.clockCalls e)
     end) /\
  McTavish.collapseEngine (Js.final r) = McTavish.collapseEngine rt /\
  McTavish.characterKernel (Js.final r) = McTavish.characterKernel rt /\
  McTavish.premonitionMatcher (Js.final r) = McTavish.premonitionMatcher rt /\
  McTavish.interactionBinding (Js.final r) = McTavish.interactionBinding rt.
Proof.
  intros Hcons Hf Htr r g g' e placeholder.
  destruct (@handleRecursionFold_run f rt)
    as (rt' & Hrun & Hk & He & Hc & Hm & _ & _ & Hn & _ & Hoth & Hlink).
  { intros fid' _ _ Hhas. rewrite Hcons. exact Hhas. }
  rewrite Hf, Htr in Hlink. destruct Hlink as (Hedge & _ & Hcase).
  unfold g', r. rewrite Hrun, outcome_run, emitted_run, final_run.
  split; [reflexivity|]. split; [reflexivity|]. split; [exact Hn|]. split; [exact Hedge|].
  split.
  { intros Hne. fold g in Hcase. destruct (MemoryGraphStore.getNode g fid); now apply Hcase. }
  split.
  { intros i Hi Hi'. apply Hoth; [exact Hi|]. rewrite Hf. congruence. }
  split.
  { fold g in Hcase. destruct (MemoryGraphStore.getNode g fid); apply Hcase. }
  split; [exact He|]. split; [exact Hc|]. split; [exact Hm|].
  apply (McTavish.keeps_binding Hk).
Qed.

Lemma handleRecursionFold_links_any_reaction_witness :
  let r := McTavish.handleRecursionFold Scenarios.joyfulFold Scenarios.runtimeElena in
  Js.outcome r = Js.Returned tt /\
  MemoryGraphStore.getEdgesBetween (McTavish.memoryGraph (Js.final r))
    "stimulus-1" "reaction-2" =
    [MemoryGraphStore.linkOfFold "stimulus-1" Scenarios.joyfulFold] /\
  MemoryGraphStore.getNode (McTavish.memoryGraph (Js.final r)) "stimulus-1" =
    Some (mkNode "stimulus-1" fracture "Placeholder fracture" 0%Z None).
Proof.
  destruct (@handleRecursionFold_links_any_reaction Scenarios.joyfulFold "stimulus-1"
              Scenarios.runtimeElena)
    as (Ho & _ & _ & Hedge & Hph & _).
  - exact (@consistent_addNode McTavish.Signal
             (mkNode "anchor-1" memory "Character creation: Elena" 100%Z
                (Some [("characterId", MStr "system"); ("type", MStr "character_anchor")]))
             MemoryGraphStore.empty consistent_empty).
  - reflexivity.
  - reflexivity.
  - split; [exact Ho|]. split; [exact Hedge|]. apply Hph. discriminate.
Defined.

(** X25. [introduceFracture] always returns: whatever the runtime holds and
    whatever values [Math.random()], [uuidv4()] and [Date.now()] give, no
    call throws. The stimulus is recorded among the active stimuli of the
    engine and is a node of the store; no node is lost and a sound store
    stays sound; the characters stay the same ones. The call never reaches
    the matcher's [processFracture] or the binding logic: every event is an
    event of the engine, so no ['binding'] is announced and no listener of it
    runs, the turn counter of the matcher does not move, and the binding
    logic is exactly as it was. *)
Theorem introduceFracture_never_throws
    (content : string) (src : Source) (rt : McTavish.Runtime) :
  let e := McTavish.environment rt in
  let fr :=
    CollapseEngine.createFracture (McTavish.uuidAt e (McTavish.uuidCalls e))
      (McTavish.clockAt e (McTavish.clockCalls e)) content src in
  let r := McTavish.introduceFracture content src rt in
  Js.outcome r = Js.Returned tt /\
  Forall (fun s => exists ev, s = McTavish.fromEngine ev) (Js.emitted r) /\
  McTavish.interactionBinding (Js.final r) = McTavish.interactionBinding rt /\
  PremonitionMatcher.turnCounter (McTavish.premonitionMatcher (Js.final r)) =
    PremonitionMatcher.turnCounter (McTavish.premonitionMatcher rt) /\
  Js.oget (fr_id fr) (CollapseEngine.activeFractures (McTavish.collapseEngine (Js.final r))) =
    Some fr /\
  Graphlib.hasNode (MemoryGraphStore.graph (McTavish.memoryGraph (Js.final r))) (fr_id fr)
    = true /\
  (forall i, Graphlib.hasNode (MemoryGraphStore.graph (McTavish.memoryGraph rt)) i = true ->
     Graphlib.hasNode (MemoryGraphStore.graph (McTavish.memoryGraph (Js.final r))) i = true) /\
  (MemoryGraphStore.sound (McTavish.memoryGraph rt) ->
   MemoryGraphStore.sound (McTavish.memoryGraph (Js.final r))) /\
  Js.okeys (CharacterKernel.characters (McTavish.characterKernel (Js.final r))) =
    Js.okeys (CharacterKernel.characters (McTavish.characterKernel rt)) /\
  McTavish.config (Js.final r) = McTavish.config rt.
Proof. apply introduceFracture_frame. Qed.

Section RuntimeRounds.
Import McTavish.

(** The rounds of [introduceFracture], with the characters listed as
    [getCharacters] lists them. *)
Lemma introduceFracture_rounds (content : string) (src : Source) (rt : Runtime) :
  List.NoDup (Js.okeys (CharacterKernel.characters (characterKernel rt))) ->
  let e := environment rt in
  let id := uuidAt e (uuidCalls e) in
  let r := introduceFracture content src rt in
  ((forall c, In c (getCharacters rt) -> CharacterKernel.collapseThreshold c <= 1) ->
   Forall2 (fun f c =>
              fold_characterId f = CharacterKernel.char_id c /\
              fold_content f =
                "Response from " +:+ CharacterKernel.char_name c +:+ " to " +:+
                quote +:+ content +:+ quote)
           (reactions (Js.emitted r)) (getCharacters rt) /\
   (forall c, In c (getCharacters (Js.final r)) -> CharacterKernel.collapseThreshold c <= 1)) /\
  ((forall c, In c (getCharacters rt) -> 1 < CharacterKernel.collapseThreshold c) ->
   reactions (Js.emitted r) = [] /\ characterKernel (Js.final r) = characterKernel rt) /\
  Forall (fun f =>
            fold_fractureEventId f = Some id /\
            Js.ohas (fold_id f) (CollapseEngine.pendingFolds (collapseEngine (Js.final r))) = true /\
            Graphlib.hasNode (MemoryGraphStore.graph (memoryGraph (Js.final r))) (fold_id f)
              = true /\
            (Js.truthyString id = true ->
             MemoryGraphStore.getEdgesBetween (memoryGraph (Js.final r)) id (fold_id f) =
               [MemoryGraphStore.linkOfFold id f]))
         (reactions (Js.emitted r)) /\
  ((forall n, 0.2 <= randomAt e n) ->
   echoes (Js.emitted r) = [] /\
   premonitionMatcher (Js.final r) = premonitionMatcher rt /\
   CollapseEngine.getPendingPremonitions (collapseEngine (Js.final r)) =
     CollapseEngine.getPendingPremonitions (collapseEngine rt)) /\
  ((forall n, randomAt e n < 0.2) ->
   Forall2 (fun p c =>
              fold_characterId (prem_fold p) = CharacterKernel.char_id c /\
              prem_content p =
                "Premonition from " +:+ CharacterKernel.char_name c +:+ ": " +:+
                quote +:+ "Something is about to happen..." +:+ quote)
           (echoes (Js.emitted r)) (getCharacters rt)) /\
  Forall (fun p =>
            fold_fractureEventId (prem_fold p) = None /\
            validityWindow p = premonitionValidityWindow (config rt) /\
            bindingCriteria p = mkBindingCriteria 0.7 0.6 (Some ["example"; "keyword"]) /\
            registered (Js.final r) (prem_id p) /\
            Js.ohas (prem_id p)
              (CollapseEngine.pendingPremonitions (collapseEngine (Js.final r))) = true /\
            Graphlib.hasNode (MemoryGraphStore.graph (memoryGraph (Js.final r))) (prem_id p)
              = true)
         (echoes (Js.emitted r)).
Proof.
  intros Hnd e id r.
  destruct (introduceFracture_run content src rt)
    as (rt0 & Hrun & Hcfg & Hrnd & Hbind & Hm & Hck & Haf & Hpp & Hpf & Hhas & Hmono & Hsound).
  fold e in Hrun, Hrnd, Haf, Hhas.
  set (fr := CollapseEngine.createFracture (uuidAt e (uuidCalls e)) (clockAt e (clockCalls e))
               content src) in *.
  change (fr_id fr) with id in *.
  destruct (@characters_loop fr (Js.okeys (CharacterKernel.characters (characterKernel rt))) rt0)
    as (rt' & evs & Hloop & Hk & Hall & Hle & Hgt & Hfolds & Hnone & Hsome & Hech).
  { intros key Hin. rewrite Hck. apply ohas_true_oget, ohas_of_key, Hin. }
  { exact Hhas. }
  change (fr_id fr) with id in *. change (fr_content fr) with content in *.
  rewrite Hck, Hrnd, Hcfg, Hm, Hpp in *.
  assert (Hvalue : forall key c,
            Js.oget key (CharacterKernel.characters (characterKernel rt)) = Some c ->
            In c (getCharacters rt)).
  { intros key c Hget. apply oget_Some_in in Hget.
    unfold getCharacters, CharacterKernel.getCharacters, Js.ovalues.
    apply (in_map snd _ _ Hget). }
  unfold r. rewrite Hrun, Hloop, emitted_run, final_run.
  split; [|split; [|split; [|split; [|split]]]].
  - intros Hthr. split.
    + apply Forall2_values; [exact Hnd|].
      apply Hle. intros key c _ Hget. apply Hthr, (Hvalue key c Hget).
    + intros c' Hin. unfold getCharacters, CharacterKernel.getCharacters, Js.ovalues in Hin.
      apply in_map_iff in Hin. destruct Hin as ([key c''] & Hsnd & Hin). cbn in Hsnd. subst c''.
      assert (Hnd' : List.NoDup (Js.okeys (CharacterKernel.characters (characterKernel rt')))).
      { rewrite (keeps_keys Hk), Hck. exact Hnd. }
      pose proof (in_oget_nodup _ _ _ Hnd' Hin) as Hget'.
      assert (Hkey : In key (Js.okeys (CharacterKernel.characters (characterKernel rt)))).
      { rewrite <- Hck, <- (keeps_keys Hk). apply (in_map fst _ _ Hin). }
      apply ohas_of_key, ohas_true_oget in Hkey. destruct Hkey as (c0 & Hc0).
      rewrite <- Hck in Hc0.
      destruct (keeps_characters Hk key Hc0) as (c1 & Hc1 & _ & _ & Ht).
      rewrite Hget' in Hc1. injection Hc1 as <-.
      apply Ht, Hthr, (Hvalue key c0). now rewrite <- Hck.
  - intros Hthr. destruct Hgt as (Hnil & Hsame).
    { intros key c _ Hget. apply Hthr, (Hvalue key c Hget). }
    split; [exact Hnil|exact Hsame].
  - eapply Forall_impl; [exact Hfolds|]. cbn beta.
    intros f (Hfid & Hpfold & Hh & Hedge).
    split; [exact Hfid|]. split; [exact Hpfold|]. split; [exact Hh|].
    intros Htr. unfold MemoryGraphStore.getEdgesBetween. now rewrite (Hedge Htr).
  - intros Hdraws. destruct (Hnone Hdraws) as (Hnil & Hsame & Hpend).
    split; [exact Hnil|]. split; [exact Hsame|].
    unfold CollapseEngine.getPendingPremonitions. now rewrite Hpend.
  - intros Hdraws. apply Forall2_values; [exact Hnd|]. apply Hsome, Hdraws.
  - exact Hech.
Qed.

End RuntimeRounds.

(** X26. Which characters react to a stimulus. The tension that
    [calculateTension] computes is 1 whatever the character and the
    stimulus, so the threshold of a character alone decides: if every
    character has a threshold of at most 1, [introduceFracture] emits exactly
    one reaction per character, in the order of [getCharacters], carrying
    the id of the character and the text made of its name and of the content
    of the stimulus, and afterwards every threshold is still at most 1; if
    every threshold is above 1, no reaction is emitted and the kernel is left
    as it was. Every reaction emitted names the new stimulus, is held by the
    engine among the pending reactions, is a node of the store, and the
    lookup by pair of nodes finds the causality edge of weight 1 from the
    stimulus to it. *)
Theorem introduceFracture_reactions
    (content : string) (src : Source) (rt : McTavish.Runtime) :
  List.NoDup (Js.okeys (CharacterKernel.characters (McTavish.characterKernel rt))) ->
  Js.truthyString
    (McTavish.uuidAt (McTavish.environment rt) (McTavish.uuidCalls (McTavish.environment rt)))
    = true ->
  let id :=
    McTavish.uuidAt (McTavish.environment rt) (McTavish.uuidCalls (McTavish.environment rt)) in
  let r := McTavish.introduceFracture content src rt in
  let folds := McTavish.reactions (Js.emitted r) in
  ((forall c, In c (McTavish.getCharacters rt) -> CharacterKernel.collapseThreshold c <= 1) ->
   Forall2 (fun f c =>
              fold_characterId f = CharacterKernel.char_id c /\
              fold_content f =
                "Response from " +:+ CharacterKernel.char_name c +:+ " to " +:+
                McTavish.quote +:+ content +:+ McTavish.quote)
           folds (McTavish.getCharacters rt) /\
   (forall c, In c (McTavish.getCharacters (Js.final r)) ->
      CharacterKernel.collapseThreshold c <= 1)) /\
  ((forall c, In c (McTavish.getCharacters rt) -> 1 < CharacterKernel.collapseThreshold c) ->
   folds = [] /\ McTavish.characterKernel (Js.final r) = McTavish.characterKernel rt) /\
  Forall (fun f =>
            fold_fractureEventId f = Some id /\
            Js.ohas (fold_id f)
              (CollapseEngine.pendingFolds (McTavish.collapseEngine (Js.final r))) = true /\
            Graphlib.hasNode (MemoryGraphStore.graph (McTavish.memoryGraph (Js.final r)))
              (fold_id f) = true /\
            MemoryGraphStore.getEdgesBetween (McTavish.memoryGraph (Js.final r)) id (fold_id f) =
              [MemoryGraphStore.linkOfFold id f])
         folds.
Proof.
  intros Hnd Htr id r folds.
  destruct (@introduceFracture_rounds content src rt Hnd) as (Hle & Hgt & Hfolds & _).
  split; [exact Hle|]. split; [exact Hgt|].
  eapply Forall_impl; [exact Hfolds|]. cbn beta.
  intros f (Hfid & Hp & Hh & Hedge). auto.
Qed.

Lemma introduceFracture_reactions_witness :
  let r := McTavish.introduceFracture "What happened to Elena?" user Scenarios.runtimeElena in
  length (McTavish.reactions (Js.emitted r)) = 1%nat /\
  Forall (fun f =>
            fold_characterId f = "elena" /\
            MemoryGraphStore.getEdgesBetween (McTavish.memoryGraph (Js.final r))
              "id-0" (fold_id f) = [MemoryGraphStore.linkOfFold "id-0" f])
         (McTavish.reactions (Js.emitted r)).
Proof.
  destruct (@introduceFracture_reactions "What happened to Elena?" user Scenarios.runtimeElena)
    as (Hle & _ & Hall).
  - apply List.NoDup_cons; [intros []|constructor].
  - reflexivity.
  - destruct Hle as (Hone & _).
    { intros c [<-|[]]. discriminate. }
    split.
    + apply Forall2_length in Hone. rewrite Hone. reflexivity.
    + change (McTavish.getCharacters Scenarios.runtimeElena)
        with [CharacterKernel.mkCharacter "elena" "Elena"
                (CharacterKernel.mkTone "neutral" 0 0.5)
                (CharacterKernel.mkSchema 0.05 CharacterKernel.defaultDriftDirections
                   ["core_memory"; "repeated_interaction"])
                "anchor-1" 0.7] in Hone.
      revert Hone Hall. generalize (McTavish.reactions
        (Js.emitted (McTavish.introduceFracture "What happened to Elena?" user
                       Scenarios.runtimeElena))).
      intros l Hone Hall. inversion Hone as [|f c l' cs (Hcid & _) Hrest]; subst.
      inversion Hrest; subst.
      constructor; [|constructor]. split; [exact Hcid|].
      apply Forall_inv in Hall. apply Hall.
Defined.

(** X27. The echoes of a call of [introduceFracture]. After the round of a
    character the engine draws a random number and generates an echo when it
    is below 0.2: if no value of [Math.random()] is below 0.2, no echo is
    emitted and the matcher and the pending echoes of the engine stay as they
    were; if every value is, there is exactly one echo per character, in the
    order of [getCharacters]. Every echo emitted has no stimulus, the
    validity window of the configuration and the fixed criteria (0.7, 0.6,
    the keywords [example] and [keyword]); it is a node of the store, is held
    by the engine among the pending echoes, and the matcher holds an echo
    under its id that was registered at the current turn, expires after the
    validity window, has not been tried and is not bound. *)
Theorem introduceFracture_echoes
    (content : string) (src : Source) (rt : McTavish.Runtime) :
  List.NoDup (Js.okeys (CharacterKernel.characters (McTavish.characterKernel rt))) ->
  let e := McTavish.environment rt in
  let r := McTavish.introduceFracture content src rt in
  let ps := McTavish.echoes (Js.emitted r) in
  ((forall n, 0.2 <= McTavish.randomAt e n) ->
   ps = [] /\
   McTavish.premonitionMatcher (Js.final r) = McTavish.premonitionMatcher rt /\
   CollapseEngine.getPendingPremonitions (McTavish.collapseEngine (Js.final r)) =
     CollapseEngine.getPendingPremonitions (McTavish.collapseEngine rt)) /\
  ((forall n, McTavish.randomAt e n < 0.2) ->
   Forall2 (fun p c =>
              fold_characterId (prem_fold p) = CharacterKernel.char_id c /\
              prem_content p =
                "Premonition from " +:+ CharacterKernel.char_name c +:+ ": " +:+
                McTavish.quote +:+ "Something is about to happen..." +:+ McTavish.quote)
           ps (McTavish.getCharacters rt)) /\
  Forall (fun p =>
            fold_fractureEventId (prem_fold p) = None /\
            validityWindow p = premonitionValidityWindow (McTavish.config rt) /\
            bindingCriteria p = mkBindingCriteria 0.7 0.6 (Some ["example"; "keyword"]) /\
            McTavish.registered (Js.final r) (prem_id p) /\
            Js.ohas (prem_id p)
              (CollapseEngine.pendingPremonitions (McTavish.collapseEngine (Js.final r)))
              = true /\
            Graphlib.hasNode (MemoryGraphStore.graph (McTavish.memoryGraph (Js.final r)))
              (prem_id p) = true)
         ps.
Proof.
  intros Hnd e r ps.
  destruct (@introduceFracture_rounds content src rt Hnd) as (_ & _ & _ & Hnone & Hsome & Hall).
  split; [exact Hnone|]. split; [exact Hsome|exact Hall].
Qed.

Lemma introduceFracture_echoes_witness :
  let r := McTavish.introduceFracture "What happened to Elena?" user Scenarios.runtimeElena in
  length (McTavish.echoes (Js.emitted r)) = 1%nat /\
  Forall (fun p => validityWindow p = 5%Z /\ McTavish.registered (Js.final r) (prem_id p))
         (McTavish.echoes (Js.emitted r)).
Proof.
  destruct (@introduceFracture_echoes "What happened to Elena?" user Scenarios.runtimeElena)
    as (_ & _ & Hall).
  - apply List.NoDup_cons; [intros []|constructor].
  - split; [reflexivity|].
    eapply Forall_impl; [exact Hall|]. cbn beta.
    intros p (_ & Hw & _ & Hreg & _). split; [exact Hw|exact Hreg].
Defined.

Section RuntimeSessions.
Import McTavish.

Lemma serve_idle (q : Request) (rt : Runtime) :
  InteractionBindingLogic.pendingBindings (interactionBinding rt) = [] ->
  Js.outcome (serve q rt) = Js.Returned tt /\
  Forall (fun s => exists ev, s = fromEngine ev) (Js.emitted (serve q rt)) /\
  InteractionBindingLogic.pendingBindings (interactionBinding (Js.final (serve q rt))) = [] /\
  InteractionBindingLogic.selectedResponses (interactionBinding (Js.final (serve q rt))) =
    InteractionBindingLogic.selectedResponses (interactionBinding rt) /\
  PremonitionMatcher.turnCounter (premonitionMatcher (Js.final (serve q rt))) =
    PremonitionMatcher.turnCounter (premonitionMatcher rt).
Proof.
  intros Hnone. destruct q as [content src|now foldId]; cbn [serve].
  - destruct (introduceFracture_frame content src rt) as (Ho & Hall & Hb & Ht & _).
    rewrite Hb. split; [exact Ho|]. split; [exact Hall|]. split; [exact Hnone|].
    split; [reflexivity|exact Ht].
  - unfold selectResponse, onBinding, zoom, signalling.
    rewrite selectResponse_idle by exact Hnone.
    cbn. split; [reflexivity|]. split; [constructor|]. split; [exact Hnone|].
    split; reflexivity.
Qed.

End RuntimeSessions.

(** X28. Through the public methods of the runtime no response is ever
    selected. Starting from a runtime whose binding logic holds no binding
    record, as the constructor leaves it, every session of calls of
    [introduceFracture] and [selectResponse] returns; the binding logic
    still holds no record, so no stimulus has a response listed and nothing
    is resolved, and the selected responses are what they were; the only
    events are those of the engine, and the turn counter of the matcher has
    not moved, so that no echo has been tried, bound or expired. *)
Theorem session_never_selects (requests : list McTavish.Request) (rt : McTavish.Runtime) :
  InteractionBindingLogic.pendingBindings (McTavish.interactionBinding rt) = [] ->
  let r := McTavish.session requests rt in
  let logic := McTavish.bindingOf (Js.final r) in
  Js.outcome r = Js.Returned tt /\
  Forall (fun s => exists ev, s = McTavish.fromEngine ev) (Js.emitted r) /\
  (forall fractureId,
     InteractionBindingLogic.getResponsesForFracture logic fractureId = []) /\
  InteractionBindingLogic.getResolvedBindings logic = [] /\
  InteractionBindingLogic.getPendingBindings logic = [] /\
  InteractionBindingLogic.selectedResponses logic =
    InteractionBindingLogic.selectedResponses (McTavish.interactionBinding rt) /\
  PremonitionMatcher.turnCounter (McTavish.premonitionMatcher (Js.final r)) =
    PremonitionMatcher.turnCounter (McTavish.premonitionMatcher rt).
Proof.
  intros Hnone r logic.
  destruct (@forOf_invariant McTavish.Runtime McTavish.Signal McTavish.Request
              (fun s =>
                 InteractionBindingLogic.pendingBindings (McTavish.interactionBinding s) = [] /\
                 InteractionBindingLogic.selectedResponses (McTavish.interactionBinding s) =
                   InteractionBindingLogic.selectedResponses (McTavish.interactionBinding rt) /\
                 PremonitionMatcher.turnCounter (McTavish.premonitionMatcher s) =
                   PremonitionMatcher.turnCounter (McTavish.premonitionMatcher rt))
              (fun s => exists ev, s = McTavish.fromEngine ev)
              McTavish.serve requests)
    with (s := rt) as (Ho & (Hp & Hs & Ht) & Hall).
  - intros q s _ (Hp & Hs & Ht).
    destruct (@serve_idle q s Hp) as (Ho & Hall & Hp' & Hs' & Ht').
    split; [exact Ho|]. split; [|exact Hall].
    split; [exact Hp'|]. split; [congruence|congruence].
  - auto.
  - fold (McTavish.session requests rt) in Ho, Hp, Hs, Ht, Hall. fold r in Ho, Hp, Hs, Ht, Hall.
    split; [exact Ho|]. split; [exact Hall|].
    unfold InteractionBindingLogic.getResponsesForFracture,
      InteractionBindingLogic.getResolvedBindings, InteractionBindingLogic.getPendingBindings,
      logic.
    cbn [McTavish.bindingOf InteractionBindingLogic.pendingBindings
         InteractionBindingLogic.selectedResponses].
    rewrite Hp. repeat split; auto.
Qed.

Lemma session_never_selects_witness :
  let r := McTavish.session
             [McTavish.IntroduceFracture "What happened to Elena?" user;
              McTavish.SelectResponse 2000%Z "id-1";
              McTavish.IntroduceFracture "And then?" user]
             Scenarios.runtimeElena in
  Js.outcome r = Js.Returned tt /\
  length (McTavish.reactions (Js.emitted r)) = 2%nat /\
  InteractionBindingLogic.getResolvedBindings (McTavish.bindingOf (Js.final r)) = [] /\
  InteractionBindingLogic.getSelectedResponse (McTavish.bindingOf (Js.final r)) "id-0" = None.
Proof.
  destruct (@session_never_selects
              [McTavish.IntroduceFracture "What happened to Elena?" user;
               McTavish.SelectResponse 2000%Z "id-1";
               McTavish.IntroduceFracture "And then?" user]
              Scenarios.runtimeElena)
    as (Ho & _ & _ & Hres & _ & Hsel & _).
  - reflexivity.
  - split; [exact Ho|]. split; [reflexivity|]. split; [exact Hres|].
    unfold InteractionBindingLogic.getSelectedResponse. rewrite Hsel. reflexivity.
Defined.


(** ** The engine: an echo is bound once *)
Section EngineFacts.
Import CollapseEngine.

Lemma bindPremonitionToFracture_run (uuid premonitionId fractureId : string) (t : Engine) :
  bindPremonitionToFracture uuid premonitionId fractureId t =
  match Js.oget premonitionId (pendingPremonitions t), Js.oget fractureId (activeFractures t) with
  | Some p, Some _ =>
      (Js.Returned true,
       mkEngine (activeFractures t)
         (Js.oset uuid (boundFoldOf uuid p fractureId) (pendingFolds t))
         (Js.odelete premonitionId (pendingPremonitions t)),
       [recursionFold (boundFoldOf uuid p fractureId)])
  | _, _ => (Js.Returned false, t, [])
  end.
Proof.
  unfold bindPremonitionToFracture.
  rewrite (@bind_pure _ _ _ _ Js.get _ t t t eq_refl).
  destruct (Js.oget premonitionId (pendingPremonitions t)) as [p|]; [|reflexivity].
  destruct (Js.oget fractureId (activeFractures t)) as [fr|]; reflexivity.
Qed.

End EngineFacts.

(** X29. The engine binds an echo at most once. After a call of
    [bindPremonitionToFracture] that returned true, a second call for the
    same echo returns false, emits nothing and changes nothing, whatever the
    stimulus; so does a call for an echo that [clearPendingPremonition] has
    removed. The reaction made by the first call is held among the pending
    reactions under its new id until [clearPendingFold] removes it, which
    leaves the other pending reactions, the pending echoes and the active
    stimuli as they are; the stimulus stays active. *)
Theorem bindPremonitionToFracture_at_most_once
    (uuid uuid' premonitionId fractureId fractureId' : string) (t : CollapseEngine.Engine) :
  let r1 := CollapseEngine.bindPremonitionToFracture uuid premonitionId fractureId t in
  Js.outcome r1 = Js.Returned true ->
  let t1 := Js.final r1 in
  let r2 := CollapseEngine.bindPremonitionToFracture uuid' premonitionId fractureId' t1 in
  let cleared := Js.final (CollapseEngine.clearPendingPremonition premonitionId t) in
  let r3 := CollapseEngine.bindPremonitionToFracture uuid premonitionId fractureId cleared in
  let t4 := Js.final (CollapseEngine.clearPendingFold uuid t1) in
  r2 = (Js.Returned false, t1, []) /\
  r3 = (Js.Returned false, cleared, []) /\
  (exists p, Js.oget premonitionId (CollapseEngine.pendingPremonitions t) = Some p /\
             Js.oget uuid (CollapseEngine.pendingFolds t1) =
               Some (CollapseEngine.boundFoldOf uuid p fractureId)) /\
  Js.ohas fractureId (CollapseEngine.activeFractures t1) = true /\
  Js.oget uuid (CollapseEngine.pendingFolds t4) = None /\
  (forall i, i <> uuid ->
     Js.oget i (CollapseEngine.pendingFolds t4) = Js.oget i (CollapseEngine.pendingFolds t)) /\
  CollapseEngine.pendingPremonitions t4 = CollapseEngine.pendingPremonitions t1 /\
  CollapseEngine.activeFractures t4 = CollapseEngine.activeFractures t.
Proof.
  intros r1 Htrue t1 r2 cleared r3 t4.
  pose proof (bindPremonitionToFracture_run uuid premonitionId fractureId t) as Hrun.
  fold r1 in Hrun.
  destruct (Js.oget premonitionId (CollapseEngine.pendingPremonitions t)) as [p|] eqn:Hp;
    [|rewrite Hrun in Htrue; discriminate Htrue].
  destruct (Js.oget fractureId (CollapseEngine.activeFractures t)) as [fr|] eqn:Hfr;
    [|rewrite Hrun in Htrue; discriminate Htrue].
  assert (Ht1 : t1 =
            CollapseEngine.mkEngine (CollapseEngine.activeFractures t)
              (Js.oset uuid (CollapseEngine.boundFoldOf uuid p fractureId)
                 (CollapseEngine.pendingFolds t))
              (Js.odelete premonitionId (CollapseEngine.pendingPremonitions t)))
    by (unfold t1; rewrite Hrun; reflexivity).
  split.
  { unfold r2. rewrite bindPremonitionToFracture_run. rewrite Ht1 at 1.
    cbn [CollapseEngine.pendingPremonitions]. rewrite oget_odelete_eq. reflexivity. }
  split.
  { unfold r3. rewrite bindPremonitionToFracture_run.
    unfold cleared, CollapseEngine.clearPendingPremonition, Js.modify. rewrite final_run.
    cbn [CollapseEngine.pendingPremonitions]. rewrite oget_odelete_eq. reflexivity. }
  split.
  { exists p. split; [reflexivity|]. rewrite Ht1. cbn [CollapseEngine.pendingFolds].
    apply oget_oset_eq. }
  split.
  { rewrite Ht1. cbn [CollapseEngine.activeFractures]. unfold Js.ohas. now rewrite Hfr. }
  unfold t4, CollapseEngine.clearPendingFold, Js.modify. rewrite final_run.
  cbn [CollapseEngine.pendingPremonitions CollapseEngine.pendingFolds
       CollapseEngine.activeFractures].
  split; [apply oget_odelete_eq|].
  split; [|split; [reflexivity|rewrite Ht1; reflexivity]].
  intros i Hi. rewrite oget_odelete_ne by exact Hi. rewrite Ht1.
  cbn [CollapseEngine.pendingFolds]. now apply oget_oset_ne.
Qed.

Lemma bindPremonitionToFracture_at_most_once_witness :
  let t1 := Js.final (CollapseEngine.bindPremonitionToFracture "reaction-9" "echo-E"
                        "stimulus-1" Scenarios.engineA) in
  CollapseEngine.bindPremonitionToFracture "reaction-10" "echo-E" "stimulus-1" t1 =
    (Js.Returned false, t1, []).
Proof.
  apply (@bindPremonitionToFracture_at_most_once "reaction-9" "reaction-10" "echo-E"
           "stimulus-1" "stimulus-1" Scenarios.engineA).
  reflexivity.
Defined.

(** ** The kernel: memory traversal *)
Section TraversalFacts.
Import CharacterKernel.
Variable st : MemoryGraphStore.Store.
Variable clock : nat -> Z.
Variable preferences : MemoryTraversalPreference.
Variable emotionalState : EmotionalState.

Lemma insertByPriority_perm (x : string * Q) (l : list (string * Q)) :
  Permutation (insertByPriority x l) (x :: l).
Proof.
  induction l as [|y l IH]; simpl; [reflexivity|].
  destruct (Qlt_bool _ _); [|reflexivity].
  rewrite IH. apply perm_swap.
Qed.

Lemma sortByPriority_perm (l : list (string * Q)) : Permutation (sortByPriority l) l.
Proof.
  induction l as [|x l IH]; simpl; [reflexivity|].
  rewrite insertByPriority_perm. now constructor.
Qed.

Lemma setHas_app (a b : list string) (w : string) :
  Js.setHas (a ++ b) w = Js.setHas a w || Js.setHas b w.
Proof. unfold Js.setHas. apply existsb_app. Qed.

Lemma setHas_false (s : list string) (w : string) : Js.setHas s w = false -> ~ In w s.
Proof.
  unfold Js.setHas. intros Hf Hin.
  assert (Ht : existsb (String.eqb w) s = true).
  { apply existsb_exists. exists w. split; [exact Hin|apply String.eqb_refl]. }
  congruence.
Qed.

(** The edges that leave a node not yet visited. *)
Lemma unvisited_edges_step (visited : list string) (x : string)
    (es : list ((string * string) * MemoryEdge)) :
  Js.setHas visited x = false ->
  (length (List.filter (fun e => negb (Js.setHas (visited ++ [x]) (fst (fst e)))) es) +
   length (List.filter (fun e => String.eqb (fst (fst e)) x) es) =
   length (List.filter (fun e => negb (Js.setHas visited (fst (fst e)))) es))%nat.
Proof.
  intros Hx. induction es as [|e es IH]; [reflexivity|].
  cbn [List.filter]. rewrite setHas_app.
  assert (Hone : Js.setHas [x] (fst (fst e)) = String.eqb (fst (fst e)) x).
  { unfold Js.setHas. cbn [existsb]. now rewrite orb_false_r. }
  rewrite Hone.
  destruct (Js.setHas visited (fst (fst e))) eqn:Hv; cbn [negb orb].
  - assert (Hne : String.eqb (fst (fst e)) x = false).
    { destruct (String.eqb (fst (fst e)) x) eqn:Heq; [|reflexivity].
      apply String.eqb_eq in Heq. rewrite Heq in Hv. congruence. }
    rewrite Hne. exact IH.
  - destruct (String.eqb (fst (fst e)) x); cbn [negb length]; lia.
Qed.

Lemma getSuccessors_length (x : string) :
  (length (MemoryGraphStore.getSuccessors st x) <=
   length (List.filter (fun e => String.eqb (fst (fst e)) x)
             (Graphlib.g_edges (MemoryGraphStore.graph st))))%nat.
Proof.
  unfold MemoryGraphStore.getSuccessors, Graphlib.successors.
  destruct (Graphlib.hasNode _ x); [|cbn; lia].
  rewrite <- (length_map (fun e : string * string * MemoryEdge => snd (fst e))).
  generalize (List.map (fun e : string * string * MemoryEdge => snd (fst e))
                (List.filter (fun e => String.eqb (fst (fst e)) x)
                   (Graphlib.g_edges (MemoryGraphStore.graph st)))).
  intros ids. induction ids as [|i ids IH]; [cbn; lia|].
  cbn [flat_map]. rewrite length_app. cbn [length].
  destruct (Js.oget i (MemoryGraphStore.nodes st)); cbn [length]; lia.
Qed.

(** What the loop over the successors adds to the queue. *)
Lemma enqueueSuccessors_adds (nodeId : string) (priority : Q) (visited : list string)
    (successors : list MemoryNode) : forall (queue : list (string * Q)) (calls : nat),
  exists added,
    fst (enqueueSuccessors st clock preferences emotionalState nodeId priority visited
           successors queue calls) = queue ++ added /\
    (length added <= length successors)%nat /\
    forall w q, In (w, q) added ->
      exists edge,
        Graphlib.edge (MemoryGraphStore.graph st) nodeId w = Some edge /\
        intolerable preferences edge = false.
Proof.
  induction successors as [|successor rest IH]; intros queue calls; cbn [enqueueSuccessors].
  - exists []. rewrite app_nil_r. split; [reflexivity|]. split; [cbn; lia|]. intros w q [].
  - assert (Hskip : forall q0 c0,
              exists added,
                fst (enqueueSuccessors st clock preferences emotionalState nodeId priority
                       visited rest q0 c0) = q0 ++ added /\
                (length added <= length (successor :: rest))%nat /\
                forall w q, In (w, q) added ->
                  exists edge,
                    Graphlib.edge (MemoryGraphStore.graph st) nodeId w = Some edge /\
                    intolerable preferences edge = false).
    { intros q0 c0. destruct (IH q0 c0) as (added & Heq & Hlen & Hall).
      exists added. split; [exact Heq|]. split; [cbn [length]; lia|exact Hall]. }
    destruct (Js.setHas visited (node_id successor)); [apply Hskip|].
    unfold MemoryGraphStore.getEdgesBetween.
    destruct (Graphlib.edge (MemoryGraphStore.graph st) nodeId (node_id successor))
      as [edge|] eqn:Hedge; [|apply Hskip].
    destruct (intolerable preferences edge) eqn:Htol; [apply Hskip|].
    match goal with |- context [enqueueSuccessors _ _ _ _ _ _ _ rest (queue ++ [?x]) ?c] =>
      destruct (IH (queue ++ [x]) c) as (added & Heq & Hlen & Hall); exists (x :: added)
    end.
    split; [rewrite Heq, <- app_assoc; reflexivity|].
    split; [cbn [length]; lia|].
    intros w q [Hin|Hin]; [|exact (Hall w q Hin)].
    injection Hin as <- _. exists edge. auto.
Qed.

Lemma enteredFrom_more (earlier later : list string) (w : string) :
  enteredFrom st preferences earlier w -> enteredFrom st preferences (earlier ++ later) w.
Proof.
  intros (v & edge & Hin & Hedge & Htol). exists v, edge.
  split; [apply in_or_app; now left|auto].
Qed.

Lemma chained_snoc (startId : string) (l : list string) (x : string) :
  chained st preferences startId l ->
  (l = [] /\ x = startId) \/ enteredFrom st preferences l x ->
  chained st preferences startId (l ++ [x]).
Proof.
  intros Hch Hx pre w post Heq.
  destruct post as [|y post].
  - apply app_inj_tail in Heq. destruct Heq as [<- <-]. exact Hx.
  - assert (Hl : l = pre ++ w :: removelast (y :: post)).
    { assert (Hne : y :: post <> []) by discriminate.
      rewrite (app_removelast_last x Hne) in Heq at 1.
      change (pre ++ w :: removelast (y :: post) ++ [List.last (y :: post) x])
        with (pre ++ (w :: removelast (y :: post)) ++ [List.last (y :: post) x]) in Heq.
      rewrite app_assoc in Heq. apply app_inj_tail in Heq. apply Heq. }
    apply (Hch pre w _ Hl).
Qed.

Lemma chained_head (startId : string) (l : list string) :
  chained st preferences startId l -> l = [] \/ exists rest, l = startId :: rest.
Proof.
  intros Hch. destruct l as [|x rest]; [now left|right].
  destruct (Hch [] x rest eq_refl) as [[_ ->]|(v & edge & [] & _)]. now exists rest.
Qed.

(** The loop ends within its rounds, and what it returns. *)
Lemma traversal_ends (startId : string) (maxNodes : Z) (rounds : nat) :
  forall (queue : list (string * Q)) (result : list string) (calls : nat),
  List.NoDup result ->
  chained st preferences startId result ->
  (result = [] /\ queue = [(startId, 1.0)]) \/
  (result <> [] /\ forall w q, In (w, q) queue -> enteredFrom st preferences result w) ->
  (Z.of_nat (length result) <= Z.max 0 maxNodes)%Z ->
  (length queue +
   length (List.filter (fun e => negb (Js.setHas result (fst (fst e))))
             (Graphlib.g_edges (MemoryGraphStore.graph st))) < rounds)%nat ->
  exists l,
    traversal rounds st clock preferences emotionalState maxNodes queue result result calls
      = Some l /\
    List.NoDup l /\
    chained st preferences startId l /\
    (Z.of_nat (length l) <= Z.max 0 maxNodes)%Z /\
    (0 < maxNodes -> exists rest, l = startId :: rest)%Z.
Proof.
  induction rounds as [|rounds IH]; intros queue result calls Hnd Hch Hq Hlen Hfuel; [lia|].
  cbn [traversal].
  destruct ((0 <? length queue)%nat && (Z.of_nat (length result) <? maxNodes)%Z) eqn:Hcond.
  2:{ exists result. split; [reflexivity|]. split; [exact Hnd|]. split; [exact Hch|].
      split; [exact Hlen|].
      intros Hpos. apply andb_false_iff in Hcond.
      destruct (chained_head Hch) as [Hnil|Hhead]; [|exact Hhead].
      exfalso. destruct Hq as [[_ ->]|[Hne _]]; [|contradiction].
      subst result. cbn in Hcond. destruct Hcond as [Hc|Hc]; [discriminate|].
      apply Z.ltb_ge in Hc. lia. }
  apply andb_true_iff in Hcond. destruct Hcond as [Hqlen Hroom].
  apply Z.ltb_lt in Hroom.
  pose proof (sortByPriority_perm queue) as Hperm.
  destruct (sortByPriority queue) as [|[nodeId priority] queue1] eqn:Hsort.
  { apply Permutation_length in Hperm. apply Nat.ltb_lt in Hqlen. cbn in Hperm. lia. }
  assert (Hlenq : length queue = S (length queue1)).
  { apply Permutation_length in Hperm. cbn in Hperm. lia. }
  assert (Hinq : forall w q, In (w, q) ((nodeId, priority) :: queue1) -> In (w, q) queue).
  { intros w q Hin. eapply Permutation_in; [exact Hperm|exact Hin]. }
  destruct (Js.setHas result nodeId) eqn:Hvis.
  - (* already visited *)
    apply IH; auto.
    + destruct Hq as [[Hnil Hqueue]|[Hne Hall]].
      * subst result. discriminate Hvis.
      * right. split; [exact Hne|]. intros w q Hin. apply (Hall w q), Hinq. now right.
    + lia.
  - (* a new node *)
    destruct (@enqueueSuccessors_adds nodeId priority (result ++ [nodeId])
                (MemoryGraphStore.getSuccessors st nodeId) queue1 calls)
      as (added & Heq & Hadded & Hall).
    destruct (enqueueSuccessors st clock preferences emotionalState nodeId priority
                (result ++ [nodeId]) (MemoryGraphStore.getSuccessors st nodeId) queue1 calls)
      as [queue2 calls2].
    cbn [fst] in Heq. subst queue2.
    assert (Hentry : (result = [] /\ nodeId = startId) \/
                     enteredFrom st preferences result nodeId).
    { destruct Hq as [[Hnil Hqueue]|[Hne Hallq]].
      - left. split; [exact Hnil|]. subst queue. cbn in Hsort. now injection Hsort as -> _ _.
      - right. apply (Hallq nodeId priority), Hinq. now left. }
    destruct (IH (queue1 ++ added) (result ++ [nodeId]) calls2) as (l & Hl & Hpost).
    + apply nodup_snoc; [exact Hnd|now apply setHas_false].
    + now apply chained_snoc.
    + right. split; [now destruct result|].
      intros w q Hin. apply in_app_or in Hin. destruct Hin as [Hin|Hin].
      * destruct Hq as [[Hnil Hqueue]|[Hne Hallq]].
        -- subst queue. cbn in Hsort. injection Hsort as _ _ <-. destruct Hin.
        -- apply enteredFrom_more, (Hallq w q), Hinq. now right.
      * destruct (Hall w q Hin) as (edge & Hedge & Htol).
        exists nodeId, edge. split; [apply in_or_app; right; now left|auto].
    + rewrite length_app. cbn [length]. lia.
    + pose proof (unvisited_edges_step result nodeId
                    (Graphlib.g_edges (MemoryGraphStore.graph st)) Hvis) as Hstep.
      pose proof (getSuccessors_length nodeId) as Hsucc.
      rewrite length_app. lia.
    + exists l. split; [exact Hl|exact Hpost].
Qed.

End TraversalFacts.

Section TraversalDepth.
Import CharacterKernel.

(** The traversal reads four fields of the preferences; [maxDepth] is not
    one of them. *)
Lemma enqueueSuccessors_depth (st : MemoryGraphStore.Store) (clock : nat -> Z)
    (p p' : MemoryTraversalPreference) (es : EmotionalState)
    (nodeId : string) (priority : Q) (visited : list string) (successors : list MemoryNode) :
  emotionalWeight p' = emotionalWeight p ->
  recencyWeight p' = recencyWeight p ->
  causalityWeight p' = causalityWeight p ->
  pref_contradictionTolerance p' = pref_contradictionTolerance p ->
  forall queue calls,
    enqueueSuccessors st clock p' es nodeId priority visited successors queue calls =
    enqueueSuccessors st clock p es nodeId priority visited successors queue calls.
Proof.
  intros He Hr Hc Ht.
  induction successors as [|successor rest IH]; intros queue calls; cbn [enqueueSuccessors];
    [reflexivity|].
  destruct (Js.setHas visited (node_id successor)); [apply IH|].
  destruct (MemoryGraphStore.getEdgesBetween st nodeId (node_id successor)) as [|edge ?];
    [apply IH|].
  unfold intolerable, successorPriority. rewrite He, Hr, Hc, Ht.
  destruct (_ && _); apply IH.
Qed.

Lemma traversal_depth (st : MemoryGraphStore.Store) (clock : nat -> Z)
    (p p' : MemoryTraversalPreference) (es : EmotionalState) (maxNodes : Z) (rounds : nat) :
  emotionalWeight p' = emotionalWeight p ->
  recencyWeight p' = recencyWeight p ->
  causalityWeight p' = causalityWeight p ->
  pref_contradictionTolerance p' = pref_contradictionTolerance p ->
  forall queue visited result calls,
    traversal rounds st clock p' es maxNodes queue visited result calls =
    traversal rounds st clock p es maxNodes queue visited result calls.
Proof.
  intros He Hr Hc Ht.
  induction rounds as [|rounds IH]; intros queue visited result calls; cbn [traversal];
    [reflexivity|].
  destruct (_ && _); [|reflexivity].
  destruct (sortByPriority queue) as [|[nodeId priority] queue1]; [reflexivity|].
  destruct (Js.setHas visited nodeId); [apply IH|].
  rewrite (enqueueSuccessors_depth st clock p p' es nodeId priority _ _ He Hr Hc Ht).
  destruct (enqueueSuccessors _ _ _ _ _ _ _ _ _ _) as [queue2 calls2]. apply IH.
Qed.

End TraversalDepth.

(** X30. [traverseMemory] visits each node once. For an unknown character,
    and for a character without an emotional state, the result is empty.
    Otherwise the loop of [weightedMemoryTraversal] ends, within as many
    rounds as the graph has edges and two more, whatever the clock says; the
    ids returned are pairwise distinct and at most [maxNodes] (none when
    [maxNodes] is not positive); the first one is the start node, the anchor
    of the character by default, whether or not the store knows it; and every
    later id is entered from an id returned before it, along an edge of the
    graph that is not a contradiction heavier than the tolerance of the
    configuration. The [maxDepth] of the preferences, the only place where
    [Math.random()] is drawn, has no effect on the result. *)
Theorem traverseMemory_visits_each_node_once
    (r : Q) (clock : nat -> Z) (k : CharacterKernel.Kernel)
    (characterId : string) (startNodeId : option string) (maxNodes : Z) :
  let result := CharacterKernel.traverseMemory r clock k characterId startNodeId maxNodes in
  match CharacterKernel.getCharacter k characterId,
        CharacterKernel.getEmotionalState k characterId with
  | Some character, Some _ =>
      let startId :=
        match startNodeId with
        | Some i => i
        | None => CharacterKernel.memoryAnchor character
        end in
      exists l,
        result = Some l /\
        List.NoDup l /\
        (Z.of_nat (length l) <= Z.max 0 maxNodes)%Z /\
        (0 < maxNodes -> exists rest, l = startId :: rest)%Z /\
        CharacterKernel.chained (CharacterKernel.memoryGraph k)
          (CharacterKernel.getMemoryTraversalPreference r k characterId) startId l /\
        forall r',
          CharacterKernel.traverseMemory r' clock k characterId startNodeId maxNodes = Some l
  | _, _ => result = Some []
  end.
Proof.
  intros result. unfold result, CharacterKernel.traverseMemory.
  destruct (CharacterKernel.getCharacter k characterId) as [character|] eqn:Hc; [|reflexivity].
  destruct (CharacterKernel.getEmotionalState k characterId) as [es|]; [|reflexivity].
  cbv zeta. unfold CharacterKernel.weightedMemoryTraversal.
  set (startId := match startNodeId with
                  | Some i => i
                  | None => CharacterKernel.memoryAnchor character
                  end).
  destruct (@traversal_ends (CharacterKernel.memoryGraph k) clock
              (CharacterKernel.getMemoryTraversalPreference r k characterId) es startId maxNodes
              (2 + length (Graphlib.g_edges
                             (MemoryGraphStore.graph (CharacterKernel.memoryGraph k))))
              [(startId, 1.0)] [] 0%nat)
    as (l & Hl & Hnd & Hch & Hlen & Hhead).
  - constructor.
  - intros pre w post Heq. destruct pre; discriminate Heq.
  - left. split; reflexivity.
  - cbn [length]. lia.
  - cbn [length]. pose proof (List.filter_length_le
      (fun e : string * string * MemoryEdge => negb (Js.setHas [] (fst (fst e))))
      (Graphlib.g_edges (MemoryGraphStore.graph (CharacterKernel.memoryGraph k)))). lia.
  - exists l. split; [exact Hl|]. split; [exact Hnd|]. split; [exact Hlen|].
    split; [exact Hhead|]. split; [exact Hch|].
    intros r'. rewrite <- Hl. apply traversal_depth;
      unfold CharacterKernel.getMemoryTraversalPreference; rewrite Hc; reflexivity.
Qed.
